(* ===== verification/_CoqProject ===== *)
-Q . S2P
Prelude.v
Print.v
CString.v
Shell.v
Tstack.v
Que.v
Arena.v
Config.v
Json.v
TgEvent.v
TgSpec.v
TgMem.v
TgPrint.v
TgLoad.v
TgTyped.v
Gwthread.v
Gwbot.v
EventHandler.v
Server.v
ServerInv.v
ServerInit.v
Logger.v
ServerClient.v
ServerLoop.v
ServerStop.v
Worker.v
System.v
TgApi.v
TgApiSpec.v
TgApiRead.v
Hexdump.v
TgRequests.v
ModCommon.v
Admin.v
AdminRead.v
AdminPriv.v
AdminSpec.v
AdminAnswer.v
AdminReport.v
Translate.v
TranslateSpec.v
TranslateServe.v
Modules.v
Bot.v
