(* ===== verification/Prelude.v ===== *)
(** * GNUWeebBot: a verification development

    The program is a Telegram bot written in C (src/gwbot).  It listens on a
    TCP socket; every connection carries one frame, a length and the JSON text
    of a Telegram update.  The main thread (core/server.c) receives frames on an
    epoll loop and hands each packet to a worker thread, or to a queue when all
    are busy.  A worker parses the packet to an event (lib/tg_event.c and the
    headers of include/gwbot/lib/tg_event) and offers it to the modules of a
    table (core/event_handler.c), which answer through the Telegram API.

    ** How the code is modelled

    The definitions are shallow translations.  Stateful code is a function of
    the monad [M S A] of this file: it takes a state and returns a value, an
    early [return] of a code ([Exit]), or a [Fault]: a failed assertion, a
    [panic], or an access that C leaves undefined (outside an object, through
    NULL, to freed memory).  Memory is explicit where it matters: a buffer is
    the list of its bytes, a heap of blocks or nodes is a finite map from
    addresses.  Machine integers are [Z] with their wrap-around written out.
    What the kernel, the allocator and pthread answer is an argument of the
    operation that asks, so that every error path is covered.  The JSON library
    (json-c) is the class [JsonLib] of Json.v: its tokener is a parameter, its
    accessors are defined as documented.  The INI library is the list of lines
    it reports; getopt_long is the list of options it returns.

    ** The files

    - Prelude.v: integers, errno, bytes, faults and the monad, record update,
      blocks of memory, numbers in C strings, and the tactics and hints of the
      development.
    - Print.v: print.c and include/gwbot/print.h: the lock of the output, and
      that the lines of several threads stay whole.
    - CString.v: lib/string.c and include/gwbot/lib/string.h.  Modules Escape,
      Url, Html, Trim and Bounded: what the functions write, that a reader of
      the format gets the input back, and the exact conditions under which
      they leave their buffers.
    - Shell.v: lib/shell.c: the buffer shell_exec fills, the stream it closes.
    - Tstack.v: include/gwbot/lib/tstack.h, the stacks of free slots and idle
      workers; refinement of a bounded list.
    - Que.v: include/gwbot/lib/que.h, the queue of packets as linked nodes in a
      heap; refinement of a bounded FIFO, with ownership of the nodes.
    - Arena.v: lib/arena.c; strings in the arena stay what they are.
    - Config.v: config.c, argv.c and the start of main.c; the last value of a
      setting wins.
    - Json.v: JSON values and the accessors of json-c the program uses.
    - TgEvent.v: include/gwbot/lib/tg_event.h, its sub-headers and
      lib/tg_event.c: the event structures, the parsers (one per function of
      the code), the loader, the destructor, the accessors, and the layout of
      the union that tge_get_reply_to depends on.
    - TgSpec.v: what each parser means, as a function from JSON to a
      description, and that the parsers implement it.
    - TgMem.v: descriptions of events as trees, and how a tree lies in the heap
      ([rep]); parsing builds the tree, destroying frees it.
    - TgPrint.v: an encoder of descriptions to JSON, and the round trip.
    - TgLoad.v: loading and destroying as a whole: no leak, no double free,
      which code is returned, what the accessors return.
    - TgTyped.v: what is loaded has the types of the C structures, whatever the
      text holds.
    - Gwthread.v: include/gwbot/gwthread.h, the wrappers of mutexes and
      condition variables.
    - Gwbot.v: include/gwbot/gwbot.h, the shared state.  The last fields of
      [gwbot_state] are the kernel's: open descriptors, the epoll set, those
      shut down, the threads created.
    - EventHandler.v: core/event_handler.c and the module table.
    - Server.v: core/server.c, one definition per function of the main thread.
    - ServerInv.v: the invariant [srv_wf] of the state: the free slots, the
      online channels, the descriptor map and the epoll set agree; idle
      workers, held nodes and the queue own disjoint nodes.  Specifications of
      the submission of a packet.
    - ServerInit.v: init_state establishes the invariant, run_acceptor keeps it.
    - Logger.v: core/event_logger.c and init_logger_thread as two threads that
      interleave: the handshake ends, as Server.v says in one step, unless a
      signal comes in between; the logger leaves before the state is freed.
    - ServerClient.v: handle_client_event: the verdict on the bytes received so
      far, and what becomes of a frame in any pieces.
    - ServerLoop.v: batches of events, the dispatch of queued packets, the
      monitor of slow clients, and the loop.
    - ServerStop.v: the shutdown, and [gwbot_run] from start to end.
    - Worker.v: handle_thread, cut into the steps between the points where it
      takes, releases or waits on its lock; the system of the main thread and
      the workers, its steps, and the invariant [sys_wf] under the workers.
    - System.v: the steps of the main thread in that system; under every
      interleaving a step succeeds, or a client sent a frame that is too long
      for the buffer, or the lock of a worker that leaves asserts; no packet is
      made or forgotten, a worker with an event serves it, and how a worker and
      a packet can be lost.
    - TgApi.v: lib/tg_api.c, include/gwbot/lib/tg_api.h and lib/tg_api/, the
      client of the Telegram API: the requests as bytes in the buffers of the
      code, the answer in its growing block.  libcurl and the allocator are the
      class [Net], a function of the requests sent so far.
    - TgApiSpec.v: decimal numbers and forms and how they are read back; a
      request and its answer in [tg_api_post], for every outcome.
    - TgApiRead.v: readers of the bodies of requests: numbers in a form, and the
      JSON of a restriction.
    - Hexdump.v: include/gwbot/vt_hexdump.h, and a reader of what it prints.
    - TgRequests.v: what each method sends, for all arguments, and the list of
      administrators.
    - ModCommon.v: white space, words and the replied-to event.
    - Admin.v: modules/003_admin/admin.c, whole.
    - AdminRead.v: which texts are commands: a lookup of the first word.
    - AdminPriv.v: a predicate over the requests that a computation sends, with
      its rules; only administrators reach the commands of administrators.
    - AdminSpec.v: the request each command sends.
    - AdminAnswer.v: the answers of the commands: the escaped link to the member
      and what was done and why, or what the API says, in the array of the code;
      reasons that are too long, and the one that leaves the array.
    - AdminReport.v: the list of administrators a report answers with, and the
      lists that leave its array.
    - Translate.v: modules/002_translate/translate.c; TranslateSpec.v: the form
      it sends, as a function of the words of the command; TranslateServe.v:
      the transfer in its fixed array and the message that is sent back.
    - Modules.v: the debug and standard modules and the table; from the text of
      an update to the requests, through the loader, the dispatch and the
      modules.
    - Bot.v: the server and the modules together, from the pieces of a frame on
      a connection to the requests that leave.

    ** Bounds and fuel

    The loops of the code over an array or a string are structural.  The
    others have a measure: the queue's destructor runs its length plus one
    turns; wait_for_threads at most 300001 polls; the destructor of events the
    depth of the chain of replies, which the heap bounds; parse_message_json_obj
    the depth of the JSON value ([json_depth]).  The tokener may ask to continue
    any number of times, so its rounds are the argument [n] of the loader; a
    theorem about loading assumes that it answers within [n] rounds.  The event
    loop runs on the list of turns it is given, each with what the kernel does
    in it.  The requests of a theorem about the modules are those after any log
    of earlier requests, since the answers may depend on it.

    ** Not modelled

    The vendored libraries under ext/.  gwbot.c and lib/tg_api.old.c are not
    built.  What other components print is not part of their state.
    Outside Logger.v and Print.v the locks are not part of the state: an
    operation of the main thread (the handling of an event, a dispatch, a
    monitor run) is one step, and a worker steps between two points where it
    takes, releases, waits on or destroys its lock, so that races inside such a
    step are not seen.  That a lock is destroyed while its worker leaves is: it
    is read off the position of the worker ([lock_destroyed] of Worker.v). *)
From stdpp Require Export base list gmap strings.
From Stdlib Require Export ZArith Lia.
From Stdlib Require Export Strings.Byte.


(** * Machine integers

    The source is compiled for an LP64 target.  An unsigned integer of the
    source is a [Z] of its range, and every operation that may leave the range
    is followed by the wrap-around of its width. *)
Open Scope Z_scope.

Definition u16 (z : Z) : Z := z mod 2 ^ 16.
Definition u32 (z : Z) : Z := z mod 2 ^ 32.
Definition u64 (z : Z) : Z := z mod 2 ^ 64.

(** Two's complement conversion to a signed integer of [w] bits. *)
Definition sint (w z : Z) : Z :=
  let m := z mod 2 ^ w in if decide (m < 2 ^ (w - 1)) then m else m - 2 ^ w.

(** * Error numbers (Linux, asm-generic) *)
Definition EPERM : Z := 1.
Definition EINTR : Z := 4.
Definition E2BIG : Z := 7.
Definition EAGAIN : Z := 11.
Definition ENOMEM : Z := 12.
Definition EINVAL : Z := 22.
Definition EBADMSG : Z := 74.
Definition EOVERFLOW : Z := 75.
Definition ENETDOWN : Z := 100.
Definition EINPROGRESS : Z := 115.
Definition ECANCELED : Z := 125.

(** * Bytes *)
Notation byte := Byte.byte.

#[export] Instance byte_eq_dec : EqDecision byte := Byte.byte_eq_dec.

(** The value of an [unsigned char], and the byte of a value. *)
Definition bz (b : byte) : Z := Z.of_N (Byte.to_N b).
Definition zb (z : Z) : byte := default Byte.x00 (Byte.of_N (Z.to_N (z mod 256))).

(** The bytes of a string literal of the source. *)
Definition bs (s : string) : list byte := String.list_byte_of_string s.

Lemma bz_range b : 0 <= bz b < 256.
Proof.
  unfold bz. pose proof (Byte.to_N_bounded b). lia.
Qed.

Lemma zb_bz b : zb (bz b) = b.
Proof. destruct b; reflexivity. Qed.

Lemma bz_inj b1 b2 : bz b1 = bz b2 -> b1 = b2.
Proof. intros H. rewrite <- (zb_bz b1), <- (zb_bz b2). by f_equal. Qed.

Lemma bz_zb z : 0 <= z < 256 -> bz (zb z) = z.
Proof.
  intros Hz. unfold zb. rewrite Z.mod_small by lia.
  destruct (Byte.of_N (Z.to_N z)) eqn:E.
  - apply Byte.to_of_N in E. unfold bz. simpl. rewrite E. lia.
  - apply Byte.of_N_None_iff in E. lia.
Qed.

(** * Faults and effects

    A C function that the model runs ends in one of three ways: with a value,
    with an early [return] of an [int] code, or in a fault, which is anything
    the program cannot recover from: a failed assertion, [abort], or behaviour
    the C language leaves undefined. *)
Inductive fault : Type :=
| FAssert      (** a failed [assert] or [TASSERT] *)
| FAbort       (** [panic] followed by [abort], or [exit(1)] *)
| FNull        (** a dereference of a NULL pointer *)
| FWild        (** a dereference of a pointer that points to no object *)
| FBounds      (** an access outside an object *)
| FFree        (** a [free] of a block that is not live *)
| FFuel.       (** the model ran out of fuel: call depth, or rounds of a loop *)

Inductive out (A : Type) : Type :=
| Val (a : A)
| Exit (code : Z)
| Fault (f : fault).
Arguments Val {A} a.
Arguments Exit {A} code.
Arguments Fault {A} f.

#[export] Instance out_ret : MRet out := fun A a => Val a.
#[export] Instance out_bind : MBind out := fun A B f o =>
  match o with Val a => f a | Exit c => Exit c | Fault x => Fault x end.

(** A computation over a mutable state [S]. *)
Definition M (S A : Type) : Type := S -> out A * S.

#[export] Instance M_ret {S} : MRet (M S) := fun A a s => (Val a, s).
#[export] Instance M_bind {S} : MBind (M S) := fun A B f m s =>
  match m s with
  | (Val a, s') => f a s'
  | (Exit c, s') => (Exit c, s')
  | (Fault x, s') => (Fault x, s')
  end.

Definition get {S} : M S S := fun s => (Val s, s).
Definition put {S} (s' : S) : M S unit := fun _ => (Val tt, s').
Definition modify {S} (f : S -> S) : M S unit := fun s => (Val tt, f s).
Definition exit {S A} (c : Z) : M S A := fun s => (Exit c, s).
Definition faulty {S A} (x : fault) : M S A := fun s => (Fault x, s).

(** Runs a callee: its [return c] is the value [c], its normal end is [0]. *)
Definition call {S} (m : M S unit) : M S Z := fun s =>
  match m s with
  | (Val _, s') => (Val 0, s')
  | (Exit c, s') => (Val c, s')
  | (Fault x, s') => (Fault x, s')
  end.

(** Runs a callee and drops its result. *)
Definition ignore {S} (m : M S unit) : M S unit := fun s =>
  match m s with
  | (Fault x, s') => (Fault x, s')
  | (_, s') => (Val tt, s')
  end.

(** Runs a callee on a part of the state. *)
Definition zoom {S T A} (g : S -> T) (p : T -> S -> S) (m : M T A) : M S A := fun s =>
  let '(r, t) := m (g s) in (r, p t s).

(** * Record update

    [r <| f := v |>] is [r] with field [f] replaced.  A record declares an
    [Eta] instance, its own constructor applied to its own projections, and
    the update is computed from it by abstracting the projection. *)
Class Eta (R : Type) := eta_of : R -> R.
Class Upd {R T : Type} (f : R -> T) := upd_field : (T -> T) -> R -> R.

Ltac solve_upd :=
  match goal with
  | |- @Upd ?R ?T ?f =>
      let e := constr:(_ : Eta R) in
      let e := eval hnf in e in
      match (eval pattern f in e) with
      | ?g f => exact (fun (u : T -> T) (r : R) => g (fun x => u (f x)) r)
      end
  end.
#[export] Hint Extern 1 (Upd _) => solve_upd : typeclass_instances.

Declare Scope upd_scope.
Delimit Scope upd_scope with upd.
Notation "r <| f := v |>" := (upd_field (f := f) (fun _ => v) r)
  (at level 12, left associativity, f at next level, v at level 200) : upd_scope.
Open Scope upd_scope.


(** * Memory blocks

    A block of memory is the list of its bytes; a pointer into it is an index.
    Reading or writing outside it is the fault [FBounds]. *)
Definition peek {S} (blk : list byte) (i : Z) : M S byte :=
  if decide (0 <= i) then
    match blk !! Z.to_nat i with Some b => mret b | None => faulty FBounds end
  else faulty FBounds.

Definition poke (i : Z) (b : byte) : M (list byte) unit := fun blk =>
  if decide (0 <= i < Z.of_nat (length blk))
  then (Val tt, <[Z.to_nat i := b]> blk)
  else (Fault FBounds, blk).

(** [memcpy] of the bytes [l] to index [i]. *)
Fixpoint pokes (i : Z) (l : list byte) : M (list byte) unit :=
  match l with
  | [] => mret tt
  | b :: l' => poke i b;; pokes (i + 1) l'
  end.

(** [strnlen], on the bytes of an object from a pointer on: [None] when the
    scan leaves the object before it finds the terminator or [n] bytes. *)
Fixpoint strnlen (l : list byte) (n : nat) : option nat :=
  match n, l with
  | O, _ => Some O
  | S _, [] => None
  | S n', b :: l' => if decide (b = Byte.x00) then Some O else S <$> strnlen l' n'
  end.

Fixpoint strlen (l : list byte) : option nat :=
  match l with
  | [] => None
  | b :: l' => if decide (b = Byte.x00) then Some O else S <$> strlen l'
  end.

(** The characters of the C string at the start of a block. *)
Fixpoint c_str (l : list byte) : list byte :=
  match l with
  | [] => []
  | b :: l' => if decide (b = Byte.x00) then [] else b :: c_str l'
  end.

(** A C string as an object: its characters and the terminator. *)
Definition asz (s : list byte) : list byte := s ++ [Byte.x00].

Lemma length_asz s : length (asz s) = S (length s).
Proof. unfold asz. rewrite length_app. simpl. lia. Qed.

(** Characters only: no terminator inside. *)
Definition no_nul (s : list byte) : Prop := Forall (fun b => b <> Byte.x00) s.

(** Lifts a partial read to a computation. *)
Definition lift {S A} (x : fault) (o : option A) : M S A :=
  match o with Some a => mret a | None => faulty x end.

(** * Numbers in C strings (glibc, base 10)

    [strtoll] saturates at the bounds of its type; [atoi] is [strtol] cut to
    [int]; [strtoull] negates in the unsigned type after a minus sign. *)
Definition is_space (c : byte) : bool :=
  let n := bz c in (n =? 32) || ((9 <=? n) && (n <=? 13)).

Fixpoint skip_space (s : list byte) : list byte :=
  match s with
  | [] => []
  | c :: s' => if is_space c then skip_space s' else s
  end.

Fixpoint digits (s : list byte) (acc : Z) : Z :=
  match s with
  | [] => acc
  | c :: s' =>
      let n := bz c in
      if (48 <=? n) && (n <=? 57) then digits s' (acc * 10 + (n - 48)) else acc
  end.

Definition sign (s : list byte) : bool * list byte :=
  match s with
  | c :: s' =>
      if decide (c = "-"%byte) then (true, s')
      else if decide (c = "+"%byte) then (false, s') else (false, s)
  | [] => (false, s)
  end.

(** Whether the number has a digit, that is [endptr] is not [nptr]. *)
Definition has_digits (s : list byte) : bool :=
  match snd (sign (skip_space s)) with
  | c :: _ => (48 <=? bz c) && (bz c <=? 57)
  | [] => false
  end.

Definition strtol (s : list byte) : Z :=
  let '(neg, s) := sign (skip_space s) in
  let v := digits s 0 in
  Z.max (- 2 ^ 63) (Z.min (2 ^ 63 - 1) (if neg then - v else v)).

Definition strtoull (s : list byte) : Z :=
  let '(neg, s) := sign (skip_space s) in
  let v := digits s 0 in
  if decide (2 ^ 64 <= v) then 2 ^ 64 - 1 else u64 (if neg then - v else v).

Definition atoi (s : list byte) : Z := sint 32 (strtol s).

(** ** Facts on blocks *)
Lemma poke_mid l r b b' :
  poke (Z.of_nat (length l)) b (l ++ b' :: r) = (Val tt, l ++ b :: r).
Proof.
  unfold poke. rewrite decide_True by (rewrite length_app; simpl; lia).
  rewrite Nat2Z.id, insert_app_r_alt by lia. by rewrite Nat.sub_diag.
Qed.

Lemma poke_app l r i b :
  i = Z.of_nat (length l) -> (0 < length r)%nat ->
  poke i b (l ++ r) = (Val tt, l ++ b :: drop 1 r).
Proof. intros -> Hr. destruct r as [|b' r]; simpl in *; [lia|]. apply poke_mid. Qed.

Lemma pokes_app l r i new :
  i = Z.of_nat (length l) -> (length new <= length r)%nat ->
  pokes i new (l ++ r) = (Val tt, l ++ new ++ drop (length new) r).
Proof.
  revert l r i. induction new as [|b new IH]; intros l r i -> Hr; simpl.
  - by rewrite drop_0.
  - unfold mbind, M_bind. simpl in Hr.
    rewrite poke_app by lia.
    replace (l ++ b :: drop 1 r) with ((l ++ [b]) ++ drop 1 r)
      by (by rewrite <- app_assoc).
    rewrite IH.
    + by rewrite <- app_assoc, drop_drop.
    + rewrite length_app. simpl. lia.
    + rewrite length_drop. lia.
Qed.

Lemma poke_oob i b blk :
  ~ (0 <= i < Z.of_nat (length blk)) -> poke i b blk = (Fault FBounds, blk).
Proof. intros H. unfold poke. by rewrite decide_False. Qed.

Lemma strlen_asz s r : no_nul s -> strlen (s ++ Byte.x00 :: r) = Some (length s).
Proof. induction 1; simpl; [done|]. rewrite decide_False by done. by rewrite IHForall. Qed.

Lemma c_str_asz s r : no_nul s -> c_str (s ++ Byte.x00 :: r) = s.
Proof. induction 1; simpl; [done|]. rewrite decide_False by done. by rewrite IHForall. Qed.

Lemma strlen_app_nul s r : exists n, strlen (s ++ Byte.x00 :: r) = Some n /\ take n (s ++ Byte.x00 :: r) = c_str s.
Proof.
  induction s as [|c s IH]; [by exists 0%nat|]. cbn [app strlen c_str]. case_decide; [by exists 0%nat|].
  destruct IH as (n & Hn & Ht). exists (S n). rewrite Hn. split; [done|]. cbn [take]. by rewrite Ht.
Qed.

Lemma strnlen_asz s r n :
  no_nul s -> strnlen (s ++ Byte.x00 :: r) n = Some (Nat.min n (length s)).
Proof.
  intros Hs. revert n. induction Hs as [|b s Hb Hs IH]; intros [|n]; simpl; try done.
  rewrite decide_False by done. by rewrite IH.
Qed.

Lemma strnlen_le l n k : strnlen l n = Some k -> (k <= n)%nat.
Proof.
  revert n k. induction l as [|b l IH]; intros [|n] k; simpl; try (intros; simplify_eq; lia).
  case_decide; [intros; simplify_eq; lia|].
  destruct (strnlen l n) eqn:E; simpl; intros; simplify_eq. apply IH in E. lia.
Qed.

Lemma c_str_app s r : c_str (s ++ Byte.x00 :: r) = c_str s.
Proof. induction s as [|b s IH]; simpl; [done|]. case_decide; [done|]. by rewrite IH. Qed.

Lemma c_str_no_nul s : no_nul (c_str s).
Proof. induction s; simpl; [constructor|]. case_decide; constructor; done. Qed.

(** ** Proof automation

    [mrun] runs the monadic binds of a goal one step; [wrap_small] removes the
    wrap-arounds of values in range. *)
Ltac mrun := cbn [mbind mret M_bind M_ret exit faulty modify get put call zoom ignore].
Ltac munfold :=
  unfold mbind, M_bind, mret, M_ret, exit, faulty, modify, get, put, call, zoom, ignore;
  cbv beta iota.
Ltac munfold_in H :=
  unfold mbind, M_bind, mret, M_ret, exit, faulty, modify, get, put, call, zoom in H;
  cbv beta iota in H.

(** Follows a computation through one bind, by cases on the innermost result. *)
Ltac mstep :=
  match goal with
  | |- context [match ?m with (_, _) => _ end] =>
      lazymatch m with
      | context [match _ with _ => _ end] => fail
      | (_, _) => fail
      | _ => destruct m as [[?a|?c|?f] ?s]
      end
  end; cbv beta iota.

Lemma pokes_snoc i l1 l2 blk :
  pokes i (l1 ++ l2) blk = (pokes i l1;; pokes (i + Z.of_nat (length l1)) l2) blk.
Proof.
  revert i blk. induction l1 as [|b l1 IH]; intros i blk.
  { mrun. simpl. by rewrite Z.add_0_r. }
  cbn [pokes app length]. munfold. mstep; try done.
    rewrite IH. munfold. replace (i + Z.of_nat (S (length l1))) with (i + 1 + Z.of_nat (length l1)) by lia. done.
Qed.

(** A copy that does not fit faults. *)
Lemma pokes_oob i l blk :
  0 <= i -> Z.of_nat (length blk) < i + Z.of_nat (length l) -> l <> [] ->
  fst (pokes i l blk) = Fault FBounds.
Proof.
  revert i blk. induction l as [|b l IH]; intros i blk Hi Hlt Hne; [done|].
  cbn [pokes length] in *. munfold. unfold poke at 1. case_decide; [|done].
  destruct l as [|b' l]; [simpl in *; lia|].
  apply IH; rewrite ?length_insert; simpl in *; try done; lia.
Qed.

Lemma u64_small z : 0 <= z < 2 ^ 64 -> u64 z = z.
Proof. apply Z.mod_small. Qed.
Lemma u32_small z : 0 <= z < 2 ^ 32 -> u32 z = z.
Proof. apply Z.mod_small. Qed.
Lemma u16_small z : 0 <= z < 2 ^ 16 -> u16 z = z.
Proof. apply Z.mod_small. Qed.

(** ** One bind, by the result of its first computation *)
Lemma bind_val {S A B} (m : M S A) (k : A -> M S B) s a s' :
  m s = (Val a, s') -> (x ← m; k x) s = k a s'.
Proof. unfold mbind, M_bind. by intros ->. Qed.

Lemma bind_exit {S A B} (m : M S A) (k : A -> M S B) s c s' :
  m s = (Exit c, s') -> (x ← m; k x) s = (Exit c, s').
Proof. unfold mbind, M_bind. by intros ->. Qed.

Lemma bind_fault {S A B} (m : M S A) (k : A -> M S B) s f s' :
  m s = (Fault f, s') -> (x ← m; k x) s = (Fault f, s').
Proof. unfold mbind, M_bind. by intros ->. Qed.

(** [implements m s o]: from [s] the computation ends as [o] says, and a
    normal end leaves the state [o] gives. *)
Definition implements {S} (m : M S unit) (s : S) (o : out S) : Prop :=
  match o with
  | Val s' => m s = (Val tt, s')
  | Exit c => exists s', m s = (Exit c, s')
  | Fault x => exists s', m s = (Fault x, s')
  end.

Create HintDb gw.
Create Rewrite HintDb gwr.
#[export] Hint Rewrite u64_small u32_small u16_small using lia : gwr.
#[export] Hint Resolve c_str_no_nul bz_range : gw.
