(* ===== verification/Print.v ===== *)
(** * Printing: print.c and include/gwbot/print.h

    The lock of the output and its bounded spinning, the time in front of a
    message, the level of a notice, and the lines of several threads. *)
From S2P Require Import Prelude.

(** ** The lock *)

(** [tries k]: what the [k]-th call of pthread_mutex_trylock returns.  The
    value: how often it was called, and whether the thread then sleeps in
    pthread_mutex_lock. *)
Fixpoint pthread_mutex_busy_lock (fuel : nat) (tries : nat -> Z) (k : nat) (try_num : Z) : option (nat * bool) :=
  match fuel with
  | O => None
  | S fuel =>
      if decide (tries k = 0) then Some (S k, false)
      else if decide (try_num > 0) then pthread_mutex_busy_lock fuel tries (S k) (try_num - 1)
      else Some (S k, true)
  end.

(** ** The time *)

(** [time_chr]: the C string asctime returns, or NULL; the state is [buf]. *)
Definition get_time (time_chr : option (list byte)) : M (list byte) unit :=
  s ← lift FNull time_chr;
  n ← lift FBounds (strnlen (asz s) 32);
  let len := u64 (Z.of_nat n - 1) in
  (if decide (Z.of_nat (length (asz s)) < len) then faulty FBounds else pokes 0 (take (Z.to_nat len) (asz s)));;
  poke len Byte.x00.

(** ** Levels *)

(** [____exec] of prl_notice. *)
Definition prl_exec (always : bool) (max_level notice_level lvl : Z) : bool :=
  always || ((lvl <=? max_level) && ((lvl <? notice_level) || (lvl =? notice_level))).

Definition gwbot_print_version (version : list byte) : list byte := bs "GNUWeebBot " ++ version ++ [Byte.x0a].

(** ** Messages *)
Inductive severity := Notice | Error | Emerg.

Record message := Message { m_sev : severity; m_time : list byte; m_text : list byte }.

(** The first printf. *)
Definition pr_head (m : message) : list byte :=
  bs "[" ++ m_time m ++ match m_sev m with Notice => bs "] " | Error => bs "] Error: " | Emerg => bs "] Emergency: " end.

(** __pr_notice, __pr_error and __pr_emerg: where a thread is in one of them,
    [PrLock] in front of its lock. *)
Inductive pr_pc := PrIdle | PrLock (m : message) | PrHead (m : message) | PrText (m : message) | PrEnd (m : message) | PrUnlock.

(** [pr_done]: the messages whose last character is written. *)
Record prs := Prs { pr_pcs : list pr_pc; pr_holder : option nat; pr_out : list byte; pr_done : list message }.
#[export] Instance eta_prs : Eta prs := fun r => Prs (pr_pcs r) (pr_holder r) (pr_out r) (pr_done r).

Definition pr_goto (i : nat) (pc : pr_pc) (s : prs) : prs := s <| pr_pcs := <[i := pc]> (pr_pcs s) |>.
Definition pr_write (l : list byte) (s : prs) : prs := s <| pr_out := pr_out s ++ l |>.

(** The next step of thread [i]; [None]: it waits, or has nothing to print. *)
Definition pr_step (i : nat) (s : prs) : option prs :=
  pc ← pr_pcs s !! i;
  match pc with
  | PrIdle => None
  | PrLock m => match pr_holder s with None => Some (pr_goto i (PrHead m) (s <| pr_holder := Some i |>)) | Some _ => None end
  | PrHead m => Some (pr_goto i (PrText m) (pr_write (pr_head m) s))
  | PrText m => Some (pr_goto i (PrEnd m) (pr_write (m_text m) s))
  | PrEnd m => Some (pr_goto i PrUnlock (pr_write [Byte.x0a] s <| pr_done := pr_done s ++ [m] |>))
  | PrUnlock => Some (pr_goto i PrIdle (s <| pr_holder := None |>))
  end.

(** A thread calls one of the functions. *)
Definition pr_call (i : nat) (m : message) (s : prs) : option prs :=
  pc ← pr_pcs s !! i;
  match pc with PrIdle => Some (pr_goto i (PrLock m) s) | _ => None end.

Definition pr_start (n : nat) : prs := Prs (replicate n PrIdle) None [] [].

Inductive pr_reach (n : nat) : prs -> Prop :=
| pr_reach_start : pr_reach n (pr_start n)
| pr_reach_step s i s' : pr_reach n s -> pr_step i s = Some s' -> pr_reach n s'
| pr_reach_call s i m s' : pr_reach n s -> pr_call i m s = Some s' -> pr_reach n s'.

(** ** Properties of the lock, the time and the levels *)
Lemma busy_lock_steps fuel tries k try_num :
  (Z.to_nat try_num < fuel)%nat ->
  exists n b, pthread_mutex_busy_lock fuel tries k try_num = Some (n, b) /\ (k < n <= k + Z.to_nat try_num + 1)%nat /\
    (b = false -> tries (n - 1)%nat = 0) /\ (forall j, (k <= j < n - 1)%nat -> tries j <> 0) /\
    (b = true -> n = (k + Z.to_nat try_num + 1)%nat /\ tries (n - 1)%nat <> 0).
Proof.
  revert k try_num. induction fuel as [|fuel IH]; intros k try_num Hf; [lia|]. cbn [pthread_mutex_busy_lock].
  case_decide as Hk; [|case_decide as Ht].
  - exists (S k), false. rewrite Nat.sub_1_r. cbn [Nat.pred]. split; [done|]. split; [lia|]. split; [done|]. split; [lia|done].
  - destruct (IH (S k) (try_num - 1)) as (n & b & -> & Hn & Hb & Hj & Hs); [lia|]. exists n, b. split; [done|]. split; [lia|].
    split; [done|]. split; [|intros Hbt; destruct (Hs Hbt); split; [lia|done]].
    intros j Hj'. destruct (decide (j = k)) as [->|]; [done|]. apply Hj. lia.
  - exists (S k), true. rewrite Nat.sub_1_r. cbn [Nat.pred]. split; [done|]. split; [lia|]. split; [done|]. split; [lia|].
    intros _. split; [lia|done].
Qed.

(** A thread calls pthread_mutex_trylock 5001 times at most, stops at the first
    call that succeeds, and sleeps only when all of them failed. *)
Theorem busy_lock_bounded tries :
  exists n b, pthread_mutex_busy_lock (Z.to_nat 5001) tries 0 5000 = Some (n, b) /\ (1 <= n <= Z.to_nat 5001)%nat /\
    (forall j, (j < n - 1)%nat -> tries j <> 0) /\
    (if b then n = Z.to_nat 5001 /\ tries (n - 1)%nat <> 0 else tries (n - 1)%nat = 0).
Proof.
  destruct (busy_lock_steps (Z.to_nat 5001) tries 0 5000) as (n & b & Hrun & Hn & Hb & Hj & Hs); [lia|].
  exists n, b. split; [done|]. split; [lia|]. split; [intros; apply Hj; lia|]. destruct b; [|by apply Hb].
  destruct (Hs eq_refl) as [-> ?]. split; [lia|done].
Qed.

(** asctime ends its text with a newline, which is cut off; a text of 31
    characters in front of it still fits. *)
Theorem get_time_copies t buf :
  no_nul t -> (length t <= 31)%nat -> length buf = 32%nat ->
  exists rest, get_time (Some (t ++ [Byte.x0a])) buf = (Val tt, t ++ Byte.x00 :: rest).
Proof.
  intros Ht Hl Hb. unfold get_time. erewrite bind_val by reflexivity.
  assert (Hn : no_nul (t ++ [Byte.x0a])) by (apply Forall_app; split; [done|by apply (bool_decide_unpack _)]).
  pose proof (strnlen_asz (t ++ [Byte.x0a]) [] 32 Hn) as Hlen. fold (asz (t ++ [Byte.x0a])) in Hlen. rewrite Hlen.
  rewrite length_app. cbn [length]. rewrite Nat.min_r by lia.
  erewrite bind_val by reflexivity. cbv zeta. rewrite u64_small by lia.
  replace (Z.of_nat (length t + 1) - 1) with (Z.of_nat (length t)) by lia.
  rewrite decide_False by (rewrite length_asz, length_app; cbn [length]; lia). rewrite Nat2Z.id.
  unfold asz at 1. rewrite <- app_assoc, take_app_length.
  pose proof (pokes_app [] buf 0 t eq_refl) as Hp. rewrite !app_nil_l in Hp.
  erewrite bind_val by (apply Hp; lia). exists (drop 1 (drop (length t) buf)).
  apply poke_app; [done|rewrite length_drop; lia].
Qed.

(** An empty text makes the length wrap around. *)
Lemma get_time_empty buf : fst (get_time (Some []) buf) = Fault FBounds.
Proof. reflexivity. Qed.

Lemma prl_exec_iff always max_level notice_level lvl :
  prl_exec always max_level notice_level lvl = true <-> always = true \/ lvl <= max_level /\ lvl <= notice_level.
Proof. unfold prl_exec. destruct always; simpl; [naive_solver|]. rewrite andb_true_iff, orb_true_iff. lia. Qed.

(** ** Whole lines *)
Definition line_of (m : message) : list byte := pr_head m ++ m_text m ++ [Byte.x0a].

Arguments pr_head : simpl never.
Arguments line_of : simpl never.

(** What the thread that holds the lock has written of its line. *)
Definition unfinished (pc : pr_pc) : list byte :=
  match pc with PrText m => pr_head m | PrEnd m => pr_head m ++ m_text m | _ => [] end.

Definition inside (pc : pr_pc) : bool := match pc with PrHead _ | PrText _ | PrEnd _ | PrUnlock => true | _ => false end.

Record prs_wf (s : prs) : Prop := {
  pw_holder : forall i pc, pr_pcs s !! i = Some pc -> (inside pc = true <-> pr_holder s = Some i);
  pw_live : forall i, pr_holder s = Some i -> exists pc, pr_pcs s !! i = Some pc;
  pw_out : pr_out s = concat (line_of <$> pr_done s) ++
    match pr_holder s ≫= (fun i => pr_pcs s !! i) with Some pc => unfinished pc | None => [] end;
}.

Lemma prs_wf_goto i pc0 pc o out dn s :
  prs_wf s -> pr_pcs s !! i = Some pc0 ->
  (inside pc = true <-> o = Some i) -> (forall j, j <> i -> o = Some j <-> pr_holder s = Some j) ->
  out = concat (line_of <$> dn) ++ (if decide (o = Some i) then unfinished pc else
    match o ≫= (fun i => pr_pcs s !! i) with Some pc => unfinished pc | None => [] end) ->
  prs_wf (Prs (<[i := pc]> (pr_pcs s)) o out dn).
Proof.
  intros [Hh Hl Ho] Hi Hin Hoth Hout. assert (Hlt : (i < length (pr_pcs s))%nat) by (by eapply lookup_lt_Some). split; cbn.
  - intros j pcj Hj. destruct (decide (j = i)) as [->|Hne].
    + rewrite list_lookup_insert_eq in Hj by done. by injection Hj as <-.
    + rewrite list_lookup_insert_ne in Hj by done. rewrite (Hoth j Hne). by apply Hh.
  - intros j Hj. destruct (decide (j = i)) as [->|Hne]; [exists pc; by apply list_lookup_insert_eq|].
    rewrite list_lookup_insert_ne by done. apply Hl. by apply Hoth.
  - rewrite Hout. f_equal. case_decide as Hd; [subst o; cbn; by rewrite list_lookup_insert_eq|].
    destruct o as [j|]; cbn; [|done]. by rewrite list_lookup_insert_ne by congruence.
Qed.

Lemma pr_step_wf i s s' : prs_wf s -> pr_step i s = Some s' -> prs_wf s'.
Proof.
  intros Hw Hs. unfold pr_step in Hs. destruct (pr_pcs s !! i) as [pc|] eqn:Hi; [|done]. cbn in Hs.
  pose proof Hw as [Hh _ Ho]. specialize (Hh i pc Hi).
  assert (Hhold : inside pc = true -> pr_holder s = Some i /\ pr_out s = concat (line_of <$> pr_done s) ++ unfinished pc).
  { intros Hin. apply Hh in Hin. split; [done|]. rewrite Ho, Hin. cbn. by rewrite Hi. }
  destruct pc as [|m|m|m|m|]; try done; [destruct (pr_holder s) eqn:Hn; [done|]|..]; apply (inj Some) in Hs as <-;
    try (destruct (Hhold eq_refl) as [Hme Hout]; cbn in Hout).
  - eapply (prs_wf_goto i (PrLock m) _ _ _ _ s); [done|done|done|intros j Hj; rewrite Hn; cbn; split; congruence|].
    cbn. rewrite decide_True by done. by rewrite Ho.
  - eapply (prs_wf_goto i (PrHead m) _ _ _ _ s); [done|done|cbn; by rewrite Hme|done|].
    cbn. rewrite decide_True by done. by rewrite Hout, app_nil_r.
  - eapply (prs_wf_goto i (PrText m) _ _ _ _ s); [done|done|cbn; by rewrite Hme|done|].
    cbn. rewrite decide_True by done. by rewrite Hout, <- app_assoc.
  - eapply (prs_wf_goto i (PrEnd m) _ _ _ _ s); [done|done|cbn; by rewrite Hme|done|].
    cbn. rewrite decide_True by done. rewrite Hout, fmap_app, concat_app. cbn. unfold line_of.
    by rewrite !app_nil_r, <- !app_assoc.
  - eapply (prs_wf_goto i PrUnlock _ _ _ _ s); [done|done|done|intros j Hj; rewrite Hme; cbn; split; congruence|].
    cbn. by rewrite Hout.
Qed.

Lemma pr_call_wf i m s s' : prs_wf s -> pr_call i m s = Some s' -> prs_wf s'.
Proof.
  intros Hw Hs. unfold pr_call in Hs. destruct (pr_pcs s !! i) as [pc|] eqn:Hi; [|done]. cbn in Hs.
  destruct pc; try done. apply (inj Some) in Hs as <-. pose proof Hw as [Hh _ Ho]. specialize (Hh i _ Hi). cbn in Hh.
  assert (Hne : pr_holder s <> Some i) by naive_solver.
  eapply (prs_wf_goto i PrIdle _ _ _ _ s); [done|done|cbn; naive_solver|done|]. by rewrite decide_False.
Qed.

(** In a well-formed state a thread that is not idle never leaves all stuck. *)
Lemma pr_progress s i pc :
  prs_wf s -> pr_pcs s !! i = Some pc -> pc <> PrIdle -> exists j s', pr_step j s = Some s'.
Proof.
  intros [Hh Hl _] Hi Hpc. destruct (pr_holder s) as [j|] eqn:Hn.
  - destruct (Hl j eq_refl) as [pcj Hj]. pose proof (proj2 (Hh j pcj Hj) eq_refl) as Hin.
    exists j. unfold pr_step. rewrite Hj. cbn. destruct pcj; try done; by eexists.
  - pose proof (Hh i pc Hi) as Hin. exists i. unfold pr_step. rewrite Hi. cbn. rewrite Hn.
    destruct pc; try done; try by eexists; naive_solver. all: by destruct (proj1 Hin eq_refl).
Qed.

Lemma pr_reach_wf n s : pr_reach n s -> prs_wf s.
Proof.
  induction 1 as [|s i s' _ IH Hs|s i m s' _ IH Hs]; [|by eapply pr_step_wf|by eapply pr_call_wf].
  split; cbn; [|done|done]. intros i pc Hi. apply lookup_replicate in Hi as [-> _]. done.
Qed.

(** C35: However the threads that print take their steps, the output is the lines
    of the messages, whole and one after the other, followed by the start of
    at most one line: that of the thread that holds the lock.  As long as a
    thread has something to print, some thread can take a step. *)
Theorem print_lines_whole n s :
  pr_reach n s ->
  match pr_holder s with
  | None => pr_out s = concat (line_of <$> pr_done s)
  | Some i => exists pc, pr_pcs s !! i = Some pc /\ pr_out s = concat (line_of <$> pr_done s) ++ unfinished pc
  end /\
  (forall i pc, pr_pcs s !! i = Some pc -> pc <> PrIdle -> exists j s', pr_step j s = Some s').
Proof.
  intros Hr%pr_reach_wf. split; [|intros; by eapply pr_progress]. destruct Hr as [_ Hl Ho].
  destruct (pr_holder s) as [i|]; [|by rewrite Ho, app_nil_r]. destruct (Hl i eq_refl) as [pc Hpc].
  exists pc. cbn in Ho. rewrite Hpc in Ho. done.
Qed.

(** *** Two threads *)
Definition example_notice : message := Message Notice (bs "t0") (bs "one").
Definition example_error : message := Message Error (bs "t1") (bs "two").

(** Both call, the first prints its line, the second is in the middle of its own. *)
Definition example_run : option prs :=
  s ← pr_call 0 example_notice (pr_start 2); s ← pr_call 1 example_error s;
  s ← pr_step 0 s; s ← pr_step 0 s; s ← pr_step 0 s; s ← pr_step 0 s; s ← pr_step 0 s;
  s ← pr_step 1 s; pr_step 1 s.

(** Where the run ends. *)
Definition example_end : prs :=
  Prs [PrIdle; PrText example_error] (Some 1%nat) (bs "[t0] one" ++ Byte.x0a :: bs "[t1] Error: ") [example_notice].

(** A run that does not stop keeps to the reachable states. *)
Lemma pr_reach_bind n s o (f : prs -> option prs) e :
  pr_reach n s -> (exists i, o = pr_step i s) \/ (exists i m, o = pr_call i m s) -> o ≫= f = Some e ->
  exists s', pr_reach n s' /\ f s' = Some e.
Proof.
  intros Hr Ho Hf. destruct o as [s'|]; [|done]. exists s'. split; [|done].
  destruct Ho as [[i Hi]|(i & m & Hi)]; [by eapply pr_reach_step|by eapply pr_reach_call].
Qed.

Lemma example_reached : pr_reach 2 example_end.
Proof.
  assert (H : example_run = Some example_end) by reflexivity. unfold example_run in H.
  pose proof (pr_reach_start 2) as Hr.
  repeat (eapply pr_reach_bind in H; [|exact Hr|by eauto]; clear Hr; destruct H as (? & Hr & H)).
  by eapply pr_reach_step.
Qed.

Lemma print_lines_whole_witness :
  (exists pc, pr_pcs example_end !! 1%nat = Some pc /\
     pr_out example_end = concat (line_of <$> pr_done example_end) ++ unfinished pc) /\
  exists j s', pr_step j example_end = Some s'.
Proof.
  pose proof (print_lines_whole 2 example_end example_reached) as [H1 H2].
  split; [exact H1|]. by apply (H2 1%nat (PrText example_error)).
Defined.
