(* ===== verification/CString.v ===== *)
(** * String helpers: src/gwbot/lib/string.c and include/gwbot/lib/string.h *)
From S2P Require Import Prelude.

(** An allocator that never fails, for the examples. *)
Definition malloc_ok (n : Z) : option (list byte) := Some (replicate (Z.to_nat n) Byte.x2e).

Lemma malloc_ok_total n :
  0 <= n -> exists blk, malloc_ok n = Some blk /\ Z.of_nat (length blk) = n.
Proof. intros Hn. eexists. split; [done|]. rewrite length_replicate. lia. Qed.

(** ** escapeshellarg (POSIX branch)

    The characters are read from [str], the object the argument points to, and
    written to the block the computation runs on. *)
Module Escape.

Fixpoint escape_loop (s : list byte) (y : Z) : M (list byte) Z :=
  match s with
  | [] => mret y
  | c :: s' =>
      if decide (c = "'"%byte) then
        poke y "'"%byte;; poke (y + 1) "\"%byte;; poke (y + 2) "'"%byte;;
        poke (y + 3) c;; escape_loop s' (y + 4)
      else poke y c;; escape_loop s' (y + 1)
  end.

(** The body after the choice of the buffer: the value is [*res_len]. *)
Definition escape_into (str : list byte) (l : nat) : M (list byte) Z :=
  if decide (length str < l)%nat then faulty FBounds
  else
    poke 0 "'"%byte;;
    y ← escape_loop (take l str) 1;
    poke y "'"%byte;;
    poke (y + 1) Byte.x00;;
    mret (y + 1).

(** [alloc] is the caller's buffer; without one the function allocates
    [l * 4 + 1] bytes, the "worst case" of the source. *)
Definition escapeshellarg (malloc : Z -> option (list byte)) (alloc : option (list byte))
    (str : list byte) (len : nat) : out Z * list byte :=
  match (if decide (0 < len)%nat then Some len else strlen str) with
  | None => (Fault FBounds, [])
  | Some l =>
      match alloc with
      | Some cmd => escape_into str l cmd
      | None =>
          match malloc (Z.of_nat l * 4 + 1) with
          | Some cmd => escape_into str l cmd
          | None => (Fault FNull, [])
          end
      end
  end.

(** What the function means to produce, and the shell's reading of it: a
    single-quoted segment is literal, and [\'] between two is a quote. *)
Fixpoint quoted (s : list byte) : list byte :=
  match s with
  | [] => []
  | c :: s' => (if decide (c = "'"%byte) then bs "'\''" else [c]) ++ quoted s'
  end.

Definition sh_arg (s : list byte) : list byte := "'"%byte :: quoted s ++ ["'"%byte].

Fixpoint sh_read (in_quote : bool) (w : list byte) : option (list byte) :=
  match w with
  | [] => if in_quote then None else Some []
  | c :: w' =>
      if in_quote then
        if decide (c = "'"%byte) then sh_read false w'
        else cons c <$> sh_read true w'
      else if decide (c = "'"%byte) then sh_read true w'
      else if decide (c = "\"%byte) then
        match w' with
        | c' :: w'' => cons c' <$> sh_read false w''
        | [] => None
        end
      else None
  end.

Definition quotes (s : list byte) : nat := length (filter (fun c => c = "'"%byte) s).

Lemma length_quoted s : length (quoted s) = (length s + 3 * quotes s)%nat.
Proof.
  unfold quotes. induction s as [|c s IH]; [done|]. simpl. rewrite filter_cons, length_app, IH.
  case_decide; simpl; lia.
Qed.

(** *** The loop is a copy of [quoted s] *)
Lemma escape_loop_pokes s y blk :
  escape_loop s y blk =
    (pokes y (quoted s);; mret (y + Z.of_nat (length (quoted s)))) blk.
Proof.
  revert y blk. induction s as [|c s IH]; intros y blk; cbn [escape_loop quoted].
  { mrun. by rewrite Z.add_0_r. }
  munfold_in IH. case_decide as Hc.
  - subst c. change (bs "'\''") with ["'"; "\"; "'"; "'"]%byte. cbn [app pokes length].
    replace (y + 1 + 1) with (y + 2) by lia. replace (y + 2 + 1) with (y + 3) by lia.
    replace (y + 3 + 1) with (y + 4) by lia. munfold.
    do 4 (mstep; [|done..]). rewrite IH. mstep; try done. do 2 f_equal. lia.
  - cbn [app pokes length]. munfold. mstep; [|done..]. rewrite IH. mstep; try done.
    do 2 f_equal. lia.
Qed.

Lemma escape_into_pokes str l blk :
  (l <= length str)%nat ->
  escape_into str l blk =
    (pokes 0 (asz (sh_arg (take l str)));;
     mret (Z.of_nat (length (sh_arg (take l str))))) blk.
Proof.
  intros Hl. unfold escape_into. rewrite decide_False by lia. unfold asz, sh_arg.
  rewrite <- app_comm_cons, <- app_assoc. cbn [pokes app]. change (0 + 1) with 1.
  munfold. mstep; [|done..].
  rewrite escape_loop_pokes, pokes_snoc. cbn [pokes]. munfold.
  do 3 (mstep; try done).
  cbn [length]. rewrite length_app. cbn [length]. do 2 f_equal. lia.
Qed.

Lemma length_sh_arg s : length (sh_arg s) = (length s + 3 * quotes s + 2)%nat.
Proof. unfold sh_arg. cbn [length]. rewrite length_app, length_quoted. simpl. lia. Qed.
#[local] Arguments sh_arg : simpl never.
#[local] Arguments asz : simpl never.

Lemma quotes_le s : (quotes s <= length s)%nat.
Proof. apply length_filter. Qed.

Lemma quotes_full s : quotes s = length s <-> Forall (fun c => c = "'"%byte) s.
Proof.
  induction s as [|c s IH]; [by split|]. pose proof (quotes_le s) as H.
  unfold quotes in *. rewrite filter_cons, Forall_cons, <- IH.
  case_decide; simpl; split; try (intros [??]); try split; (lia || done).
Qed.

Lemma sh_read_quoted s w : sh_read true (quoted s ++ w) = app s <$> sh_read true w.
Proof.
  induction s as [|c s IH]; simpl; [by destruct (sh_read true w)|].
  case_decide as Hc.
  - subst c. simpl. rewrite IH. by destruct (sh_read true w).
  - simpl. rewrite decide_False by done. rewrite IH. by destruct (sh_read true w).
Qed.

(** In a buffer with room, whichever it is: the shell reads the escaped word
    back as the argument. *)
Lemma escape_into_read cmd s l rest :
  no_nul s -> (length (sh_arg s) < length cmd)%nat -> (l <= length rest)%nat -> take l rest = s ->
  exists n cmd', escape_into rest l cmd = (Val n, cmd') /\
    sh_read false (c_str cmd') = Some s /\ n = Z.of_nat (length (c_str cmd')).
Proof.
  intros Hs Hc Hl Ht. rewrite escape_into_pokes by done. rewrite Ht.
  pose proof (pokes_app [] cmd 0 (asz (sh_arg s)) eq_refl) as Hp.
  rewrite app_nil_l in Hp. munfold. rewrite Hp by (rewrite length_asz; lia).
  do 2 eexists. split; [done|]. rewrite app_nil_l.
  assert (Hn : no_nul (sh_arg s)).
  { unfold sh_arg. constructor; [done|]. apply Forall_app. split; [|by repeat constructor].
    clear Hc Hp Ht. induction Hs as [|c s Hc Hs IH]; simpl; [constructor|].
    apply Forall_app. split; [|done]. case_decide; repeat constructor; done. }
  unfold asz. rewrite <- app_assoc. cbn [app]. rewrite c_str_asz by done. split; [|done].
  unfold sh_arg. cbn [sh_read]. rewrite decide_True by done. rewrite sh_read_quoted. simpl. by rewrite app_nil_r.
Qed.

(** C32: The shell reads the escaped word back as the argument: nothing in the
    argument ends the quoting.  The length may be given or not; the buffer is
    the caller's, if it has room for the word and its terminator, or the block
    the function allocates, unless the argument is empty or consists of quotes
    only ([escapeshellarg_overrun]). *)
Theorem escapeshellarg_roundtrip malloc str rest len alloc :
  no_nul str -> len = 0%nat \/ len = length str ->
  match alloc with
  | Some cmd => (length (sh_arg str) < length cmd)%nat
  | None =>
      (forall n, 0 <= n -> exists blk, malloc n = Some blk /\ Z.of_nat (length blk) = n) /\
      Exists (fun c => c <> "'"%byte) str
  end ->
  exists n cmd',
    escapeshellarg malloc alloc (str ++ Byte.x00 :: rest) len = (Val n, cmd') /\
    sh_read false (c_str cmd') = Some str /\ n = Z.of_nat (length (c_str cmd')).
Proof.
  intros Hs Hlen Hroom. unfold escapeshellarg.
  assert (Hl : (if decide (0 < len)%nat then Some len else strlen (str ++ Byte.x00 :: rest)) = Some (length str)).
  { rewrite strlen_asz by done. case_decide; [f_equal; lia|done]. }
  rewrite Hl. destruct alloc as [cmd|].
  - apply escape_into_read; [done|done|rewrite length_app; lia|apply take_app_length].
  - destruct Hroom as [Hm Hq]. destruct (Hm (Z.of_nat (length str) * 4 + 1)) as (blk & -> & Hb); [lia|].
    apply escape_into_read; [done| |rewrite length_app; lia|apply take_app_length].
    assert (Hn : quotes str <> length str).
    { rewrite quotes_full. intros Hall. apply Exists_exists in Hq as (c & Hc & Hne).
      rewrite Forall_forall in Hall. by apply Hne, Hall. }
    pose proof (quotes_le str). rewrite length_sh_arg. lia.
Qed.

(** The block the function allocates for itself is too small exactly when
    every character is a quote, the empty string included. *)
Theorem escapeshellarg_overrun malloc str rest :
  no_nul str -> (forall n, 0 <= n -> exists blk, malloc n = Some blk /\ Z.of_nat (length blk) = n) ->
  (fst (escapeshellarg malloc None (str ++ Byte.x00 :: rest) 0) = Fault FBounds <->
   Forall (fun c => c = "'"%byte) str).
Proof.
  intros Hs Hm. unfold escapeshellarg. rewrite decide_False by lia.
  rewrite strlen_asz by done.
  destruct (Hm (Z.of_nat (length str) * 4 + 1)) as (blk & -> & Hb); [lia|].
  rewrite escape_into_pokes by (rewrite length_app; lia). rewrite take_app_length.
  rewrite <- quotes_full. pose proof (quotes_le str) as Hq.
  pose proof (length_sh_arg str) as Hl. munfold. split.
  - intros Hf. destruct (decide (quotes str = length str)) as [|Hne]; [done|exfalso].
    pose proof (pokes_app [] blk 0 (asz (sh_arg str)) eq_refl) as Hp.
    rewrite app_nil_l in Hp. rewrite Hp in Hf by (rewrite length_asz; lia). done.
  - intros He.
    pose proof (pokes_oob 0 (asz (sh_arg str)) blk ltac:(lia)
      ltac:(rewrite length_asz; lia) ltac:(done)) as Hp.
    by destruct (pokes 0 _ blk) as [[] ?]; simplify_eq/=.
Qed.

Lemma escapeshellarg_roundtrip_witness :
  exists n cmd',
    escapeshellarg malloc_ok None (bs "it's" ++ [Byte.x00]) 0 = (Val n, cmd') /\
    sh_read false (c_str cmd') = Some (bs "it's") /\ n = Z.of_nat (length (c_str cmd')).
Proof.
  apply (escapeshellarg_roundtrip malloc_ok (bs "it's") [] 0 None).
  - repeat constructor; discriminate.
  - left. reflexivity.
  - split; [apply malloc_ok_total|]. apply Exists_cons_hd. discriminate.
Defined.

Lemma escapeshellarg_overrun_witness :
  fst (escapeshellarg malloc_ok None (bs "''" ++ [Byte.x00]) 0) = Fault FBounds /\
  fst (escapeshellarg malloc_ok None [Byte.x00] 0) = Fault FBounds.
Proof.
  split.
  - apply (escapeshellarg_overrun malloc_ok (bs "''") []).
    + repeat constructor; discriminate.
    + apply malloc_ok_total.
    + repeat constructor.
  - apply (escapeshellarg_overrun malloc_ok [] []).
    + constructor.
    + apply malloc_ok_total.
    + constructor.
Defined.
End Escape.

(** ** urlencode *)
Module Url.

Definition hexchars : list byte := bs "0123456789ABCDEF".

Definition hexchar (n : Z) : byte := nth (Z.to_nat n) hexchars Byte.x00.

(** The test of the loop: the bytes that are written as [%XX]. *)
Definition must_escape (raw : bool) (c : byte) : bool :=
  let c' := bz c in
  ((c' <? bz "0") && negb (c' =? bz "-") && negb (c' =? bz ".")) ||
  ((c' <? bz "A") && (bz "9" <? c')) ||
  ((bz "Z" <? c') && (c' <? bz "a") && negb (c' =? bz "_")) ||
  ((bz "z" <? c') && (negb raw || negb (c' =? bz "~"))).

Fixpoint url_loop (raw : bool) (from : list byte) (to : Z) : M (list byte) Z :=
  match from with
  | [] => mret to
  | c :: from' =>
      if negb raw && bool_decide (c = " "%byte) then
        poke to "+"%byte;; url_loop raw from' (to + 1)
      else if must_escape raw c then
        poke to "%"%byte;;
        poke (to + 1) (hexchar (Z.shiftr (bz c) 4));;
        poke (to + 2) (hexchar (Z.land (bz c) 15));;
        url_loop raw from' (to + 3)
      else poke to c;; url_loop raw from' (to + 1)
  end.

Definition urlencode_into (s : list byte) (len : nat) (raw : bool) : M (list byte) unit :=
  if decide (length s < len)%nat then faulty FBounds
  else to ← url_loop raw (take len s) 0; poke to Byte.x00.

Definition urlencode (malloc : Z -> option (list byte)) (alloc : option (list byte))
    (s : list byte) (len : nat) (raw : bool) : out unit * list byte :=
  match alloc with
  | Some start => urlencode_into s len raw start
  | None =>
      match malloc (Z.of_nat len * 3 + 1) with
      | Some start => urlencode_into s len raw start
      | None => (Fault FNull, [])
      end
  end.

(** Reference: the encoding of a byte, and the decoder of a receiver. *)
Definition enc1 (raw : bool) (c : byte) : list byte :=
  if negb raw && bool_decide (c = " "%byte) then ["+"%byte]
  else if must_escape raw c then
    ["%"%byte; hexchar (Z.shiftr (bz c) 4); hexchar (Z.land (bz c) 15)]
  else [c].

Definition enc (raw : bool) (s : list byte) : list byte := s ≫= enc1 raw.

Definition unhex (c : byte) : option Z :=
  let n := bz c in
  if (bz "0" <=? n) && (n <=? bz "9") then Some (n - bz "0")
  else if (bz "A" <=? n) && (n <=? bz "F") then Some (n - bz "A" + 10)
  else None.

Fixpoint url_decode (raw : bool) (w : list byte) : option (list byte) :=
  match w with
  | [] => Some []
  | c :: w' =>
      if bool_decide (c = "%"%byte) then
        match w' with
        | h :: l :: w'' =>
            match unhex h, unhex l with
            | Some x, Some y => cons (zb (x * 16 + y)) <$> url_decode raw w''
            | _, _ => None
            end
        | _ => None
        end
      else if negb raw && bool_decide (c = "+"%byte) then cons " "%byte <$> url_decode raw w'
      else cons c <$> url_decode raw w'
  end.

(** The bytes that may stand in the body of a form field. *)
Definition form_byte (c : byte) : bool :=
  let n := bz c in
  ((bz "0" <=? n) && (n <=? bz "9")) || ((bz "A" <=? n) && (n <=? bz "Z")) ||
  ((bz "a" <=? n) && (n <=? bz "z")) ||
  bool_decide (c ∈ ["-"; "."; "_"; "~"; "%"; "+"]%byte).

Lemma url_loop_pokes raw s to blk :
  url_loop raw s to blk =
    (pokes to (enc raw s);; mret (to + Z.of_nat (length (enc raw s)))) blk.
Proof.
  revert to blk. induction s as [|c s IH]; intros to blk; cbn [url_loop].
  { mrun. by rewrite Z.add_0_r. }
  change (enc raw (c :: s)) with (enc1 raw c ++ enc raw s). unfold enc1. munfold_in IH.
  case_match; [|case_match]; cbn [app pokes length];
    replace (to + 1 + 1) with (to + 2) by lia; replace (to + 2 + 1) with (to + 3) by lia;
    munfold; repeat (mstep; [|done..]); rewrite IH; mstep; try done; do 2 f_equal; lia.
Qed.

Lemma enc1_length raw c : (1 <= length (enc1 raw c) <= 3)%nat.
Proof. unfold enc1. repeat case_match; simpl; lia. Qed.

Lemma enc_length raw s : (length s <= length (enc raw s) <= 3 * length s)%nat.
Proof.
  induction s as [|c s IH]; [done|].
  change (enc raw (c :: s)) with (enc1 raw c ++ enc raw s).
  rewrite length_app. pose proof (enc1_length raw c). simpl length. lia.
Qed.

Lemma enc1_form raw c : forallb form_byte (enc1 raw c) = true.
Proof. destruct raw, c; vm_compute; reflexivity. Qed.

Lemma form_not_nul c : form_byte c = true -> c <> Byte.x00.
Proof. intros H ->. by vm_compute in H. Qed.

Lemma url_decode_enc1 raw c w :
  url_decode raw (enc1 raw c ++ w) = cons c <$> url_decode raw w.
Proof. destruct raw, c; reflexivity. Qed.

Lemma url_decode_enc raw s : url_decode raw (enc raw s) = Some s.
Proof.
  induction s as [|c s IH]; [done|].
  change (enc raw (c :: s)) with (enc1 raw c ++ enc raw s).
  by rewrite url_decode_enc1, IH.
Qed.

Lemma enc_form raw s : Forall (fun c => form_byte c = true) (enc raw s).
Proof.
  induction s as [|c s IH]; [constructor|].
  change (enc raw (c :: s)) with (enc1 raw c ++ enc raw s).
  apply Forall_app. split; [|done].
  apply Forall_forall. intros x Hx. pose proof (enc1_form raw c) as Hf.
  rewrite forallb_forall in Hf. apply Hf. by apply list_elem_of_In.
Qed.

Lemma enc_no_nul raw s : no_nul (enc raw s).
Proof. eapply Forall_impl; [apply enc_form|]. intros ?. apply form_not_nul. Qed.

Lemma urlencode_into_spec s len raw blk :
  (len <= length s)%nat -> (length (enc raw (take len s)) < length blk)%nat ->
  urlencode_into s len raw blk =
    (Val tt, asz (enc raw (take len s)) ++ drop (S (length (enc raw (take len s)))) blk).
Proof.
  intros Hl Hb. unfold urlencode_into. rewrite decide_False by lia.
  pose proof (pokes_app [] blk 0 (asz (enc raw (take len s))) eq_refl) as Hp.
  rewrite !app_nil_l, length_asz in Hp. rewrite <- Hp by lia. unfold asz. rewrite pokes_snoc.
  munfold. rewrite url_loop_pokes. munfold. cbn [pokes]. munfold.
  repeat (mstep; try done). by destruct a0.
Qed.
#[local] Arguments asz : simpl never.

(** C33: With the block it allocates the encoder never leaves it, for every input;
    the text it writes is made of form bytes only, is at most three times as
    long, and a receiver decodes it to the input. *)
Theorem urlencode_roundtrip malloc s len raw :
  (len <= length s)%nat ->
  (forall n, 0 <= n -> exists blk, malloc n = Some blk /\ Z.of_nat (length blk) = n) ->
  exists blk,
    urlencode malloc None s len raw = (Val tt, blk) /\
    url_decode raw (c_str blk) = Some (take len s) /\
    Forall (fun c => form_byte c = true) (c_str blk) /\
    (length (c_str blk) <= 3 * len)%nat.
Proof.
  intros Hl Hm. unfold urlencode.
  destruct (Hm (Z.of_nat len * 3 + 1)) as (blk & -> & Hb); [lia|].
  pose proof (enc_length raw (take len s)) as He. rewrite length_take in He.
  rewrite urlencode_into_spec by lia. eexists. split; [done|].
  unfold asz. rewrite <- app_assoc. cbn [app].
  rewrite c_str_asz by apply enc_no_nul.
  split; [apply url_decode_enc|]. split; [apply enc_form|lia].
Qed.

Lemma urlencode_roundtrip_witness :
  exists blk,
    urlencode malloc_ok None (bs "a b&c~/") 7 true = (Val tt, blk) /\
    url_decode true (c_str blk) = Some (bs "a b&c~/").
Proof.
  destruct (urlencode_roundtrip malloc_ok (bs "a b&c~/") 7 true) as (blk & H & Hd & _).
  - simpl. lia.
  - apply malloc_ok_total.
  - exists blk. split; [exact H|exact Hd].
Defined.
End Url.

(** ** htmlspecialchars *)
Module Html.

Definition quot : byte := Byte.x22.

(** The table [html_map]: the replacement of a byte, if it has one. *)
Definition html_map (c : byte) : option (list byte) :=
  if bool_decide (c = "<"%byte) then Some (bs "&lt;")
  else if bool_decide (c = ">"%byte) then Some (bs "&gt;")
  else if bool_decide (c = quot) then Some (bs "&quot;")
  else if bool_decide (c = "&"%byte) then Some (bs "&amp;")
  else None.

(** One turn's [cp] and [len]. *)
Definition esc1 (c : byte) : list byte :=
  match html_map c with Some to => to | None => [c] end.

(** The value is [(j, len)] at the loop's end. *)
Fixpoint hsc_loop (input : list byte) (outlen j len : Z) : M (list byte) (Z * Z) :=
  match input with
  | [] => mret (j, len)
  | c :: input' =>
      let cp := esc1 c in
      let len := Z.of_nat (length cp) in
      if decide (u64 (j + len - 1) >= outlen) then mret (j, len)
      else pokes j cp;; hsc_loop input' outlen (j + len) len
  end.

Definition htmlspecialchars (outlen : Z) (input : list byte) (inlen : nat) :
    M (list byte) Z :=
  if decide (length input < inlen)%nat then faulty FBounds
  else
    '(j, len) ← hsc_loop (take inlen input) outlen 0 0;
    if decide (outlen > 0) then
      let j := if decide (j + 1 > outlen) then u64 (j - len) else j in
      let j := u64 (j + 1) in
      poke j Byte.x00;;
      mret j
    else mret j.

(** Reference: the escaped text, the longest prefix whose escape fits in [room]
    bytes, and the reading of a browser. *)
Definition esc (s : list byte) : list byte := s ≫= esc1.

Fixpoint greedy (room : Z) (s : list byte) : list byte :=
  match s with
  | [] => []
  | c :: s' =>
      if decide (Z.of_nat (length (esc1 c)) <= room)
      then c :: greedy (room - Z.of_nat (length (esc1 c))) s'
      else []
  end.

(** The last value of [len]: the length of the escape of the byte the loop ends
    at, or else of the last byte. *)
Fixpoint last_len (room : Z) (s : list byte) (len : Z) : Z :=
  match s with
  | [] => len
  | c :: s' =>
      let l := Z.of_nat (length (esc1 c)) in
      if decide (l <= room) then last_len (room - l) s' l else l
  end.

(** What stays of the escape in front of the terminator: when it fills the room
    exactly, [len] bytes at its end are given up. *)
Definition kept (outlen : Z) (s : list byte) : list byte :=
  let e := esc (greedy outlen s) in
  if decide (Z.of_nat (length e) < outlen) then e
  else take (length e - Z.to_nat (last_len outlen s 0)) e.

Definition starts (p w : list byte) : bool := bool_decide (take (length p) w = p).

Fixpoint unesc (fuel : nat) (w : list byte) : option (list byte) :=
  match fuel, w with
  | _, [] => Some []
  | O, _ => None
  | S f, c :: w' =>
      if bool_decide (c = "&"%byte) then
        if starts (bs "lt;") w' then cons "<"%byte <$> unesc f (drop 3 w')
        else if starts (bs "gt;") w' then cons ">"%byte <$> unesc f (drop 3 w')
        else if starts (bs "quot;") w' then cons quot <$> unesc f (drop 5 w')
        else if starts (bs "amp;") w' then cons "&"%byte <$> unesc f (drop 4 w')
        else None
      else cons c <$> unesc f w'
  end.

(** Bytes that would open a tag, end an attribute or start another entity. *)
Definition markup (c : byte) : bool := bool_decide (c ∈ ["<"; ">"; quot]%byte).

Lemma esc_cons c s : esc (c :: s) = esc1 c ++ esc s.
Proof. done. Qed.

Lemma esc1_length c : (1 <= length (esc1 c) <= 6)%nat.
Proof. unfold esc1, html_map. repeat case_match; simplify_eq; simpl; lia. Qed.

Lemma greedy_fits s room : 0 <= room -> Z.of_nat (length (esc (greedy room s))) <= room.
Proof.
  revert room. induction s as [|c s IH]; intros room Hr; simpl; [lia|].
  case_decide; [|simpl; lia]. rewrite esc_cons, length_app.
  specialize (IH (room - Z.of_nat (length (esc1 c)))). lia.
Qed.

Lemma greedy_all s room : Z.of_nat (length (esc s)) <= room -> greedy room s = s.
Proof.
  revert room. induction s as [|c s IH]; intros room Hr; simpl; [done|].
  rewrite esc_cons, length_app in Hr. rewrite decide_True by lia. f_equal. apply IH. lia.
Qed.

Lemma greedy_prefix s room : greedy room s `prefix_of` s.
Proof.
  revert room. induction s as [|c s IH]; intros room; simpl; [done|].
  case_decide; [by apply prefix_cons|apply prefix_nil].
Qed.

Lemma unesc_esc1 f c w : unesc (S f) (esc1 c ++ w) = cons c <$> unesc f w.
Proof. destruct c; reflexivity. Qed.

Lemma unesc_esc s : unesc (length s) (esc s) = Some s.
Proof.
  induction s as [|c s IH]; [done|]. simpl length. by rewrite esc_cons, unesc_esc1, IH.
Qed.

Lemma esc1_no_markup c : forallb (fun x => negb (markup x)) (esc1 c) = true.
Proof. destruct c; vm_compute; reflexivity. Qed.

Lemma esc_no_markup s : Forall (fun x => markup x = false) (esc s).
Proof.
  induction s as [|c s IH]; [constructor|]. rewrite esc_cons. apply Forall_app. split; [|done].
  pose proof (esc1_no_markup c) as H. rewrite forallb_forall in H.
  apply Forall_forall. intros x Hx%list_elem_of_In%H. by destruct (markup x).
Qed.

Lemma last_len_bound room s len : 0 <= len <= 6 -> 0 <= last_len room s len <= 6.
Proof.
  revert room len. induction s as [|c s IH]; intros room len Hl; cbn [last_len]; [done|]. cbv zeta.
  pose proof (esc1_length c). case_decide; [apply IH|]; lia.
Qed.

Lemma last_len_pos room s len : s <> [] \/ 1 <= len -> 1 <= last_len room s len.
Proof.
  revert room len. induction s as [|c s IH]; intros room len Hl; cbn [last_len]; [by destruct Hl|]. cbv zeta.
  pose proof (esc1_length c). case_decide; [apply IH; right|]; lia.
Qed.

(** A text that does not fit leaves less room than the next escape takes. *)
Lemma greedy_full s room :
  0 <= room -> greedy room s = s \/ room - 6 < Z.of_nat (length (esc (greedy room s))).
Proof.
  revert room. induction s as [|c s IH]; intros room Hr; simpl; [by left|]. pose proof (esc1_length c).
  case_decide as Hc; [|right; simpl; lia]. rewrite esc_cons, length_app.
  destruct (IH (room - Z.of_nat (length (esc1 c)))) as [-> | ?]; [lia|by left|right; lia].
Qed.

(** The loop writes the escape of the longest prefix that fits. *)
Lemma hsc_loop_spec s outlen pre rest j len :
  j = Z.of_nat (length pre) -> j <= outlen < 2 ^ 63 -> 0 <= len <= 6 ->
  outlen <= Z.of_nat (length (pre ++ rest)) ->
  let e := esc (greedy (outlen - j) s) in
  hsc_loop s outlen j len (pre ++ rest) =
    (Val (j + Z.of_nat (length e), last_len (outlen - j) s len), pre ++ e ++ drop (length e) rest).
Proof.
  revert pre rest j len. induction s as [|c s IH]; intros pre rest j len -> Ho Hl Hb; simpl.
  { mrun. by rewrite Z.add_0_r, drop_0. }
  pose proof (esc1_length c) as Hc. rewrite length_app in Hb.
  rewrite u64_small by lia.
  destruct (decide (Z.of_nat (length (esc1 c)) <= outlen - Z.of_nat (length pre))) as [Hf|Hf].
  - rewrite decide_False by lia. munfold. rewrite pokes_app by lia.
    pose proof (IH (pre ++ esc1 c) (drop (length (esc1 c)) rest)
                (Z.of_nat (length pre) + Z.of_nat (length (esc1 c)))
                (Z.of_nat (length (esc1 c)))) as He. cbv zeta in He. rewrite <- app_assoc in He.
    rewrite He; [|rewrite length_app; lia|lia|lia|rewrite !length_app, length_drop; lia].
    rewrite esc_cons, <- !app_assoc, drop_drop, length_app.
    by rewrite Z.sub_add_distr, Nat2Z.inj_add, Z.add_assoc.
  - rewrite decide_True by lia. mrun. simpl. by rewrite Z.add_0_r, drop_0.
Qed.

Lemma htmlspecialchars_loop outlen input inlen blk :
  (inlen <= length input)%nat -> 0 < outlen < 2 ^ 63 -> outlen <= Z.of_nat (length blk) ->
  let s := take inlen input in
  let e := esc (greedy outlen s) in
  let n := Z.of_nat (length e) in
  n <= outlen /\
    htmlspecialchars outlen input inlen blk =
      (let j := u64 ((if decide (n + 1 > outlen) then u64 (n - last_len outlen s 0) else n) + 1) in
       (poke j Byte.x00;; mret j) (e ++ drop (length e) blk)).
Proof.
  intros Hi Ho Hb s e n. unfold htmlspecialchars. rewrite decide_False by lia. fold s.
  pose proof (hsc_loop_spec s outlen [] blk 0 0) as He. cbv zeta in He.
  rewrite app_nil_l, Z.sub_0_r in He.
  split; [apply greedy_fits; lia|].
  unfold mbind at 1, M_bind at 1. rewrite He by (done || lia). by rewrite decide_True by lia.
Qed.

(** When the escaped text leaves two bytes of room the whole of it is written,
    it holds no markup and reads back as the input.  The terminator is stored
    one byte late: the byte after the text keeps its old value, and the
    returned length counts it. *)
Theorem htmlspecialchars_fits outlen input inlen blk :
  (inlen <= length input)%nat ->
  0 < outlen < 2 ^ 63 -> outlen <= Z.of_nat (length blk) ->
  let s := take inlen input in
  Z.of_nat (length (esc s)) + 2 <= outlen ->
  exists stale,
    htmlspecialchars outlen input inlen blk =
      (Val (Z.of_nat (length (esc s)) + 1),
       esc s ++ stale :: Byte.x00 :: drop (length (esc s) + 2) blk) /\
    blk !! length (esc s) = Some stale /\
    unesc (length s) (esc s) = Some s /\
    Forall (fun x => markup x = false) (esc s).
Proof.
  intros Hi Ho Hb s Hf.
  destruct (htmlspecialchars_loop outlen input inlen blk Hi Ho Hb) as (Hg & ->).
  fold s. rewrite greedy_all by lia. cbv zeta. rewrite decide_False by lia.
  rewrite u64_small by lia.
  destruct (lookup_lt_is_Some_2 blk (length (esc s))) as [stale Hs]; [lia|].
  exists stale. split; [|by auto using unesc_esc, esc_no_markup].
  erewrite (drop_S blk) by done. cbn [app].
  change (?x :: ?l) with ([x] ++ l) at 1. rewrite app_assoc. munfold.
  rewrite poke_app by (rewrite ?length_app, ?length_drop; simpl; lia).
  rewrite <- app_assoc, drop_drop. cbn [app]. do 4 f_equal. f_equal. lia.
Qed.

Lemma kept_cut outlen s :
  6 <= outlen ->
  kept outlen s `prefix_of` esc (greedy outlen s) /\ Z.of_nat (length (kept outlen s)) < outlen /\
  (Z.of_nat (length (kept outlen s)) =
     let n := Z.of_nat (length (esc (greedy outlen s))) in
     if decide (n + 1 > outlen) then n - last_len outlen s 0 else n).
Proof.
  intros Ho. pose proof (greedy_fits s outlen ltac:(lia)) as Hg. unfold kept. cbv zeta.
  pose proof (last_len_bound outlen s 0 ltac:(lia)) as Hb.
  case_decide as Hn; [rewrite decide_False by lia; split; [done|lia]|].
  assert (Hp : 1 <= last_len outlen s 0) by (apply last_len_pos; left; intros ->; simpl in Hn; lia).
  rewrite decide_True by lia. rewrite length_take. split; [apply prefix_take|]. lia.
Qed.

(** A text whose escape fits is kept whole; of any other the escape is cut,
    within six bytes of the end of the room, and perhaps inside an entity. *)
Lemma kept_cases outlen s :
  6 <= outlen ->
  let r := kept outlen (take (Z.to_nat outlen) s) in
  r `prefix_of` esc s /\ Z.of_nat (length r) < outlen /\
  (if decide (Z.of_nat (length (esc s)) < outlen) then r = esc s else outlen - 6 <= Z.of_nat (length r)).
Proof.
  intros Ho r. set (s1 := take (Z.to_nat outlen) s) in *.
  destruct (kept_cut outlen s1 Ho) as (Hp & Hlt & Hlen). fold r in Hp, Hlt, Hlen.
  assert (Hs : s = s1 ++ drop (Z.to_nat outlen) s) by (symmetry; apply take_drop).
  assert (Happ : forall a b, esc (a ++ b) = esc a ++ esc b) by (intros; apply bind_app).
  assert (Hge : forall x, (length x <= length (esc x))%nat).
  { induction x as [|c x IH]; [done|]. rewrite esc_cons, length_app. pose proof (esc1_length c). simpl. lia. }
  split; [|split; [done|]].
  - rewrite Hs, Happ. apply prefix_app_r. etransitivity; [exact Hp|].
    destruct (greedy_prefix s1 outlen) as [k Hk]. rewrite Hk at 2. rewrite Happ. by apply prefix_app_r.
  - case_decide as Hfit.
    + assert (s1 = s) as Hss by (apply take_ge; pose proof (Hge s); lia). unfold r. rewrite Hss.
      unfold kept. rewrite greedy_all by lia. by rewrite decide_True.
    + rewrite Hlen. cbv zeta. pose proof (last_len_bound outlen s1 0 ltac:(lia)).
      assert (Hfull : outlen <= Z.of_nat (length (esc s1))).
      { destruct (decide (Z.to_nat outlen <= length s)%nat).
        - pose proof (Hge s1). assert (length s1 = Z.to_nat outlen) by (apply length_take_le; lia). lia.
        - unfold s1. rewrite take_ge by lia. lia. }
      destruct (greedy_full s1 outlen ltac:(lia)) as [He|He]; [rewrite He|]; case_decide; lia.
Qed.

(** With six bytes of room the terminator has a place inside, or right behind. *)
Lemma htmlspecialchars_end outlen input inlen blk :
  (inlen <= length input)%nat -> 6 <= outlen < 2 ^ 63 -> outlen <= Z.of_nat (length blk) ->
  let s := take inlen input in
  let e := esc (greedy outlen s) in
  let k := Z.of_nat (length (kept outlen s)) in
  htmlspecialchars outlen input inlen blk = (poke (k + 1) Byte.x00;; mret (k + 1)) (e ++ drop (length e) blk).
Proof.
  intros Hi Ho Hb s e k.
  destruct (htmlspecialchars_loop outlen input inlen blk Hi) as [Hg ->]; [lia..|]. fold s e in Hg |- *.
  destruct (kept_cut outlen s ltac:(lia)) as (_ & Hlt & Hlen). fold k e in Hlt, Hlen. cbv zeta in *.
  assert (Hk : u64 ((if decide (Z.of_nat (length e) + 1 > outlen) then u64 (Z.of_nat (length e) - last_len outlen s 0)
    else Z.of_nat (length e)) + 1) = k + 1); [|by rewrite Hk].
  rewrite Hlen. case_decide; [rewrite (u64_small (_ - _)) by lia|]; by rewrite u64_small by lia.
Qed.

(** C34: With six bytes of room or more, and a byte behind it, the function writes
    what it keeps of the escape, then one byte that stays from before, then the
    terminator; it returns at most [outlen].  What it keeps is the escape of
    the whole text if that is shorter than the room, and else a prefix of it
    that ends within six bytes of the room's end, perhaps inside an entity. *)
Theorem htmlspecialchars_bound outlen input inlen blk :
  (inlen <= length input)%nat ->
  6 <= outlen < 2 ^ 63 -> outlen < Z.of_nat (length blk) ->
  exists j blk' r,
    htmlspecialchars outlen input inlen blk = (Val j, blk') /\
    0 < j <= outlen /\ length blk' = length blk /\
    blk' !! Z.to_nat j = Some Byte.x00 /\
    take (Z.to_nat j - 1) blk' = r /\ j = Z.of_nat (length r) + 1 /\ r `prefix_of` esc (take inlen input) /\
    (if decide (Z.of_nat (length (esc (take inlen input))) < outlen) then r = esc (take inlen input)
     else outlen - 6 <= Z.of_nat (length r)).
Proof.
  intros Hi Ho Hb. rewrite htmlspecialchars_end by lia. cbv zeta. set (s := take inlen input).
  set (p := greedy outlen s). set (r := kept outlen s).
  pose proof (greedy_fits s outlen ltac:(lia)) as Hg. fold p in Hg.
  destruct (kept_cut outlen s ltac:(lia)) as (Hpre & Hlt & Hl). fold r p in Hpre, Hlt, Hl.
  pose proof (prefix_length _ _ Hpre) as Hpl.
  assert (Hlen : length (esc p ++ drop (length (esc p)) blk) = length blk)
    by (rewrite length_app, length_drop; lia).
  munfold. unfold poke. rewrite decide_True by (rewrite Hlen; lia).
  eexists (Z.of_nat (length r) + 1), _, r. split; [done|]. split; [lia|].
  split; [by rewrite length_insert|]. split; [apply list_lookup_insert_eq; lia|].
  replace (Z.to_nat (Z.of_nat (length r) + 1) - 1)%nat with (length r) by lia.
  split; [|split; [done|]].
  - rewrite take_insert_ge by lia. rewrite take_app_le by lia. destruct Hpre as [k ->]. apply take_app_length.
  - pose proof (greedy_prefix s outlen) as [k Hk]. fold p in Hk.
    assert (Hesc : esc s = esc p ++ esc k) by (rewrite Hk at 1; apply bind_app).
    split; [rewrite Hesc; by apply prefix_app_r|]. case_decide as Hfit.
    + unfold r, kept. rewrite greedy_all by lia. by rewrite decide_True.
    + cbv zeta in Hl. rewrite Hl. pose proof (last_len_bound outlen s 0 ltac:(lia)).
      destruct (greedy_full s outlen ltac:(lia)) as [He|He]; fold p in He; [rewrite He in *|]; case_decide; lia.
Qed.

(** With less room than an entity takes, giving up its length makes [j] wrap
    around: the terminator is stored in front of the block. *)
Theorem htmlspecialchars_wraps outlen input inlen blk :
  (inlen <= length input)%nat -> 0 < outlen < 2 ^ 63 -> outlen <= Z.of_nat (length blk) < 2 ^ 63 ->
  let s := take inlen input in
  Z.of_nat (length (esc (greedy outlen s))) = outlen -> outlen + 1 < last_len outlen s 0 ->
  fst (htmlspecialchars outlen input inlen blk) = Fault FBounds.
Proof.
  intros Hi Ho Hb s Hn Hlast.
  destruct (htmlspecialchars_loop outlen input inlen blk Hi) as [_ ->]; [lia..|]. fold s.
  cbv zeta. rewrite Hn, decide_True by lia. pose proof (last_len_bound outlen s 0 ltac:(lia)).
  assert (Hj : u64 (u64 (outlen - last_len outlen s 0) + 1) = 2 ^ 64 + (outlen - last_len outlen s 0 + 1)).
  { unfold u64. rewrite Z.add_mod_idemp_l, <- (Z.mod_add _ 1) by lia. rewrite Z.mod_small; lia. }
  munfold. rewrite poke_oob; [done|]. rewrite Hj, length_app, length_drop. lia.
Qed.

(** In a block of exactly [outlen] bytes a text one byte shorter than the
    block makes the function store its terminator outside the block. *)
Theorem htmlspecialchars_overrun outlen input inlen blk :
  (inlen <= length input)%nat -> 0 < outlen < 2 ^ 63 -> outlen = Z.of_nat (length blk) ->
  Z.of_nat (length (esc (take inlen input))) = outlen - 1 ->
  fst (htmlspecialchars outlen input inlen blk) = Fault FBounds.
Proof.
  intros Hi Ho Hb Hf.
  destruct (htmlspecialchars_loop outlen input inlen blk Hi) as [Hg ->]; [lia..|].
  rewrite greedy_all in * by lia. cbv zeta. rewrite decide_False by lia.
  rewrite u64_small by lia. munfold.
  rewrite poke_oob; [done|]. rewrite length_app, length_drop. lia.
Qed.

Lemma htmlspecialchars_fits_witness :
  exists stale,
    htmlspecialchars 12 (bs "a<b") 3 (replicate 12 Byte.x00) =
      (Val 7, bs "a&lt;b" ++ stale :: Byte.x00 :: replicate 4 Byte.x00).
Proof.
  destruct (htmlspecialchars_fits 12 (bs "a<b") 3 (replicate 12 Byte.x00)) as (stale & H & _).
  - simpl. lia.
  - lia.
  - rewrite length_replicate. lia.
  - vm_compute. discriminate.
  - exists stale. exact H.
Defined.

Lemma htmlspecialchars_bound_witness :
  exists j blk', htmlspecialchars 8 (bs "<<<") 3 (replicate 9 Byte.x00) = (Val j, blk') /\
    3 <= j <= 8 /\ blk' !! Z.to_nat j = Some Byte.x00.
Proof.
  destruct (htmlspecialchars_bound 8 (bs "<<<") 3 (replicate 9 Byte.x00))
    as (j & blk' & r & H & Hj & _ & Hz & _ & Hjr & _ & Hr).
  - simpl. lia.
  - lia.
  - rewrite length_replicate. lia.
  - exists j, blk'. split; [exact H|]. split; [|exact Hz].
    rewrite decide_False in Hr by (vm_compute; intros H0; discriminate H0). lia.
Defined.

(** Of two quotes and a bracket in twelve bytes of room, the second quote is
    left as the start of an entity. *)
Example kept_inside_entity : kept 12 [quot; quot; "<"%byte] = bs "&quot;&q".
Proof. reflexivity. Qed.

Lemma htmlspecialchars_wraps_witness :
  fst (htmlspecialchars 4 (bs "abcd" ++ [quot]) 5 (replicate 6 Byte.x00)) = Fault FBounds.
Proof.
  apply htmlspecialchars_wraps.
  - simpl. lia.
  - lia.
  - rewrite length_replicate. lia.
  - reflexivity.
  - reflexivity.
Defined.

Lemma htmlspecialchars_overrun_witness :
  fst (htmlspecialchars 4 (bs "abc") 3 (replicate 4 Byte.x00)) = Fault FBounds.
Proof.
  apply htmlspecialchars_overrun.
  - simpl. lia.
  - lia.
  - reflexivity.
  - reflexivity.
Defined.
End Html.

(** ** trim, trim_cpy and their length variants *)
Module Trim.

(** The characters of [HEQ] and [TEQ]: space, newline, return, vertical tab. *)
Definition is_sp (c : byte) : bool :=
  bool_decide (c ∈ [" "%byte; Byte.x0a; Byte.x0d; Byte.x0b]).

(** First loop: the value is [(head, len)]. *)
Fixpoint head_loop {S} (blk : list byte) (head : Z) (len : nat) : M S (Z * nat) :=
  match len with
  | O => mret (head, O)
  | S len' =>
      c ← peek blk head;
      if is_sp c then head_loop blk (head + 1) len' else mret (head, len)
  end.

(** Second loop: the value is [(tail, len, move_t)]. *)
Fixpoint tail_loop {S} (blk : list byte) (tail : Z) (len : nat) (move_t : bool) :
    M S (Z * nat * bool) :=
  match len with
  | O => mret (tail, O, move_t)
  | S len' =>
      c ← peek blk tail;
      if is_sp c then tail_loop blk (tail - 1) len' true else mret (tail, len, move_t)
  end.

(** The value is the returned pointer, as an index, and [*res_len]. *)
Definition trim_len (head : Z) (len : nat) : M (list byte) (Z * nat) :=
  let tail := head + Z.of_nat len - 1 in
  blk ← get;
  '(head, len) ← head_loop blk head len;
  '(tail, len, move_t) ← tail_loop blk tail len false;
  (if decide (0 < len)%nat then if (move_t : bool) then poke (tail + 1) Byte.x00 else mret tt
   else mret tt);;
  mret (head, len).

Definition trim_len_cpy (head : Z) (len : nat) : M (list byte) (Z * nat) :=
  let start := head in
  let tail := head + Z.of_nat len - 1 in
  blk ← get;
  '(head, len) ← head_loop blk head len;
  '(tail, len, _) ← tail_loop blk tail len false;
  (if decide (start < head) then
     (if decide (0 < len)%nat then
        pokes start (take len (drop (Z.to_nat head) blk))
      else mret tt);;
     poke (start + Z.of_nat len) Byte.x00
   else mret tt);;
  mret (start, len).

Definition trim : M (list byte) (Z * nat) :=
  blk ← get; len ← lift FBounds (strlen blk); trim_len 0 len.

Definition trim_cpy : M (list byte) (Z * nat) :=
  blk ← get; len ← lift FBounds (strlen blk); trim_len_cpy 0 len.

(** Reference: drop the white space at both ends. *)
Fixpoint ltrim (s : list byte) : list byte :=
  match s with
  | [] => []
  | c :: s' => if is_sp c then ltrim s' else s
  end.

Definition rtrim (s : list byte) : list byte := rev (ltrim (rev s)).
Definition trim_ref (s : list byte) : list byte := rtrim (ltrim s).

Lemma peek_app {S} (l : list byte) c r i s :
  i = Z.of_nat (length l) -> peek (S := S) (l ++ c :: r) i s = (Val c, s).
Proof.
  intros ->. unfold peek. rewrite decide_True by lia.
  rewrite Nat2Z.id, lookup_app_r, Nat.sub_diag by lia. done.
Qed.

Lemma ltrim_split s : exists w, s = w ++ ltrim s /\ Forall (fun c => is_sp c = true) w.
Proof.
  induction s as [|c s (w & Hw & Hf)]; simpl; [by exists []|].
  destruct (is_sp c) eqn:E; [|by exists []].
  exists (c :: w). simpl. split; [by rewrite <- Hw|by constructor].
Qed.

Lemma rtrim_split s : exists w, s = rtrim s ++ w /\ Forall (fun c => is_sp c = true) w.
Proof.
  destruct (ltrim_split (rev s)) as (w & Hw & Hf). exists (rev w). unfold rtrim.
  rewrite <- rev_app_distr, <- Hw, rev_involutive. split; [done|].
  apply Forall_forall. intros x Hx. rewrite list_elem_of_In, <- in_rev in Hx.
  rewrite Forall_forall in Hf. apply Hf. by apply list_elem_of_In.
Qed.

Lemma ltrim_head s c s' : ltrim s = c :: s' -> is_sp c = false.
Proof.
  induction s as [|x s IH]; simpl; [done|]. destruct (is_sp x) eqn:E; [done|]. by intros [= -> ->].
Qed.

Lemma ltrim_nonsp c s : is_sp c = false -> ltrim (c :: s) = c :: s.
Proof. simpl. by intros ->. Qed.

Lemma rtrim_snoc_sp s c : is_sp c = true -> rtrim (s ++ [c]) = rtrim s.
Proof. intros H. unfold rtrim. rewrite rev_app_distr. simpl. by rewrite H. Qed.

Lemma rtrim_snoc_nonsp s c : is_sp c = false -> rtrim (s ++ [c]) = s ++ [c].
Proof. intros H. unfold rtrim. rewrite rev_app_distr. simpl. rewrite H. simpl. by rewrite rev_involutive. Qed.

Lemma head_loop_spec {S} (st : S) pre s r :
  head_loop (pre ++ s ++ r) (Z.of_nat (length pre)) (length s) st =
    (Val (Z.of_nat (length pre + (length s - length (ltrim s))), length (ltrim s)), st).
Proof.
  revert pre. induction s as [|c s IH]; intros pre; simpl.
  { mrun. by rewrite Nat.add_0_r. }
  munfold. rewrite peek_app by done. destruct (is_sp c) eqn:E.
  - specialize (IH (pre ++ [c])). rewrite <- app_assoc in IH. simpl in IH.
    rewrite length_app in IH. simpl in IH.
    replace (Z.of_nat (length pre) + 1) with (Z.of_nat (length pre + 1)) by lia.
    rewrite IH. do 3 f_equal. destruct (ltrim_split s) as (w & Hw & _).
    apply (f_equal length) in Hw. rewrite length_app in Hw. lia.
  - simpl. rewrite Nat.sub_diag, Nat.add_0_r. done.
Qed.

Lemma tail_loop_spec {S} (st : S) pre s r t m :
  t = Z.of_nat (length pre + length s) - 1 ->
  tail_loop (pre ++ s ++ r) t (length s) m st =
    (Val (Z.of_nat (length pre + length (rtrim s)) - 1, length (rtrim s),
          m || bool_decide (length (rtrim s) < length s)%nat), st).
Proof.
  revert r t m. induction s as [|c s IH] using rev_ind; intros r t m ->.
  { simpl. rewrite Nat.add_0_r, orb_false_r. done. }
  rewrite length_app, Nat.add_1_r. simpl. munfold. rewrite <- app_assoc. simpl.
  rewrite app_assoc, peek_app by (rewrite length_app; lia). destruct (is_sp c) eqn:E.
  - rewrite <- app_assoc, IH by lia. rewrite rtrim_snoc_sp by done.
    cbn [orb]. rewrite bool_decide_true; [by rewrite orb_true_r|].
    destruct (rtrim_split s) as (w & Hw & _). apply (f_equal length) in Hw.
    rewrite length_app in Hw. lia.
  - rewrite rtrim_snoc_nonsp, length_app by done. simpl.
    rewrite bool_decide_false by lia. rewrite orb_false_r. do 4 f_equal; lia.
Qed.

Lemma no_nul_app s1 s2 : no_nul (s1 ++ s2) <-> no_nul s1 /\ no_nul s2.
Proof. apply Forall_app. Qed.

(** Both loops, on a string [s] at the start of a block. *)
Lemma loops_spec s r :
  exists w1 w2, s = w1 ++ trim_ref s ++ w2 /\
    Forall (fun c => is_sp c = true) w1 /\ Forall (fun c => is_sp c = true) w2 /\
    (trim_ref s = [] -> w2 = []) /\
    (w1 = [] <-> forall c s', s = c :: s' -> is_sp c = false) /\
    forall S (st : S),
      head_loop (s ++ r) 0 (length s) st =
        (Val (Z.of_nat (length w1), length (trim_ref s ++ w2)), st) /\
      tail_loop (s ++ r) (Z.of_nat (length s) - 1) (length (trim_ref s ++ w2)) false st =
        (Val (Z.of_nat (length w1 + length (trim_ref s)) - 1, length (trim_ref s),
              bool_decide (0 < length w2)%nat), st).
Proof.
  destruct (ltrim_split s) as (w1 & Hw1 & Hf1).
  destruct (rtrim_split (ltrim s)) as (w2 & Hw2 & Hf2). fold (trim_ref s) in Hw2.
  exists w1, w2. split; [by rewrite <- Hw2|]. split; [done|]. split; [done|].
  assert (Hlen : length s = (length w1 + length (ltrim s))%nat)
    by (rewrite Hw1 at 1; apply length_app).
  split.
  { intros He. rewrite He in Hw2. simpl in Hw2. destruct w2 as [|c w2]; [done|].
    rewrite Forall_cons in Hf2. destruct Hf2 as [Hc _].
    apply ltrim_head in Hw2. congruence. }
  split.
  { split.
    - intros -> c s' ->. simpl in Hw1, Hlen. destruct (is_sp c) eqn:E; [|done].
      destruct (ltrim_split s') as (w & Hw & _). apply (f_equal length) in Hw.
      rewrite length_app in Hw. lia.
    - intros Hc. destruct s as [|c s]; [by destruct w1|].
      rewrite ltrim_nonsp in Hlen by eauto. destruct w1; [done|]. simpl in Hlen. lia. }
  intros S st. rewrite <- Hw2. split.
  - pose proof (head_loop_spec st [] s r) as H. simpl in H.
    change (Z.of_nat 0) with 0 in H. rewrite H. do 3 f_equal. lia.
  - rewrite Hw1 at 1. rewrite <- app_assoc.
    rewrite tail_loop_spec by lia. fold (rtrim (ltrim s)). fold (trim_ref s).
    do 3 f_equal. apply bool_decide_ext. apply (f_equal length) in Hw2. rewrite length_app in Hw2. lia.
Qed.

(** [trim] returns a pointer to the trimmed text: white space at both ends is
    gone, and nothing else is. *)
Theorem trim_correct s r :
  no_nul s ->
  exists p blk, trim (s ++ Byte.x00 :: r) = (Val (p, length (trim_ref s)), blk) /\
    c_str (drop (Z.to_nat p) blk) = trim_ref s /\
    length blk = length (s ++ Byte.x00 :: r).
Proof.
  intros Hs. destruct (loops_spec s (Byte.x00 :: r)) as (w1 & w2 & Hsp & _ & _ & H0 & _ & Hl).
  unfold trim, trim_len. munfold. rewrite strlen_asz by done. cbn [lift].
  munfold. rewrite Z.add_0_l.
  destruct (Hl _ (s ++ Byte.x00 :: r)) as [-> ->].
  assert (Ht : no_nul (trim_ref s)) by (rewrite Hsp, !no_nul_app in Hs; tauto).
  remember (trim_ref s) as t eqn:Et. clear Hl Et.
  assert (Hsame : c_str (drop (length w1) (w1 ++ t ++ Byte.x00 :: r)) = t)
    by (rewrite drop_app_length, c_str_asz; done).
  exists (Z.of_nat (length w1)). rewrite Nat2Z.id.
  destruct w2 as [|c w2].
  { exists (s ++ Byte.x00 :: r). rewrite app_nil_r in Hsp. subst s.
    split; [by case_decide|]. split; [|done]. by rewrite <- app_assoc. }
  rewrite decide_True by (destruct t; [by discriminate H0|simpl; lia]). simpl.
  exists (w1 ++ t ++ Byte.x00 :: w2 ++ Byte.x00 :: r). subst s.
  rewrite <- !app_assoc. cbn [app]. rewrite (app_assoc w1 t).
  unfold mbind, M_bind. rewrite poke_app by (rewrite ?length_app; simpl; lia).
  cbn [drop]. rewrite skipn_O. split; [by rewrite <- app_assoc|]. split.
  - rewrite drop_app_length. by apply c_str_asz.
  - rewrite !length_app. simpl. rewrite !length_app. simpl. lia.
Qed.

(** [trim_cpy] trims in place when the text starts with white space.  When it
    does not, the block is left as it was: white space at the end stays, and
    only [*res_len] tells. *)
Theorem trim_cpy_spec s r :
  no_nul s ->
  exists blk, trim_cpy (s ++ Byte.x00 :: r) = (Val (0, length (trim_ref s)), blk) /\
    c_str blk = match s with
                | [] => []
                | c :: _ => if is_sp c then trim_ref s else s
                end.
Proof.
  intros Hs. destruct (loops_spec s (Byte.x00 :: r)) as (w1 & w2 & Hsp & Hw1 & _ & H0 & Hns & Hl).
  unfold trim_cpy, trim_len_cpy. munfold. rewrite strlen_asz by done. cbn [lift].
  munfold. rewrite Z.add_0_l. destruct (Hl _ (s ++ Byte.x00 :: r)) as [-> ->].
  assert (Ht : no_nul (trim_ref s)) by (rewrite Hsp, !no_nul_app in Hs; tauto).
  remember (trim_ref s) as t eqn:Et. clear Hl Et.
  destruct (decide (w1 = [])) as [->|Hne].
  { exists (s ++ Byte.x00 :: r). rewrite decide_False by (simpl; lia).
    split; [done|]. rewrite c_str_asz by done. destruct s as [|c s]; [done|].
    by erewrite (proj1 Hns). }
  rewrite decide_True by (destruct w1; [done|simpl; lia]).
  assert (Hgoal : (match s with [] => [] | c :: _ => if is_sp c then t else s end) = t).
  { destruct s as [|c s]; [by destruct w1|]. destruct (is_sp c) eqn:E; [done|].
    exfalso. apply Hne, Hns. by intros ? ? [= <- <-]. }
  rewrite Hgoal. clear Hgoal Hns Hw1. rewrite Nat2Z.id. subst s.
  rewrite <- !app_assoc. rewrite drop_app_length, take_app_length.
  assert (Hc : (if decide (0 < length t)%nat then pokes 0 t else mret tt)
                 (w1 ++ t ++ w2 ++ Byte.x00 :: r) =
               (Val tt, t ++ drop (length t) (w1 ++ t ++ w2 ++ Byte.x00 :: r))).
  { case_decide; [|by destruct t; [|simpl in *; lia]].
    pose proof (pokes_app [] (w1 ++ t ++ w2 ++ Byte.x00 :: r) 0 t eq_refl) as Hp.
    apply Hp. rewrite !length_app. lia. }
  unfold mbind, M_bind, mret, M_ret in *. rewrite Hc, Z.add_0_l.
  rewrite poke_app; [|done|rewrite length_drop, !length_app; simpl; lia].
  eexists. split; [done|]. by apply c_str_asz.
Qed.

Lemma trim_correct_witness :
  exists p blk, trim (bs "  hi " ++ [Byte.x00]) = (Val (p, 2%nat), blk) /\
    c_str (drop (Z.to_nat p) blk) = bs "hi".
Proof.
  destruct (trim_correct (bs "  hi ") []) as (p & blk & H & Hc & _).
  - repeat constructor; discriminate.
  - exists p, blk. split; [exact H|exact Hc].
Defined.

Lemma trim_cpy_spec_witness :
  exists blk, trim_cpy (bs "hi  " ++ [Byte.x00]) = (Val (0, 2%nat), blk) /\ c_str blk = bs "hi  ".
Proof.
  apply (trim_cpy_spec (bs "hi  ") []). repeat constructor; discriminate.
Defined.
End Trim.

(** ** Bounded copies and truncation *)
Module Bounded.

Definition trunc_str (n : nat) : M (list byte) unit :=
  str ← get;
  len ← lift FBounds (strnlen str n);
  if decide (len < n)%nat then mret tt else poke (Z.of_nat n) Byte.x00.

(** [strncpy] of the C library: at most [n] characters, zeros up to [n]. *)
Definition strncpy (src : list byte) (n : nat) : M (list byte) unit :=
  k ← lift FBounds (strnlen src n);
  pokes 0 (take k src ++ replicate (n - k) Byte.x00).

Definition sane_strncpy (src : list byte) (n : nat) : M (list byte) unit :=
  strncpy src (n - 1);;
  poke (Z.of_nat n - 1) Byte.x00.

Definition memzero_explicit (n : nat) : M (list byte) unit := pokes 0 (replicate n Byte.x00).

Lemma c_str_take s n r :
  no_nul s -> (n <= length s)%nat -> c_str (take n s ++ Byte.x00 :: r) = take n s.
Proof. intros Hs Hn. apply c_str_asz. by apply Forall_take. Qed.

(** A C string is cut to [n] characters; the store is always inside it. *)
Theorem trunc_str_spec s n r :
  no_nul s ->
  exists blk, trunc_str n (asz s ++ r) = (Val tt, blk) /\
    c_str blk = take n s /\ length blk = length (asz s ++ r).
Proof.
  intros Hs. unfold trunc_str, asz. rewrite <- app_assoc. cbn [app]. munfold.
  rewrite strnlen_asz by done. cbn [lift]. munfold. case_decide.
  - eexists. split; [done|]. rewrite c_str_asz, take_ge by (done || lia). done.
  - assert (Hl : length (take n s) = n) by (rewrite length_take; lia).
    assert (Hp : s ++ Byte.x00 :: r = take n s ++ drop n s ++ Byte.x00 :: r)
      by (by rewrite app_assoc, take_drop).
    rewrite Hp. rewrite poke_app by (rewrite ?length_app; simpl; lia).
    eexists. split; [done|]. rewrite c_str_take by (done || lia). split; [done|].
    rewrite !length_app. simpl. rewrite length_drop, !length_app. simpl. lia.
Qed.

(** The copy into an array of [n] bytes keeps the first [n - 1] characters,
    ends in a terminator and writes no byte outside the array. *)
Theorem sane_strncpy_spec s r dest n :
  no_nul s -> (0 < n)%nat -> length dest = n ->
  exists dest', sane_strncpy (asz s ++ r) n dest = (Val tt, dest') /\
    length dest' = n /\ c_str dest' = take (n - 1) s.
Proof.
  intros Hs Hn Hd. unfold sane_strncpy, strncpy, asz. rewrite <- app_assoc. cbn [app]. munfold.
  rewrite strnlen_asz by done. cbn [lift]. munfold.
  set (k := Nat.min (n - 1) (length s)).
  rewrite take_app_le by lia.
  set (new := take k s ++ replicate (n - 1 - k) Byte.x00).
  assert (Hnew : length new = (n - 1)%nat)
    by (unfold new; rewrite length_app, length_take, length_replicate; lia).
  pose proof (pokes_app [] dest 0 new eq_refl) as Hp. rewrite app_nil_l in Hp.
  rewrite Hp by lia. rewrite app_nil_l, Hnew.
  rewrite poke_app by (rewrite ?length_drop; lia).
  eexists. split; [done|]. rewrite length_app, Hnew. simpl.
  rewrite drop_drop, length_drop. split; [lia|].
  assert (Hk : take (n - 1) s = take k s).
  { destruct (decide (n - 1 <= length s)%nat); unfold k.
    - by rewrite Nat.min_l by lia.
    - rewrite Nat.min_r by lia. rewrite !take_ge by lia. done. }
  rewrite Hk. unfold new. rewrite <- app_assoc.
  destruct (n - 1 - k)%nat as [|m]; simpl; apply c_str_take; (done || lia).
Qed.

Lemma trunc_str_spec_witness :
  exists blk, trunc_str 2 (asz (bs "long") ++ []) = (Val tt, blk) /\ c_str blk = bs "lo".
Proof.
  destruct (trunc_str_spec (bs "long") 2 []) as (blk & H & Hc & _).
  - repeat constructor; discriminate.
  - exists blk. split; [exact H|exact Hc].
Defined.

Lemma sane_strncpy_witness :
  exists dest', sane_strncpy (asz (bs "en-US") ++ []) 4 (replicate 4 Byte.x00) = (Val tt, dest') /\
    c_str dest' = bs "en-".
Proof.
  destruct (sane_strncpy_spec (bs "en-US") [] (replicate 4 Byte.x00) 4) as (d & H & _ & Hc).
  - repeat constructor; discriminate.
  - lia.
  - reflexivity.
  - exists d. split; [exact H|exact Hc].
Defined.
End Bounded.
