(* ===== verification/Shell.v ===== *)
(** * The shell helper: lib/shell.c

    Runs a command and keeps the start of what it writes.  The state is the
    live blocks of the heap and the streams that are open; [popen], the command
    and [malloc] are the environment. *)
From S2P Require Import Prelude.

Record sh := Sh { blocks : gmap positive (list byte); streams : gset positive }.
#[export] Instance eta_sh : Eta sh := fun r => Sh (blocks r) (streams r).

(** [e_popen]: the stream, and what the command writes to it. *)
Record sh_env := ShEnv {
  e_malloc : option (positive * list byte);
  e_popen : option (positive * list byte);
}.

Definition in_block {A} (p : positive) (m : M (list byte) A) : M sh A := fun s =>
  match blocks s !! p with
  | Some blk => let '(r, blk') := m blk in (r, s <| blocks := <[p := blk']> (blocks s) |>)
  | None => (Fault FWild, s)
  end.

Definition sh_free (p : option positive) : M sh unit := fun s =>
  match p with
  | None => (Val tt, s)
  | Some p =>
      match blocks s !! p with
      | Some _ => (Val tt, s <| blocks := delete p (blocks s) |>)
      | None => (Fault FFree, s)
      end
  end.

(** [want]: [outlen] is not NULL.  The value: NULL, or the buffer with what is
    stored to [outlen]. *)
Definition shell_exec (e : sh_env) (buf : option positive) (buflen : Z) (want : bool) :
    M sh (option (positive * option Z)) :=
  let use_malloc := bool_decide (buf = None) in
  let out_err buf := (if use_malloc : bool then sh_free buf else mret tt);; mret None in
  buf ← (match buf with
         | Some _ => mret buf
         | None =>
             match e_malloc e with
             | Some (p, blk) => modify (fun s => s <| blocks := <[p := blk]> (blocks s) |>);; mret (Some p)
             | None => mret None
             end
         end);
  match buf with
  | None => out_err None
  | Some p =>
      match e_popen e with
      | None => out_err (Some p)
      | Some (handle, text) =>
          modify (fun s => s <| streams := {[handle]} ∪ streams s |>);;
          in_block p (pokes 0 (replicate (Z.to_nat buflen) Byte.x00));;
          let read := take (Z.to_nat buflen) text in
          in_block p (pokes 0 read);;
          modify (fun s => s <| streams := streams s ∖ {[handle]} |>);;
          mret (Some (p, if want then Some (Z.of_nat (length read)) else None))
      end
  end.

(** The buffer: the caller's, or a new block. *)
Definition sh_buffer (e : sh_env) (buf : option positive) (buflen : Z) (s : sh) : option (positive * list byte) :=
  match buf with
  | Some p => pair p <$> blocks s !! p
  | None => e_malloc e
  end.

Definition buffer_ok (e : sh_env) (buf : option positive) (buflen : Z) (s : sh) : Prop :=
  0 <= buflen /\
  (forall p, buf = Some p -> exists blk, blocks s !! p = Some blk /\ buflen <= Z.of_nat (length blk)) /\
  (forall p blk, buf = None -> e_malloc e = Some (p, blk) -> blocks s !! p = None /\ Z.of_nat (length blk) = buflen) /\
  (forall handle text, e_popen e = Some (handle, text) -> handle ∉ streams s).

(** What is in the buffer: the start of the text, then zeros. *)
Definition filled_with (buflen : nat) (text blk : list byte) : list byte :=
  take buflen text ++ replicate (buflen - length text) Byte.x00 ++ drop buflen blk.

Lemma fill_block buflen text blk :
  (buflen <= length blk)%nat ->
  exists mid, pokes 0 (replicate buflen Byte.x00) blk = (Val tt, mid) /\
    pokes 0 (take buflen text) mid = (Val tt, filled_with buflen text blk).
Proof.
  intros Hb. exists (replicate buflen Byte.x00 ++ drop buflen blk). split.
  - pose proof (pokes_app [] blk 0 (replicate buflen Byte.x00) eq_refl) as Hp. rewrite !app_nil_l, length_replicate in Hp.
    apply Hp. lia.
  - pose proof (pokes_app [] (replicate buflen Byte.x00 ++ drop buflen blk) 0 (take buflen text) eq_refl) as Hp.
    rewrite !app_nil_l in Hp. rewrite Hp by (rewrite length_app, length_replicate, length_take; lia).
    unfold filled_with. rewrite drop_app, drop_replicate, length_replicate, length_take, drop_drop.
    do 4 f_equal; [lia|]. f_equal. lia.
Qed.

(** shell_exec gives the start of what the command wrote, padded with zeros, in
    the buffer; it closes the stream, changes no other block, and when it
    fails, it leaves nothing behind. *)
Theorem shell_exec_correct e buf buflen want s :
  buffer_ok e buf buflen s ->
  match sh_buffer e buf buflen s, e_popen e with
  | Some (p, blk), Some (_, text) =>
      shell_exec e buf buflen want s =
        (Val (Some (p, if want then Some (Z.min buflen (Z.of_nat (length text))) else None)),
         Sh (<[p := filled_with (Z.to_nat buflen) text blk]> (blocks s)) (streams s))
  | _, _ => shell_exec e buf buflen want s = (Val None, s)
  end.
Proof.
  intros (Hlen & Hown & Hnew & Hfresh).
  assert (Hrun : forall p blk handle text S0, blocks S0 !! p = Some blk -> buflen <= Z.of_nat (length blk) ->
    handle ∉ streams S0 -> 
    (modify (fun s => s <| streams := {[handle]} ∪ streams s |>);;
     in_block p (pokes 0 (replicate (Z.to_nat buflen) Byte.x00));;
     let read := take (Z.to_nat buflen) text in
     in_block p (pokes 0 read);;
     modify (fun s => s <| streams := streams s ∖ {[handle]} |>);;
     mret (Some (p, if want then Some (Z.of_nat (length read)) else None))) S0 =
    (Val (Some (p, if want then Some (Z.min buflen (Z.of_nat (length text))) else None)),
     Sh (<[p := filled_with (Z.to_nat buflen) text blk]> (blocks S0)) (streams S0))).
  { intros p blk handle text [B F] Hp Hb Hh. cbn [blocks streams] in *.
    destruct (fill_block (Z.to_nat buflen) text blk) as (mid & H1 & H2); [lia|].
    erewrite bind_val by reflexivity.
    erewrite bind_val by (unfold in_block; cbn; rewrite Hp, H1; reflexivity).
    erewrite bind_val by (unfold in_block; cbn; rewrite lookup_insert_eq, H2; reflexivity).
    assert (HF : ({[handle]} ∪ F) ∖ {[handle]} = F).
    { apply set_eq. intros x. rewrite elem_of_difference, elem_of_union, elem_of_singleton. naive_solver. }
    assert (Hn : Z.of_nat (length (take (Z.to_nat buflen) text)) = Z.min buflen (Z.of_nat (length text)))
      by (rewrite length_take; lia).
    cbv zeta. rewrite Hn. set (v := Some (p, _)).
    transitivity (Val v, Sh (<[p := filled_with (Z.to_nat buflen) text blk]> (<[p := mid]> B)) (({[handle]} ∪ F) ∖ {[handle]}));
      [reflexivity|by rewrite HF, insert_insert_eq]. }
  unfold sh_buffer, shell_exec. destruct buf as [p|].
  - destruct (Hown p eq_refl) as (blk & Hp & Hb). rewrite Hp. cbn [fmap option_fmap option_map].
    rewrite (bind_val (mret _) _ _ _ _ eq_refl). cbv beta zeta iota.
    destruct (e_popen e) as [[handle text]|] eqn:Hpop; [|done]. by apply Hrun; [..|by eapply Hfresh].
  - destruct (e_malloc e) as [[p blk]|] eqn:Hm; [|done]. destruct (Hnew p blk eq_refl eq_refl) as [Hnone Hb].
    erewrite bind_val by reflexivity. cbv beta zeta iota. destruct s as [B F]. cbn [blocks streams] in *.
    destruct (e_popen e) as [[handle text]|] eqn:Hpop.
    + rewrite (Hrun p blk); cbn; [by rewrite insert_insert_eq|by rewrite lookup_insert_eq|lia|by eapply Hfresh].
    + rewrite bool_decide_true by done. erewrite bind_val by (unfold sh_free; cbn; rewrite lookup_insert_eq; reflexivity).
      munfold. cbn. by rewrite delete_insert_id.
Qed.

Lemma strlen_no_nul s : no_nul s -> strlen s = None.
Proof.
  induction 1 as [|c s Hc Hs IH]; [done|]. cbn [strlen]. by rewrite decide_False, IH.
Qed.

(** A text that fills a new buffer is not terminated. *)
Lemma filled_unterminated n text blk :
  no_nul text -> length blk = n -> (n <= length text)%nat -> strlen (filled_with n text blk) = None.
Proof.
  intros Ht Hb Hn. apply strlen_no_nul. unfold filled_with.
  replace (n - length text)%nat with 0%nat by lia. rewrite drop_ge by lia. cbn [replicate app]. rewrite app_nil_r.
  by apply Forall_take.
Qed.

(** Four of five bytes fit. *)
Lemma shell_exec_correct_witness :
  let blk := replicate 4 "?"%byte in
  shell_exec (ShEnv (Some (1%positive, blk)) (Some (2%positive, bs "hello"))) None 4 true (Sh ∅ ∅) =
    (Val (Some (1%positive, Some 4)), Sh {[1%positive := bs "hell"]} ∅).
Proof.
  intros blk. pose proof (shell_exec_correct (ShEnv (Some (1%positive, blk)) (Some (2%positive, bs "hello"))) None 4 true (Sh ∅ ∅)) as H.
  refine (H _). split; [lia|]. split; [discriminate|]. split.
  - intros p b _ Hp. injection Hp as <- <-. split; reflexivity.
  - intros handle text Hp. injection Hp as <- <-. apply not_elem_of_empty.
Defined.
