(* ===== verification/Tstack.v ===== *)
(** * The index stack: src/gwbot/include/gwbot/lib/tstack.h

    A bounded stack of [uint32_t] that grows from the high end of its array
    down.  The pool of free channel slots and the pool of idle worker threads
    of the server are such stacks. *)
From S2P Require Import Prelude.

Record tstack := Tstack {
  sp : Z;             (** uint32_t *)
  capacity : Z;       (** uint32_t *)
  arr : list Z;       (** uint32_t [capacity] *)
}.
#[export] Instance eta_tstack : Eta tstack := fun r => Tstack (sp r) (capacity r) (arr r).

(** [calloc_ok] tells whether [calloc] succeeds. *)
Definition tss_init (calloc_ok : bool) (cap : Z) : option tstack :=
  if calloc_ok then Some (Tstack cap cap (replicate (Z.to_nat cap) 0)) else None.

Definition tss_count : M tstack Z :=
  st ← get;
  if decide (sp st <= capacity st) then mret (u32 (capacity st - sp st))
  else faulty FAssert.

Definition tss_push (val : Z) : M tstack Z :=
  st ← get;
  if decide (sp st <= capacity st) then
    if decide (sp st = 0) then mret (-1)
    else
      let i := u32 (sp st - 1) in
      if decide (i < Z.of_nat (length (arr st))) then
        put (st <| arr := <[Z.to_nat i := val]> (arr st) |> <| sp := i |>);;
        mret val
      else faulty FBounds
  else faulty FAssert.

Definition tss_pop : M tstack Z :=
  st ← get;
  if decide (sp st <= capacity st) then
    if decide (sp st = capacity st) then mret (-1)
    else
      match arr st !! Z.to_nat (sp st) with
      | Some v => put (st <| sp := u32 (sp st + 1) |>);; mret v
      | None => faulty FBounds
      end
  else faulty FAssert.

(** [free] of the array: an element that is still asked for is out of it. *)
Definition tss_destroy : M tstack unit := modify (fun st => st <| arr := [] |>).

(** ** Invariant and abstraction *)
Record tss_wf (st : tstack) : Prop := {
  wf_sp : 0 <= sp st <= capacity st;
  wf_cap : capacity st < 2 ^ 32;
  wf_arr : Z.of_nat (length (arr st)) = capacity st;
}.

(** The contents, the most recent first. *)
Definition contents (st : tstack) : list Z := drop (Z.to_nat (sp st)) (arr st).

Lemma contents_length st : tss_wf st -> Z.of_nat (length (contents st)) = capacity st - sp st.
Proof. intros []. unfold contents. rewrite length_drop. lia. Qed.

Lemma tss_init_wf cap st :
  0 <= cap < 2 ^ 32 -> tss_init true cap = Some st ->
  tss_wf st /\ contents st = [] /\ capacity st = cap.
Proof.
  intros Hc [= <-]. split; [|split; [|done]].
  - split; simpl; rewrite ?length_replicate; lia.
  - unfold contents. simpl. apply drop_ge. rewrite length_replicate. lia.
Qed.

Lemma tss_count_spec st :
  tss_wf st -> tss_count st = (Val (Z.of_nat (length (contents st))), st).
Proof.
  intros Hw. pose proof (contents_length st Hw). destruct Hw.
  unfold tss_count. munfold. rewrite decide_True by lia. rewrite u32_small by lia.
  munfold. repeat f_equal. lia.
Qed.

Lemma tss_push_full st v :
  tss_wf st -> Z.of_nat (length (contents st)) = capacity st ->
  tss_push v st = (Val (-1), st).
Proof.
  intros Hw Hl. rewrite contents_length in Hl by done. destruct Hw.
  unfold tss_push. munfold. rewrite decide_True, decide_True by lia. done.
Qed.

Lemma tss_push_room st v :
  tss_wf st -> Z.of_nat (length (contents st)) < capacity st ->
  exists st', tss_push v st = (Val v, st') /\ tss_wf st' /\
    contents st' = v :: contents st /\ capacity st' = capacity st.
Proof.
  intros Hw Hl. rewrite contents_length in Hl by done. destruct Hw.
  unfold tss_push. munfold. rewrite decide_True, decide_False, u32_small, decide_True by lia.
  munfold. eexists. split; [done|]. split; [|split; [|done]].
  - split; simpl; rewrite ?length_insert; lia.
  - unfold contents. simpl.
    replace (Z.to_nat (sp st)) with (S (Z.to_nat (sp st - 1))) by lia.
    erewrite drop_S by (apply list_lookup_insert_eq; lia).
    by rewrite drop_insert_lt by lia.
Qed.

Lemma tss_pop_empty st :
  tss_wf st -> contents st = [] -> tss_pop st = (Val (-1), st).
Proof.
  intros Hw Hc. pose proof (contents_length st Hw) as Hl. rewrite Hc in Hl. simpl in Hl.
  destruct Hw. unfold tss_pop. munfold. rewrite decide_True, decide_True by lia. done.
Qed.

Lemma tss_pop_cons st v l :
  tss_wf st -> contents st = v :: l ->
  exists st', tss_pop st = (Val v, st') /\ tss_wf st' /\
    contents st' = l /\ capacity st' = capacity st.
Proof.
  intros Hw Hc. pose proof (contents_length st Hw) as Hl. rewrite Hc in Hl. simpl in Hl.
  destruct Hw. unfold tss_pop. munfold. rewrite decide_True, decide_False by lia.
  assert (Hv : arr st !! Z.to_nat (sp st) = Some v).
  { unfold contents in Hc. apply (f_equal (fun l => l !! 0%nat)) in Hc.
    rewrite lookup_drop, Nat.add_0_r in Hc. done. }
  rewrite Hv. munfold. eexists. split; [done|]. simpl. rewrite u32_small by lia.
  split; [split; simpl; lia|]. split; [|done].
  unfold contents in *. simpl. replace (Z.to_nat (sp st + 1)) with (S (Z.to_nat (sp st))) by lia.
  rewrite (drop_S _ _ _ Hv) in Hc. by injection Hc.
Qed.

#[export] Hint Resolve contents_length : gw.

(** ** Refinement

    The specification is a bounded list; an operation is a push or a pop and
    the observation is the value the function returns. *)
Inductive stack_op := Push (v : Z) | Pop.

Definition spec_step (cap : Z) (o : stack_op) (l : list Z) : Z * list Z :=
  match o, l with
  | Push v, _ => if decide (Z.of_nat (length l) < cap) then (v, v :: l) else (-1, l)
  | Pop, [] => (-1, [])
  | Pop, v :: l' => (v, l')
  end.

Fixpoint spec_run (cap : Z) (os : list stack_op) (l : list Z) : list Z * list Z :=
  match os with
  | [] => ([], l)
  | o :: os' =>
      let '(r, l1) := spec_step cap o l in
      let '(rs, l2) := spec_run cap os' l1 in (r :: rs, l2)
  end.

Definition impl_step (o : stack_op) : M tstack Z :=
  match o with Push v => tss_push v | Pop => tss_pop end.

Fixpoint impl_run (os : list stack_op) : M tstack (list Z) :=
  match os with
  | [] => mret []
  | o :: os' => r ← impl_step o; rs ← impl_run os'; mret (r :: rs)
  end.

Lemma impl_step_refines o st :
  tss_wf st ->
  exists st', impl_step o st = (Val (fst (spec_step (capacity st) o (contents st))), st') /\
    tss_wf st' /\ capacity st' = capacity st /\
    contents st' = snd (spec_step (capacity st) o (contents st)).
Proof.
  intros Hw. pose proof (contents_length st Hw) as Hl.
  assert (Hsp := wf_sp st Hw). destruct o as [v|]; simpl.
  - case_decide.
    + destruct (tss_push_room st v) as (st' & ? & ? & ? & ?); eauto.
    + rewrite tss_push_full by (done || lia). eauto.
  - destruct (contents st) as [|v l] eqn:E; simpl.
    + rewrite tss_pop_empty by done. eauto.
    + destruct (tss_pop_cons st v l) as (st' & ? & ? & ? & ?); eauto.
Qed.

(** C22: Every sequence of pushes and pops on an initialised stack returns what the
    bounded list returns: last in, first out, [-1] on overflow and on
    underflow, and no assertion or bounds check of the code fails. *)
Theorem tstack_refines_list os st :
  tss_wf st ->
  exists st', impl_run os st = (Val (fst (spec_run (capacity st) os (contents st))), st') /\
    tss_wf st' /\ contents st' = snd (spec_run (capacity st) os (contents st)).
Proof.
  revert st. induction os as [|o os IH]; intros st Hw; simpl; [by eauto|].
  destruct (impl_step_refines o st Hw) as (st1 & H1 & Hw1 & Hc1 & Hl1).
  destruct (spec_step _ o _) as [r l1]. simpl in *.
  destruct (IH st1 Hw1) as (st2 & H2 & Hw2 & Hl2). rewrite Hc1, Hl1 in *.
  destruct (spec_run _ os l1) as [rs l2]. simpl in *.
  exists st2. munfold. rewrite H1. munfold_in H2. by rewrite H2.
Qed.

Lemma tstack_refines_list_witness :
  exists st', impl_run [Push 7; Push 8; Push 9; Pop; Pop; Pop] (Tstack 2 2 [0; 0]) =
    (Val [7; 8; -1; 8; 7; -1], st').
Proof.
  destruct (tstack_refines_list [Push 7; Push 8; Push 9; Pop; Pop; Pop] (Tstack 2 2 [0; 0]))
    as (st' & H & _).
  - split; simpl; lia.
  - exists st'. exact H.
Defined.
