(* ===== verification/Que.v ===== *)
(** * The event queue: src/gwbot/include/gwbot/lib/que.h

    A doubly linked queue of heap nodes.  The heap is a finite map from
    addresses to nodes, so that aliasing between the queue, its nodes and the
    node a consumer holds is explicit. *)
From S2P Require Import Prelude.

Record que_node := Node {
  next : option positive;
  prev : option positive;
  len : Z;                    (** size_t *)
  data : list byte;           (** the flexible array: [len + 2] bytes *)
}.

Record que_master := Que {
  head : option positive;
  tail : option positive;
  count : Z;                  (** uint32_t *)
  qcapacity : Z;              (** uint32_t *)
}.

(** A queue, the heap of nodes, and [errno]. *)
Record qst := Qst {
  que : que_master;
  nodes : gmap positive que_node;
  errno : Z;
}.

#[export] Instance eta_node : Eta que_node := fun r => Node (next r) (prev r) (len r) (data r).
#[export] Instance eta_que : Eta que_master := fun r => Que (head r) (tail r) (count r) (qcapacity r).
#[export] Instance eta_qst : Eta qst := fun r => Qst (que r) (nodes r) (errno r).

Definition que_init (cap : Z) : M qst unit :=
  modify (fun s => s <| que := Que None None 0 cap |>).

Definition que_count (s : qst) : Z := count (que s).

(** Access through a node pointer. *)
Definition load (p : option positive) : M qst que_node :=
  s ← get;
  match p with
  | None => faulty FNull
  | Some l => match nodes s !! l with Some n => mret n | None => faulty FWild end
  end.

Definition store (l : positive) (n : que_node) : M qst unit :=
  modify (fun s => s <| nodes := <[l := n]> (nodes s) |>).

Definition set_que (f : que_master -> que_master) : M qst unit :=
  modify (fun s => s <| que := f (que s) |>).

Definition tassert {S} (P : Prop) `{Decision P} : M S unit :=
  if decide P then mret tt else faulty FAssert.

(** [mem] is what [aligned_alloc] returns: the address of a new block of
    [sizeof node + len + 2] bytes, or NULL.  [dlen] is the argument [len], the
    number of bytes copied from [src]. *)
Definition que_enqueue (mem : option positive) (src : list byte) (dlen : nat) :
    M qst (option positive) :=
  s ← get;
  if decide (count (que s) >= qcapacity (que s)) then
    modify (fun s => s <| errno := EAGAIN |>);;
    mret None
  else
    match mem with
    | None => modify (fun s => s <| errno := ENOMEM |>);; mret None
    | Some node =>
        let block := replicate (dlen + 2) Byte.x00 in
        if decide (length src < dlen)%nat then faulty FBounds
        else
          '(r, block) ← mret ((pokes 0 (take dlen src);; poke (Z.of_nat dlen) Byte.x00) block);
          match r with Fault f => faulty f | _ => mret tt end;;
          let n := Node None None (Z.of_nat dlen) block in
          (match head (que s) with
           | None =>
               tassert (tail (que s) = None);;
               store node (n <| prev := None |>);;
               set_que (fun q => q <| head := Some node |> <| tail := Some node |>)
           | Some _ =>
               tassert (head (que s) <> None);; tassert (tail (que s) <> None);;
               store node (n <| prev := tail (que s) |>);;
               t ← load (tail (que s));
               match tail (que s) with
               | Some tl => store tl (t <| next := Some node |>)
               | None => faulty FNull
               end;;
               set_que (fun q => q <| tail := Some node |>)
           end);;
          set_que (fun q => q <| count := u32 (count q + 1) |>);;
          mret (Some node)
    end.

Definition que_dequeue : M qst (option positive) :=
  s ← get;
  if decide (count (que s) = 0) then
    tassert (head (que s) = None);; tassert (tail (que s) = None);;
    mret None
  else
    let ret := head (que s) in
    n ← load ret;
    (match next n with
     | None =>
         tassert (count (que s) = 1);; tassert (ret = tail (que s));;
         set_que (fun q => q <| head := None |> <| tail := None |>)
     | Some h => set_que (fun q => q <| head := Some h |>)
     end);;
    set_que (fun q => q <| count := u32 (count q - 1) |>);;
    mret ret.

(** [free] of a node: NULL is allowed, a dead address is not. *)
Definition que_node_destroy (p : option positive) : M qst unit :=
  s ← get;
  match p with
  | None => mret tt
  | Some l =>
      match nodes s !! l with
      | Some _ => put (s <| nodes := delete l (nodes s) |>)
      | None => faulty FFree
      end
  end.

(** The loop of [que_destroy]; [fuel] bounds its turns. *)
Fixpoint destroy_loop (fuel : nat) (h : option positive) : M qst unit :=
  match h with
  | None => mret tt
  | Some _ =>
      match fuel with
      | O => faulty FAbort
      | S f => n ← load h; que_node_destroy h;; destroy_loop f (next n)
      end
  end.

Definition que_destroy : M qst unit :=
  s ← get;
  (if decide (count (que s) = 0) then mret tt
   else destroy_loop (S (Z.to_nat (count (que s)))) (head (que s)));;
  que_init 0.

(** ** Representation

    [chain h p l]: from address [p] the heap holds nodes at the addresses of
    [l], linked in order, each with the bytes [l] gives it. *)
Definition node_holds (n : que_node) (d : list byte) : Prop :=
  len n = Z.of_nat (length d) /\ data n = d ++ [Byte.x00; Byte.x00].

Fixpoint chain (h : gmap positive que_node) (p : option positive)
    (l : list (positive * list byte)) : Prop :=
  match l with
  | [] => p = None
  | (a, d) :: l' =>
      p = Some a /\ exists n, h !! a = Some n /\ node_holds n d /\ chain h (next n) l'
  end.

Record que_rep (s : qst) (l : list (positive * list byte)) : Prop := {
  rep_chain : chain (nodes s) (head (que s)) l;
  rep_tail : tail (que s) = last l.*1;
  rep_count : count (que s) = Z.of_nat (length l);
  rep_nodup : NoDup l.*1;
  rep_room : 0 <= qcapacity (que s) < 2 ^ 32;
  rep_bound : Z.of_nat (length l) <= qcapacity (que s);
}.

Lemma chain_insert_other h p l a n :
  a ∉ l.*1 -> chain h p l -> chain (<[a := n]> h) p l.
Proof.
  revert p. induction l as [|[b d] l IH]; intros p Ha; simpl; [done|].
  rewrite fmap_cons, not_elem_of_cons in Ha. destruct Ha as [Hne Ha].
  intros (-> & m & Hm & Hd & Hc). split; [done|]. exists m.
  rewrite lookup_insert_ne by done. auto.
Qed.

Lemma chain_delete_other h p l a :
  a ∉ l.*1 -> chain h p l -> chain (delete a h) p l.
Proof.
  revert p. induction l as [|[b d] l IH]; intros p Ha; simpl; [done|].
  rewrite fmap_cons, not_elem_of_cons in Ha. destruct Ha as [Hne Ha].
  intros (-> & m & Hm & Hd & Hc). split; [done|]. exists m.
  rewrite lookup_delete_ne by done. auto.
Qed.

Lemma chain_live h p l a : chain h p l -> a ∈ l.*1 -> is_Some (h !! a).
Proof.
  revert p. induction l as [|[b d] l IH]; intros p; simpl.
  { rewrite elem_of_nil. done. }
  intros (-> & m & Hm & _ & Hc). rewrite elem_of_cons. intros [->|Ha]; eauto.
Qed.

(** Linking a new node behind the last one. *)
Lemma chain_snoc h p l b d n a m e :
  chain h p (l ++ [(b, d)]) -> NoDup (l ++ [(b, d)]).*1 -> a ∉ (l ++ [(b, d)]).*1 ->
  h !! b = Some n -> node_holds m e -> next m = None ->
  chain (<[b := n <| next := Some a |>]> (<[a := m]> h)) p (l ++ [(b, d); (a, e)]).
Proof.
  revert p. induction l as [|[b' d'] l IH]; intros p Hc Hn Ha Hb Hm Hmn; simpl in *.
  - destruct Hc as (-> & n' & Hn' & Hd & Hnx). simplify_eq.
    rewrite list_elem_of_singleton in Ha. split; [done|].
    exists (n' <| next := Some a |>). rewrite lookup_insert_eq. split; [done|].
    split; [exact Hd|]. simpl. split; [done|]. exists m.
    rewrite lookup_insert_ne, lookup_insert_eq by done. done.
  - destruct Hc as (-> & n' & Hn' & Hd & Hc). split; [done|].
    rewrite not_elem_of_cons in Ha. destruct Ha as [Hne Ha].
    apply NoDup_cons in Hn as [Hb' Hn].
    exists n'. rewrite lookup_insert_ne, lookup_insert_ne; [| |]; [split; auto|done|].
    intros ->. apply Hb'. rewrite fmap_app. apply elem_of_app. right. by left.
Qed.

(** ** The operations *)
Lemma block_copy src dlen :
  (dlen <= length src)%nat ->
  (pokes 0 (take dlen src);; poke (Z.of_nat dlen) Byte.x00) (replicate (dlen + 2) Byte.x00) =
    (Val tt, take dlen src ++ [Byte.x00; Byte.x00]).
Proof.
  intros Hl. assert (Ht : length (take dlen src) = dlen) by (rewrite length_take; lia).
  pose proof (pokes_app [] (replicate (dlen + 2) Byte.x00) 0 (take dlen src) eq_refl) as Hp.
  rewrite Ht, !app_nil_l in Hp. unfold mbind, M_bind.
  rewrite Hp by (rewrite length_replicate; lia).
  rewrite drop_replicate. replace (dlen + 2 - dlen)%nat with 2%nat by lia.
  by rewrite poke_app by (simpl; lia).
Qed.

Definition qinit (cap : Z) : qst := Qst (Que None None 0 cap) ∅ 0.

Lemma que_init_spec cap s :
  0 <= cap < 2 ^ 32 -> exists s', que_init cap s = (Val tt, s') /\ que_rep s' [] /\
    nodes s' = nodes s /\ qcapacity (que s') = cap.
Proof.
  intros Hc. eexists. split; [done|]. split; [|done].
  split; simpl; try done; try lia. constructor.
Qed.

Lemma que_enqueue_full mem src dlen s l :
  que_rep s l -> Z.of_nat (length l) = qcapacity (que s) ->
  que_enqueue mem src dlen s = (Val None, s <| errno := EAGAIN |>).
Proof.
  intros [] Hf. unfold que_enqueue. munfold. rewrite decide_True by lia. done.
Qed.

Lemma que_enqueue_nomem src dlen s l :
  que_rep s l -> Z.of_nat (length l) < qcapacity (que s) ->
  que_enqueue None src dlen s = (Val None, s <| errno := ENOMEM |>).
Proof.
  intros [] Hf. unfold que_enqueue. munfold. rewrite decide_False by lia. done.
Qed.

Lemma que_enqueue_room a src dlen s l :
  que_rep s l -> Z.of_nat (length l) < qcapacity (que s) ->
  nodes s !! a = None -> (dlen <= length src)%nat ->
  exists s', que_enqueue (Some a) src dlen s = (Val (Some a), s') /\
    que_rep s' (l ++ [(a, take dlen src)]) /\
    qcapacity (que s') = qcapacity (que s) /\ errno s' = errno s /\
    (forall b, b ∉ l.*1 -> b <> a -> nodes s' !! b = nodes s !! b).
Proof.
  intros Hr Hroom Ha Hsrc. destruct Hr. unfold que_enqueue. munfold.
  rewrite decide_False, decide_False by lia.
  pose proof (block_copy src dlen Hsrc) as Hb. munfold_in Hb. rewrite Hb. clear Hb.
  set (n := Node None None (Z.of_nat dlen) (take dlen src ++ [Byte.x00; Byte.x00])).
  assert (Hnh : forall q, node_holds (n <| prev := q |>) (take dlen src)).
  { intros q. split; [|done]. simpl. rewrite length_take. lia. }
  assert (Hfresh : a ∉ l.*1).
  { intros Hin. destruct (chain_live _ _ _ _ rep_chain0 Hin). congruence. }
  destruct l as [|[b d] l _] using rev_ind.
  - simpl in rep_chain0, rep_tail0. rewrite rep_chain0. unfold tassert, store, set_que.
    rewrite decide_True by done. munfold. eexists. split; [done|].
    split; [|split; [done|]; split; [done|]; intros b' _ Hne; simpl; by rewrite lookup_insert_ne].
    split; simpl; try (done || lia).
    + split; [done|]. eexists. rewrite lookup_insert_eq. split; [done|]. split; [apply Hnh|done].
    + by rewrite rep_count0.
    + apply NoDup_singleton.
  - assert (Hh : exists h, head (que s) = Some h).
    { destruct l as [|[b' d'] l]; destruct rep_chain0 as [-> _]; eauto. }
    destruct Hh as [h Hh]. rewrite fmap_app in rep_tail0. simpl in rep_tail0. rewrite last_snoc in rep_tail0.
    rewrite Hh. unfold tassert, store, set_que, load.
    rewrite rep_tail0. rewrite decide_True, decide_True by (rewrite ?Hh; done). munfold. simpl.
    assert (Hlb : is_Some (nodes s !! b)).
    { eapply chain_live; [done|]. rewrite fmap_app. apply elem_of_app. right. by left. }
    destruct Hlb as [nb Hnb].
    assert (Hab : a <> b) by (intros ->; congruence).
    rewrite lookup_insert_ne, Hnb by done. cbv beta iota.
    eexists. split; [done|].
    rewrite <- app_assoc. simpl.
    split; [|split; [done|]; split; [done|]].
    + split; simpl.
      * rewrite Hh. apply chain_snoc; [by rewrite <- Hh|done|done|done|apply Hnh|done].
      * rewrite !fmap_app. simpl. by rewrite last_app.
      * rewrite rep_count0, u32_small by (rewrite !length_app in *; simpl in *; lia).
        rewrite !length_app. simpl. lia.
      * change (?l ++ [?x; ?y]) with (l ++ [x] ++ [y]). rewrite app_assoc, fmap_app.
        apply NoDup_app. split; [done|]. split; [|apply NoDup_singleton].
        intros x Hx. simpl. rewrite list_elem_of_singleton. by intros ->.
      * done.
      * rewrite !length_app in *. simpl in *. lia.
    + intros b' Hb' Hne. rewrite fmap_app, not_elem_of_app in Hb'.
      simpl in Hb'. rewrite list_elem_of_singleton in Hb'.
      rewrite !lookup_insert_ne; [done|apply not_eq_sym; tauto..].
Qed.

Lemma que_dequeue_empty s : que_rep s [] -> que_dequeue s = (Val None, s).
Proof.
  intros []. simpl in *. unfold que_dequeue, tassert. munfold.
  by rewrite rep_count0, rep_chain0, rep_tail0, !decide_True.
Qed.

Lemma que_dequeue_cons s a d l :
  que_rep s ((a, d) :: l) ->
  exists s' n, que_dequeue s = (Val (Some a), s') /\ que_rep s' l /\
    nodes s' = nodes s /\ qcapacity (que s') = qcapacity (que s) /\
    nodes s !! a = Some n /\ node_holds n d /\ a ∉ l.*1.
Proof.
  intros []. simpl in *. destruct rep_chain0 as (Hh & n & Hn & Hd & Hc).
  apply NoDup_cons in rep_nodup0 as [Hna Hnd].
  unfold que_dequeue, tassert, load, set_que. munfold.
  rewrite decide_False by lia. rewrite Hh, Hn. cbv beta iota.
  destruct l as [|[b d'] l].
  - simpl in Hc. rewrite Hc, rep_count0, rep_tail0. rewrite !decide_True by done.
    munfold. eexists _, n. split; [done|]. split_and!; try done.
    split; simpl; first [done|by rewrite rep_count0|by constructor|lia].
  - destruct Hc as (Hnx & Hc). rewrite Hnx. cbv beta iota.
    eexists _, n. split; [done|]. split_and!; try done.
    simpl in *. split; simpl; try done; [|lia].
    rewrite rep_count0, u32_small by lia. lia.
Qed.

Lemma node_free_live a s :
  is_Some (nodes s !! a) ->
  que_node_destroy (Some a) s = (Val tt, s <| nodes := delete a (nodes s) |>).
Proof. intros [n Hn]. unfold que_node_destroy. munfold. by rewrite Hn. Qed.

Lemma destroy_loop_spec l fuel p s :
  chain (nodes s) p l -> NoDup l.*1 -> (length l < fuel)%nat ->
  exists s', destroy_loop fuel p s = (Val tt, s') /\ que s' = que s /\
    (forall b, nodes s' !! b = if decide (b ∈ l.*1) then None else nodes s !! b).
Proof.
  revert fuel p s. induction l as [|[a d] l IH]; intros fuel p s Hc Hn Hf; simpl in *.
  { subst p. exists s. by destruct fuel. }
  destruct Hc as (-> & n & Ha & Hd & Hc). apply NoDup_cons in Hn as [Hna Hn].
  destruct fuel as [|f]; [lia|]. cbn [destroy_loop]. unfold load. munfold. rewrite Ha.
  cbv beta iota. rewrite node_free_live by eauto.
  destruct (IH f (next n) (s <| nodes := delete a (nodes s) |>)) as (s' & He & Hq & Hs).
  - simpl. by apply chain_delete_other.
  - done.
  - lia.
  - exists s'. split; [exact He|]. split; [done|]. intros b. rewrite Hs. simpl.
    destruct (decide (b = a)) as [->|Hne].
    + rewrite lookup_delete_eq. repeat case_decide; set_solver.
    + rewrite lookup_delete_ne by done. repeat case_decide; set_solver.
Qed.

(** [que_destroy] frees every node of the queue exactly once and touches no
    other block; the loop ends within [count + 1] turns. *)
Lemma que_destroy_run s l :
  que_rep s l ->
  exists s', que_destroy s = (Val tt, s') /\ que s' = Que None None 0 0 /\
    (forall b, nodes s' !! b = if decide (b ∈ l.*1) then None else nodes s !! b).
Proof.
  intros []. unfold que_destroy, que_init. munfold. case_decide as Hz.
  - destruct l; [|simpl in *; lia]. eexists. split; [done|]. split; [done|].
    done.
  - destruct (destroy_loop_spec l (S (Z.to_nat (count (que s)))) (head (que s)) s)
      as (s' & -> & Hq & Hs); [done|done|lia|].
    eexists. split; [done|]. split; [done|]. exact Hs.
Qed.

(** ** Refinement

    A client enqueues byte strings and consumes them: it dequeues a node, reads
    its bytes and frees it, as a worker thread does.  The observation is the
    success of an enqueue and the bytes of a consumption. *)
Inductive queue_op := Enq (d : list byte) | Consume.
Inductive queue_obs := Accepted (b : bool) | Got (o : option (list byte)).

Definition fifo_step (cap : Z) (o : queue_op) (l : list (list byte)) :
    queue_obs * list (list byte) :=
  match o, l with
  | Enq d, _ =>
      if decide (Z.of_nat (length l) < cap) then (Accepted true, l ++ [d]) else (Accepted false, l)
  | Consume, [] => (Got None, [])
  | Consume, d :: l' => (Got (Some d), l')
  end.

Fixpoint fifo_run (cap : Z) (os : list queue_op) (l : list (list byte)) :
    list queue_obs * list (list byte) :=
  match os with
  | [] => ([], l)
  | o :: os' =>
      let '(r, l1) := fifo_step cap o l in
      let '(rs, l2) := fifo_run cap os' l1 in (r :: rs, l2)
  end.

Section Client.
(** The allocator never returns the address of a live block. *)
Variable fresh_addr : gmap positive que_node -> positive.
Hypothesis fresh_addr_dead : forall h, h !! fresh_addr h = None.

Definition client_step (o : queue_op) : M qst queue_obs :=
  match o with
  | Enq d =>
      s ← get;
      r ← que_enqueue (Some (fresh_addr (nodes s))) d (length d);
      mret (Accepted (bool_decide (r <> None)))
  | Consume =>
      r ← que_dequeue;
      match r with
      | None => mret (Got None)
      | Some a =>
          n ← load (Some a);
          que_node_destroy (Some a);;
          mret (Got (Some (take (Z.to_nat (len n)) (data n))))
      end
  end.

Fixpoint client_run (os : list queue_op) : M qst (list queue_obs) :=
  match os with
  | [] => mret []
  | o :: os' => r ← client_step o; rs ← client_run os'; mret (r :: rs)
  end.

(** The heap holds the nodes of the queue and nothing else. *)
Definition no_leak (s : qst) (l : list (positive * list byte)) : Prop :=
  forall b, is_Some (nodes s !! b) -> b ∈ l.*1.

Lemma client_step_refines o s l :
  que_rep s l -> no_leak s l ->
  exists s' l', client_step o s = (Val (fst (fifo_step (qcapacity (que s)) o l.*2)), s') /\
    que_rep s' l' /\ no_leak s' l' /\ qcapacity (que s') = qcapacity (que s) /\
    l'.*2 = snd (fifo_step (qcapacity (que s)) o l.*2).
Proof.
  intros Hr Hl. destruct o as [d|]; simpl.
  - rewrite length_fmap. munfold. case_decide as Hc.
    + destruct (que_enqueue_room (fresh_addr (nodes s)) d (length d) s l Hr Hc)
        as (s' & -> & Hr' & Hq & _ & Ho); [apply fresh_addr_dead|done|].
      rewrite take_ge in Hr' by done. rewrite bool_decide_true by done.
      eexists s', _. split; [done|]. split; [exact Hr'|]. split; [|split; [done|]].
      * intros b Hb. rewrite fmap_app, elem_of_app. simpl. rewrite list_elem_of_singleton.
        destruct (decide (b ∈ l.*1)) as [|Hn]; [by left|right].
        destruct (decide (b = fresh_addr (nodes s))) as [|Hne]; [done|].
        rewrite Ho in Hb by done. by apply Hl in Hb.
      * rewrite fmap_app. done.
    + rewrite que_enqueue_full with (l := l) by (done || destruct Hr; lia).
      rewrite bool_decide_false by auto. eexists _, l. split; [done|].
      split; [by destruct Hr; split|]. done.
  - munfold. destruct l as [|[a d] l]; simpl.
    + rewrite que_dequeue_empty by done. cbv beta iota. eauto 10.
    + destruct (que_dequeue_cons s a d l Hr) as (s' & n & -> & Hr' & Hn & Hq & Ha & [Hnl Hnd] & Hna).
      cbv beta iota. unfold load. munfold. rewrite Hn, Ha. cbv beta iota.
      rewrite node_free_live by (rewrite Hn; eauto). cbv beta iota.
      rewrite Hnl, Nat2Z.id, Hnd, take_app_length.
      eexists _, l. split; [done|]. split_and!; try done.
      * destruct Hr'. split; try done. simpl. by apply chain_delete_other.
      * intros b. simpl. rewrite Hn. destruct (decide (b = a)) as [->|Hne].
        { rewrite lookup_delete_eq. by intros []. }
        rewrite lookup_delete_ne by done. intros Hb%Hl. simpl in Hb. set_solver.
Qed.

(** C12: The queue is a bounded FIFO: for every sequence of operations the results
    are those of the list, no step faults, and every node that was consumed
    has been freed while every pending one is live. *)
Theorem que_refines_fifo os s l :
  que_rep s l -> no_leak s l ->
  exists s' l', client_run os s = (Val (fst (fifo_run (qcapacity (que s)) os l.*2)), s') /\
    que_rep s' l' /\ no_leak s' l' /\ l'.*2 = snd (fifo_run (qcapacity (que s)) os l.*2).
Proof.
  revert s l. induction os as [|o os IH]; intros s l Hr Hl; simpl; [by eauto 10|].
  destruct (client_step_refines o s l Hr Hl) as (s1 & l1 & H1 & Hr1 & Hl1 & Hq1 & Hd1).
  destruct (fifo_step _ o _) as [r d1]. simpl in *.
  destruct (IH s1 l1 Hr1 Hl1) as (s2 & l2 & H2 & Hr2 & Hl2 & Hd2). rewrite Hq1, Hd1 in *.
  destruct (fifo_run _ os d1) as [rs d2]. simpl in *.
  exists s2, l2. munfold. rewrite H1. munfold_in H2. by rewrite H2.
Qed.
End Client.

Definition first_fit (h : gmap positive que_node) : positive :=
  fresh (map_to_list h).*1.

Lemma first_fit_dead h : h !! first_fit h = None.
Proof.
  apply eq_None_not_Some. intros [n Hn]. unfold first_fit in Hn.
  apply (infinite_is_fresh (map_to_list h).*1). apply list_elem_of_fmap.
  exists (fresh (map_to_list h).*1, n). split; [done|]. by apply elem_of_map_to_list.
Qed.

Lemma que_refines_fifo_witness :
  exists s', client_run first_fit [Enq (bs "a"); Enq (bs "b"); Enq (bs "c"); Consume; Consume; Consume]
      (qinit 2) =
    (Val [Accepted true; Accepted true; Accepted false;
          Got (Some (bs "a")); Got (Some (bs "b")); Got None], s').
Proof.
  destruct (que_refines_fifo first_fit first_fit_dead
    [Enq (bs "a"); Enq (bs "b"); Enq (bs "c"); Consume; Consume; Consume] (qinit 2) [])
    as (s' & l' & H & _).
  - split; simpl; try done; try lia. constructor.
  - intros b [n Hn]. simpl in Hn. by rewrite lookup_empty in Hn.
  - exists s'. exact H.
Defined.
