(* ===== verification/Arena.v ===== *)
(** * The arena allocator: src/gwbot/lib/arena.c

    [main] gives the arena one block of 4096 bytes; the configuration parser
    copies its strings there.  A pointer into the arena is an index. *)
From S2P Require Import Prelude.

Record arena := Arena {
  ar_addr : list byte;
  ar_size : Z;       (** size_t *)
  ar_pos : Z;        (** size_t *)
}.
#[export] Instance eta_arena : Eta arena := fun r => Arena (ar_addr r) (ar_size r) (ar_pos r).

Definition ar_init (ar : list byte) (size : Z) : arena := Arena ar size 0.

Definition ar_unused_size (a : arena) : Z := u64 (ar_size a - ar_pos a).

Definition internal_ar_alloc (len : Z) : M arena Z :=
  a ← get;
  let ret := ar_pos a in
  let pos := u64 (ar_pos a + len) in
  put (a <| ar_pos := pos |>);;
  if decide (ar_size a > pos) then mret ret else faulty FAssert.

Definition ar_alloc : Z -> M arena Z := internal_ar_alloc.

(** Stores to the arena's block. *)
Definition ar_write {A} (m : M (list byte) A) : M arena A :=
  zoom ar_addr (fun l a => a <| ar_addr := l |>) m.

Definition dup (str : list byte) (len : nat) : M arena Z :=
  ret ← internal_ar_alloc (Z.of_nat len + 1);
  ar_write (poke (ret + Z.of_nat len) Byte.x00);;
  ar_write (pokes ret (take len str));;
  mret ret.

Definition ar_strdup (str : list byte) : M arena Z :=
  len ← lift FBounds (strlen str); dup str len.

Definition ar_strndup (str : list byte) (inlen : nat) : M arena Z :=
  len ← lift FBounds (strnlen str inlen); dup str len.

Record arena_wf (a : arena) : Prop := {
  wf_block : Z.of_nat (length (ar_addr a)) = ar_size a;
  wf_size : ar_size a < 2 ^ 63;
  wf_pos : 0 <= ar_pos a < ar_size a;
}.

(** The C string at a pointer. *)
Definition string_at (a : arena) (p : Z) : list byte := c_str (drop (Z.to_nat p) (ar_addr a)).

Lemma ar_init_wf blk : (0 < length blk)%nat -> Z.of_nat (length blk) < 2 ^ 63 ->
  arena_wf (ar_init blk (Z.of_nat (length blk))).
Proof. intros. split; simpl; lia. Qed.

(** What [dup] leaves in the block: the bytes before and after the new string
    keep their values. *)
Lemma dup_spec a str len :
  arena_wf a -> (len <= length str)%nat -> Z.of_nat len < 2 ^ 62 ->
  if decide (ar_pos a + Z.of_nat len + 1 < ar_size a) then
    exists a', dup str len a = (Val (ar_pos a), a') /\ arena_wf a' /\
      ar_pos a' = ar_pos a + Z.of_nat len + 1 /\ ar_size a' = ar_size a /\
      ar_addr a' = take (Z.to_nat (ar_pos a)) (ar_addr a) ++ asz (take len str) ++
                   drop (Z.to_nat (ar_pos a') ) (ar_addr a)
  else fst (dup str len a) = Fault FAssert.
Proof.
  intros [Hb Hs Hp] Hl Hlen. unfold dup, internal_ar_alloc, ar_write. munfold.
  rewrite u64_small by lia. case_decide as Hc.
  2: { rewrite decide_False by lia. done. }
  rewrite decide_True by lia. cbv beta iota.
  set (l := take (Z.to_nat (ar_pos a)) (ar_addr a)).
  set (r := drop (Z.to_nat (ar_pos a)) (ar_addr a)).
  assert (Hlr : ar_addr a = l ++ r) by (unfold l, r; by rewrite take_drop).
  assert (Hll : Z.of_nat (length l) = ar_pos a) by (unfold l; rewrite length_take; lia).
  assert (Hrl : Z.of_nat (length r) = ar_size a - ar_pos a)
    by (unfold r; rewrite length_drop; lia).
  simpl. rewrite Hlr.
  rewrite <- (take_drop len r), app_assoc.
  assert (Htl : length (take len r) = len) by (rewrite length_take; lia).
  rewrite poke_app by (rewrite ?length_app, ?length_drop; lia). cbv beta iota. simpl.
  rewrite <- app_assoc.
  assert (Hts : length (take len str) = len) by (rewrite length_take; lia).
  rewrite pokes_app by (rewrite ?Hts, ?length_app, ?Htl; lia).
  cbv beta iota. eexists. split; [done|]. simpl.
  rewrite Hts, drop_app_length' by done.
  assert (Hd : drop 1 (drop len r) = drop (Z.to_nat (ar_pos a + (Z.of_nat len + 1))) (ar_addr a)).
  { unfold r. rewrite !drop_drop. f_equal. lia. }
  split; [|split; [lia|split; [done|]]].
  - split; simpl; [|done|lia].
    rewrite !length_app, Hts. simpl. rewrite !length_drop. lia.
  - rewrite Hd. unfold asz. by rewrite <- !app_assoc, take_drop, <- Hlr.
Qed.

(** One copy: the bytes below the old position stay, the new string follows. *)
Lemma ar_strndup_spec a s inlen :
  arena_wf a -> no_nul s -> Z.of_nat (length s) < 2 ^ 62 ->
  ar_pos a + Z.of_nat (Nat.min inlen (length s)) + 1 < ar_size a ->
  exists a', ar_strndup (asz s) inlen a = (Val (ar_pos a), a') /\ arena_wf a' /\
    ar_size a' = ar_size a /\
    ar_pos a' = ar_pos a + Z.of_nat (Nat.min inlen (length s)) + 1 /\
    take (Z.to_nat (ar_pos a')) (ar_addr a') =
      take (Z.to_nat (ar_pos a)) (ar_addr a) ++ asz (take inlen s).
Proof.
  intros Hw Hs Hbs Hroom. unfold ar_strndup. munfold. unfold asz at 1.
  rewrite strnlen_asz by done. cbn [lift]. munfold.
  pose proof (dup_spec a (asz s) (Nat.min inlen (length s)) Hw) as Hd.
  rewrite decide_True in Hd by lia.
  destruct Hd as (a1 & H1 & Hw1 & Hp1 & Hs1 & Ha1); [rewrite length_asz; lia|lia|].
  exists a1. do 4 (split; [done|]). rewrite Ha1.
  assert (Htk : take (Nat.min inlen (length s)) (asz s) = take inlen s).
  { unfold asz. rewrite take_app_le by lia. destruct (decide (inlen <= length s)%nat).
    - by rewrite Nat.min_l by lia.
    - rewrite Nat.min_r by lia. by rewrite !take_ge by lia. }
  rewrite Htk, app_assoc. apply take_app_length'. destruct Hw.
  rewrite length_app, length_asz, !length_take. lia.
Qed.

(** ** Many strings

    [dup_all] is the sequence of calls a parser makes; its value is the list
    of the pointers. *)
Fixpoint dup_all (l : list (list byte)) (inlen : nat) : M arena (list Z) :=
  match l with
  | [] => mret []
  | s :: l' => p ← ar_strndup (asz s) inlen; ps ← dup_all l' inlen; mret (p :: ps)
  end.

Definition need (inlen : nat) (l : list (list byte)) : Z :=
  foldr (fun s n => Z.of_nat (Nat.min inlen (length s)) + 1 + n) 0 l.

Lemma need_nonneg inlen l : 0 <= need inlen l.
Proof. induction l; simpl; lia. Qed.

(** The strings allocated earlier lie below [ar_pos]; an allocation keeps the
    block below it, so every pointer keeps its string. *)
Lemma dup_all_spec l inlen a :
  arena_wf a -> Forall no_nul l -> Forall (fun s => Z.of_nat (length s) < 2 ^ 62) l ->
  ar_pos a + need inlen l < ar_size a ->
  exists ps a', dup_all l inlen a = (Val ps, a') /\ arena_wf a' /\ ar_size a' = ar_size a /\
    ar_pos a' = ar_pos a + need inlen l /\
    take (Z.to_nat (ar_pos a)) (ar_addr a') = take (Z.to_nat (ar_pos a)) (ar_addr a) /\
    Forall2 (fun p s => string_at a' p = take inlen s) ps l.
Proof.
  revert a. induction l as [|s l IH]; intros a Hw Hn Hb Hroom.
  { exists [], a. simpl. rewrite Z.add_0_r. done. }
  apply Forall_cons in Hn as [Hs Hn], Hb as [Hbs Hb].
  cbn [need foldr] in Hroom. fold (need inlen l) in Hroom.
  pose proof (need_nonneg inlen l) as Hnn.
  cbn [dup_all]. munfold.
  destruct (ar_strndup_spec a s inlen Hw Hs Hbs) as (a1 & -> & Hw1 & Hs1 & Hp1 & Hpre); [lia|].
  destruct (IH a1 Hw1 Hn Hb) as (ps & a2 & H2 & Hw2 & Hs2 & Hp2 & Ht2 & Hf2); [lia|].
  exists (ar_pos a :: ps), a2. munfold_in H2. rewrite H2. split; [done|].
  split; [done|]. split; [congruence|]. split; [simpl; fold (need inlen l); lia|].
  assert (Hl1 : length (take (Z.to_nat (ar_pos a)) (ar_addr a)) = Z.to_nat (ar_pos a))
    by (destruct Hw; rewrite length_take; lia).
  split; [|constructor; [|exact Hf2]].
  - apply (f_equal (take (Z.to_nat (ar_pos a)))) in Ht2.
    rewrite Hpre, !take_take, take_app_le in Ht2 by lia.
    rewrite Nat.min_l in Ht2 by (destruct Hw; lia). rewrite Ht2, take_take.
    f_equal. lia.
  - unfold string_at.
    rewrite <- (take_drop (Z.to_nat (ar_pos a1)) (ar_addr a2)), Ht2, Hpre.
    rewrite <- app_assoc, drop_app_length' by done. unfold asz. rewrite <- app_assoc. simpl.
    apply c_str_asz. by apply Forall_take.
Qed.

(** C31: Strings copied to the arena stay intact: after any number of copies that
    fit, every returned pointer reads the first [inlen] characters of its
    argument. *)
Theorem arena_strings_stable blk l inlen :
  Z.of_nat (length blk) < 2 ^ 63 -> Forall no_nul l ->
  Forall (fun s => Z.of_nat (length s) < 2 ^ 62) l ->
  need inlen l < Z.of_nat (length blk) ->
  exists ps a', dup_all l inlen (ar_init blk (Z.of_nat (length blk))) = (Val ps, a') /\
    Forall2 (fun p s => string_at a' p = take inlen s) ps l.
Proof.
  intros Hb Hn Hl Hroom. pose proof (need_nonneg inlen l).
  destruct (dup_all_spec l inlen (ar_init blk (Z.of_nat (length blk))))
    as (ps & a' & H1 & _ & _ & _ & _ & H2); [apply ar_init_wf; lia|done|done|done|].
  by exists ps, a'.
Qed.

Lemma arena_strings_stable_witness :
  exists ps a', dup_all [bs "token"; bs "db"] 255 (ar_init (replicate 16 Byte.x00) 16) = (Val ps, a') /\
    Forall2 (fun p s => string_at a' p = take 255 s) ps [bs "token"; bs "db"].
Proof.
  apply (arena_strings_stable (replicate 16 Byte.x00) [bs "token"; bs "db"] 255).
  - simpl. lia.
  - repeat constructor; discriminate.
  - repeat constructor; simpl; lia.
  - simpl. lia.
Defined.
