(* ===== verification/Config.v ===== *)
(** * Configuration: src/gwbot/config.c, src/gwbot/argv.c,
      include/gwbot/config.h and the start of src/gwbot/main.c

    A [char *] of the configuration points into the arena or to an argument of
    the command line.  The records are generic in the type of a string, so
    that the specification can use the characters themselves. *)
From S2P Require Import Prelude CString Arena.

Section Records.
Context {P : Type}.

Record gwbot_sock_cfg := SockCfg {
  bind_addr : option P;
  backlog : Z;           (** int *)
  bind_port : Z;         (** uint16_t *)
}.

Record gwbot_mysql_cfg := MysqlCfg {
  host : option P;
  user : option P;
  pass : option P;
  db : option P;
  port : Z;              (** uint16_t *)
  unix_sock : option P;
  flags : Z;             (** unsigned int *)
}.

Record gwbot_cfg := Cfg {
  cfg_file : option P;
  token : option P;      (** cred.token *)
  sock : gwbot_sock_cfg;
  thread_c : Z;          (** worker.thread_c, uint16_t *)
  mysql : gwbot_mysql_cfg;
  use_db : bool;
}.

#[export] Instance eta_sock : Eta gwbot_sock_cfg :=
  fun r => SockCfg (bind_addr r) (backlog r) (bind_port r).
#[export] Instance eta_mysql : Eta gwbot_mysql_cfg :=
  fun r => MysqlCfg (host r) (user r) (pass r) (db r) (port r) (unix_sock r) (flags r).
#[export] Instance eta_cfg : Eta gwbot_cfg :=
  fun r => Cfg (cfg_file r) (token r) (sock r) (thread_c r) (mysql r) (use_db r).

(** [memset(&cfg, 0, sizeof(cfg))] *)
Definition cfg_zero : gwbot_cfg :=
  Cfg None None (SockCfg None 0 0) 0 (MysqlCfg None None None None 0 None 0) false.
End Records.
Arguments gwbot_sock_cfg P : clear implicits.
Arguments gwbot_mysql_cfg P : clear implicits.
Arguments gwbot_cfg P : clear implicits.

Inductive cptr :=
| PArena (p : Z)               (** a pointer into the arena *)
| PArg (s : list byte).        (** a string of argv *)

Definition deref (a : arena) (p : cptr) : list byte :=
  match p with PArena i => string_at a i | PArg s => c_str s end.

(** The configuration with its strings read. *)
Definition read_cfg (a : arena) (c : gwbot_cfg cptr) : gwbot_cfg (list byte) :=
  let d := fmap (M := option) (deref a) in
  Cfg (d (cfg_file c)) (d (token c))
    (SockCfg (d (bind_addr (sock c))) (backlog (sock c)) (bind_port (sock c)))
    (thread_c c)
    (MysqlCfg (d (host (mysql c))) (d (user (mysql c))) (d (pass (mysql c))) (d (db (mysql c)))
       (port (mysql c)) (d (unix_sock (mysql c))) (flags (mysql c)))
    (use_db c).

(** ** parser_handler *)
Record pstate := PState {
  exec : bool;                 (** ctx->exec *)
  cfg : gwbot_cfg cptr;        (** *ctx->cfg *)
  mem : arena;
}.
#[export] Instance eta_pstate : Eta pstate := fun r => PState (exec r) (cfg r) (mem r).

(** [ar_strndup(value, 255)] *)
Definition cfg_dup (value : list byte) : M pstate cptr :=
  p ← zoom mem (fun a s => s <| mem := a |>) (ar_strndup (asz value) 255);
  mret (PArena p).

Definition set_cfg (f : gwbot_cfg cptr -> gwbot_cfg cptr) : M pstate bool :=
  modify (fun s => s <| cfg := f (cfg s) |>);; mret true.

Definition set_sock {P} (f : gwbot_sock_cfg P -> gwbot_sock_cfg P) (c : gwbot_cfg P) :=
  c <| sock := f (sock c) |>.
Definition set_mysql {P} (f : gwbot_mysql_cfg P -> gwbot_mysql_cfg P) (c : gwbot_cfg P) :=
  c <| mysql := f (mysql c) |>.

Definition out_err : M pstate bool := modify (fun s => s <| exec := false |>);; mret false.

Definition parser_handler (section name : string) (value : list byte) : M pstate bool :=
  if decide (section = "credential"%string) then
    if decide (name = "token"%string) then
      p ← cfg_dup value; set_cfg (fun c => c <| token := Some p |>)
    else out_err
  else if decide (section = "storage"%string) then mret true
  else if decide (section = "mysql"%string) then
    if decide (name = "use_db"%string) then
      set_cfg (fun c => c <| use_db := bool_decide (atoi value <> 0) |>)
    else if decide (name = "host"%string) then
      p ← cfg_dup value; set_cfg (set_mysql (fun m => m <| host := Some p |>))
    else if decide (name = "port"%string) then
      set_cfg (set_mysql (fun m => m <| port := u16 (atoi value) |>))
    else if decide (name = "user"%string) then
      p ← cfg_dup value; set_cfg (set_mysql (fun m => m <| user := Some p |>))
    else if decide (name = "pass"%string) then
      p ← cfg_dup value; set_cfg (set_mysql (fun m => m <| pass := Some p |>))
    else if decide (name = "dbname"%string) then
      p ← cfg_dup value; set_cfg (set_mysql (fun m => m <| db := Some p |>))
    else if decide (name = "unix_sock"%string) then
      p ← cfg_dup value; set_cfg (set_mysql (fun m => m <| unix_sock := Some p |>))
    else out_err
  else if decide (section = "socket"%string) then
    if decide (name = "bind_addr"%string) then
      p ← cfg_dup value; set_cfg (set_sock (fun k => k <| bind_addr := Some p |>))
    else if decide (name = "bind_port"%string) then
      set_cfg (set_sock (fun k => k <| bind_port := u16 (atoi value) |>))
    else if decide (name = "backlog"%string) then
      set_cfg (set_sock (fun k => k <| backlog := atoi value |>))
    else out_err
  else if decide (section = "worker"%string) then
    if decide (name = "thread_c"%string) then
      set_cfg (fun c => c <| thread_c := u16 (atoi value) |>)
    else out_err
  else out_err.

(** ** gwbot_cfg_parse

    The INI reader of src/ext/inih turns the lines of a file into calls of the
    handler; a line that is neither a section, a pair nor a comment is an
    error.  Its result is the number of the first line with an error. *)
Inductive ini_line :=
| Pair (section name : string) (value : list byte)
| Blank               (** comment, blank line or section header *)
| Malformed.

Fixpoint ini_lines (ls : list ini_line) (lineno error : Z) : M pstate Z :=
  match ls with
  | [] => mret error
  | l :: ls' =>
      let lineno := lineno + 1 in
      match l with
      | Pair s n v =>
          ok ← parser_handler s n v;
          ini_lines ls' lineno
            (if (ok : bool) then error else if decide (error = 0) then lineno else error)
      | Blank => ini_lines ls' lineno error
      | Malformed => ini_lines ls' lineno (if decide (error = 0) then lineno else error)
      end
  end.

(** [-2] when the reader cannot allocate its line buffer. *)
Definition ini_parse_file (oom : bool) (ls : list ini_line) : M pstate Z :=
  if oom then mret (-2) else ini_lines ls 0 0.

(** [file] is what [fopen] gives: the lines, or an error number. *)
Definition gwbot_cfg_parse (file : list ini_line + Z) (oom : bool) : M pstate Z :=
  modify (fun s => s <| exec := true |>);;
  s ← get;
  match cfg_file (cfg s) with
  | None => mret 0
  | Some f =>
      if decide (deref (mem s) f = []) then mret 0
      else
        match file with
        | inr err => mret (- err)
        | inl ls =>
            r ← ini_parse_file oom ls;
            if decide (r < 0) then mret (-1)
            else s ← get; if exec s then mret 0 else mret (- EINVAL)
        end
  end.

(** ** gwbot_argv_parse

    [getopt_long] is a function of the C library: the model takes the list of
    its results. *)
Inductive getopt_res := Opt_h | Opt_v | Opt_t (optarg : list byte) | Opt_c (optarg : list byte)
| Opt_other.   (** [-D], an unknown option or a missing argument *)

Inductive argv_out := Code (c : Z) (cfg : gwbot_cfg cptr) | Exits (status : Z).

(** [trunc_str(optarg, 255)] *)
Definition trunc_arg (optarg : list byte) : cptr :=
  PArg (snd (Bounded.trunc_str 255 optarg)).

Fixpoint getopt_handler (os : list getopt_res) (c : gwbot_cfg cptr) : argv_out :=
  match os with
  | [] => Code 0 c
  | Opt_h :: _ => Exits 0
  | Opt_v :: _ => Exits 0
  | Opt_t s :: os' => getopt_handler os' (c <| token := Some (trunc_arg s) |>)
  | Opt_c s :: os' => getopt_handler os' (c <| cfg_file := Some (trunc_arg s) |>)
  | Opt_other :: _ => Code (- EINVAL) c
  end.

Definition gwbot_argv_parse (os : list getopt_res) (c : gwbot_cfg cptr) : argv_out :=
  match getopt_handler os c with
  | Code ret c' => if decide (ret < 0) then Code ret c' else Code 0 c'
  | Exits s => Exits s
  end.

(** [main] up to the call of [gwbot_run]: the code it returns at once, or the
    configuration and the arena it runs with. *)
Definition main_config (os : list getopt_res) (file : list ini_line + Z) (oom : bool) :
    out (Z + gwbot_cfg cptr * arena) :=
  let buf := replicate 4096 Byte.x00 in
  match gwbot_argv_parse os cfg_zero with
  | Exits s => Exit s
  | Code ret c =>
      if decide (ret <> 0) then Val (inl ret)
      else
        match cfg_file c with
        | None => Val (inr (c, ar_init buf 4096))
        | Some _ =>
            match gwbot_cfg_parse file oom (PState true c (ar_init buf 4096)) with
            | (Val r, s) => if decide (r <> 0) then Val (inl r) else Val (inr (cfg s, mem s))
            | (Exit e, _) => Exit e
            | (Fault f, _) => Fault f
            end
        end
  end.

(** ** Specification

    A setting is what the last pair of the file with its section and name
    says; a string is cut to 255 characters. *)
Fixpoint last_value (sec nm : string) (ls : list ini_line) : option (list byte) :=
  match ls with
  | [] => None
  | Pair s n v :: ls' =>
      match last_value sec nm ls' with
      | Some w => Some w
      | None => if decide (s = sec /\ n = nm) then Some v else None
      end
  | _ :: ls' => last_value sec nm ls'
  end.

Definition str_setting (sec nm : string) (ls : list ini_line) (old : option (list byte)) :=
  match last_value sec nm ls with Some v => Some (take 255 v) | None => old end.

Definition num_setting {A} (f : list byte -> A) (sec nm : string) (ls : list ini_line) (old : A) :=
  match last_value sec nm ls with Some v => f v | None => old end.

Definition spec_cfg (ls : list ini_line) (c : gwbot_cfg (list byte)) : gwbot_cfg (list byte) :=
  let m := mysql c in
  Cfg (cfg_file c)
    (str_setting "credential" "token" ls (token c))
    (SockCfg (str_setting "socket" "bind_addr" ls (bind_addr (sock c)))
       (num_setting atoi "socket" "backlog" ls (backlog (sock c)))
       (num_setting (fun v => u16 (atoi v)) "socket" "bind_port" ls (bind_port (sock c))))
    (num_setting (fun v => u16 (atoi v)) "worker" "thread_c" ls (thread_c c))
    (MysqlCfg (str_setting "mysql" "host" ls (host m)) (str_setting "mysql" "user" ls (user m))
       (str_setting "mysql" "pass" ls (pass m)) (str_setting "mysql" "dbname" ls (db m))
       (num_setting (fun v => u16 (atoi v)) "mysql" "port" ls (port m))
       (str_setting "mysql" "unix_sock" ls (unix_sock m)) (flags m))
    (num_setting (fun v => bool_decide (atoi v <> 0)) "mysql" "use_db" ls (use_db c)).

(** The pairs the program accepts. *)
Definition known (s n : string) : bool :=
  bool_decide (s = "storage"%string \/
    (s, n) ∈ [("credential", "token"); ("mysql", "use_db"); ("mysql", "host"); ("mysql", "port");
              ("mysql", "user"); ("mysql", "pass"); ("mysql", "dbname"); ("mysql", "unix_sock");
              ("socket", "bind_addr"); ("socket", "bind_port"); ("socket", "backlog");
              ("worker", "thread_c")]%string).

Definition line_known (l : ini_line) : bool :=
  match l with Pair s n _ => known s n | _ => true end.

Definition value_ok (l : ini_line) : Prop :=
  match l with Pair _ _ v => no_nul v /\ Z.of_nat (length v) < 2 ^ 62 | _ => True end.

(** An upper bound of the arena bytes the lines take. *)
Definition arena_need (ls : list ini_line) : Z :=
  foldr (fun l n => match l with Pair _ _ v => Z.of_nat (Nat.min 255 (length v)) + 1 + n | _ => n end)
    0 ls.

Lemma arena_need_pair s n v ls :
  arena_need (Pair s n v :: ls) = Z.of_nat (Nat.min 255 (length v)) + 1 + arena_need ls.
Proof. done. Qed.
Lemma arena_need_nonneg ls : 0 <= arena_need ls.
Proof. induction ls as [|[]]; rewrite ?arena_need_pair; done || lia. Qed.
#[local] Arguments arena_need : simpl never.
#[local] Arguments Nat.min : simpl never.

(** ** Pointers stay readable *)
Definition ptr_ok (a : arena) (p : cptr) : Prop :=
  match p with
  | PArg _ => True
  | PArena i => 0 <= i <= ar_pos a /\ exists s t, no_nul s /\
      drop (Z.to_nat i) (take (Z.to_nat (ar_pos a)) (ar_addr a)) = s ++ Byte.x00 :: t
  end.

Definition opt_ok (a : arena) (o : option cptr) : Prop :=
  match o with Some p => ptr_ok a p | None => True end.

Definition cfg_ok (a : arena) (c : gwbot_cfg cptr) : Prop :=
  let m := mysql c in
  opt_ok a (cfg_file c) /\ opt_ok a (token c) /\ opt_ok a (bind_addr (sock c)) /\
  opt_ok a (host m) /\ opt_ok a (user m) /\ opt_ok a (pass m) /\ opt_ok a (db m) /\
  opt_ok a (unix_sock m).

(** [a'] extends [a]: it keeps the bytes below the position. *)
Definition extends (a a' : arena) : Prop :=
  ar_pos a <= ar_pos a' /\ exists t,
    take (Z.to_nat (ar_pos a')) (ar_addr a') = take (Z.to_nat (ar_pos a)) (ar_addr a) ++ t.

Lemma drop_take_split (l : list byte) i n s t :
  drop i (take n l) = s ++ Byte.x00 :: t -> no_nul s -> c_str (drop i l) = s.
Proof.
  intros Hd Hs. rewrite <- (take_drop n l).
  destruct (decide (i <= length (take n l))%nat) as [Hi|Hi].
  - rewrite drop_app_le by done. rewrite Hd, <- app_assoc. simpl. by apply c_str_asz.
  - rewrite drop_ge in Hd by lia. by destruct s.
Qed.

Lemma extends_ptr a a' p :
  arena_wf a -> extends a a' -> ptr_ok a p -> ptr_ok a' p /\ deref a' p = deref a p.
Proof.
  intros Hw [Hp [t Ht]]. destruct p as [i|s]; [|done].
  intros (Hi & s & t' & Hs & Hd). simpl. unfold string_at.
  assert (Hd' : drop (Z.to_nat i) (take (Z.to_nat (ar_pos a')) (ar_addr a')) =
                s ++ Byte.x00 :: t' ++ t).
  { rewrite Ht, drop_app_le, Hd, <- app_assoc; [done|]. destruct Hw.
    rewrite length_take. lia. }
  split; [split; [lia|by eauto]|]. erewrite !drop_take_split by done. done.
Qed.

Lemma extends_refl a : extends a a.
Proof. split; [lia|]. exists []. by rewrite app_nil_r. Qed.

Lemma extends_opt a a' o :
  arena_wf a -> extends a a' -> opt_ok a o ->
  opt_ok a' o /\ deref a' <$> o = deref a <$> o.
Proof.
  intros Hw He. destruct o as [p|]; [|done]. intros Hp.
  destruct (extends_ptr a a' p Hw He Hp) as [? E]. split; [done|]. simpl. by rewrite E.
Qed.

Lemma extends_cfg a a' c :
  arena_wf a -> extends a a' -> cfg_ok a c -> cfg_ok a' c /\ read_cfg a' c = read_cfg a c.
Proof.
  intros Hw He (H1 & H2 & H3 & H4 & H5 & H6 & H7 & H8).
  unfold cfg_ok, read_cfg.
  repeat match goal with
    H : opt_ok a _ |- _ => apply (extends_opt a a' _ Hw He) in H as [? ->]
  end. split_and!; done.
Qed.

(** ** One line *)
Lemma cfg_dup_spec s v :
  arena_wf (mem s) -> no_nul v -> Z.of_nat (length v) < 2 ^ 62 ->
  ar_pos (mem s) + Z.of_nat (Nat.min 255 (length v)) + 1 < ar_size (mem s) ->
  exists p a', cfg_dup v s = (Val p, s <| mem := a' |>) /\ arena_wf a' /\
    extends (mem s) a' /\ ptr_ok a' p /\ deref a' p = take 255 v /\
    ar_size a' = ar_size (mem s) /\
    ar_pos a' = ar_pos (mem s) + Z.of_nat (Nat.min 255 (length v)) + 1.
Proof.
  intros Hw Hv Hl Hroom. unfold cfg_dup. munfold.
  destruct (ar_strndup_spec (mem s) v 255 Hw Hv Hl Hroom) as (a' & -> & Hw' & Hs & Hp & Ht).
  cbv beta iota. exists (PArena (ar_pos (mem s))), a'.
  assert (Hd : drop (Z.to_nat (ar_pos (mem s))) (take (Z.to_nat (ar_pos a')) (ar_addr a')) =
               take 255 v ++ [Byte.x00]).
  { rewrite Ht. apply drop_app_length'. destruct Hw. rewrite length_take. lia. }
  assert (Hn : no_nul (take 255 v)) by by apply Forall_take.
  split_and!; try done.
  - split; [lia|]. by eexists.
  - split; [destruct Hw; lia|]. by exists (take 255 v), [].
  - simpl. unfold string_at. by eapply drop_take_split.
Qed.

(** The state after a line stays well formed and reads as the specification
    of that line. *)
Definition line_post (l : ini_line) (s s' : pstate) : Prop :=
  arena_wf (mem s') /\ cfg_ok (mem s') (cfg s') /\ exec s' = exec s /\
  ar_size (mem s') = ar_size (mem s) /\ ar_pos (mem s') <= ar_pos (mem s) + arena_need [l] /\
  read_cfg (mem s') (cfg s') = spec_cfg [l] (read_cfg (mem s) (cfg s)).

Ltac solve_known :=
  repeat match goal with
  | H : _ \/ _ |- _ => destruct H as [H|H]
  | H : (_, _) = (_, _) |- _ => injection H as <- <-
  | H : False |- _ => destruct H
  end.

(** Decides the comparisons of section and name literals. *)
Ltac decide_strings :=
  repeat match goal with
  | |- context [decide (?a = ?b)] =>
      first [rewrite (decide_True (P := a = b)) by done
            |rewrite (decide_False (P := a = b)) by done]
  end.

Lemma handler_dup n v (f : cptr -> gwbot_cfg cptr -> gwbot_cfg cptr) sec s :
  arena_wf (mem s) -> cfg_ok (mem s) (cfg s) -> value_ok (Pair sec n v) ->
  ar_pos (mem s) + arena_need [Pair sec n v] < ar_size (mem s) ->
  (forall a p c, cfg_ok a c -> ptr_ok a p -> cfg_ok a (f p c)) ->
  (forall a p c, deref a p = take 255 v ->
     read_cfg a (f p c) = spec_cfg [Pair sec n v] (read_cfg a c)) ->
  exists s', (p ← cfg_dup v; set_cfg (f p)) s = (Val true, s') /\ line_post (Pair sec n v) s s'.
Proof.
  intros Hw Hc [Hv Hl] Hroom Hok Hread. rewrite arena_need_pair in Hroom.
  change (arena_need []) with 0 in Hroom.
  destruct (cfg_dup_spec s v Hw Hv Hl) as (p & a' & Hd & Hw' & He & Hp & Hdr & Hs & Hpos); [lia|].
  destruct (extends_cfg _ _ _ Hw He Hc) as [Hc' Hr].
  unfold set_cfg. munfold_in Hd. munfold. rewrite Hd. cbv beta iota.
  eexists. split; [done|]. unfold line_post. simpl. rewrite Hread, Hr by done.
  split_and!; auto. rewrite arena_need_pair. change (arena_need []) with 0. lia.
Qed.

Lemma handler_num n v (f : gwbot_cfg cptr -> gwbot_cfg cptr) sec s :
  arena_wf (mem s) -> cfg_ok (mem s) (cfg s) ->
  (forall a c, cfg_ok a c -> cfg_ok a (f c)) ->
  (forall a c, read_cfg a (f c) = spec_cfg [Pair sec n v] (read_cfg a c)) ->
  exists s', set_cfg f s = (Val true, s') /\ line_post (Pair sec n v) s s'.
Proof.
  intros Hw Hc Hok Hread. eexists. split; [done|]. unfold line_post. simpl.
  rewrite Hread. split_and!; auto.
  pose proof (arena_need_nonneg [Pair sec n v]). lia.
Qed.

Lemma parser_handler_known sec n v s :
  arena_wf (mem s) -> cfg_ok (mem s) (cfg s) -> value_ok (Pair sec n v) ->
  ar_pos (mem s) + arena_need [Pair sec n v] < ar_size (mem s) -> known sec n = true ->
  exists s', parser_handler sec n v s = (Val true, s') /\ line_post (Pair sec n v) s s'.
Proof.
  intros Hw Hc Hv Hroom Hk. apply bool_decide_eq_true in Hk as [->|Hk].
  { exists s. split; [done|]. pose proof (arena_need_nonneg [Pair "storage" n v]).
    unfold line_post. split_and!; try (done || lia). }
  rewrite list_elem_of_In in Hk. simpl in Hk. solve_known; unfold parser_handler;
    decide_strings.
  all: first
    [ apply (handler_dup _ _ (fun p c => _)); [done|done|done|done
      |intros a p c (?&?&?&?&?&?&?&?) ?; by split_and!
      |intros a p c Hd; destruct c as [? ? [] ? [] ?]; unfold read_cfg; simpl;
         rewrite Hd; reflexivity]
    | apply handler_num; [done|done
      |intros a c Hok; destruct c as [? ? [] ? [] ?]; exact Hok
      |intros a c; destruct c as [? ? [] ? [] ?]; reflexivity] ].
Qed.

Lemma str_setting_cons sec nm l ls old :
  str_setting sec nm (l :: ls) old = str_setting sec nm ls (str_setting sec nm [l] old).
Proof.
  unfold str_setting. destruct l; simpl; [|done..].
  case_decide; destruct (last_value sec nm ls); done.
Qed.

Lemma num_setting_cons {A} (f : list byte -> A) sec nm l ls old :
  num_setting f sec nm (l :: ls) old = num_setting f sec nm ls (num_setting f sec nm [l] old).
Proof.
  unfold num_setting. destruct l; simpl; [|done..].
  case_decide; destruct (last_value sec nm ls); done.
Qed.

Lemma spec_cfg_cons l ls c : spec_cfg (l :: ls) c = spec_cfg ls (spec_cfg [l] c).
Proof.
  unfold spec_cfg at 1 2. cbn [token sock bind_addr backlog bind_port thread_c mysql host user
    pass db port unix_sock flags use_db cfg_file].
  f_equal; [apply str_setting_cons| |apply num_setting_cons| |apply num_setting_cons];
    f_equal; apply str_setting_cons || apply num_setting_cons.
Qed.

Lemma spec_cfg_other l c : match l with Pair s n _ => known s n = false | _ => True end ->
  spec_cfg [l] c = c.
Proof.
  destruct c as [? ? [] ? [] ?], l as [s n v| |]; [|done..].
  intros Hk. apply bool_decide_eq_false in Hk.
  rewrite list_elem_of_In in Hk. simpl in Hk.
  unfold spec_cfg, str_setting, num_setting. simpl.
  repeat match goal with
  | |- context [decide (s = ?a /\ n = ?b)] =>
      rewrite (decide_False (P := s = a /\ n = b)) by (intros [-> ->]; tauto)
  end. done.
Qed.

Lemma parser_handler_unknown sec n v s :
  known sec n = false -> parser_handler sec n v s = (Val false, s <| exec := false |>).
Proof.
  intros Hk. apply bool_decide_eq_false in Hk. rewrite list_elem_of_In in Hk. simpl in Hk.
  unfold parser_handler.
  repeat (case_decide; [subst; try tauto|]); try done;
    repeat (case_decide; [subst; exfalso; tauto|]); done.
Qed.

(** ** The whole file *)
Lemma ini_lines_spec ls s lineno error :
  arena_wf (mem s) -> cfg_ok (mem s) (cfg s) -> Forall value_ok ls ->
  ar_pos (mem s) + arena_need ls < ar_size (mem s) -> 0 <= error -> 0 <= lineno ->
  exists r s', ini_lines ls lineno error s = (Val r, s') /\ 0 <= r /\
    exec s' = exec s && forallb line_known ls /\
    read_cfg (mem s') (cfg s') = spec_cfg ls (read_cfg (mem s) (cfg s)).
Proof.
  revert s lineno error. induction ls as [|l ls IH]; intros s lineno error Hw Hc Hv Hroom He Hn.
  { exists error, s. rewrite andb_true_r. by destruct (read_cfg _ _) as [? ? [] ? [] ?]. }
  apply Forall_cons in Hv as [Hvl Hv]. rewrite spec_cfg_cons.
  assert (Hstep : match l with Pair _ _ _ => False | _ => True end ->
    exists r s', ini_lines ls (lineno + 1)
      (match l with Malformed => if decide (error = 0) then lineno + 1 else error | _ => error end)
        s = (Val r, s') /\ 0 <= r /\ exec s' = exec s && forallb line_known (l :: ls) /\
    read_cfg (mem s') (cfg s') = spec_cfg ls (spec_cfg [l] (read_cfg (mem s) (cfg s)))).
  { intros Hl. rewrite (spec_cfg_other l) by (by destruct l).
    destruct l as [s0 n v| |]; [done|..]; apply IH; try done; try lia. by case_decide; lia. }
  destruct l as [sec n v| |]; cbn [ini_lines]; [|by apply Hstep..]. clear Hstep.
  rewrite arena_need_pair in Hroom. pose proof (arena_need_nonneg ls) as Hnn.
  unfold mbind, M_bind. cbn [forallb line_known]. destruct (known sec n) eqn:Hk.
  - destruct (parser_handler_known sec n v s Hw Hc Hvl)
      as (s1 & -> & Hw1 & Hc1 & Hx1 & Hs1 & Hp1 & Hr1); [|done|].
    + rewrite arena_need_pair. change (arena_need []) with 0. lia.
    + rewrite arena_need_pair in Hp1. change (arena_need []) with 0 in Hp1.
      destruct (IH s1 (lineno + 1) error Hw1 Hc1 Hv) as (r & s' & He1 & Hr & Hx & Hrd);
        [lia..|]. exists r, s'. rewrite He1, Hx, Hx1, Hrd, Hr1. done.
  - rewrite parser_handler_unknown by done.
    destruct (IH (s <| exec := false |>) (lineno + 1) (if decide (error = 0) then lineno + 1 else error))
      as (r & s' & He1 & Hr & Hx & Hrd); [done|done|done|simpl; lia|case_decide; lia|lia|].
    exists r, s'. rewrite He1. split; [done|]. split; [done|].
    rewrite Hx, Hrd, andb_false_r. split; [done|]. by rewrite spec_cfg_other.
Qed.

(** C30: A file of known settings is accepted and every setting has the value of
    its last line, cut to 255 characters, whatever the order of the lines and
    however many strings share the arena.  Lines that are not INI syntax are
    skipped: the reader reports them with a positive number, and
    [gwbot_cfg_parse] looks for a negative one. *)
Theorem cfg_parse_last_wins ls s f :
  arena_wf (mem s) -> cfg_ok (mem s) (cfg s) -> Forall value_ok ls ->
  ar_pos (mem s) + arena_need ls < ar_size (mem s) ->
  cfg_file (cfg s) = Some f -> deref (mem s) f <> [] ->
  forallb line_known ls = true ->
  exists s', gwbot_cfg_parse (inl ls) false s = (Val 0, s') /\
    read_cfg (mem s') (cfg s') = spec_cfg ls (read_cfg (mem s) (cfg s)).
Proof.
  intros Hw Hc Hv Hroom Hf Hne Hk. unfold gwbot_cfg_parse. munfold. simpl. rewrite Hf.
  rewrite decide_False by done. unfold ini_parse_file.
  destruct (ini_lines_spec ls (s <| exec := true |>) 0 0)
    as (r & s' & He & Hr & Hx & Hrd); [done..|].
  munfold. rewrite He. cbv beta iota. rewrite decide_False by lia. munfold.
  rewrite Hx, Hk. simpl. by exists s'.
Qed.

(** A pair the program does not know makes it refuse the file, wherever the
    pair stands. *)
Theorem cfg_parse_unknown ls s f :
  arena_wf (mem s) -> cfg_ok (mem s) (cfg s) -> Forall value_ok ls ->
  ar_pos (mem s) + arena_need ls < ar_size (mem s) ->
  cfg_file (cfg s) = Some f -> deref (mem s) f <> [] ->
  (fst (gwbot_cfg_parse (inl ls) false s) = Val (- EINVAL) <-> forallb line_known ls = false).
Proof.
  intros Hw Hc Hv Hroom Hf Hne. unfold gwbot_cfg_parse. munfold. simpl. rewrite Hf.
  rewrite decide_False by done. unfold ini_parse_file.
  destruct (ini_lines_spec ls (s <| exec := true |>) 0 0)
    as (r & s' & He & Hr & Hx & Hrd); [done..|].
  munfold. rewrite He. cbv beta iota. rewrite decide_False by lia. munfold.
  rewrite Hx. simpl. by destruct (forallb line_known ls).
Qed.

(** *** Witnesses *)
Definition demo_lines : list ini_line :=
  [Blank; Pair "credential" "token" (bs "1:abc"); Pair "socket" "bind_port" (bs "8080");
   Malformed; Pair "socket" "bind_port" (bs "65537")].

Definition demo_state : pstate :=
  PState true (Cfg (Some (PArg (asz (bs "config.ini")))) None (SockCfg None 0 0) 0
                 (MysqlCfg None None None None 0 None 0) false)
    (ar_init (replicate 64 Byte.x00) 64).

Lemma demo_state_ok : arena_wf (mem demo_state) /\ cfg_ok (mem demo_state) (cfg demo_state).
Proof. split; [split; simpl; lia|done]. Qed.

Lemma demo_values : Forall value_ok demo_lines.
Proof. repeat constructor; (discriminate || simpl; lia). Qed.

Lemma cfg_parse_last_wins_witness :
  exists s', gwbot_cfg_parse (inl demo_lines) false demo_state = (Val 0, s') /\
    token (read_cfg (mem s') (cfg s')) = Some (bs "1:abc") /\
    bind_port (sock (read_cfg (mem s') (cfg s'))) = 1.
Proof.
  destruct (cfg_parse_last_wins demo_lines demo_state (PArg (asz (bs "config.ini"))))
    as (s' & H & Hr).
  - apply demo_state_ok.
  - apply demo_state_ok.
  - apply demo_values.
  - vm_compute. reflexivity.
  - reflexivity.
  - discriminate.
  - reflexivity.
  - exists s'. split; [exact H|]. rewrite Hr. split; vm_compute; reflexivity.
Defined.

Lemma cfg_parse_unknown_witness :
  fst (gwbot_cfg_parse (inl (demo_lines ++ [Pair "socket" "colour" (bs "red")])) false demo_state) =
    Val (- EINVAL).
Proof.
  apply (cfg_parse_unknown _ demo_state (PArg (asz (bs "config.ini")))).
  - apply demo_state_ok.
  - apply demo_state_ok.
  - apply Forall_app. split; [apply demo_values|]. repeat constructor; (discriminate || simpl; lia).
  - vm_compute. reflexivity.
  - reflexivity.
  - discriminate.
  - reflexivity.
Defined.
