(* ===== verification/Json.v ===== *)
(** * JSON values: what the program uses of json-c (src/ext/json-c)

    The library's accessors are translated from its [json_object.c]; its
    serialiser and its tokener are parameters, the class [JsonLib].  A
    [json_object *] is a value of type [json], and [JNull] is the NULL pointer,
    which is how json-c represents the JSON value null. *)
From S2P Require Import Prelude.
From Stdlib Require Import Floats.SpecFloat.

Inductive json :=
| JNull
| JBool (b : bool)
| JInt (z : Z)                (** json_object_int_type_int64 *)
| JUint (z : Z)               (** json_object_int_type_uint64 *)
| JDouble (d : spec_float)
| JString (s : list byte)
| JArray (l : list json)
| JObject (l : list (string * json)).

Inductive tok_error := json_tokener_success | json_tokener_continue | json_tokener_error.

#[export] Instance tok_error_dec : EqDecision tok_error.
Proof. solve_decision. Defined.

Class JsonLib := {
  (** [json_object_to_json_string]: the text of a value. *)
  json_object_to_json_string : json -> list byte;
  (** The conversions of a NaN to an integer, which C leaves open. *)
  nan_int64 : Z;
  nan_uint64 : Z;
  (** The incremental parser: its state, and one call of it. *)
  tokener : Type;
  json_tokener_new : tokener;
  json_tokener_parse_ex : tokener -> list byte -> tokener * tok_error * json;
}.

(** A string value of the source: NULL or the characters of a C string. *)
Definition cstr : Type := option (list byte).

(** The truncation of a finite double to an integer. *)
Definition sf_trunc (s : bool) (m : positive) (e : Z) : Z :=
  let v := if decide (0 <= e) then Zpos m * 2 ^ e else Zpos m / 2 ^ (- e) in
  if s then - v else v.

Section Accessors.
Context `{JsonLib}.

(** [None]: no such key, or not an object. *)
Fixpoint assoc (k : string) (l : list (string * json)) : option json :=
  match l with
  | [] => None
  | (k', v) :: l' => if decide (k = k') then Some v else assoc k l'
  end.

Definition json_object_object_get_ex (jso : json) (key : string) : option json :=
  match jso with JObject l => assoc key l | _ => None end.

Definition json_object_get_boolean (jso : json) : bool :=
  match jso with
  | JBool b => b
  | JInt z | JUint z => bool_decide (z <> 0)
  | JDouble d => match d with S754_zero _ => false | _ => true end
  | JString s => bool_decide (s <> [])
  | _ => false
  end.

Definition int64_max : Z := 2 ^ 63 - 1.
Definition int64_min : Z := - 2 ^ 63.
Definition uint64_max : Z := 2 ^ 64 - 1.

Definition json_object_get_int64 (jso : json) : Z :=
  match jso with
  | JInt z => z
  | JUint z => if decide (int64_max <= z) then int64_max else z
  | JDouble d =>
      match d with
      | S754_zero _ => 0
      | S754_infinity s => if s then int64_min else int64_max
      | S754_nan => nan_int64
      | S754_finite s m e =>
          let v := sf_trunc s m e in
          if decide (2 ^ 63 <= v) then int64_max
          else if decide (v <= int64_min) then int64_min else v
      end
  | JBool b => if b then 1 else 0
  | JString s => let s := c_str s in if has_digits s then strtol s else 0
  | _ => 0
  end.

(** The spaces [json_parse_uint64] skips before it looks for a sign. *)
Fixpoint skip_blanks (s : list byte) : list byte :=
  match s with
  | c :: s' => if decide (c = " "%byte) then skip_blanks s' else s
  | [] => []
  end.

Definition json_parse_uint64 (s : list byte) : option Z :=
  let s := skip_blanks s in
  match s with
  | c :: _ => if decide (c = "-"%byte) then None
              else if has_digits s then Some (strtoull s) else None
  | [] => None
  end.

Definition json_object_get_uint64 (jso : json) : Z :=
  match jso with
  | JInt z => if decide (z < 0) then 0 else z
  | JUint z => z
  | JDouble d =>
      match d with
      | S754_zero _ => 0
      | S754_infinity s => if s then 0 else uint64_max
      | S754_nan => nan_uint64
      | S754_finite s m e =>
          let v := sf_trunc s m e in
          if decide (2 ^ 64 <= v) then uint64_max else if decide (v < 0) then 0 else v
      end
  | JBool b => if b then 1 else 0
  | JString s => default 0 (json_parse_uint64 (c_str s))
  | _ => 0
  end.

Definition json_object_get_string (jso : json) : cstr :=
  match jso with
  | JNull => None
  | JString s => Some (c_str s)
  | _ => Some (c_str (json_object_to_json_string jso))
  end.

(** Both assert that the value is an array. *)
Definition json_object_array_length {S} (jso : json) : M S Z :=
  match jso with JArray l => mret (Z.of_nat (length l)) | _ => faulty FAssert end.

Definition json_object_array_get_idx {S} (jso : json) (i : nat) : M S json :=
  match jso with JArray l => mret (default JNull (l !! i)) | _ => faulty FAssert end.

Lemma get_string_no_nul j s : json_object_get_string j = Some s -> no_nul s.
Proof. destruct j; simpl; intros; simplify_eq; auto with gw. Qed.

(** What a JSON integer of the range of a 64-bit type reads as. *)
Lemma get_uint64_JInt z : 0 <= z -> json_object_get_uint64 (JInt z) = z.
Proof. intros. simpl. by rewrite decide_False by lia. Qed.
End Accessors.

#[export] Hint Resolve get_string_no_nul : gw.
