(* ===== verification/TgEvent.v ===== *)
(** * Telegram events: include/gwbot/lib/tg_event.h, lib/tg_event.c and the
      headers of include/gwbot/lib/tg_event/

    The parsers fill a [struct tgev] in place, over a heap that holds the
    arrays of entities and photos, the events of replied messages and the JSON
    object itself.  A parser is a computation over the structure it fills; the
    ones that allocate run over the structure and the heap. *)
From S2P Require Import Prelude CString Json.

(** ** Data *)
Definition TGEV_UNKNOWN : Z := 1.
Definition TGEV_TEXT : Z := 2.
Definition TGEV_PHOTO : Z := 4.
Definition TGEV_STICKER : Z := 8.
Definition TGEV_GIF : Z := 16.

Definition TGEV_CHAT_GROUP : Z := 1.
Definition TGEV_CHAT_SUPERGROUP : Z := 2.
Definition TGEV_CHAT_PRIVATE : Z := 4.

Record tgevi_file := File {
  file_name : cstr;
  file_id : cstr;
  file_unique_id : cstr;
  mime_type : cstr;
  file_size : Z;           (** size_t *)
  width : Z;               (** uint16_t *)
  height : Z;              (** uint16_t *)
}.
#[export] Instance eta_file : Eta tgevi_file := fun r =>
  File (file_name r) (file_id r) (file_unique_id r) (mime_type r) (file_size r) (width r)
    (height r).
Definition file_zero : tgevi_file := File None None None None 0 0 0.

Record tgevi_media := Media {
  md_file_id : cstr;
  md_file_name : cstr;
  md_mime_type : cstr;
  md_title : cstr;
  md_performer : cstr;
  md_file_unique_id : cstr;
  md_file_size : Z;        (** size_t *)
  md_duration : Z;         (** uint32_t *)
  md_width : Z;            (** uint16_t *)
  md_height : Z;           (** uint16_t *)
  md_thumb : tgevi_file;
}.
#[export] Instance eta_media : Eta tgevi_media := fun r =>
  Media (md_file_id r) (md_file_name r) (md_mime_type r) (md_title r) (md_performer r)
    (md_file_unique_id r) (md_file_size r) (md_duration r) (md_width r) (md_height r)
    (md_thumb r).
Definition media_zero : tgevi_media :=
  Media None None None None None None 0 0 0 0 file_zero.

Record tgevi_from := From {
  from_id : Z;             (** uint64_t *)
  first_name : cstr;
  last_name : cstr;
  username : cstr;
  lang : list byte;        (** char lang[4] *)
  is_bot : bool;
}.
#[export] Instance eta_from : Eta tgevi_from := fun r =>
  From (from_id r) (first_name r) (last_name r) (username r) (lang r) (is_bot r).
Definition from_zero : tgevi_from := From 0 None None None (replicate 4 Byte.x00) false.

Record tgevi_chat := Chat {
  chat_id : Z;             (** int64_t *)
  title : cstr;
  chat_username : cstr;
  chat_first_name : cstr;
  chat_last_name : cstr;
  chat_type : Z;           (** tgev_chat_type_t *)
  all_admins : bool;
}.
#[export] Instance eta_chat : Eta tgevi_chat := fun r =>
  Chat (chat_id r) (title r) (chat_username r) (chat_first_name r) (chat_last_name r)
    (chat_type r) (all_admins r).
Definition chat_zero : tgevi_chat := Chat 0 None None None None 0 false.

Record tgevi_entity := Entity {
  offset : Z;              (** uint16_t *)
  ent_length : Z;          (** uint16_t *)
  ent_type : cstr;
}.
#[export] Instance eta_entity : Eta tgevi_entity := fun r =>
  Entity (offset r) (ent_length r) (ent_type r).
Definition entity_zero : tgevi_entity := Entity 0 0 None.

Record tgevi_sticker := Sticker {
  stk_width : Z;           (** uint16_t *)
  stk_height : Z;          (** uint16_t *)
  emoji : list byte;       (** char emoji[6] *)
  set_name : cstr;
  stk_thumb : tgevi_file;
  is_animated : bool;
  stk_file_id : cstr;
  stk_file_unique_id : cstr;
  stk_file_size : Z;       (** size_t *)
}.
#[export] Instance eta_sticker : Eta tgevi_sticker := fun r =>
  Sticker (stk_width r) (stk_height r) (emoji r) (set_name r) (stk_thumb r) (is_animated r)
    (stk_file_id r) (stk_file_unique_id r) (stk_file_size r).
Definition sticker_zero : tgevi_sticker :=
  Sticker 0 0 (replicate 6 Byte.x00) None file_zero false None None 0.

(** The members the five message structures have in common. *)
Record tgev_head := Head {
  msg_id : Z;              (** uint64_t *)
  from : tgevi_from;
  forward_from : tgevi_from;
  fwd_sender_name : cstr;
  chat : tgevi_chat;
  sender_chat : tgevi_chat;
  date : Z;                (** time_t *)
  forward_date : Z;        (** time_t *)
  is_forwarded : bool;
  is_unknown_fwd : bool;
}.
#[export] Instance eta_head : Eta tgev_head := fun r =>
  Head (msg_id r) (from r) (forward_from r) (fwd_sender_name r) (chat r) (sender_chat r)
    (date r) (forward_date r) (is_forwarded r) (is_unknown_fwd r).
Definition head_zero : tgev_head :=
  Head 0 from_zero from_zero None chat_zero chat_zero 0 0 false false.

(** Pointers to the heap are addresses, 0 is NULL. *)
Record tgev_text := Text {
  text_head : tgev_head;
  text : cstr;
  entity_c : Z;            (** uint16_t *)
  entities : Z;            (** struct tgevi_entity * *)
  reply_to : Z;            (** struct tgev * *)
}.
#[export] Instance eta_text : Eta tgev_text := fun r =>
  Text (text_head r) (text r) (entity_c r) (entities r) (reply_to r).

Record tgev_photo := Photo {
  photo_head : tgev_head;
  photo_c : Z;             (** uint16_t *)
  photo : Z;               (** struct tgevi_file * *)
  ph_caption : cstr;
  ph_caption_entity_c : Z; (** uint16_t *)
  ph_caption_entities : Z; (** struct tgevi_entity * *)
  ph_reply_to : Z;         (** struct tgev * *)
}.
#[export] Instance eta_photo : Eta tgev_photo := fun r =>
  Photo (photo_head r) (photo_c r) (photo r) (ph_caption r) (ph_caption_entity_c r)
    (ph_caption_entities r) (ph_reply_to r).

Record tgev_sticker := EvSticker {
  sticker_head : tgev_head;
  sticker : tgevi_sticker;
  stk_reply_to : Z;        (** struct tgev * *)
}.
#[export] Instance eta_evsticker : Eta tgev_sticker := fun r =>
  EvSticker (sticker_head r) (sticker r) (stk_reply_to r).

Record tgev_gif := Gif {
  gif_head : tgev_head;
  animation : tgevi_media;
  document : tgevi_file;
  gif_caption : cstr;
  gif_caption_entity_c : Z; (** uint16_t *)
  gif_caption_entities : Z; (** struct tgevi_entity * *)
  gif_reply_to : Z;         (** struct tgev * *)
}.
#[export] Instance eta_gif : Eta tgev_gif := fun r =>
  Gif (gif_head r) (animation r) (document r) (gif_caption r) (gif_caption_entity_c r)
    (gif_caption_entities r) (gif_reply_to r).

Record tgev_unknown := Unknown {
  unk_head : tgev_head;
  unk_entity_c : Z;        (** uint16_t *)
  unk_entities : Z;        (** struct tgevi_entity * *)
  unk_reply_to : Z;        (** struct tgev * *)
}.
#[export] Instance eta_unknown : Eta tgev_unknown := fun r =>
  Unknown (unk_head r) (unk_entity_c r) (unk_entities r) (unk_reply_to r).

(** The union of [struct tgev]: all bytes zero, or one member written. *)
Inductive tgev_msg :=
| MsgZero
| MsgText (m : tgev_text)
| MsgPhoto (m : tgev_photo)
| MsgSticker (m : tgev_sticker)
| MsgGif (m : tgev_gif)
| MsgUnknown (m : tgev_unknown).

(** A [json_object *]: NULL, a reference the holder owns, or a part of an
    object somebody else owns. *)
Inductive jptr := JP_null | JP_root (a : Z) | JP_sub (j : json).

Record tgev := Tgev {
  evt_json : jptr;
  update_id : Z;           (** uint64_t *)
  evt_type : Z;            (** tgev_type_t; 0 after memset *)
  is_replied_node : bool;
  msg : tgev_msg;
}.
#[export] Instance eta_tgev : Eta tgev := fun r =>
  Tgev (evt_json r) (update_id r) (evt_type r) (is_replied_node r) (msg r).
Definition tgev_zero : tgev := Tgev JP_null 0 0 false MsgZero.

(** The members of the union, over zero bytes or as last written; anything
    else would read one structure as another. *)
Definition msg_text (m : tgev_msg) : option tgev_text :=
  match m with MsgZero => Some (Text head_zero None 0 0 0) | MsgText t => Some t | _ => None end.
Definition msg_photo (m : tgev_msg) : option tgev_photo :=
  match m with
  | MsgZero => Some (Photo head_zero 0 0 None 0 0 0) | MsgPhoto t => Some t | _ => None
  end.
Definition msg_sticker (m : tgev_msg) : option tgev_sticker :=
  match m with
  | MsgZero => Some (EvSticker head_zero sticker_zero 0) | MsgSticker t => Some t | _ => None
  end.
Definition msg_gif (m : tgev_msg) : option tgev_gif :=
  match m with
  | MsgZero => Some (Gif head_zero media_zero file_zero None 0 0 0) | MsgGif t => Some t
  | _ => None
  end.
Definition msg_unknown (m : tgev_msg) : option tgev_unknown :=
  match m with MsgZero => Some (Unknown head_zero 0 0 0) | MsgUnknown t => Some t | _ => None end.

(** ** The heap *)
Inductive hblock :=
| BTokener
| BJson (j : json)
| BEntities (l : list tgevi_entity)
| BFiles (l : list tgevi_file)
| BEvent (e : tgev).

(** [fails] is what the next calls of the allocator do, [true] for a failure;
    past its end they succeed. *)
Record heap := Heap { blocks : gmap Z hblock; next : Z; fails : list bool }.
#[export] Instance eta_heap : Eta heap := fun r => Heap (blocks r) (next r) (fails r).

Definition push_block (b : hblock) : M heap Z := fun h =>
  (Val (next h), h <| blocks := <[next h := b]> (blocks h) |> <| next := next h + 1 |>).

(** [malloc] and [calloc]; 0 for a failure. *)
Definition alloc (b : hblock) : M heap Z := fun h =>
  let h' := h <| fails := tail (fails h) |> in
  match fails h with true :: _ => (Val 0, h') | _ => push_block b h' end.

Definition free (a : Z) : M heap unit := fun h =>
  if decide (a = 0) then (Val tt, h)
  else match blocks h !! a with
       | Some _ => (Val tt, h <| blocks := delete a (blocks h) |>)
       | None => (Fault FFree, h)
       end.

Definition store (a : Z) (b : hblock) : M heap unit := fun h =>
  match blocks h !! a with
  | Some _ => (Val tt, h <| blocks := <[a := b]> (blocks h) |>)
  | None => (Fault (if decide (a = 0) then FNull else FWild), h)
  end.

Definition load (a : Z) : M heap hblock := fun h =>
  match blocks h !! a with
  | Some b => (Val b, h)
  | None => (Fault (if decide (a = 0) then FNull else FWild), h)
  end.

(** A structure and the heap. *)
Record hs (X : Type) := HS { hp : heap; obj : X }.
Arguments HS {X} hp obj.
Arguments hp {X} _.
Arguments obj {X} _.

Definition upd {X} (f : X -> X) : M (hs X) unit := modify (fun s => HS (hp s) (f (obj s))).
Definition on_heap {X A} (m : M heap A) : M (hs X) A := zoom hp (fun h s => HS h (obj s)) m.

(** A callee that fills the member [g], without and with the heap. *)
Definition member {X Y A} (g : X -> Y) (p : Y -> X -> X) (m : M Y A) : M (hs X) A :=
  zoom (fun s => g (obj s)) (fun y s => HS (hp s) (p y (obj s))) m.
Definition within {X Y A} (g : X -> Y) (p : Y -> X -> X) (m : M (hs Y) A) : M (hs X) A :=
  zoom (fun s => HS (hp s) (g (obj s))) (fun t s => HS (hp t) (p (obj t) (obj s))) m.

(** [&evt->msg_text] and its like. *)
Definition in_union {X A} (g : tgev_msg -> option X) (p : X -> tgev_msg) (m : M (hs X) A) :
    M (hs tgev) A := fun s =>
  match g (msg (obj s)) with
  | None => (Fault FWild, s)
  | Some x =>
      let '(r, t) := m (HS (hp s) x) in (r, HS (hp t) (obj s <| msg := p (obj t) |>))
  end.

(** ** Parsers of the parts of a message *)
Section Parsers.
Context `{JsonLib}.

Notation "'key' j k" := (json_object_object_get_ex j k%string)
  (at level 10, j at next level, k at next level).

(** A member of an object that must be there, or may be missing. *)
Definition need {S A} (j : json) (k : string) (f : json -> M S A) : M S A :=
  match key j k with Some res => f res | None => exit (- EINVAL) end.
Definition maybe {S A} (j : json) (k : string) (absent : M S A) (f : json -> M S A) : M S A :=
  match key j k with Some res => f res | None => absent end.

Definition parse_tgevi_file (jfile : json) : M tgevi_file unit :=
  maybe jfile "file_name" (modify (fun f => f <| file_name := None |>))
    (fun res => modify (fun f => f <| file_name := json_object_get_string res |>));;
  maybe jfile "mime_type" (modify (fun f => f <| mime_type := None |>))
    (fun res => modify (fun f => f <| mime_type := json_object_get_string res |>));;
  need jfile "file_id" (fun res =>
    modify (fun f => f <| file_id := json_object_get_string res |>));;
  need jfile "file_unique_id" (fun res =>
    modify (fun f => f <| file_unique_id := json_object_get_string res |>));;
  need jfile "file_size" (fun res =>
    modify (fun f => f <| file_size := json_object_get_uint64 res |>));;
  maybe jfile "width" (modify (fun f => f <| width := 0 |> <| height := 0 |>)) (fun res =>
    modify (fun f => f <| width := u16 (json_object_get_uint64 res) |>);;
    need jfile "height" (fun res =>
      modify (fun f => f <| height := u16 (json_object_get_uint64 res) |>))).

Definition parse_tgevi_media (jmdia : json) : M tgevi_media unit :=
  need jmdia "file_name" (fun res =>
    modify (fun f => f <| md_file_name := json_object_get_string res |>));;
  need jmdia "mime_type" (fun res =>
    modify (fun f => f <| md_mime_type := json_object_get_string res |>));;
  maybe jmdia "duration" (modify (fun f => f <| md_duration := 0 |>)) (fun res =>
    modify (fun f => f <| md_duration := u32 (json_object_get_uint64 res) |>));;
  maybe jmdia "width" (modify (fun f => f <| md_width := 0 |> <| md_height := 0 |>)) (fun res =>
    modify (fun f => f <| md_width := u16 (json_object_get_uint64 res) |>);;
    need jmdia "height" (fun res =>
      modify (fun f => f <| md_height := u16 (json_object_get_uint64 res) |>)));;
  maybe jmdia "title" (modify (fun f => f <| md_title := None |>)) (fun res =>
    modify (fun f => f <| md_title := json_object_get_string res |>));;
  maybe jmdia "performer" (modify (fun f => f <| md_performer := None |>)) (fun res =>
    modify (fun f => f <| md_performer := json_object_get_string res |>));;
  need jmdia "file_id" (fun res =>
    modify (fun f => f <| md_file_id := json_object_get_string res |>));;
  need jmdia "file_unique_id" (fun res =>
    modify (fun f => f <| md_file_unique_id := json_object_get_string res |>));;
  need jmdia "file_size" (fun res =>
    modify (fun f => f <| md_file_size := json_object_get_uint64 res |>));;
  maybe jmdia "thumb" (mret tt) (fun res =>
    (* the source passes [jmdia], not [res] *)
    zoom md_thumb (fun t m => m <| md_thumb := t |>) (parse_tgevi_file jmdia)).

(** [language_code], on the array [from->lang]. *)
Definition parse_lang (jfrom : json) : M (list byte) unit :=
  maybe jfrom "language_code" (poke 0 Byte.x00) (fun res =>
    match json_object_get_string res with
    | Some l => Bounded.sane_strncpy (asz l) 4
    | None => poke 0 Byte.x00
    end).

Definition parse_tgevi_from (jfrom : json) : M tgevi_from unit :=
  need jfrom "id" (fun res =>
    modify (fun f => f <| from_id := json_object_get_uint64 res |>));;
  need jfrom "first_name" (fun res =>
    modify (fun f => f <| first_name := json_object_get_string res |>));;
  maybe jfrom "last_name" (modify (fun f => f <| last_name := None |>)) (fun res =>
    modify (fun f => f <| last_name := json_object_get_string res |>));;
  maybe jfrom "username" (modify (fun f => f <| username := None |>)) (fun res =>
    modify (fun f => f <| username := json_object_get_string res |>));;
  zoom lang (fun l f => f <| lang := l |>) (parse_lang jfrom);;
  maybe jfrom "is_bot" (modify (fun f => f <| is_bot := false |>)) (fun res =>
    modify (fun f => f <| is_bot := json_object_get_boolean res |>)).

Definition parse_tgevi_chat (jchat : json) : M tgevi_chat unit :=
  need jchat "id" (fun res =>
    modify (fun c => c <| chat_id := json_object_get_int64 res |>));;
  need jchat "type" (fun res =>
    match json_object_get_string res with
    | None => exit (- EINVAL)
    | Some type =>
        let c := hd Byte.x00 (asz type) in
        if decide (c = "s"%byte) then modify (fun c => c <| chat_type := TGEV_CHAT_SUPERGROUP |>)
        else if decide (c = "g"%byte) then modify (fun c => c <| chat_type := TGEV_CHAT_GROUP |>)
        else if decide (c = "p"%byte) then modify (fun c => c <| chat_type := TGEV_CHAT_PRIVATE |>)
        else exit (- EINVAL)
    end);;
  c ← get;
  (if decide (chat_type c = TGEV_CHAT_PRIVATE) then
     modify (fun c => c <| title := None |>);;
     need jchat "first_name" (fun res =>
       modify (fun c => c <| chat_first_name := json_object_get_string res |>));;
     maybe jchat "last_name" (modify (fun c => c <| chat_last_name := None |>)) (fun res =>
       modify (fun c => c <| chat_last_name := json_object_get_string res |>))
   else
     (if decide (chat_type c = TGEV_CHAT_GROUP) then
        need jchat "all_members_are_administrators" (fun res =>
          modify (fun c => c <| all_admins := json_object_get_boolean res |>))
      else mret tt);;
     need jchat "title" (fun res =>
       modify (fun c => c <| title := json_object_get_string res |>)));;
  maybe jchat "username" (modify (fun c => c <| chat_username := None |>)) (fun res =>
    modify (fun c => c <| chat_username := json_object_get_string res |>)).

(** One round of the loop of [parse_tgevi_entities], on a zeroed entry. *)
Definition parse_entity (entity : json) (e : tgevi_entity) : tgevi_entity :=
  match key entity "offset" with
  | None => e
  | Some tmp =>
      let e := e <| offset := u16 (json_object_get_uint64 tmp) |> in
      match key entity "length" with
      | None => e
      | Some tmp =>
          let e := e <| ent_length := u16 (json_object_get_uint64 tmp) |> in
          match key entity "type" with
          | None => e
          | Some tmp => e <| ent_type := json_object_get_string tmp |>
          end
      end
  end.

(** [for (i = 0; i < c; i++)] over the elements of a JSON array. *)
Fixpoint array_loop {A} (j : json) (body : json -> A -> A) (c i : nat) (tmp : list A) :
    M heap (list A) :=
  match c with
  | O => mret tmp
  | S c' =>
      elem ← json_object_array_get_idx j i;
      array_loop j body c' (S i) (alter (body elem) i tmp)
  end.

Definition parse_tgevi_entities (jentities : json) (entity_c : Z) : M heap Z :=
  let tmp := replicate (Z.to_nat entity_c) entity_zero in
  p ← alloc (BEntities tmp);
  if decide (p = 0) then exit (- ENOMEM)
  else
    l ← array_loop jentities parse_entity (Z.to_nat entity_c) 0 tmp;
    store p (BEntities l);; mret p.

Definition parse_tgevi_photos (jphotos : json) (photo_c : Z) : M heap Z :=
  let tmp := replicate (Z.to_nat photo_c) file_zero in
  p ← alloc (BFiles tmp);
  if decide (p = 0) then exit (- ENOMEM)
  else
    l ← array_loop jphotos (fun j f => snd (ignore (parse_tgevi_file j) f))
          (Z.to_nat photo_c) 0 tmp;
    store p (BFiles l);; mret p.

Definition parse_tgevi_sticker (jstk : json) : M tgevi_sticker unit :=
  need jstk "width" (fun res =>
    modify (fun s => s <| stk_width := u16 (json_object_get_uint64 res) |>));;
  need jstk "height" (fun res =>
    modify (fun s => s <| stk_height := u16 (json_object_get_uint64 res) |>));;
  need jstk "emoji" (fun res =>
    zoom emoji (fun e s => s <| emoji := e |>)
      (match json_object_get_string res with
       | Some e => Bounded.sane_strncpy (asz e) 6
       | None => faulty FNull
       end));;
  need jstk "set_name" (fun res =>
    modify (fun s => s <| set_name := json_object_get_string res |>));;
  need jstk "is_animated" (fun res =>
    modify (fun s => s <| is_animated := json_object_get_boolean res |>));;
  need jstk "file_id" (fun res =>
    modify (fun s => s <| stk_file_id := json_object_get_string res |>));;
  need jstk "file_unique_id" (fun res =>
    modify (fun s => s <| stk_file_unique_id := json_object_get_string res |>));;
  need jstk "file_size" (fun res =>
    modify (fun s => s <| stk_file_size := json_object_get_uint64 res |>));;
  need jstk "thumb" (fun res =>
    zoom stk_thumb (fun t s => s <| stk_thumb := t |>) (parse_tgevi_file res)).

(** The members every message has, in the order all five parsers read them. *)
Definition parse_head (jmsg : json) : M tgev_head unit :=
  need jmsg "message_id" (fun res =>
    modify (fun h => h <| msg_id := json_object_get_uint64 res |>));;
  need jmsg "from" (fun res =>
    zoom from (fun f h => h <| from := f |>) (parse_tgevi_from res));;
  maybe jmsg "forward_from"
    (maybe jmsg "forward_sender_name"
      (modify (fun h => h <| forward_date := 0 |> <| is_forwarded := false |>
                          <| is_unknown_fwd := false |> <| fwd_sender_name := None |>))
      (fun res => modify (fun h => h <| fwd_sender_name := json_object_get_string res |>
                          <| is_forwarded := true |> <| is_unknown_fwd := true |>)))
    (fun res =>
      zoom forward_from (fun f h => h <| forward_from := f |>) (parse_tgevi_from res);;
      modify (fun h => h <| is_forwarded := true |> <| is_unknown_fwd := false |>
                         <| fwd_sender_name := None |>));;
  h ← get;
  (if is_forwarded h then
     need jmsg "forward_date" (fun res =>
       modify (fun h => h <| forward_date := json_object_get_int64 res |>))
   else mret tt);;
  need jmsg "chat" (fun res => zoom chat (fun c h => h <| chat := c |>) (parse_tgevi_chat res));;
  maybe jmsg "sender_chat" (mret tt) (fun res =>
    zoom sender_chat (fun c h => h <| sender_chat := c |>) (parse_tgevi_chat res));;
  need jmsg "date" (fun res =>
    modify (fun h => h <| date := json_object_get_int64 res |>)).

(** The array of entities under key [k]: its length and its address. *)
Definition parse_entity_array (err : Z -> Z) (jmsg : json) (k : string) {X}
    (set : Z -> Z -> X -> X) (set_c : Z -> X -> X) : M (hs X) unit :=
  maybe jmsg k (upd (set 0 0)) (fun res =>
    len ← json_object_array_length res;
    let c := u16 len in
    if decide (c = 0) then upd (set 0 0)
    else
      upd (set_c c);;
      r ← on_heap (fun h => match parse_tgevi_entities res c h with
                            | (Exit e, h') => (Exit (err e), h')
                            | o => o
                            end);
      upd (set c r)).

(** [parse_replied_msg], over the parser of messages. *)
Definition parse_replied_msg (parse : json -> M (hs tgev) Z) (jmsg : json) : M heap Z :=
  p ← alloc (BEvent tgev_zero);
  if decide (p = 0) then faulty FNull
  else
    '(ret, evt) ← (fun h =>
       match parse jmsg (HS h tgev_zero) with
       | (Val r, s) => (Val (r, obj s), hp s)
       | (Exit r, s) => (Val (r, obj s), hp s)
       | (Fault x, s) => (Fault x, hp s)
       end);
    if decide (ret <> 0) then free p;; mret 0
    else store p (BEvent (evt <| is_replied_node := true |> <| evt_json := JP_sub jmsg |>));;
         mret p.

Section Message.
Variable parse : json -> M (hs tgev) Z.

(** [reply_to_message] of the messages that parse it. *)
Definition parse_reply {X} (jmsg : json) (set : Z -> X -> X) : M (hs X) unit :=
  match key jmsg "reply_to_message" with
  | None | Some JNull => upd (set 0)
  | Some res => p ← on_heap (parse_replied_msg parse res); upd (set p)
  end.

Definition parse_event_text (jmsg : json) : M (hs tgev) unit :=
  maybe jmsg "text" (exit (- ECANCELED)) (fun res =>
    upd (fun e => e <| evt_type := TGEV_TEXT |>);;
    in_union msg_text MsgText (
      upd (fun t => t <| text := json_object_get_string res |>);;
      member text_head (fun h t => t <| text_head := h |>) (parse_head jmsg);;
      parse_entity_array (fun _ => - EINVAL) jmsg "entities"
        (fun c p t => t <| entity_c := c |> <| entities := p |>)
        (fun c t => t <| entity_c := c |>);;
      parse_reply jmsg (fun p t => t <| reply_to := p |>))).

Definition parse_event_photo (jphoto : json) : M (hs tgev) unit :=
  maybe jphoto "photo" (exit (- ECANCELED)) (fun res =>
    upd (fun e => e <| evt_type := TGEV_PHOTO |>);;
    in_union msg_photo MsgPhoto (
      len ← json_object_array_length res;
      upd (fun t => t <| photo_c := u16 len |>);;
      p ← on_heap (fun h => match parse_tgevi_photos res (u16 len) h with
                            | (Exit e, h') => (Exit (- EINVAL), h')
                            | o => o
                            end);
      upd (fun t => t <| photo := p |>);;
      member photo_head (fun h t => t <| photo_head := h |>) (parse_head jphoto);;
      maybe jphoto "caption"
        (upd (fun t => t <| ph_caption := None |> <| ph_caption_entity_c := 0 |>
                         <| ph_caption_entities := 0 |>))
        (fun res =>
          upd (fun t => t <| ph_caption := json_object_get_string res |>);;
          parse_entity_array (fun _ => - EINVAL) jphoto "caption_entities"
            (fun c p t => t <| ph_caption_entity_c := c |> <| ph_caption_entities := p |>)
            (fun c t => t <| ph_caption_entity_c := c |>));;
      upd (fun t => t <| ph_reply_to := 0 |>))).

Definition parse_event_sticker (jstk : json) : M (hs tgev) unit :=
  maybe jstk "sticker" (exit (- ECANCELED)) (fun res =>
    upd (fun e => e <| evt_type := TGEV_STICKER |>);;
    in_union msg_sticker MsgSticker (
      member sticker (fun k t => t <| sticker := k |>) (parse_tgevi_sticker res);;
      member sticker_head (fun h t => t <| sticker_head := h |>) (parse_head jstk);;
      parse_reply jstk (fun p t => t <| stk_reply_to := p |>))).

Definition parse_event_gif (jgif : json) : M (hs tgev) unit :=
  maybe jgif "animation" (exit (- ECANCELED)) (fun res =>
    upd (fun e => e <| evt_type := TGEV_GIF |>);;
    in_union msg_gif MsgGif (
      member animation (fun a t => t <| animation := a |>) (parse_tgevi_media res);;
      need jgif "document" (fun res =>
        member document (fun d t => t <| document := d |>) (ignore (parse_tgevi_file res)));;
      member gif_head (fun h t => t <| gif_head := h |>) (parse_head jgif);;
      maybe jgif "caption"
        (upd (fun t => t <| gif_caption := None |> <| gif_caption_entity_c := 0 |>
                         <| gif_caption_entities := 0 |>))
        (fun res =>
          upd (fun t => t <| gif_caption := json_object_get_string res |>);;
          parse_entity_array (fun e => e) jgif "caption_entities"
            (fun c p t => t <| gif_caption_entity_c := c |> <| gif_caption_entities := p |>)
            (fun c t => t <| gif_caption_entity_c := c |>));;
      upd (fun t => t <| gif_reply_to := 0 |>))).

Definition parse_event_unknown (jmsg : json) : M (hs tgev) unit :=
  upd (fun e => e <| evt_type := TGEV_UNKNOWN |>);;
  in_union msg_unknown MsgUnknown (
    member unk_head (fun h t => t <| unk_head := h |>) (parse_head jmsg);;
    parse_entity_array (fun _ => - EINVAL) jmsg "entities"
      (fun c p t => t <| unk_entity_c := c |> <| unk_entities := p |>)
      (fun c t => t <| unk_entity_c := c |>);;
    parse_reply jmsg (fun p t => t <| unk_reply_to := p |>)).

(** The body of [parse_message_json_obj]. *)
Definition parse_message_body (jmsg : json) : M (hs tgev) Z :=
  ret ← call (parse_event_text jmsg);
  if decide (ret <> - ECANCELED) then mret ret
  else
    ret ← call (parse_event_photo jmsg);
    if decide (ret <> - ECANCELED) then mret ret
    else
      ret ← call (parse_event_sticker jmsg);
      if decide (ret <> - ECANCELED) then mret ret
      else
        ret ← call (parse_event_gif jmsg);
        if decide (ret <> - ECANCELED) then mret ret
        else
          ret ← call (parse_event_unknown jmsg);
          upd (fun e => e <| evt_type := TGEV_UNKNOWN |>);; mret 0.
End Message.

(** The call depth is bounded by the nesting of the JSON text. *)
Fixpoint json_depth (j : json) : nat :=
  match j with
  | JArray l => S (foldr (fun x n => Nat.max (json_depth x) n) O l)
  | JObject l => S (foldr (fun x n => Nat.max (json_depth (snd x)) n) O l)
  | _ => 1%nat
  end.

Fixpoint parse_message_json_obj (n : nat) (jmsg : json) : M (hs tgev) Z :=
  match n with
  | O => faulty FFuel
  | S n' => parse_message_body (parse_message_json_obj n') jmsg
  end.

Definition parse_message (json_obj : json) : M (hs tgev) Z :=
  match key json_obj "message" with
  | None => mret (- EINVAL)
  | Some jmsg =>
      upd (fun e => e <| is_replied_node := false |>);;
      parse_message_json_obj (json_depth jmsg) jmsg
  end.
End Parsers.

(** ** tg_event_destroy

    [n] bounds the depth of the recursion; every replied message is a block
    of its own, so the number of live blocks is enough. *)
Definition json_object_put (p : jptr) : M heap Z := fun h =>
  match p with
  | JP_null => (Val 0, h)
  | JP_root a =>
      match blocks h !! a with
      | Some (BJson _) => (Val 1, h <| blocks := delete a (blocks h) |>)
      | _ => (Fault FFree, h)
      end
  | JP_sub _ => (Fault FFree, h)
  end.

Section Destroy.
Variable destroy : M (hs tgev) unit.   (** [tg_event_destroy], for the replies *)

Definition destroy_reply_to_msg (p : Z) : M heap unit :=
  b ← load p;
  match b with
  | BEvent e =>
      e' ← (fun h => let '(r, s) := destroy (HS h e) in
                     (match r with Val _ => Val (obj s) | Exit c => Exit c | Fault x => Fault x end,
                      hp s));
      store p (BEvent e');;
      free p
  | _ => faulty FWild
  end.

Definition tg_event_destroy_text (etext : tgev_text) : M heap unit :=
  (if decide (entity_c etext > 0) then free (entities etext) else mret tt);;
  if decide (reply_to etext <> 0) then destroy_reply_to_msg (reply_to etext) else mret tt.

Definition tg_event_destroy_photo (ephoto : tgev_photo) : M heap unit :=
  free (photo ephoto);;
  (if decide (ph_caption_entity_c ephoto > 0) then free (ph_caption_entities ephoto)
   else mret tt);;
  if decide (ph_reply_to ephoto <> 0) then destroy_reply_to_msg (ph_reply_to ephoto) else mret tt.

Definition tg_event_destroy_gif (egif : tgev_gif) : M heap unit :=
  (if decide (gif_caption_entity_c egif > 0) then free (gif_caption_entities egif)
   else mret tt);;
  if decide (gif_reply_to egif <> 0) then destroy_reply_to_msg (gif_reply_to egif) else mret tt.

Definition tg_event_destroy_sticker (esticker : tgev_sticker) : M heap unit :=
  if decide (stk_reply_to esticker <> 0) then destroy_reply_to_msg (stk_reply_to esticker)
  else mret tt.

(** The switch of [tg_event_destroy]. *)
Definition destroy_msg (evt : tgev) : M heap unit :=
  if decide (evt_type evt = TGEV_UNKNOWN) then mret tt
  else if decide (evt_type evt = TGEV_TEXT) then
    t ← lift FWild (msg_text (msg evt)); tg_event_destroy_text t
  else if decide (evt_type evt = TGEV_PHOTO) then
    t ← lift FWild (msg_photo (msg evt)); tg_event_destroy_photo t
  else if decide (evt_type evt = TGEV_STICKER) then
    t ← lift FWild (msg_sticker (msg evt)); tg_event_destroy_sticker t
  else if decide (evt_type evt = TGEV_GIF) then
    t ← lift FWild (msg_gif (msg evt)); tg_event_destroy_gif t
  else mret tt.

Definition destroy_body : M (hs tgev) unit :=
  evt ← (fun s => (Val (obj s), s));
  on_heap (destroy_msg evt);;
  if is_replied_node evt then mret tt
  else
    match evt_json evt with
    | JP_null => mret tt
    | p =>
        ret ← on_heap (json_object_put p);
        upd (fun e => e <| evt_json := JP_null |>);;
        if decide (ret <> 1) then faulty FAbort else mret tt
    end.
End Destroy.

Fixpoint tg_event_destroy_n (n : nat) : M (hs tgev) unit :=
  match n with
  | O => faulty FFuel
  | S n' => destroy_body (tg_event_destroy_n n')
  end.

Definition tg_event_destroy : M (hs tgev) unit := fun s =>
  tg_event_destroy_n (S (size (blocks (hp s)))) s.

(** ** tg_event_load_str *)
Section Load.
Context `{JsonLib}.

(** The tokener is called until it stops asking for more input, [n] times at
    most, with the same text each time. *)
Fixpoint tokener_loop (n : nat) (tok : tokener) (s : list byte) : option (tok_error * json) :=
  match n with
  | O => None
  | S n' =>
      let '(tok', jerr, j) := json_tokener_parse_ex tok s in
      if decide (jerr = json_tokener_continue) then tokener_loop n' tok' s else Some (jerr, j)
  end.

(** The reference the parser hands out: NULL for null. *)
Definition new_json (j : json) : M heap jptr :=
  match j with JNull => mret JP_null | _ => a ← push_block (BJson j); mret (JP_root a) end.

(** The result, and what [*json_obj_p] becomes. *)
Definition tg_event_json_parse (n : nat) (json_str : list byte) (length : Z) :
    M heap (Z * option jptr) :=
  tok ← alloc BTokener;
  if decide (tok = 0) then mret (- ENOMEM, None)
  else
    match tokener_loop n json_tokener_new (take (Z.to_nat (sint 32 length)) json_str) with
    | None => faulty FFuel
    | Some (jerr, j) =>
        p ← new_json j;
        free tok;;
        mret (if decide (jerr <> json_tokener_success) then - EINVAL else 0, Some p)
    end.

(** The object behind [evt->json]. *)
Definition read_json (p : jptr) : M heap json :=
  match p with
  | JP_null => mret JNull
  | JP_sub j => mret j
  | JP_root a => b ← load a; match b with BJson j => mret j | _ => faulty FWild end
  end.

Definition parse_update_id (json_obj : json) : M (hs tgev) unit :=
  need json_obj "update_id" (fun res =>
    upd (fun e => e <| update_id := json_object_get_uint64 res |>)).

Definition internal_tg_event_load_str (n : nat) (json_str : list byte) (length : Z) :
    M (hs tgev) Z :=
  '(ret, p) ← on_heap (tg_event_json_parse n json_str length);
  match p with Some p => upd (fun e => e <| evt_json := p |>) | None => mret tt end;;
  (* [unlikely(ret) < 0]: [unlikely] is 0 or 1 *)
  if decide ((if decide (ret = 0) then 0 else 1) < 0) then mret ret
  else
    e ← (fun s => (Val (obj s), s));
    j ← on_heap (read_json (evt_json e));
    ret ← call (parse_update_id j);
    if decide (ret <> 0) then tg_event_destroy;; mret ret
    else
      ret ← parse_message j;
      if decide (ret <> 0) then tg_event_destroy;; mret ret else mret 0.

(** [json_str] is the object the pointer points into, from there on, or NULL. *)
Definition tg_event_load_str_len (n : nat) (json_str : option (list byte)) (length : Z)
    (evt_is_null : bool) : M (hs tgev) Z :=
  match json_str with
  | None => mret (- EINVAL)
  | Some s => if evt_is_null then mret (- EINVAL) else internal_tg_event_load_str n s length
  end.

Definition tg_event_load_str (n : nat) (json_str : option (list byte)) (evt_is_null : bool) :
    M (hs tgev) Z :=
  match json_str with
  | None => mret (- EINVAL)
  | Some s =>
      if evt_is_null then mret (- EINVAL)
      else len ← lift FBounds (strlen s);
           internal_tg_event_load_str n s (Z.of_nat len + 1)
  end.
End Load.

(** ** The layout of the union (LP64)

    A member of a structure: its name, size and alignment. *)
Definition field : Type := string * Z * Z.
Definition ptr (n : string) : field := (n, 8, 8).
Definition word16 (n : string) : field := (n, 2, 2).
Definition boolean (n : string) : field := (n, 1, 1).

Definition align_up (off a : Z) : Z := (off + a - 1) / a * a.

Fixpoint offsets (off : Z) (fs : list field) : list (string * Z) * Z :=
  match fs with
  | [] => ([], off)
  | (n, size, al) :: fs' =>
      let o := align_up off al in
      let '(l, e) := offsets (o + size) fs' in ((n, o) :: l, e)
  end.

Definition struct_size (fs : list field) : Z := align_up (snd (offsets 0 fs)) 8.
Definition sub (n : string) (fs : list field) : field := (n, struct_size fs, 8).

Fixpoint find_off (n : string) (l : list (string * Z)) : Z :=
  match l with
  | [] => -1
  | (n', o) :: l' => if decide (n = n') then o else find_off n l'
  end.
Definition offset_of (n : string) (fs : list field) : Z := find_off n (fst (offsets 0 fs)).

Local Open Scope string_scope.
Definition file_layout : list field :=
  [ptr "file_name"; ptr "file_id"; ptr "file_unique_id"; ptr "mime_type"; ptr "file_size";
   word16 "width"; word16 "height"].
Definition media_layout : list field :=
  [ptr "file_id"; ptr "file_name"; ptr "mime_type"; ptr "title"; ptr "performer";
   ptr "file_unique_id"; ptr "file_size"; ("duration", 4, 4); word16 "width"; word16 "height";
   sub "thumb" file_layout].
Definition from_layout : list field :=
  [ptr "id"; ptr "first_name"; ptr "last_name"; ptr "username"; ("lang", 4, 1);
   boolean "is_bot"; ("__pad0", 3, 1)].
Definition chat_layout : list field :=
  [ptr "id"; ptr "title"; ptr "username"; ptr "first_name"; ptr "last_name"; ("type", 4, 4);
   boolean "all_admins"].
Definition sticker_info_layout : list field :=
  [word16 "width"; word16 "height"; ("emoji", 6, 1); ptr "set_name"; sub "thumb" file_layout;
   boolean "is_animated"; ptr "file_id"; ptr "file_unique_id"; ptr "file_size"].
Definition head_layout : list field :=
  [ptr "msg_id"; sub "from" from_layout; sub "forward_from" from_layout; ptr "fwd_sender_name";
   sub "chat" chat_layout; sub "sender_chat" chat_layout].
Definition text_layout : list field :=
  head_layout ++ [ptr "date"; ptr "forward_date"; ptr "text"; word16 "entity_c"; ptr "entities";
    ptr "reply_to"; boolean "is_forwarded"; boolean "is_unknown_fwd"].
Definition photo_layout : list field :=
  head_layout ++ [ptr "date"; ptr "forward_date"; boolean "is_forwarded"; boolean "is_unknown_fwd";
    word16 "photo_c"; ptr "photo"; ptr "caption"; word16 "caption_entity_c";
    ptr "caption_entities"; ptr "reply_to"].
Definition sticker_layout : list field :=
  head_layout ++ [sub "sticker" sticker_info_layout; ptr "date"; ptr "forward_date";
    boolean "is_forwarded"; boolean "is_unknown_fwd"; ptr "reply_to"].
Definition gif_layout : list field :=
  head_layout ++ [sub "animation" media_layout; sub "document" file_layout; ptr "date";
    ptr "forward_date"; boolean "is_forwarded"; boolean "is_unknown_fwd"; ptr "caption";
    word16 "caption_entity_c"; ptr "caption_entities"; ptr "reply_to"].
Definition unknown_layout : list field :=
  head_layout ++ [ptr "date"; ptr "forward_date"; word16 "entity_c"; ptr "entities";
    ptr "reply_to"; boolean "is_forwarded"; boolean "is_unknown_fwd"].
Local Close Scope string_scope.

(** ** The accessors of the rest of the program

    A pointer read from the wrong member of the union is not an address of
    the heap: [PInt] is a number, [PChars] a string, read as a pointer. *)
Inductive wptr := PEvt (a : Z) | PInt (z : Z) | PChars (s : cstr).

(** [evt->msg_text.reply_to]: the eight bytes at the offset of that member,
    whatever member of the union was written ([reply_slot] in TgLoad.v
    computes which one lies there). *)
Definition text_reply_to (m : tgev_msg) : wptr :=
  match m with
  | MsgZero => PEvt 0
  | MsgText t => PEvt (reply_to t)
  | MsgPhoto p => PInt (ph_caption_entity_c p)
  | MsgSticker s => PChars (file_unique_id (stk_thumb (sticker s)))
  | MsgGif g => PChars (md_file_unique_id (animation g))
  | MsgUnknown u => PInt (Z.b2z (is_forwarded (unk_head u)) +
                          256 * Z.b2z (is_unknown_fwd (unk_head u)))
  end.

Definition tge_get_reply_to (evt : tgev) : wptr :=
  if decide (evt_type evt = TGEV_UNKNOWN) then PEvt 0
  else if decide (evt_type evt = TGEV_TEXT \/ evt_type evt = TGEV_PHOTO \/
                  evt_type evt = TGEV_STICKER \/ evt_type evt = TGEV_GIF)
  then text_reply_to (msg evt) else PEvt 0.

(** Reads a member of the structure the type of the event names. *)
Definition by_type {A} (dflt : A) (unk : tgev_unknown -> A) (txt : tgev_text -> A)
    (pho : tgev_photo -> A) (stk : tgev_sticker -> A) (gif : tgev_gif -> A) (evt : tgev) : A :=
  let use {X} (o : option X) (f : X -> A) := match o with Some x => f x | None => dflt end in
  if decide (evt_type evt = TGEV_UNKNOWN) then use (msg_unknown (msg evt)) unk
  else if decide (evt_type evt = TGEV_TEXT) then use (msg_text (msg evt)) txt
  else if decide (evt_type evt = TGEV_PHOTO) then use (msg_photo (msg evt)) pho
  else if decide (evt_type evt = TGEV_STICKER) then use (msg_sticker (msg evt)) stk
  else if decide (evt_type evt = TGEV_GIF) then use (msg_gif (msg evt)) gif
  else dflt.

Definition tge_get_chat_id : tgev -> Z :=
  by_type (-1) (fun m => chat_id (chat (unk_head m))) (fun m => chat_id (chat (text_head m)))
    (fun m => chat_id (chat (photo_head m))) (fun m => chat_id (chat (sticker_head m)))
    (fun m => chat_id (chat (gif_head m))).

Definition tge_get_text : tgev -> cstr :=
  by_type None (fun _ => None) text ph_caption (fun _ => None) gif_caption.

Definition tge_get_msg_id : tgev -> Z :=
  by_type 0 (fun m => msg_id (unk_head m)) (fun m => msg_id (text_head m))
    (fun m => msg_id (photo_head m)) (fun m => msg_id (sticker_head m))
    (fun m => msg_id (gif_head m)).

Definition tge_get_from : tgev -> option tgevi_from :=
  by_type None (fun m => Some (from (unk_head m))) (fun m => Some (from (text_head m)))
    (fun m => Some (from (photo_head m))) (fun m => Some (from (sticker_head m)))
    (fun m => Some (from (gif_head m))).

Definition tge_get_user_id : tgev -> Z :=
  by_type 0 (fun m => from_id (from (unk_head m))) (fun m => from_id (from (text_head m)))
    (fun m => from_id (from (photo_head m))) (fun m => from_id (from (sticker_head m)))
    (fun m => from_id (from (gif_head m))).
