(* ===== verification/TgSpec.v ===== *)
(** * What the event parsers promise

    Each parser is shown to compute a function of the JSON text: [spec_file],
    [spec_from], ..., [spec_msg].  The value of a message is the list of the
    message and the messages it replies to. *)
From S2P Require Import Prelude CString Json TgEvent.

Section Spec.
Context `{JsonLib}.

Notation "'key' j k" := (json_object_object_get_ex j k%string)
  (at level 10, j at next level, k at next level).

(** A required and an optional member. *)
Definition req (j : json) (k : string) : out json :=
  match key j k with Some r => Val r | None => Exit (- EINVAL) end.
Definition opt_string (j : json) (k : string) : cstr :=
  match key j k with Some r => json_object_get_string r | None => None end.
Definition opt_bool (j : json) (k : string) : bool :=
  match key j k with Some r => json_object_get_boolean r | None => false end.

(** A pair of sizes: none, or both. *)
Definition spec_size (j : json) : out (Z * Z) :=
  match key j "width" with
  | None => Val (0, 0)
  | Some w =>
      h ← req j "height";
      Val (u16 (json_object_get_uint64 w), u16 (json_object_get_uint64 h))
  end.

Definition spec_file (j : json) : out tgevi_file :=
  fid ← req j "file_id";
  uid ← req j "file_unique_id";
  size ← req j "file_size";
  '(w, h) ← spec_size j;
  Val (File (opt_string j "file_name") (json_object_get_string fid) (json_object_get_string uid)
         (opt_string j "mime_type") (json_object_get_uint64 size) w h).

(** The array [char a[n]] a string is copied to, over zeros. *)
Definition char_array (n : nat) (s : list byte) : list byte :=
  take (n - 1) s ++ replicate (n - Nat.min (n - 1) (length s)) Byte.x00.

Definition spec_from (j : json) : out tgevi_from :=
  id ← req j "id";
  fn ← req j "first_name";
  Val (From (json_object_get_uint64 id) (json_object_get_string fn) (opt_string j "last_name")
         (opt_string j "username") (char_array 4 (default [] (opt_string j "language_code")))
         (opt_bool j "is_bot")).

(** The type of a chat is its first letter. *)
Definition spec_chat_type (j : json) : out Z :=
  r ← req j "type";
  match json_object_get_string r with
  | Some (c :: _) =>
      if decide (c = "s"%byte) then Val TGEV_CHAT_SUPERGROUP
      else if decide (c = "g"%byte) then Val TGEV_CHAT_GROUP
      else if decide (c = "p"%byte) then Val TGEV_CHAT_PRIVATE
      else Exit (- EINVAL)
  | _ => Exit (- EINVAL)
  end.

Definition spec_chat (j : json) : out tgevi_chat :=
  id ← req j "id";
  ty ← spec_chat_type j;
  let chat t f l a :=
    Val (Chat (json_object_get_int64 id) t (opt_string j "username") f l ty a) in
  if decide (ty = TGEV_CHAT_PRIVATE) then
    fn ← req j "first_name";
    chat None (json_object_get_string fn) (opt_string j "last_name") false
  else
    aa ← (if decide (ty = TGEV_CHAT_GROUP) then
            r ← req j "all_members_are_administrators"; Val (json_object_get_boolean r)
          else Val false);
    t ← req j "title";
    chat (json_object_get_string t) None None aa.

Definition spec_media (j : json) : out tgevi_media :=
  name ← req j "file_name";
  mime ← req j "mime_type";
  '(w, h) ← spec_size j;
  fid ← req j "file_id";
  uid ← req j "file_unique_id";
  size ← req j "file_size";
  (* the thumbnail is read from the media object itself *)
  thumb ← match key j "thumb" with Some _ => spec_file j | None => Val file_zero end;
  Val (Media (json_object_get_string fid) (json_object_get_string name)
         (json_object_get_string mime) (opt_string j "title") (opt_string j "performer")
         (json_object_get_string uid) (json_object_get_uint64 size)
         (match key j "duration" with
          | Some d => u32 (json_object_get_uint64 d) | None => 0 end) w h thumb).

Definition spec_sticker (j : json) : out tgevi_sticker :=
  w ← req j "width";
  h ← req j "height";
  e ← req j "emoji";
  emoji ← match json_object_get_string e with Some s => Val s | None => Fault FNull end;
  set ← req j "set_name";
  anim ← req j "is_animated";
  fid ← req j "file_id";
  uid ← req j "file_unique_id";
  size ← req j "file_size";
  t ← req j "thumb";
  thumb ← spec_file t;
  Val (Sticker (u16 (json_object_get_uint64 w)) (u16 (json_object_get_uint64 h))
         (char_array 6 emoji) (json_object_get_string set) thumb
         (json_object_get_boolean anim) (json_object_get_string fid)
         (json_object_get_string uid) (json_object_get_uint64 size)).

(** Who a message was forwarded from: a user, a name, or nobody. *)
Definition spec_forward (j : json) : out (tgevi_from * cstr * bool * bool) :=
  match key j "forward_from" with
  | Some r => f ← spec_from r; Val (f, None, true, false)
  | None =>
      match key j "forward_sender_name" with
      | Some r => Val (from_zero, json_object_get_string r, true, true)
      | None => Val (from_zero, None, false, false)
      end
  end.

Definition spec_head (j : json) : out tgev_head :=
  mid ← req j "message_id";
  fr ← req j "from";
  from ← spec_from fr;
  '(ffrom, fname, fwd, unk) ← spec_forward j;
  fdate ← (if (fwd : bool) then r ← req j "forward_date"; Val (json_object_get_int64 r)
           else Val 0);
  c ← req j "chat";
  chat ← spec_chat c;
  sender ← match key j "sender_chat" with Some r => spec_chat r | None => Val chat_zero end;
  d ← req j "date";
  Val (Head (json_object_get_uint64 mid) from ffrom fname chat sender
         (json_object_get_int64 d) fdate fwd unk).

(** ** The parsers of the parts *)
Lemma sane_strncpy_zero s n :
  no_nul s -> (0 < n)%nat ->
  Bounded.sane_strncpy (asz s) n (replicate n Byte.x00) = (Val tt, char_array n s).
Proof.
  intros Hs Hn. unfold Bounded.sane_strncpy, Bounded.strncpy, char_array, asz. munfold.
  rewrite strnlen_asz by done. cbn [lift]. munfold.
  set (k := Nat.min (n - 1) (length s)). rewrite take_app_le by lia.
  set (new := take k s ++ replicate (n - 1 - k) Byte.x00).
  assert (Hnew : length new = (n - 1)%nat)
    by (unfold new; rewrite length_app, length_take, length_replicate; lia).
  pose proof (pokes_app [] (replicate n Byte.x00) 0 new eq_refl) as Hp.
  rewrite app_nil_l in Hp. rewrite Hp by (rewrite length_replicate; lia).
  rewrite app_nil_l, Hnew, drop_replicate.
  rewrite poke_app by (rewrite ?length_replicate; lia). f_equal.
  replace (n - (n - 1))%nat with 1%nat by lia. unfold new. simpl.
  assert (Hk : take (n - 1) s = take k s).
  { unfold k. destruct (decide (length s <= n - 1)%nat).
    - by rewrite Nat.min_r, !take_ge by lia.
    - by rewrite Nat.min_l by lia. }
  rewrite Hk, <- app_assoc. f_equal.
  replace (n - k)%nat with (n - 1 - k + 1)%nat by lia. by rewrite replicate_add.
Qed.

Ltac run_parser :=
  unfold implements, spec_size, req, opt_string, opt_bool, need, maybe, mret, out_ret,
    mbind, out_bind, M_bind, M_ret, modify, exit, get, zoom, faulty; cbv beta iota;
  repeat (match goal with
  | |- context [match json_object_object_get_ex ?j ?k with _ => _ end] =>
      destruct (json_object_object_get_ex j k) eqn:?
  end; cbv beta iota); eauto.

Lemma parse_tgevi_file_spec j f : implements (parse_tgevi_file j) f (spec_file j).
Proof. destruct f. unfold parse_tgevi_file, spec_file. run_parser. Qed.

Lemma parse_lang_spec j :
  parse_lang j (replicate 4 Byte.x00) =
  (Val tt, char_array 4 (default [] (opt_string j "language_code"))).
Proof.
  unfold parse_lang, maybe, opt_string.
  destruct (key j "language_code") as [r|]; [|reflexivity].
  destruct (json_object_get_string r) eqn:E; [|reflexivity].
  rewrite sane_strncpy_zero; [reflexivity|by eauto with gw|lia].
Qed.

(** Rewrites with what a callee does, where its argument is a member of a
    structure built by updates. *)
Ltac use_callee H :=
  match type of H with
  | ?m ?x = _ => match goal with |- context [m ?y] => change (m y) with (m x) end
  end; rewrite H.

Lemma parse_tgevi_from_spec j : implements (parse_tgevi_from j) from_zero (spec_from j).
Proof.
  unfold parse_tgevi_from, spec_from. pose proof (parse_lang_spec j) as Hl. revert Hl.
  generalize (char_array 4 (default [] (opt_string j "language_code"))). intros l Hl.
  run_parser; use_callee Hl; reflexivity.
Qed.

Lemma parse_tgevi_chat_spec j : implements (parse_tgevi_chat j) chat_zero (spec_chat j).
Proof.
  unfold parse_tgevi_chat, spec_chat, spec_chat_type.
  destruct (key j "type") as [ty|] eqn:Hty.
  2: { unfold need, req. rewrite Hty. run_parser. }
  destruct (json_object_get_string ty) as [[|c s]|] eqn:Hs.
  all: unfold need, req; rewrite Hty; cbn [mbind out_bind mret out_ret]; rewrite Hs; simpl hd.
  1, 3: run_parser.
  repeat case_decide; try discriminate; run_parser;
    repeat (case_decide; try discriminate; try done); eauto.
Qed.

(** The same for a callee known by [implements], by cases on its result. *)
Ltac use_spec H :=
  let Hc := fresh "Hc" in
  pose proof H as Hc;
  match type of Hc with
  | implements ?m ?x ?o =>
      match goal with |- context [m ?y] => change (m y) with (m x) end;
      unfold implements in Hc;
      destruct o; [rewrite Hc|destruct Hc as [? ->]..]
  end; cbv beta iota.

Lemma parse_tgevi_media_spec j : implements (parse_tgevi_media j) media_zero (spec_media j).
Proof.
  unfold parse_tgevi_media, spec_media.
  run_parser; use_spec (parse_tgevi_file_spec j file_zero); eauto.
Qed.

Lemma emoji_spec r e :
  json_object_get_string r = Some e ->
  Bounded.sane_strncpy (asz e) 6 (replicate 6 Byte.x00) = (Val tt, char_array 6 e).
Proof. intros Hr. apply sane_strncpy_zero; [by eauto with gw|lia]. Qed.

Lemma parse_tgevi_sticker_spec j : implements (parse_tgevi_sticker j) sticker_zero (spec_sticker j).
Proof.
  unfold parse_tgevi_sticker, spec_sticker.
  destruct (key j "emoji") as [r|] eqn:Hr.
  2: { unfold need, req. rewrite Hr. run_parser. }
  destruct (json_object_get_string r) as [e|] eqn:He; unfold need, req; rewrite Hr;
    cbn [mbind out_bind mret out_ret]; rewrite He; run_parser.
  all: try (use_callee (emoji_spec r e He); cbv beta iota; eauto).
  match goal with |- context [parse_tgevi_file ?t _] =>
    use_spec (parse_tgevi_file_spec t file_zero) end; eauto.
Qed.

(** Runs the callees that read the parts of a message. *)
Ltac run_parts :=
  repeat match goal with
  | |- context [is_forwarded ?h] =>
      let b := eval lazy in (is_forwarded h) in change (is_forwarded h) with b; cbv beta iota
  | |- context [parse_tgevi_from ?t _] => use_spec (parse_tgevi_from_spec t)
  | |- context [parse_tgevi_chat ?t _] => use_spec (parse_tgevi_chat_spec t)
  end; eauto.

Lemma parse_head_spec j : implements (parse_head j) head_zero (spec_head j).
Proof.
  unfold parse_head, spec_head, spec_forward. run_parser; run_parts.
Qed.
End Spec.
