(* ===== verification/TgMem.v ===== *)
(** * The memory of an event: what loading one allocates and destroying it
      frees

    [rep] says that an event in the heap has a value, the list of the message
    and the messages it replies to, and owns certain blocks; [made] says what
    was allocated between two heaps. *)
From S2P Require Import Prelude CString Json TgEvent TgSpec.

(** Opens existentials and conjunctions. *)
Ltac destr_all :=
  repeat match goal with
  | H : exists _, _ |- _ => destruct H
  | H : _ /\ _ |- _ => destruct H
  end.

Section Mem.
Context `{JsonLib}.

Notation "'key' j k" := (json_object_object_get_ex j k%string)
  (at level 10, j at next level, k at next level).

(** ** Arrays *)
Lemma array_loop_spec {A} (body : json -> A -> A) l z c i h :
  (i + c <= length l)%nat ->
  array_loop (JArray l) body c i (((fun e => body e z) <$> take i l) ++ replicate c z) h =
  (Val ((fun e => body e z) <$> take (i + c) l), h).
Proof.
  revert i. induction c as [|c IH]; intros i Hi; simpl.
  { by rewrite app_nil_r, Nat.add_0_r. }
  destruct (lookup_lt_is_Some_2 l i) as [x Hx]; [lia|].
  unfold mbind, M_bind, mret, M_ret. rewrite Hx. simpl.
  assert (Hal : alter (body x) i (((fun e => body e z) <$> take i l) ++ z :: replicate c z) =
    ((fun e => body e z) <$> take (S i) l) ++ replicate c z).
  { replace i with (length ((fun e => body e z) <$> take i l) + 0)%nat at 1
      by (rewrite length_fmap, length_take; lia).
    rewrite alter_app_r. simpl. rewrite (take_S_r _ _ x) by done.
    by rewrite fmap_app, <- app_assoc. }
  rewrite Hal, IH by lia. by rewrite Nat.add_succ_comm.
Qed.

(** The number of elements a [uint16_t] counter sees. *)
Definition seen (l : list json) : list json := take (Z.to_nat (u16 (Z.of_nat (length l)))) l.

Lemma seen_le (l : list json) : (Z.to_nat (u16 (Z.of_nat (length l))) <= length l)%nat.
Proof. unfold u16. pose proof (Z.mod_le (Z.of_nat (length l)) (2 ^ 16)). lia. Qed.

Definition entity_of (j : json) : tgevi_entity := parse_entity j entity_zero.
Definition photo_of (j : json) : tgevi_file := snd (ignore (parse_tgevi_file j) file_zero).

(** What an element of an array that is short of a member reads as. *)
Lemma photo_of_valid j f : spec_file j = Val f -> photo_of j = f.
Proof.
  intros Hs. pose proof (parse_tgevi_file_spec j file_zero) as Hp. rewrite Hs in Hp.
  unfold photo_of, ignore. simpl in Hp. by rewrite Hp.
Qed.

(** A heap whose live addresses are below the next one, and whose allocator
    does not fail. *)
Definition heap_ok (h : heap) : Prop :=
  fails h = [] /\ 0 < next h /\ forall a, is_Some (blocks h !! a) -> 0 < a < next h.

Lemma alloc_ok b h :
  heap_ok h ->
  alloc b h = (Val (next h), Heap (<[next h := b]> (blocks h)) (next h + 1) []).
Proof. intros (Hf & _). destruct h as [m n f]. simpl in *. by subst. Qed.

Lemma heap_ok_push b h :
  heap_ok h -> heap_ok (Heap (<[next h := b]> (blocks h)) (next h + 1) []).
Proof.
  intros (Hf & Hn & Hd). split; [done|]. split; simpl; [lia|].
  intros a [x Hx]. destruct (decide (a = next h)) as [->|]; [lia|].
  rewrite lookup_insert_ne in Hx by done. specialize (Hd a (mk_is_Some _ _ Hx)). lia.
Qed.

(** ** The value of a message *)
Inductive node :=
| NText (h : tgev_head) (t : cstr) (es : list tgevi_entity)
| NPhoto (h : tgev_head) (ps : list tgevi_file) (cap : cstr) (es : list tgevi_entity)
| NSticker (h : tgev_head) (k : tgevi_sticker)
| NGif (h : tgev_head) (m : tgevi_media) (d : tgevi_file) (cap : cstr)
    (es : list tgevi_entity)
| NUnknown (h : tgev_head) (es : list tgevi_entity)
| NBadUnknown       (** of no known type, and short of a member: accepted all the same *)
| NDropped.         (** a replied message that does not parse: [reply_to] is NULL *)

Definition spec_entities (j : json) (k : string) : out (list tgevi_entity) :=
  match key j k with
  | None => Val []
  | Some (JArray l) => Val (entity_of <$> seen l)
  | Some _ => Fault FAssert
  end.

Definition spec_photos (j : json) : out (list tgevi_file) :=
  match j with JArray l => Val (photo_of <$> seen l) | _ => Fault FAssert end.

Definition spec_caption (j : json) : out (cstr * list tgevi_entity) :=
  match key j "caption" with
  | None => Val (None, [])
  | Some r => es ← spec_entities j "caption_entities"; Val (json_object_get_string r, es)
  end.

Definition spec_reply (rec : json -> out (list node)) (j : json) : out (list node) :=
  match key j "reply_to_message" with
  | None | Some JNull => Val []
  | Some r => match rec r with Exit _ => Val [NDropped] | o => o end
  end.

Definition spec_body (rec : json -> out (list node)) (j : json) : out (list node) :=
  match key j "text", key j "photo", key j "sticker", key j "animation" with
  | Some t, _, _, _ =>
      h ← spec_head j;
      es ← spec_entities j "entities";
      ns ← spec_reply rec j;
      Val (NText h (json_object_get_string t) es :: ns)
  | None, Some r, _, _ =>
      ps ← spec_photos r;
      h ← spec_head j;
      '(cap, es) ← spec_caption j;
      Val [NPhoto h ps cap es]
  | None, None, Some r, _ =>
      k ← spec_sticker r;
      h ← spec_head j;
      ns ← spec_reply rec j;
      Val (NSticker h k :: ns)
  | None, None, None, Some r =>
      m ← spec_media r;
      d ← req j "document";
      h ← spec_head j;
      '(cap, es) ← spec_caption j;
      Val [NGif h m (photo_of d) cap es]
  | None, None, None, None =>
      match spec_head j with
      | Val h =>
          es ← spec_entities j "entities";
          ns ← spec_reply rec j;
          Val (NUnknown h es :: ns)
      | Exit _ => Val [NBadUnknown]
      | Fault f => Fault f
      end
  end.

Fixpoint spec_msg_n (n : nat) (j : json) : out (list node) :=
  match n with
  | O => Fault FFuel
  | S n' => spec_body (spec_msg_n n') j
  end.

Definition spec_msg (j : json) : out (list node) := spec_msg_n (json_depth j) j.

(** ** How an event and the heap hold a value *)
Definition array_at (m : gmap Z hblock) (p : Z) (b : hblock) (A : list Z) : Prop :=
  p <> 0 /\ m !! p = Some b /\ A = [p].

Definition ents_at (m : gmap Z hblock) (c p : Z) (es : list tgevi_entity) (A : list Z) : Prop :=
  c = Z.of_nat (length es) /\
  match es with
  | [] => p = 0 /\ A = []
  | _ => array_at m p (BEntities es) A
  end.

(** The replied message of a node, whose value is [ns]. *)
Definition reply_at (R : tgev -> list Z -> Prop) (m : gmap Z hblock) (r : Z) (ns : list node)
    (A : list Z) : Prop :=
  match ns with
  | [] | NDropped :: _ => r = 0 /\ A = []
  | _ => exists e A', r <> 0 /\ m !! r = Some (BEvent e) /\ is_replied_node e = true /\
           A = r :: A' /\ R e A'
  end.

(** [rep m evt ns A]: the event has the value [ns], and [A] are the addresses
    of the blocks it owns. *)
Fixpoint rep (m : gmap Z hblock) (evt : tgev) (ns : list node) (A : list Z) : Prop :=
  match ns with
  | [] => False
  | n :: ns' =>
      exists A1 A2, A = A1 ++ A2 /\
      let reply r := reply_at (fun e A' => rep m e ns' A') m r ns' A2 in
      match n with
      | NText h t es =>
          evt_type evt = TGEV_TEXT /\ exists c p r,
            msg evt = MsgText (Text h t c p r) /\ ents_at m c p es A1 /\ reply r
      | NPhoto h ps cap es =>
          evt_type evt = TGEV_PHOTO /\ ns' = [] /\ exists q c p,
            msg evt = MsgPhoto (Photo h (Z.of_nat (length ps)) q cap c p 0) /\
            array_at m q (BFiles ps) A1 /\ ents_at m c p es A2
      | NSticker h k =>
          evt_type evt = TGEV_STICKER /\ A1 = [] /\ exists r,
            msg evt = MsgSticker (EvSticker h k r) /\ reply r
      | NGif h md d cap es =>
          evt_type evt = TGEV_GIF /\ ns' = [] /\ A2 = [] /\ exists c p,
            msg evt = MsgGif (Gif h md d cap c p 0) /\ ents_at m c p es A1
      | NUnknown h es =>
          evt_type evt = TGEV_UNKNOWN /\ exists c p r,
            msg evt = MsgUnknown (Unknown h c p r) /\ ents_at m c p es A1 /\ reply r
      | NBadUnknown =>
          evt_type evt = TGEV_UNKNOWN /\ ns' = [] /\ A1 = [] /\ A2 = [] /\ exists h,
            msg evt = MsgUnknown (Unknown h 0 0 0)
      | NDropped => False
      end
  end.

(** An event whose parser gave up, and the block it owns. *)
Definition partial (m : gmap Z hblock) (evt : tgev) (A : list Z) : Prop :=
  (A = [] /\
    ((evt_type evt = TGEV_TEXT /\ exists h t, msg evt = MsgText (Text h t 0 0 0)) \/
     (evt_type evt = TGEV_STICKER /\ exists h k, msg evt = MsgSticker (EvSticker h k 0)) \/
     (evt_type evt = TGEV_GIF /\ exists h a d, msg evt = MsgGif (Gif h a d None 0 0 0)))) \/
  (evt_type evt = TGEV_PHOTO /\ exists h q c b,
     msg evt = MsgPhoto (Photo h c q None 0 0 0) /\ array_at m q b A).

(** What was allocated between two heaps: the blocks [A], and nothing else
    when [strict]. *)
Definition made (strict : bool) (h h' : heap) (A : list Z) : Prop :=
  heap_ok h' /\ next h <= next h' /\
  (forall a, a < next h -> blocks h' !! a = blocks h !! a) /\
  NoDup A /\ (forall a, a ∈ A -> next h <= a < next h') /\
  (strict = true -> forall a, next h <= a -> is_Some (blocks h' !! a) -> a ∈ A).

Definition is_dropped (n : node) : bool := match n with NDropped => true | _ => false end.
Definition no_drop (ns : list node) : bool := negb (existsb is_dropped ns).

(** The other members of an event, which the message parsers leave alone. *)
Definition same_meta (e e' : tgev) : Prop :=
  evt_json e' = evt_json e /\ update_id e' = update_id e /\
  is_replied_node e' = is_replied_node e.

Definition msg_post (parse : json -> M (hs tgev) Z) (j : json) (o : out (list node)) : Prop :=
  forall h e, heap_ok h -> msg e = MsgZero ->
  match o with
  | Val ns => exists h' e' A, parse j (HS h e) = (Val 0, HS h' e') /\ same_meta e e' /\
      rep (blocks h') e' ns A /\ made (no_drop ns) h h' A
  | Exit c => exists h' e' A, parse j (HS h e) = (Val c, HS h' e') /\ c = - EINVAL /\
      same_meta e e' /\ partial (blocks h') e' A /\ made true h h' A
  | Fault x => exists s', parse j (HS h e) = (Fault x, s')
  end.

(** ** Facts on heaps *)
Lemma made_refl b h : heap_ok h -> made b h h [].
Proof.
  intros Hh. split_and!; try done; try lia; try apply NoDup_nil_2.
  - by intros a Ha%elem_of_nil.
  - intros _ a Ha Hs. destruct Hh as (_ & _ & Hd). specialize (Hd a Hs). lia.
Qed.

Lemma made_weaken b h h' A : made true h h' A -> made b h h' A.
Proof. intros (?&?&?&?&?&?). split_and!; auto. Qed.

Lemma made_trans b h h1 h2 A1 A2 :
  made b h h1 A1 -> made b h1 h2 A2 -> made b h h2 (A1 ++ A2).
Proof.
  intros (Ho1 & Hn1 & Hk1 & Hd1 & Hr1 & Hs1) (Ho2 & Hn2 & Hk2 & Hd2 & Hr2 & Hs2).
  split_and!; try done; try lia.
  - intros a Ha. rewrite Hk2 by lia. by apply Hk1.
  - apply NoDup_app. split_and!; try done. intros a H1 H2.
    specialize (Hr1 a H1). specialize (Hr2 a H2). lia.
  - intros a [Ha|Ha]%elem_of_app; [specialize (Hr1 a Ha)|specialize (Hr2 a Ha)]; lia.
  - intros Hb a Ha Hsm. apply elem_of_app.
    destruct (decide (next h1 <= a)); [right; by apply Hs2|left].
    apply Hs1; try done. by rewrite <- Hk2 by lia.
Qed.

Lemma made_alloc b h b1 :
  heap_ok h -> made b h (Heap (<[next h := b1]> (blocks h)) (next h + 1) []) [next h].
Proof.
  intros Hh. split; [by apply heap_ok_push|]. destruct Hh as (_ & Hn & Hd).
  split_and!; simpl; try lia.
  - intros a Ha. by rewrite lookup_insert_ne by lia.
  - apply NoDup_singleton.
  - intros a ->%list_elem_of_singleton. lia.
  - intros _ a Ha Hs. apply list_elem_of_singleton. destruct (decide (a = next h)); [done|].
    rewrite lookup_insert_ne in Hs by done. specialize (Hd a Hs). lia.
Qed.

(** A block keeps its contents while others are made. *)
Lemma made_old b h h' A a : made b h h' A -> a < next h -> blocks h' !! a = blocks h !! a.
Proof. intros (_&_&Hk&_) Ha. by apply Hk. Qed.

(** ** The steps of the message parsers *)
Lemma member_spec {X Y} (g : X -> Y) (p : Y -> X -> X) m h x o :
  implements m (g x) o ->
  match o with
  | Val y => member g p m (HS h x) = (Val tt, HS h (p y x))
  | Exit c => exists y, member g p m (HS h x) = (Exit c, HS h (p y x))
  | Fault f => exists s', member g p m (HS h x) = (Fault f, s')
  end.
Proof.
  unfold member, zoom. simpl. destruct o; simpl.
  - intros ->. done.
  - intros [y ->]. eauto.
  - intros [y ->]. eauto.
Qed.

Lemma array_loop_all {A} (body : json -> A -> A) l z h :
  let c := Z.to_nat (u16 (Z.of_nat (length l))) in
  array_loop (JArray l) body c 0 (replicate c z) h = (Val ((fun e => body e z) <$> seen l), h).
Proof. apply (array_loop_spec body l z _ 0 h), seen_le. Qed.

Lemma length_seen l : Z.of_nat (length (seen l)) = u16 (Z.of_nat (length l)).
Proof.
  unfold seen. pose proof (seen_le l). rewrite length_take_le by done.
  unfold u16. pose proof (Z.mod_pos_bound (Z.of_nat (length l)) (2 ^ 16)). lia.
Qed.

Lemma store_new b b1 h :
  store (next h) b1 (Heap (<[next h := b]> (blocks h)) (next h + 1) []) =
  (Val tt, Heap (<[next h := b1]> (blocks h)) (next h + 1) []).
Proof. unfold store. simpl. rewrite lookup_insert_eq. cbv [upd_field]. simpl. by rewrite insert_insert_eq. Qed.

Lemma parse_tgevi_entities_ok l h :
  heap_ok h ->
  parse_tgevi_entities (JArray l) (u16 (Z.of_nat (length l))) h =
  (Val (next h),
   Heap (<[next h := BEntities (entity_of <$> seen l)]> (blocks h)) (next h + 1) []).
Proof.
  intros Hh. unfold parse_tgevi_entities. munfold. rewrite alloc_ok by done. cbv beta iota.
  destruct Hh as (_ & Hn & _). rewrite decide_False by lia. munfold.
  rewrite array_loop_all. cbv beta iota. by rewrite store_new.
Qed.

Lemma parse_tgevi_photos_ok l h :
  heap_ok h ->
  parse_tgevi_photos (JArray l) (u16 (Z.of_nat (length l))) h =
  (Val (next h), Heap (<[next h := BFiles (photo_of <$> seen l)]> (blocks h)) (next h + 1) []).
Proof.
  intros Hh. unfold parse_tgevi_photos. munfold. rewrite alloc_ok by done. cbv beta iota.
  destruct Hh as (_ & Hn & _). rewrite decide_False by lia. munfold.
  rewrite array_loop_all. cbv beta iota. by rewrite store_new.
Qed.

Lemma made_array b h b1 :
  heap_ok h -> let h' := Heap (<[next h := b1]> (blocks h)) (next h + 1) [] in
  array_at (blocks h') (next h) b1 [next h] /\ made b h h' [next h].
Proof.
  intros Hh. split; [|by apply made_alloc]. destruct Hh as (_ & Hn & _).
  split; [lia|]. split; [|done]. simpl. apply lookup_insert_eq.
Qed.

Lemma parse_entity_array_spec {X} err j k (set : Z -> Z -> X -> X) set_c h x :
  heap_ok h -> (forall c p y, set c p (set_c c y) = set c p y) ->
  match spec_entities j k with
  | Val es => exists c p h' A,
      parse_entity_array err j k set set_c (HS h x) = (Val tt, HS h' (set c p x)) /\
      ents_at (blocks h') c p es A /\ made true h h' A
  | Exit c => False
  | Fault f => exists s', parse_entity_array err j k set set_c (HS h x) = (Fault f, s')
  end.
Proof.
  intros Hh Hset. unfold spec_entities, parse_entity_array, maybe.
  destruct (key j k) as [r|].
  2: { exists 0, 0, h, []. split; [done|]. split; [done|]. by apply made_refl. }
  destruct r as [| | | | | |l|]; try (by eexists). cbn [json_object_array_length]. munfold.
  pose proof (length_seen l) as Hlen. case_decide as Hc.
  { exists 0, 0, h, []. rewrite Hc in Hlen. destruct (seen l); [|by simpl in Hlen; lia].
    split; [done|]. split; [done|]. by apply made_refl. }
  unfold on_heap, zoom. simpl. rewrite parse_tgevi_entities_ok by done. cbv beta iota. simpl.
  destruct (made_array true h (BEntities (entity_of <$> seen l)) Hh) as [Ha Hm].
  eexists _, (next h), _, [next h]. split; [unfold upd, modify; simpl; by rewrite Hset|]. split; [|done].
  split; [by rewrite length_fmap|].
  destruct (seen l); [simpl in Hlen; lia|]. done.
Qed.

Lemma array_at_frame m m' p b A :
  array_at m p b A -> (forall a, a ∈ A -> m' !! a = m !! a) -> array_at m' p b A.
Proof.
  intros (Hp & Hm & ->) He. split; [done|]. split; [|done]. rewrite <- Hm. apply He.
  by apply list_elem_of_singleton.
Qed.

Lemma ents_at_frame m m' c p es A :
  ents_at m c p es A -> (forall a, a ∈ A -> m' !! a = m !! a) -> ents_at m' c p es A.
Proof.
  intros [Hc He] Ha. split; [done|]. destruct es; [done|]. by eapply array_at_frame.
Qed.

Lemma reply_at_frame (R R' : tgev -> list Z -> Prop) m m' r ns A :
  (forall e A', R e A' -> (forall a, a ∈ A' -> m' !! a = m !! a) -> R' e A') ->
  reply_at R m r ns A -> (forall a, a ∈ A -> m' !! a = m !! a) -> reply_at R' m' r ns A.
Proof.
  intros HR Hr Ha. unfold reply_at in *. destruct ns as [|n ns]; [done|].
  assert (Hg : (exists e A', r <> 0 /\ m !! r = Some (BEvent e) /\ is_replied_node e = true /\
                 A = r :: A' /\ R e A') ->
    exists e A', r <> 0 /\ m' !! r = Some (BEvent e) /\ is_replied_node e = true /\
                 A = r :: A' /\ R' e A').
  { intros (e & A' & H0 & Hm & Hi & -> & HR'). exists e, A'. split_and!; try done.
    - rewrite Ha by left. done.
    - apply HR; [done|]. intros a Hin. apply Ha. by right. }
  destruct n; auto.
Qed.

Lemma rep_frame m m' evt ns A :
  rep m evt ns A -> (forall a, a ∈ A -> m' !! a = m !! a) -> rep m' evt ns A.
Proof.
  revert evt A. induction ns as [|n ns IH]; intros evt A; [done|].
  intros (A1 & A2 & -> & Hn) Ha. exists A1, A2. split; [done|].
  assert (H1 : forall a, a ∈ A1 -> m' !! a = m !! a) by (intros; apply Ha, elem_of_app; auto).
  assert (H2 : forall a, a ∈ A2 -> m' !! a = m !! a) by (intros; apply Ha, elem_of_app; auto).
  assert (HE1 : forall c p es, ents_at m c p es A1 -> ents_at m' c p es A1)
    by (intros; by eapply ents_at_frame).
  assert (HE2 : forall c p es, ents_at m c p es A2 -> ents_at m' c p es A2)
    by (intros; by eapply ents_at_frame).
  assert (HP1 : forall p b, array_at m p b A1 -> array_at m' p b A1)
    by (intros; by eapply array_at_frame).
  assert (HR : forall r, reply_at (fun e A' => rep m e ns A') m r ns A2 ->
                         reply_at (fun e A' => rep m' e ns A') m' r ns A2)
    by (intros; eapply reply_at_frame; [|done|done]; simpl; eauto).
  clear - Hn HE1 HE2 HP1 HR. cbv zeta in Hn |- *.
  destruct n; destr_all; split_and?; eauto 10.
Qed.

Lemma rep_ext m e e' ns A :
  evt_type e' = evt_type e -> msg e' = msg e -> rep m e ns A -> rep m e' ns A.
Proof. intros Ht Hm. destruct ns; [done|]. simpl. by rewrite Ht, Hm. Qed.

(** ** parse_replied_msg *)
Lemma made_store b h h1 A a b1 :
  made b h h1 A -> a ∈ A -> is_Some (blocks h1 !! a) ->
  made b h (h1 <| blocks := <[a := b1]> (blocks h1) |>) A.
Proof.
  intros (Ho & Hn & Hk & Hd & Hr & Hs) Ha Hsm. pose proof (Hr a Ha) as Hra.
  assert (Hin : forall x, is_Some (<[a := b1]> (blocks h1) !! x) -> is_Some (blocks h1 !! x)).
  { intros x Hx. destruct (decide (x = a)) as [->|]; [done|].
    by rewrite lookup_insert_ne in Hx by done. }
  destruct Ho as (Hf & Hp & Hl). split_and!; simpl; try done; eauto.
  { split_and!; simpl; auto. }
  intros x Hx. rewrite lookup_insert_ne by lia. by apply Hk.
Qed.

Lemma rep_nonempty m e ns A : rep m e ns A ->
  exists n ns', ns = n :: ns' /\ is_dropped n = false.
Proof.
  destruct ns as [|n ns]; [done|]. intros (A1 & A2 & _ & Hr). exists n, ns. by destruct n.
Qed.

Lemma parse_replied_ok (parse : json -> M (hs tgev) Z) j h ns :
  heap_ok h -> msg_post parse j (Val ns) ->
  exists p h' A, parse_replied_msg parse j h = (Val p, h') /\
    reply_at (fun e A' => rep (blocks h') e ns A') (blocks h') p ns A /\ made (no_drop ns) h h' A.
Proof.
  intros Hh Hp. unfold parse_replied_msg. munfold. rewrite alloc_ok by done. cbv beta iota.
  rewrite decide_False by (destruct Hh; lia).
  pose proof (made_alloc (no_drop ns) h (BEvent tgev_zero) Hh) as Hm0.
  set (h0 := Heap (<[next h := BEvent tgev_zero]> (blocks h)) (next h + 1) []) in *.
  destruct (Hp h0 tgev_zero) as (h1 & e1 & A1 & Hrun & Hmeta & Hrep & Hm1);
    [by apply heap_ok_push|done|].
  rewrite Hrun. cbv beta iota. simpl. munfold.
  assert (Hlive : blocks h1 !! next h = Some (BEvent tgev_zero)).
  { rewrite (made_old _ _ _ _ _ Hm1) by (simpl; lia). apply lookup_insert_eq. }
  unfold store. rewrite Hlive. cbv beta iota.
  set (e2 := e1 <| is_replied_node := true |> <| evt_json := JP_sub j |>).
  assert (Hm : made (no_drop ns) h (h1 <| blocks := <[next h := BEvent e2]> (blocks h1) |>)
                 (next h :: A1)).
  { apply made_store; [apply (made_trans _ _ _ _ [next h] A1 Hm0 Hm1)|by left|by rewrite Hlive]. }
  eexists (next h), _, (next h :: A1). split; [done|]. split; [|done].
  destruct (rep_nonempty _ _ _ _ Hrep) as (n & ns' & -> & Hn).
  assert (Hrep' : rep (<[next h := BEvent e2]> (blocks h1)) e2 (n :: ns') A1).
  { eapply rep_frame; [by eapply rep_ext; [| |exact Hrep]|].
    intros a Ha. destruct Hm1 as (_ & _ & _ & _ & Hr & _). specialize (Hr a Ha). simpl in Hr.
    apply lookup_insert_ne. lia. }
  assert (Hg : exists e A', next h <> 0 /\
    (<[next h := BEvent e2]> (blocks h1)) !! next h = Some (BEvent e) /\
    is_replied_node e = true /\ next h :: A1 = next h :: A' /\
    rep (<[next h := BEvent e2]> (blocks h1)) e (n :: ns') A').
  { exists e2, A1. rewrite lookup_insert_eq. split_and!; try done. destruct Hh; lia. }
  unfold reply_at. by destruct n.
Qed.

Lemma parse_replied_err (parse : json -> M (hs tgev) Z) j h c :
  heap_ok h -> msg_post parse j (Exit c) ->
  exists h', parse_replied_msg parse j h = (Val 0, h') /\ made false h h' [].
Proof.
  intros Hh Hp. unfold parse_replied_msg. munfold. rewrite alloc_ok by done. cbv beta iota.
  rewrite decide_False by (destruct Hh; lia).
  pose proof (made_alloc true h (BEvent tgev_zero) Hh) as Hm0.
  set (h0 := Heap (<[next h := BEvent tgev_zero]> (blocks h)) (next h + 1) []) in *.
  destruct (Hp h0 tgev_zero) as (h1 & e1 & A1 & Hrun & -> & Hmeta & Hpart & Hm1);
    [by apply heap_ok_push|done|].
  rewrite Hrun. cbv beta iota. simpl. munfold. unfold free.
  rewrite decide_False by (destruct Hh; lia).
  rewrite (made_old _ _ _ _ _ Hm1) by (simpl; lia). simpl. rewrite lookup_insert_eq.
  cbv beta iota. eexists. split; [done|].
  destruct Hm0 as (Ho0 & Hn0 & Hk0 & _). destruct Hm1 as (Ho1 & Hn1 & Hk1 & _).
  destruct Ho1 as (Hf & Hz & Hl). simpl in Hn0. change (next h0) with (next h + 1) in *.
  split_and!; simpl; try done; try lia; try apply NoDup_nil_2.
  - split_and!; simpl; try done. intros a Ha. apply Hl. destruct (decide (a = next h)) as [->|].
    + rewrite lookup_delete_eq in Ha. by destruct Ha.
    + by rewrite lookup_delete_ne in Ha by done.
  - intros a Ha. rewrite lookup_delete_ne by lia. rewrite Hk1 by lia. by apply Hk0.
  - by intros a ?%elem_of_nil.
Qed.

Lemma parse_replied_fault (parse : json -> M (hs tgev) Z) j h f :
  heap_ok h -> msg_post parse j (Fault f) ->
  exists h', parse_replied_msg parse j h = (Fault f, h').
Proof.
  intros Hh Hp. unfold parse_replied_msg. munfold. rewrite alloc_ok by done. cbv beta iota.
  rewrite decide_False by (destruct Hh; lia).
  destruct (Hp (Heap (<[next h := BEvent tgev_zero]> (blocks h)) (next h + 1) []) tgev_zero)
    as (s' & ->); [by apply heap_ok_push|done|]. eauto.
Qed.

Lemma parse_reply_spec {X} parse rec j (set : Z -> X -> X) h x :
  heap_ok h -> (forall r, msg_post parse r (rec r)) ->
  match spec_reply rec j with
  | Val ns => exists p h' A, parse_reply parse j set (HS h x) = (Val tt, HS h' (set p x)) /\
      reply_at (fun e A' => rep (blocks h') e ns A') (blocks h') p ns A /\
      made (no_drop ns) h h' A
  | Exit c => False
  | Fault f => exists s', parse_reply parse j set (HS h x) = (Fault f, s')
  end.
Proof.
  intros Hh Hpost. unfold spec_reply, parse_reply.
  assert (Hnone : exists p h' A, upd (set 0) (HS h x) = (Val tt, HS h' (set p x)) /\
      reply_at (fun e A' => rep (blocks h') e [] A') (blocks h') p [] A /\ made true h h' A).
  { exists 0, h, []. split_and!; try done. by apply made_refl. }
  destruct (key j "reply_to_message") as [r|]; [|done].
  assert (Hgo : match match rec r with Exit _ => Val [NDropped] | o => o end with
    | Val ns => exists p h' A,
        (p ← on_heap (parse_replied_msg parse r); upd (set p)) (HS h x) =
          (Val tt, HS h' (set p x)) /\
        reply_at (fun e A' => rep (blocks h') e ns A') (blocks h') p ns A /\
        made (no_drop ns) h h' A
    | Exit c => False
    | Fault f => exists s', (p ← on_heap (parse_replied_msg parse r); upd (set p)) (HS h x) =
        (Fault f, s')
    end); [|by destruct r].
  specialize (Hpost r). munfold. unfold on_heap, zoom. simpl.
  destruct (rec r) as [ns|c|f].
  - destruct (parse_replied_ok parse r h ns Hh Hpost) as (p & h' & A & -> & Hr & Hm).
    by exists p, h', A.
  - destruct (parse_replied_err parse r h c Hh Hpost) as (h' & -> & Hm). by exists 0, h', [].
  - destruct (parse_replied_fault parse r h f Hh Hpost) as (h' & ->). eauto.
Qed.

(** ** The five kinds of message *)
Definition event_post (m : M (hs tgev) unit) (o : out (list node)) : Prop :=
  forall h e, heap_ok h -> msg e = MsgZero ->
  match o with
  | Val ns => exists h' e' A, m (HS h e) = (Val tt, HS h' e') /\ same_meta e e' /\
      rep (blocks h') e' ns A /\ made (no_drop ns) h h' A
  | Exit c => exists h' e' A, m (HS h e) = (Exit c, HS h' e') /\ c = - EINVAL /\
      same_meta e e' /\ partial (blocks h') e' A /\ made true h h' A
  | Fault x => exists s', m (HS h e) = (Fault x, s')
  end.

(** The same for the part of a parser that fills a member of the union. *)
Definition fill_post {X} (wrap : X -> tgev_msg) (ty : Z) (m : M (hs X) unit) (x : X)
    (o : out (list node)) : Prop :=
  forall h, heap_ok h ->
  match o with
  | Val ns => exists h' x' A, m (HS h x) = (Val tt, HS h' x') /\
      (forall e, evt_type e = ty -> msg e = wrap x' -> rep (blocks h') e ns A) /\
      made (no_drop ns) h h' A
  | Exit c => exists h' x' A, m (HS h x) = (Exit c, HS h' x') /\ c = - EINVAL /\
      (forall e, evt_type e = ty -> msg e = wrap x' -> partial (blocks h') e A) /\
      made true h h' A
  | Fault f => exists s', m (HS h x) = (Fault f, s')
  end.

Lemma upd_eq {X} (f : X -> X) h x : upd f (HS h x) = (Val tt, HS h (f x)).
Proof. done. Qed.

Lemma no_drop_cons n ns : no_drop (n :: ns) = negb (is_dropped n) && no_drop ns.
Proof. unfold no_drop. simpl. by rewrite negb_orb. Qed.

Lemma maybe_some {S A} j k (a : M S A) f r : key j k = Some r -> maybe j k a f = f r.
Proof. unfold maybe. by intros ->. Qed.
Lemma need_some {S A} j k (f : json -> M S A) r : key j k = Some r -> need j k f = f r.
Proof. unfold need. by intros ->. Qed.
Lemma need_none {S A} j k (f : json -> M S A) :
  key j k = None -> need j k f = exit (- EINVAL).
Proof. unfold need. by intros ->. Qed.

Lemma bind_upd {X A B} (f : X -> X) (m : M (hs X) A) (k : A -> M (hs X) B) h x :
  (a ← (upd f;; m); k a) (HS h x) = (a ← m; k a) (HS h (f x)).
Proof. done. Qed.

Lemma fill_event {X} (g : tgev_msg -> option X) wrap ty m x o :
  g MsgZero = Some x -> fill_post wrap ty m x o ->
  event_post (upd (fun e => e <| evt_type := ty |>);; in_union g wrap m) o.
Proof.
  intros Hg Hf h e Hh He. rewrite (bind_val _ _ _ _ _ (upd_eq _ _ _)).
  assert (Hrun : in_union g wrap m (HS h (e <| evt_type := ty |>)) =
    let '(r, t) := m (HS h x) in (r, HS (hp t) (e <| evt_type := ty |> <| msg := wrap (obj t) |>))).
  { unfold in_union. simpl. by rewrite He, Hg. }
  rewrite Hrun. specialize (Hf h Hh). destruct o as [ns|c|f].
  - destruct Hf as (h' & x' & A & -> & Hr & Hm). eexists h', _, A. split; [done|].
    split; [done|]. split; [by apply Hr|done].
  - destruct Hf as (h' & x' & A & -> & -> & Hp & Hm). eexists h', _, A. split; [done|].
    split; [done|]. split; [done|]. split; [by apply Hp|done].
  - destruct Hf as (s' & ->). by eexists.
Qed.

(** The specifications of the parts fail with [-EINVAL] only, and do not
    recurse. *)
Definition einval {A} (o : out A) : Prop :=
  match o with Exit c => c = - EINVAL | Fault f => f <> FFuel | Val _ => True end.

Lemma einval_bind {A B} (o : out A) (k : A -> out B) :
  einval o -> (forall a, einval (k a)) -> einval (a ← o; k a).
Proof. destruct o; simpl; auto. Qed.

Lemma einval_req j k : einval (req j k).
Proof. unfold req. by destruct (key j k). Qed.

Ltac solve_einval :=
  repeat match goal with
  | |- forall _, _ => intro
  | |- einval (_ ← _; _) => apply einval_bind
  | |- einval (req _ _) => apply einval_req
  | |- einval (match ?x with _ => _ end) => destruct x
  end; try done.

Lemma einval_file j : einval (spec_file j).
Proof. unfold spec_file, spec_size. solve_einval. Qed.
Lemma einval_from j : einval (spec_from j).
Proof. unfold spec_from. solve_einval. Qed.
Lemma einval_chat j : einval (spec_chat j).
Proof. unfold spec_chat, spec_chat_type. solve_einval. Qed.
Lemma einval_media j : einval (spec_media j).
Proof. unfold spec_media, spec_size. solve_einval; apply einval_file. Qed.
Lemma einval_sticker j : einval (spec_sticker j).
Proof. unfold spec_sticker. solve_einval; apply einval_file. Qed.
Lemma einval_head j : einval (spec_head j).
Proof.
  unfold spec_head, spec_forward. solve_einval; (apply einval_from || apply einval_chat).
Qed.

Lemma entities_no_exit j k c : spec_entities j k <> Exit c.
Proof. unfold spec_entities. destruct (key j k) as [[]|]; done. Qed.
Lemma reply_no_exit rec j c : spec_reply rec j <> Exit c.
Proof.
  unfold spec_reply. destruct (key j "reply_to_message") as [r|]; [|done].
  destruct (rec r) eqn:E; destruct r; done.
Qed.

(** The parts of a head never fault. *)
Definition no_fault {A} (o : out A) : Prop := match o with Fault _ => False | _ => True end.
Lemma no_fault_bind {A B} (o : out A) (k : A -> out B) :
  no_fault o -> (forall a, no_fault (k a)) -> no_fault (a ← o; k a).
Proof. destruct o; simpl; auto. Qed.
Lemma no_fault_req j k : no_fault (req j k).
Proof. unfold req. by destruct (key j k). Qed.
Ltac solve_no_fault :=
  repeat match goal with
  | |- forall _, _ => intro
  | |- no_fault (_ ← _; _) => apply no_fault_bind
  | |- no_fault (req _ _) => apply no_fault_req
  | |- no_fault (match ?x with _ => _ end) => destruct x
  end; try done.
Lemma file_no_fault j : no_fault (spec_file j).
Proof. unfold spec_file, spec_size. solve_no_fault. Qed.
Lemma no_fault_from j : no_fault (spec_from j).
Proof. unfold spec_from. solve_no_fault. Qed.
Lemma no_fault_chat j : no_fault (spec_chat j).
Proof. unfold spec_chat, spec_chat_type. solve_no_fault. Qed.
Lemma head_no_fault j f : spec_head j <> Fault f.
Proof.
  assert (Hn : no_fault (spec_head j)); [|by intros E; rewrite E in Hn].
  unfold spec_head, spec_forward.
  solve_no_fault; (apply no_fault_from || apply no_fault_chat).
Qed.

Lemma made_frame b b' h h1 h2 A A' :
  made b h h1 A -> made b' h1 h2 A' -> forall a, a ∈ A -> blocks h2 !! a = blocks h1 !! a.
Proof.
  intros (_&_&_&_&Hr&_) Hm a Ha. eapply made_old; [done|]. specialize (Hr a Ha). lia.
Qed.

(** Steps over the callee that fills a member, by cases on its result. *)
Ltac use_member g H :=
  match goal with |- context [mbind _ (member g ?p ?m) (HS ?h ?x)] =>
    let Hm := fresh "Hm" in
    pose proof (member_spec g p m h x _ H) as Hm;
    match type of Hm with match ?o with _ => _ end =>
      let Eo := fresh "Eo" in
      destruct o as [?v|?c|?f] eqn:Eo;
      [rewrite (bind_val _ _ _ _ _ Hm)
      |let y := fresh "y" in let Hy := fresh "Hy" in
       destruct Hm as [y Hy]; rewrite (bind_exit _ _ _ _ _ Hy)
      |let y := fresh "y" in let Hy := fresh "Hy" in
       destruct Hm as [y Hy]; rewrite (bind_fault _ _ _ _ _ Hy)]
    end
  end; cbn [mbind out_bind].

Ltac use_array :=
  match goal with
  | Hh : heap_ok ?h |- context [mbind _ (parse_entity_array ?err ?j ?k ?set ?set_c) (HS ?h ?x)] =>
    let Ha := fresh "Ha" in
    pose proof (parse_entity_array_spec err j k set set_c h x Hh ltac:(by intros ? ? [])) as Ha;
    let Eo := fresh "Eo" in
    destruct (spec_entities j k) as [?es|?c|?f] eqn:Eo;
      [destruct Ha as (?c & ?p & ?h' & ?A & Ha & ?He & ?Hm); rewrite (bind_val _ _ _ _ _ Ha)
      |destruct Ha
      |destruct Ha as [? Ha]; rewrite (bind_fault _ _ _ _ _ Ha); by eexists]
  end; cbn [mbind out_bind].

Lemma partial_text m h t e :
  evt_type e = TGEV_TEXT -> msg e = MsgText (Text h t 0 0 0) -> partial m e [].
Proof. intros. left. split; [done|]. left. eauto. Qed.
Lemma partial_sticker m h k e :
  evt_type e = TGEV_STICKER -> msg e = MsgSticker (EvSticker h k 0) -> partial m e [].
Proof. intros. left. split; [done|]. right. left. eauto. Qed.
Lemma partial_gif m h a d e :
  evt_type e = TGEV_GIF -> msg e = MsgGif (Gif h a d None 0 0 0) -> partial m e [].
Proof. intros. left. split; [done|]. right. right. eauto. Qed.

(** The end of a parser that stops with a code, nothing allocated. *)
Ltac stops H L :=
  eexists _, _, []; split; [reflexivity|]; split; [by eapply H|]; split;
    [intros ? ? ?; by eapply L|by apply made_refl].

Lemma head_code j c : spec_head j = Exit c -> c = - EINVAL.
Proof. intros E. pose proof (einval_head j) as Hc. by rewrite E in Hc. Qed.
Lemma sticker_code j c : spec_sticker j = Exit c -> c = - EINVAL.
Proof. intros E. pose proof (einval_sticker j) as Hc. by rewrite E in Hc. Qed.
Lemma media_code j c : spec_media j = Exit c -> c = - EINVAL.
Proof. intros E. pose proof (einval_media j) as Hc. by rewrite E in Hc. Qed.

Section Events.
Variable parse : json -> M (hs tgev) Z.
Variable rec : json -> out (list node).
Hypothesis Hrec : forall r, msg_post parse r (rec r).

(** The end of the messages that parse entities and then the reply. *)
Lemma reply_end {X} wrap ty j (set : Z -> X -> X) h h1 A1 x (fin : list node -> list node) :
  made true h h1 A1 ->
  (forall p m e ns A2, evt_type e = ty -> msg e = wrap (set p x) ->
     (forall a, a ∈ A1 -> m !! a = blocks h1 !! a) ->
     reply_at (fun e A' => rep m e ns A') m p ns A2 -> rep m e (fin ns) (A1 ++ A2)) ->
  (forall ns, no_drop (fin ns) = no_drop ns) ->
  match ns ← spec_reply rec j; Val (fin ns) with
  | Val ns => exists h' x' A, parse_reply parse j set (HS h1 x) = (Val tt, HS h' x') /\
      (forall e, evt_type e = ty -> msg e = wrap x' -> rep (blocks h') e ns A) /\
      made (no_drop ns) h h' A
  | Exit c => exists h' x' A, parse_reply parse j set (HS h1 x) = (Exit c, HS h' x') /\
      c = - EINVAL /\
      (forall e, evt_type e = ty -> msg e = wrap x' -> partial (blocks h') e A) /\
      made true h h' A
  | Fault f => exists s', parse_reply parse j set (HS h1 x) = (Fault f, s')
  end.
Proof.
  intros Hm1 Hrep Hnd. pose proof Hm1 as (Hok & _).
  pose proof (parse_reply_spec parse rec j set h1 x Hok Hrec) as Hr.
  destruct (spec_reply rec j) as [ns|c|f]; cbn [mbind out_bind]; [|done|done].
  destruct Hr as (p & h2 & A2 & -> & Hr & Hm2). rewrite Hnd.
  exists h2, (set p x), (A1 ++ A2). split; [done|]. split.
  - intros e He Hmsg. eapply Hrep; try done. by eapply made_frame.
  - eapply made_trans; [|done]. by apply made_weaken.
Qed.

Lemma parse_event_text_spec j t :
  key j "text" = Some t ->
  event_post (parse_event_text parse j)
    (h ← spec_head j; es ← spec_entities j "entities"; ns ← spec_reply rec j;
     Val (NText h (json_object_get_string t) es :: ns)).
Proof.
  intros Ht. unfold parse_event_text, maybe. rewrite Ht.
  apply (fill_event msg_text _ _ _ _ _ eq_refl). intros h Hh.
  rewrite (bind_val _ _ _ _ _ (upd_eq _ _ _)).
  use_member text_head (parse_head_spec j); [|stops head_code partial_text|by eexists].
  use_array. apply (reply_end _ _ _ _ _ _ A _ (cons _)); [done|..|done].
  intros q m e ns A2 Hty Hmsg Hfr Hr. exists A, A2. split; [done|]. split; [done|].
  exists c, p, q. split; [done|]. split; [by eapply ents_at_frame|done].
Qed.

Lemma parse_event_unknown_spec j h0 :
  spec_head j = Val h0 ->
  event_post (parse_event_unknown parse j)
    (es ← spec_entities j "entities"; ns ← spec_reply rec j; Val (NUnknown h0 es :: ns)).
Proof.
  intros Hh0. unfold parse_event_unknown.
  apply (fill_event msg_unknown _ _ _ _ _ eq_refl). intros h Hh.
  use_member unk_head (parse_head_spec j); try congruence. assert (v = h0) as -> by congruence.
  use_array. apply (reply_end _ _ _ _ _ _ A _ (cons _)); [done|..|done].
  intros q m e ns A2 Hty Hmsg Hfr Hr. exists A, A2. split; [done|]. split; [done|].
  exists c, p, q. split; [done|]. split; [by eapply ents_at_frame|done].
Qed.

Lemma parse_event_sticker_spec j r :
  key j "sticker" = Some r ->
  event_post (parse_event_sticker parse j)
    (k ← spec_sticker r; h ← spec_head j; ns ← spec_reply rec j; Val (NSticker h k :: ns)).
Proof.
  intros Hr. unfold parse_event_sticker, maybe. rewrite Hr.
  apply (fill_event msg_sticker _ _ _ _ _ eq_refl). intros h Hh.
  use_member sticker (parse_tgevi_sticker_spec r);
    [|stops sticker_code partial_sticker|by eexists].
  use_member sticker_head (parse_head_spec j); [|stops head_code partial_sticker|by eexists].
  apply (reply_end _ _ _ _ _ _ [] _ (cons _)); [by apply made_refl|..|done].
  intros q m e ns A2 Hty Hmsg Hfr Hrep. exists [], A2. split; [done|]. split; [done|].
  split; [done|]. by exists q.
Qed.

(** The end of the messages that parse a caption and no reply. *)
Lemma caption_end {X} wrap ty j absent set_cap err set set_c final h h1 A1 x
    (fin : cstr -> list tgevi_entity -> node) :
  made true h h1 A1 ->
  (forall c p (y : X), set c p (set_c c y) = set c p y) ->
  (forall y, absent y = set 0 0 (set_cap None y)) ->
  (forall cap c p m e es A2, evt_type e = ty ->
     msg e = wrap (final (set c p (set_cap cap x))) ->
     (forall a, a ∈ A1 -> m !! a = blocks h1 !! a) ->
     ents_at m c p es A2 -> rep m e [fin cap es] (A1 ++ A2)) ->
  (forall cap es, is_dropped (fin cap es) = false) ->
  let m := (maybe j "caption" (upd absent) (fun res =>
              upd (set_cap (json_object_get_string res));;
              parse_entity_array err j "caption_entities" set set_c);; upd final) in
  match '(cap, es) ← spec_caption j; Val [fin cap es] with
  | Val ns => exists h' x' A, m (HS h1 x) = (Val tt, HS h' x') /\
      (forall e, evt_type e = ty -> msg e = wrap x' -> rep (blocks h') e ns A) /\
      made (no_drop ns) h h' A
  | Exit c => exists h' x' A, m (HS h1 x) = (Exit c, HS h' x') /\ c = - EINVAL /\
      (forall e, evt_type e = ty -> msg e = wrap x' -> partial (blocks h') e A) /\
      made true h h' A
  | Fault f => exists s', m (HS h1 x) = (Fault f, s')
  end.
Proof.
  intros Hm1 Hset Habs Hrep Hnd m. subst m. pose proof Hm1 as (Hok & _).
  unfold spec_caption, maybe. destruct (key j "caption") as [r|].
  - rewrite bind_upd.
    pose proof (parse_entity_array_spec err j "caption_entities" set set_c h1
                  (set_cap (json_object_get_string r) x) Hok Hset) as Ha.
    destruct (spec_entities j "caption_entities") as [es|c|f];
      cbn [mbind out_bind]; [|done|].
    + destruct Ha as (c & p & h2 & A2 & Ha & He & Hm2).
      eexists h2, _, (A1 ++ A2). split; [unfold mbind, M_bind; by rewrite Ha|].
      split; [|by eapply made_trans, made_weaken; eauto using made_weaken].
      intros e Ht Hmsg. eapply Hrep; try done. by eapply made_frame.
    + destruct Ha as [s Ha]. unfold mbind, M_bind. rewrite Ha. by eexists.
  - cbn [mbind out_bind]. eexists h1, _, (A1 ++ []). split; [reflexivity|].
    rewrite no_drop_cons, Hnd. split.
    + intros e Ht Hmsg. rewrite Habs in Hmsg. by eapply Hrep.
    + by rewrite app_nil_r.
Qed.

Lemma parse_event_photo_spec j r :
  key j "photo" = Some r ->
  event_post (parse_event_photo j)
    (ps ← spec_photos r; h ← spec_head j; '(cap, es) ← spec_caption j;
     Val [NPhoto h ps cap es]).
Proof.
  intros Hr. unfold parse_event_photo. rewrite (maybe_some _ _ _ _ _ Hr).
  apply (fill_event msg_photo _ _ _ _ _ eq_refl). intros h Hh.
  destruct r as [| | | | | |l|]; try (by eexists). cbn [spec_photos mbind out_bind].
  rewrite (bind_val _ _ _ _ _ (eq_refl : json_object_array_length (JArray l) _ = _)).
  rewrite (bind_val _ _ _ _ _ (upd_eq _ _ _)).
  destruct (made_array true h (BFiles (photo_of <$> seen l)) Hh) as [Ha Hm].
  set (h1 := Heap _ _ _) in Ha, Hm.
  erewrite bind_val.
  2: { unfold on_heap, zoom. simpl. rewrite parse_tgevi_photos_ok by done. reflexivity. }
  rewrite (bind_val _ _ _ _ _ (upd_eq _ _ _)).
  use_member photo_head (parse_head_spec j).
  - cbn [hp].
    apply (caption_end MsgPhoto TGEV_PHOTO j _ (fun s t => t <| ph_caption := s |>)
      _ _ _ _ h h1 [next h] _ (NPhoto v _));
      try done.
    intros cap c p m e es A2 Ht Hmsg Hfr He. exists [next h], A2.
    split; [done|]. split; [done|]. split; [done|]. exists (next h), c, p.
    split; [|split; [exact (array_at_frame _ _ _ _ _ Ha Hfr)|done]].
    rewrite Hmsg. rewrite length_fmap, length_seen. reflexivity.
  - eexists h1, _, [next h]. split; [reflexivity|]. split; [by eapply head_code|].
    split; [|done]. intros e Ht Hmsg. right. split; [done|]. eexists _, _, _, _.
    split; [rewrite Hmsg; reflexivity|exact Ha].
  - by eexists.
Qed.

(** The document of an animation is read without a look at the result. *)
Lemma photo_member {X} (p : tgevi_file -> X -> X) g d h x :
  g x = file_zero ->
  member g p (ignore (parse_tgevi_file d)) (HS h x) = (Val tt, HS h (p (photo_of d) x)).
Proof.
  intros Hg. unfold member, zoom, photo_of, ignore. simpl. rewrite Hg.
  pose proof (parse_tgevi_file_spec d file_zero) as Hs. pose proof (file_no_fault d) as Hf.
  destruct (spec_file d); simpl in Hs; [by rewrite Hs|by destruct Hs as [? ->]|by destruct Hf].
Qed.

Lemma parse_event_gif_spec j r :
  key j "animation" = Some r ->
  event_post (parse_event_gif j)
    (m ← spec_media r; d ← req j "document"; h ← spec_head j; '(cap, es) ← spec_caption j;
     Val [NGif h m (photo_of d) cap es]).
Proof.
  intros Hr. unfold parse_event_gif. rewrite (maybe_some _ _ _ _ _ Hr).
  apply (fill_event msg_gif _ _ _ _ _ eq_refl). intros h Hh.
  use_member animation (parse_tgevi_media_spec r);
    [|stops media_code partial_gif|by eexists].
  destruct (key j "document") as [d|] eqn:Ed; unfold req; rewrite Ed; cbn [mbind out_bind].
  2: { erewrite bind_exit by (rewrite need_none by done; reflexivity).
       eexists _, _, []. split; [reflexivity|]. split; [done|].
       split; [intros ? ? ?; by eapply partial_gif|by apply made_refl]. }
  erewrite bind_val.
  2: { rewrite (need_some _ _ _ _ Ed). by apply photo_member. }
  use_member gif_head (parse_head_spec j); [|stops head_code partial_gif|by eexists].
  apply (caption_end MsgGif TGEV_GIF j _ (fun s t => t <| gif_caption := s |>)
    _ _ _ _ h h [] _ (NGif v0 v _));
    try done; [by apply made_refl|].
  intros cap c p m e es A2 Ht Hmsg Hfr He. exists A2, []. rewrite app_nil_r.
  split; [done|]. split; [done|]. split; [done|]. split; [done|]. exists c, p.
  split; [|done]. rewrite Hmsg. reflexivity.
Qed.

(** ** parse_message_json_obj *)
Lemma skipped m k j o :
  (forall s, m s = (Exit (- ECANCELED), s)) -> msg_post (fun _ => k) j o ->
  msg_post (fun _ => ret ← call m; if decide (ret <> - ECANCELED) then mret ret else k) j o.
Proof.
  intros Hm Hk h e Hh He. specialize (Hk h e Hh He).
  assert (Hs : (ret ← call m; if decide (ret <> - ECANCELED) then mret ret else k) (HS h e) =
               k (HS h e)); [|by rewrite Hs].
  unfold call, mbind, M_bind. by rewrite Hm, decide_False by tauto.
Qed.

Lemma taken m o s k :
  event_post m o ->
  msg_post (fun _ => ret ← call m; if decide (ret <> - ECANCELED) then mret ret else k) s o.
Proof.
  intros Hm h e Hh He. specialize (Hm h e Hh He). unfold call, mbind, M_bind.
  destruct o as [ns|c|f].
  - destruct Hm as (h' & e' & A & -> & ?). cbv beta iota.
    rewrite decide_True by done. by exists h', e', A.
  - destruct Hm as (h' & e' & A & -> & -> & ?). cbv beta iota.
    rewrite decide_True by done. by exists h', e', A.
  - destruct Hm as (s' & ->). by eexists.
Qed.

Lemma absent {S A} j k (f : json -> M S A) s :
  key j k = None -> maybe j k (exit (- ECANCELED)) f s = (Exit (- ECANCELED), s).
Proof. unfold maybe. by intros ->. Qed.

Lemma unknown_bad j c : spec_head j = Exit c ->
  forall h e, heap_ok h -> msg e = MsgZero -> exists e' c',
    parse_event_unknown parse j (HS h e) = (Exit c', HS h e') /\ same_meta e e' /\
    exists hd, msg e' = MsgUnknown (Unknown hd 0 0 0).
Proof.
  intros Hc h e Hh He. unfold parse_event_unknown.
  rewrite (bind_val _ _ _ _ _ (upd_eq _ _ _)). unfold in_union. simpl. rewrite He. simpl.
  match goal with |- context [mbind ?k (member ?g ?p ?m) (HS ?h ?x)] =>
    pose proof (member_spec g p m h x _ (parse_head_spec j)) as Hm end.
  rewrite Hc in Hm. destruct Hm as [y Hm]. rewrite (bind_exit _ _ _ _ _ Hm).
  eexists _, c. split; [done|]. split; [done|]. by eexists.
Qed.

Lemma unknown_post j :
  msg_post (fun _ => ret ← call (parse_event_unknown parse j);
              upd (fun e => e <| evt_type := TGEV_UNKNOWN |>);; mret 0) j
    (match spec_head j with
     | Val h => es ← spec_entities j "entities"; ns ← spec_reply rec j; Val (NUnknown h es :: ns)
     | Exit _ => Val [NBadUnknown]
     | Fault f => Fault f
     end).
Proof.
  intros h e Hh He. destruct (spec_head j) as [hd|c|f] eqn:Ehd.
  - pose proof (parse_event_unknown_spec j hd Ehd h e Hh He) as Hp.
    destruct (spec_entities j "entities") as [es|c|f] eqn:Ee;
      [|by destruct (entities_no_exit _ _ _ Ee)|].
    2: { destruct Hp as [s Hs]. unfold call, mbind, M_bind. cbn. rewrite Hs. by eexists. }
    destruct (spec_reply rec j) as [ns|c|f] eqn:Er; [|by destruct (reply_no_exit _ _ _ Er)|].
    2: { destruct Hp as [s Hs]. unfold call, mbind, M_bind. cbn. rewrite Hs. by eexists. }
    destruct Hp as (h' & e' & A & Hs & Hmeta & Hr & Hm). cbn [mbind out_bind].
    eexists h', _, A. unfold call, mbind, M_bind. rewrite Hs. split; [done|].
    split; [done|]. split; [|done]. eapply rep_ext; [| |exact Hr]; [|done].
    destruct Hr as (A1 & A2 & _ & Ht & _). by rewrite Ht.
  - destruct (unknown_bad j c Ehd h e Hh He) as (e' & c' & Hs & Hmeta & hd & Hmsg).
    eexists h, _, []. unfold call, mbind, M_bind. rewrite Hs. split; [done|].
    split; [done|]. split; [|by apply made_refl].
    exists [], []. split; [done|]. split; [done|]. split; [done|]. split; [done|].
    split; [done|]. by exists hd.
  - by destruct (head_no_fault j f).
Qed.

Lemma spec_body_post j : msg_post (parse_message_body parse) j (spec_body rec j).
Proof.
  cut (msg_post (fun _ => parse_message_body parse j) j (spec_body rec j)); [done|].
  unfold spec_body, parse_message_body.
  destruct (key j "text") as [t|] eqn:Et; [by apply (taken _ _ j), parse_event_text_spec|].
  apply skipped; [intros s; by apply absent|].
  destruct (key j "photo") as [r|] eqn:Ep; [by apply (taken _ _ j), parse_event_photo_spec|].
  apply skipped; [intros s; by apply absent|].
  destruct (key j "sticker") as [r|] eqn:Ek; [by apply (taken _ _ j), parse_event_sticker_spec|].
  apply skipped; [intros s; by apply absent|].
  destruct (key j "animation") as [r|] eqn:Eg; [by apply (taken _ _ j), parse_event_gif_spec|].
  apply skipped; [intros s; by apply absent|].
  apply unknown_post.
Qed.
End Events.

Lemma parse_message_post n j : msg_post (parse_message_json_obj n) j (spec_msg_n n j).
Proof.
  revert j. induction n as [|n IH]; intros j; [intros h e _ _; by eexists|].
  intros h e. change (parse_message_json_obj (S n) j)
    with (parse_message_body (parse_message_json_obj n) j).
  change (spec_msg_n (S n) j) with (spec_body (spec_msg_n n) j).
  exact (spec_body_post _ _ IH j h e).
Qed.

(** ** The depth of a message is enough fuel *)
Lemma assoc_depth k l v : assoc k l = Some v -> (json_depth v < json_depth (JObject l))%nat.
Proof.
  simpl. induction l as [|[k' v'] l IH]; simpl; [done|].
  case_decide; intros; simplify_eq; [lia|]. specialize (IH H1). lia.
Qed.

Lemma bind_fuel {A B} (o : out A) (k : A -> out B) :
  o <> Fault FFuel -> (forall a, k a <> Fault FFuel) -> (a ← o; k a) <> Fault FFuel.
Proof. destruct o; simpl; intros; auto; congruence. Qed.

Lemma einval_fuel {A} (o : out A) : einval o -> o <> Fault FFuel.
Proof. by destruct o as [| |[]]. Qed.

Lemma entities_fuel j k : spec_entities j k <> Fault FFuel.
Proof. unfold spec_entities. by destruct (key j k) as [[]|]. Qed.

Lemma reply_fuel rec j :
  (forall r, key j "reply_to_message" = Some r -> rec r <> Fault FFuel) ->
  spec_reply rec j <> Fault FFuel.
Proof.
  intros Hr. unfold spec_reply. destruct (key j "reply_to_message") as [r|]; [|done].
  specialize (Hr r eq_refl). destruct (rec r); destruct r; done.
Qed.

Lemma caption_fuel j : spec_caption j <> Fault FFuel.
Proof.
  unfold spec_caption. destruct (key j "caption"); [|done].
  apply bind_fuel; [apply entities_fuel|done].
Qed.

Lemma spec_enough n j : (json_depth j <= n)%nat -> spec_msg_n n j <> Fault FFuel.
Proof.
  revert j. induction n as [|n IH]; intros j Hn; [by destruct j; simpl in Hn; lia|].
  assert (Hr : spec_reply (spec_msg_n n) j <> Fault FFuel).
  { apply reply_fuel. intros r Hr. apply IH. destruct j; try done.
    apply assoc_depth in Hr. lia. }
  change (spec_msg_n (S n) j) with (spec_body (spec_msg_n n) j).
  pose proof (einval_fuel _ (einval_head j)) as Hh.
  pose proof (entities_fuel j "entities") as He. pose proof (caption_fuel j) as Hc.
  unfold spec_body.
  repeat first
    [ done
    | match goal with |- forall _, _ => intro end
    | apply einval_fuel, einval_sticker
    | apply einval_fuel, einval_media
    | apply einval_fuel, einval_req
    | apply bind_fuel
    | match goal with |- spec_photos ?r <> _ => by destruct r end
    | case_match; congruence
    | progress case_match ].
  by intros [= ->].
Qed.
End Mem.

(** ** tg_event_destroy *)
Definition del (A : list Z) (h : heap) : heap := h <| blocks := foldr delete (blocks h) A |>.

Lemma lookup_del A h a :
  blocks (del A h) !! a = if decide (a ∈ A) then None else blocks h !! a.
Proof.
  change (blocks (del A h)) with (foldr delete (blocks h) A).
  induction A as [|b A IH]; cbn [foldr].
  { rewrite decide_False; [done|]. apply not_elem_of_nil. }
  destruct (decide (a = b)) as [->|Hne].
  - rewrite lookup_delete_eq, decide_True by left. done.
  - rewrite lookup_delete_ne by done. rewrite IH.
    destruct (decide (a ∈ A)).
    + by rewrite decide_True by by right.
    + by rewrite decide_False by (intros [?|?]%elem_of_cons; done).
Qed.

Lemma heap_eq h h' :
  next h = next h' -> fails h = fails h' -> (forall a, blocks h !! a = blocks h' !! a) -> h = h'.
Proof. destruct h, h'. simpl. intros -> -> Hb. f_equal. by apply map_eq. Qed.

Lemma del_nil h : del [] h = h.
Proof. by destruct h. Qed.

Lemma del_del A1 A2 h : del A2 (del A1 h) = del (A1 ++ A2) h.
Proof.
  apply heap_eq; [done..|]. intros a. rewrite !lookup_del.
  repeat case_decide; set_solver.
Qed.

Lemma free_live p h : p <> 0 -> is_Some (blocks h !! p) -> free p h = (Val tt, del [p] h).
Proof. intros Hp [b Hb]. unfold free. by rewrite decide_False, Hb. Qed.

Lemma free_array m p b A h :
  array_at m p b A -> blocks h = m -> free p h = (Val tt, del A h).
Proof. intros (Hp & Hm & ->) <-. apply free_live; [done|]. by eexists. Qed.

Lemma free_ents c p es A h :
  ents_at (blocks h) c p es A ->
  (if decide (c > 0) then free p else mret tt) h = (Val tt, del A h).
Proof.
  intros [-> He]. destruct es as [|e es].
  - destruct He as [-> ->]. by rewrite del_nil.
  - rewrite decide_True by (simpl; lia). by eapply free_array.
Qed.

(** A node that [tg_event_destroy] gives its blocks back for. *)
Definition known_node (n : node) : bool :=
  match n with NUnknown _ _ | NBadUnknown => false | _ => true end.

Lemma del_reply h r A e :
  r <> 0 -> r ∉ A ->
  (store r (BEvent e);; free r) (del A h) = (Val tt, del (r :: A) h) \/
  blocks h !! r = None.
Proof.
  intros Hr HA. destruct (blocks h !! r) as [b|] eqn:Hb; [left|by right].
  assert (Hl : blocks (del A h) !! r = Some b) by by rewrite lookup_del, decide_False.
  unfold store, mbind, M_bind. rewrite Hl. rewrite free_live; [|done|].
  2: { simpl. rewrite lookup_insert_eq. by eexists. }
  f_equal. apply heap_eq; [done..|]. intros a. rewrite !lookup_del. simpl.
  destruct (decide (a = r)) as [->|Hne].
  - rewrite !decide_True by left. done.
  - rewrite (decide_False (P := a ∈ [r])) by set_solver. rewrite lookup_insert_ne by done.
    pose proof (lookup_del A h a) as Hd. simpl in Hd. rewrite Hd.
    repeat case_decide; set_solver.
Qed.

Lemma destroy_reply_at (destroy : M (hs tgev) unit) h r ns A (R : tgev -> list Z -> Prop) :
  reply_at R (blocks h) r ns A -> NoDup A ->
  (forall e A', A = r :: A' -> R e A' -> is_replied_node e = true ->
     destroy (HS h e) = (Val tt, HS (del A' h) e)) ->
  (if decide (r <> 0) then destroy_reply_to_msg destroy r else mret tt) h = (Val tt, del A h).
Proof.
  intros Hr Hnd Hd.
  assert (Hnil : r = 0 /\ A = [] ->
    (if decide (r <> 0) then destroy_reply_to_msg destroy r else mret tt) h = (Val tt, del A h)).
  { intros [-> ->]. rewrite decide_False by tauto. by rewrite del_nil. }
  assert (Hcons : (exists e A', r <> 0 /\ blocks h !! r = Some (BEvent e) /\
      is_replied_node e = true /\ A = r :: A' /\ R e A') ->
    (if decide (r <> 0) then destroy_reply_to_msg destroy r else mret tt) h = (Val tt, del A h)).
  { intros (e & A' & Hr0 & Hm & Hi & -> & HR). rewrite decide_True by done.
    unfold destroy_reply_to_msg. erewrite bind_val by (unfold load; by rewrite Hm). cbv beta iota.
    erewrite bind_val by (rewrite (Hd e A') by done; reflexivity). cbn [hp obj].
    apply NoDup_cons in Hnd as [Hnin Hnd].
    destruct (del_reply h r A' e Hr0 Hnin) as [Hx|Hx]; [exact Hx|congruence]. }
  destruct ns as [|n ns]; [by apply Hnil|]. destruct n; auto.
Qed.

Lemma destroy_n_msg n e h h' :
  is_replied_node e = true -> destroy_msg (tg_event_destroy_n n) e h = (Val tt, h') ->
  tg_event_destroy_n (S n) (HS h e) = (Val tt, HS h' e).
Proof.
  intros Hi Hd. cbn [tg_event_destroy_n]. unfold destroy_body, on_heap, zoom, mbind, M_bind.
  simpl. by rewrite Hd, Hi.
Qed.

(** Freeing some blocks leaves the others alone. *)
Lemma del_other h A1 A2 a :
  NoDup (A1 ++ A2) -> a ∈ A2 -> blocks (del A1 h) !! a = blocks h !! a.
Proof.
  intros Hnd Ha. rewrite lookup_del. apply NoDup_app in Hnd as (_ & Hd & _).
  rewrite decide_False; [done|]. intros Hin. by apply (Hd a).
Qed.

Lemma reply_del h r ns A1 A2 :
  NoDup (A1 ++ A2) -> reply_at (fun e A' => rep (blocks h) e ns A') (blocks h) r ns A2 ->
  reply_at (fun e A' => rep (blocks (del A1 h)) e ns A') (blocks (del A1 h)) r ns A2.
Proof.
  intros Hnd Hr. refine (reply_at_frame _ _ _ _ _ _ _ _ Hr _).
  - intros e A' He Ha. exact (rep_frame _ _ _ _ _ He Ha).
  - intros a Ha. by apply (del_other _ _ A2).
Qed.

Lemma ents_del h c p es A1 A2 :
  NoDup (A1 ++ A2) -> ents_at (blocks h) c p es A2 -> ents_at (blocks (del A1 h)) c p es A2.
Proof.
  intros Hnd Hr. refine (ents_at_frame _ _ _ _ _ _ Hr _). intros a Ha.
  by apply (del_other _ _ A2).
Qed.

Lemma destroy_msg_text d e t h :
  evt_type e = TGEV_TEXT -> msg e = MsgText t ->
  destroy_msg d e h = tg_event_destroy_text d t h.
Proof. intros Ht Hm. unfold destroy_msg. by rewrite Ht, Hm. Qed.
Lemma destroy_msg_photo d e t h :
  evt_type e = TGEV_PHOTO -> msg e = MsgPhoto t ->
  destroy_msg d e h = tg_event_destroy_photo d t h.
Proof. intros Ht Hm. unfold destroy_msg. by rewrite Ht, Hm. Qed.
Lemma destroy_msg_sticker d e t h :
  evt_type e = TGEV_STICKER -> msg e = MsgSticker t ->
  destroy_msg d e h = tg_event_destroy_sticker d t h.
Proof. intros Ht Hm. unfold destroy_msg. by rewrite Ht, Hm. Qed.
Lemma destroy_msg_gif d e t h :
  evt_type e = TGEV_GIF -> msg e = MsgGif t ->
  destroy_msg d e h = tg_event_destroy_gif d t h.
Proof. intros Ht Hm. unfold destroy_msg. by rewrite Ht, Hm. Qed.

Lemma destroy_msg_rep ns n evt A h :
  forallb known_node ns = true -> rep (blocks h) evt ns A -> NoDup A -> (length A <= n)%nat ->
  destroy_msg (tg_event_destroy_n n) evt h = (Val tt, del A h).
Proof.
  revert n evt A h. induction ns as [|nd ns IH]; intros n evt A h Hk Hr Hnd Hn; [done|].
  cbn [forallb] in Hk. apply andb_true_iff in Hk as [Hk1 Hk].
  destruct Hr as (A1 & A2 & -> & Hr). cbv zeta in Hr.
  (* the replied message, once the arrays [A1] are freed *)
  assert (Hreply : forall r,
    reply_at (fun e A' => rep (blocks h) e ns A') (blocks h) r ns A2 ->
    (if decide (r <> 0) then destroy_reply_to_msg (tg_event_destroy_n n) r else mret tt)
      (del A1 h) = (Val tt, del (A1 ++ A2) h)).
  { intros r Hrep. rewrite <- del_del. eapply destroy_reply_at; [by apply reply_del| |].
    - by apply NoDup_app in Hnd as (_ & _ & ?).
    - intros e A' -> He Hi. rewrite length_app in Hn. simpl in Hn.
      destruct n as [|n]; [lia|]. apply destroy_n_msg; [done|]. apply IH; try done; [|lia].
      apply NoDup_app in Hnd as (_ & _ & Hnd). by apply NoDup_cons in Hnd as [_ ?]. }
  destruct nd; try done; destr_all; simplify_eq.
  - erewrite destroy_msg_text by done. unfold tg_event_destroy_text.
    erewrite bind_val by (by eapply free_ents). by apply Hreply.
  - erewrite destroy_msg_photo by done. unfold tg_event_destroy_photo. simpl.
    erewrite bind_val by (by eapply free_array). rewrite <- del_del.
    erewrite bind_val; [reflexivity|]. by eapply free_ents, ents_del.
  - erewrite destroy_msg_sticker by done. unfold tg_event_destroy_sticker.
    rewrite <- (del_nil h) at 1. by apply Hreply.
  - erewrite destroy_msg_gif by done. unfold tg_event_destroy_gif. simpl. rewrite app_nil_r.
    erewrite bind_val; [reflexivity|]. by eapply free_ents.
Qed.

(** An event that a parser gave up on is destroyed as well. *)
Lemma destroy_msg_partial n evt A h :
  partial (blocks h) evt A ->
  destroy_msg (tg_event_destroy_n n) evt h = (Val tt, del A h).
Proof.
  intros [[-> [H|[H|H]]]|H]; destr_all.
  - erewrite destroy_msg_text by done. by rewrite del_nil.
  - erewrite destroy_msg_sticker by done. by rewrite del_nil.
  - erewrite destroy_msg_gif by done. by rewrite del_nil.
  - erewrite destroy_msg_photo by done. unfold tg_event_destroy_photo. simpl.
    by erewrite bind_val by (by eapply free_array).
Qed.

(** The top-level event also gives its JSON object back. *)
Lemma destroy_top e h h' a j :
  is_replied_node e = false -> evt_json e = JP_root a -> blocks h' !! a = Some (BJson j) ->
  destroy_msg (tg_event_destroy_n (size (blocks h))) e h = (Val tt, h') ->
  tg_event_destroy (HS h e) = (Val tt, HS (del [a] h') (e <| evt_json := JP_null |>)).
Proof.
  intros Hi Hj Hb Hd. unfold tg_event_destroy. cbn [hp tg_event_destroy_n].
  unfold destroy_body, on_heap, zoom, mbind, M_bind. simpl.
  rewrite Hd, Hi, Hj. unfold json_object_put. simpl. by rewrite Hb.
Qed.

Lemma destroy_top_null e h h' :
  is_replied_node e = false -> evt_json e = JP_null ->
  destroy_msg (tg_event_destroy_n (size (blocks h))) e h = (Val tt, h') ->
  tg_event_destroy (HS h e) = (Val tt, HS h' e).
Proof.
  intros Hi Hj Hd. unfold tg_event_destroy. cbn [hp tg_event_destroy_n].
  unfold destroy_body, on_heap, zoom, mbind, M_bind. simpl. by rewrite Hd, Hi, Hj.
Qed.

Lemma rep_live m evt ns A : rep m evt ns A -> forall a, a ∈ A -> is_Some (m !! a).
Proof.
  assert (Harr : forall p b A a, array_at m p b A -> a ∈ A -> is_Some (m !! a)).
  { intros p b A' a (_ & Hm & ->) ->%list_elem_of_singleton. by eexists. }
  assert (Hents : forall c p es A a, ents_at m c p es A -> a ∈ A -> is_Some (m !! a)).
  { intros c p [|e es] A' a [_ He] Ha; [|by eapply Harr].
    destruct He as [_ ->]. by apply elem_of_nil in Ha. }
  revert evt A. induction ns as [|nd ns IH]; intros evt A; [done|].
  intros (A1 & A2 & -> & Hr). cbv zeta in Hr.
  assert (Hrep : forall r a, reply_at (fun e A' => rep m e ns A') m r ns A2 -> a ∈ A2 ->
            is_Some (m !! a)).
  { intros r a Hr' Ha. unfold reply_at in Hr'.
    assert (Hc : (exists e A', r <> 0 /\ m !! r = Some (BEvent e) /\ is_replied_node e = true /\
               A2 = r :: A' /\ rep m e ns A') -> is_Some (m !! a)).
    { intros (e & A' & _ & Hm & _ & -> & Hx). apply elem_of_cons in Ha as [->|Ha]; eauto. }
    assert (Hn : r = 0 /\ A2 = [] -> is_Some (m !! a)).
    { intros [_ ->]. by apply elem_of_nil in Ha. }
    destruct ns as [|nd' ns]; [by apply Hn|]. destruct nd'; auto. }
  intros a [Ha|Ha]%elem_of_app; destruct nd; destr_all; subst; try set_solver; eauto.
Qed.
