(* ===== verification/TgPrint.v ===== *)
(** * Printing a message as JSON, and parsing it back

    An encoder of values as the JSON objects of the Telegram API.  It is not
    part of the program: it says which objects the parsers read, and that they
    read them without loss. *)
From S2P Require Import Prelude CString Json TgEvent TgSpec TgMem.
Local Open Scope string_scope.

Definition enc_str (o : cstr) : json := match o with Some s => JString s | None => JNull end.
Definition enc_uint (z : Z) : json := if decide (z < 2 ^ 63) then JInt z else JUint z.

Definition str_ok (o : cstr) : Prop := match o with Some s => no_nul s | None => True end.
Definition u16_ok (z : Z) : Prop := 0 <= z < 2 ^ 16.

(** ** The parts *)
Definition enc_file (f : tgevi_file) : json :=
  JObject [("file_name", enc_str (file_name f)); ("mime_type", enc_str (mime_type f));
    ("file_id", enc_str (file_id f)); ("file_unique_id", enc_str (file_unique_id f));
    ("file_size", enc_uint (file_size f)); ("width", JInt (width f)); ("height", JInt (height f))].
Definition file_ok (f : tgevi_file) : Prop :=
  str_ok (file_name f) /\ str_ok (mime_type f) /\ str_ok (file_id f) /\
  str_ok (file_unique_id f) /\ 0 <= file_size f /\ u16_ok (width f) /\ u16_ok (height f).

Definition enc_entity (e : tgevi_entity) : json :=
  JObject [("offset", JInt (offset e)); ("length", JInt (ent_length e));
    ("type", enc_str (ent_type e))].
Definition entity_ok (e : tgevi_entity) : Prop :=
  u16_ok (offset e) /\ u16_ok (ent_length e) /\ str_ok (ent_type e).

Definition enc_from (f : tgevi_from) : json :=
  JObject [("id", enc_uint (from_id f)); ("first_name", enc_str (first_name f));
    ("last_name", enc_str (last_name f)); ("username", enc_str (username f));
    ("language_code", JString (c_str (lang f))); ("is_bot", JBool (is_bot f))].
Definition from_ok (f : tgevi_from) : Prop :=
  0 <= from_id f /\ str_ok (first_name f) /\ str_ok (last_name f) /\ str_ok (username f) /\
  char_array 4 (c_str (lang f)) = lang f.

Definition enc_chat (c : tgevi_chat) : json :=
  let common := [("id", JInt (chat_id c)); ("username", enc_str (chat_username c))] in
  JObject (
    if decide (chat_type c = TGEV_CHAT_PRIVATE) then
      ("type", JString (bs "private")) :: ("first_name", enc_str (chat_first_name c)) ::
      ("last_name", enc_str (chat_last_name c)) :: common
    else if decide (chat_type c = TGEV_CHAT_GROUP) then
      ("type", JString (bs "group")) :: ("title", enc_str (title c)) ::
      ("all_members_are_administrators", JBool (all_admins c)) :: common
    else ("type", JString (bs "supergroup")) :: ("title", enc_str (title c)) :: common).
Definition chat_ok (c : tgevi_chat) : Prop :=
  str_ok (title c) /\ str_ok (chat_username c) /\ str_ok (chat_first_name c) /\
  str_ok (chat_last_name c) /\
  ((chat_type c = TGEV_CHAT_PRIVATE /\ title c = None /\ all_admins c = false) \/
   (chat_type c <> TGEV_CHAT_PRIVATE /\ chat_first_name c = None /\ chat_last_name c = None /\
    (chat_type c = TGEV_CHAT_GROUP \/
     (chat_type c = TGEV_CHAT_SUPERGROUP /\ all_admins c = false)))).

(** A media object without a thumbnail; a thumbnail is not read back (the
    parser reads it from the media object). *)
Definition enc_media (m : tgevi_media) : json :=
  JObject [("file_name", enc_str (md_file_name m)); ("mime_type", enc_str (md_mime_type m));
    ("duration", JInt (md_duration m)); ("width", JInt (md_width m)); ("height", JInt (md_height m));
    ("title", enc_str (md_title m)); ("performer", enc_str (md_performer m));
    ("file_id", enc_str (md_file_id m)); ("file_unique_id", enc_str (md_file_unique_id m));
    ("file_size", enc_uint (md_file_size m))].
Definition media_ok (m : tgevi_media) : Prop :=
  str_ok (md_file_id m) /\ str_ok (md_file_name m) /\ str_ok (md_mime_type m) /\
  str_ok (md_title m) /\ str_ok (md_performer m) /\ str_ok (md_file_unique_id m) /\
  0 <= md_file_size m /\ 0 <= md_duration m < 2 ^ 32 /\ u16_ok (md_width m) /\
  u16_ok (md_height m) /\ md_thumb m = file_zero.

Definition enc_sticker (k : tgevi_sticker) : json :=
  JObject [("width", JInt (stk_width k)); ("height", JInt (stk_height k));
    ("emoji", JString (c_str (emoji k))); ("set_name", enc_str (set_name k));
    ("is_animated", JBool (is_animated k)); ("file_id", enc_str (stk_file_id k));
    ("file_unique_id", enc_str (stk_file_unique_id k));
    ("file_size", enc_uint (stk_file_size k)); ("thumb", enc_file (stk_thumb k))].
Definition sticker_ok (k : tgevi_sticker) : Prop :=
  u16_ok (stk_width k) /\ u16_ok (stk_height k) /\ char_array 6 (c_str (emoji k)) = emoji k /\
  str_ok (set_name k) /\ str_ok (stk_file_id k) /\ str_ok (stk_file_unique_id k) /\
  0 <= stk_file_size k /\ file_ok (stk_thumb k).

Definition enc_forward (h : tgev_head) : list (string * json) :=
  if is_forwarded h then
    [("forward_date", JInt (forward_date h));
     if is_unknown_fwd h then ("forward_sender_name", enc_str (fwd_sender_name h))
     else ("forward_from", enc_from (forward_from h))]
  else [].
Definition forward_ok (h : tgev_head) : Prop :=
  match is_forwarded h, is_unknown_fwd h with
  | false, false =>
      forward_date h = 0 /\ fwd_sender_name h = None /\ forward_from h = from_zero
  | true, false => fwd_sender_name h = None /\ from_ok (forward_from h)
  | true, true => str_ok (fwd_sender_name h) /\ forward_from h = from_zero
  | false, true => False
  end.

Definition enc_sender (c : tgevi_chat) : list (string * json) :=
  if decide (chat_type c = 0) then [] else [("sender_chat", enc_chat c)].
Definition sender_ok (c : tgevi_chat) : Prop :=
  if decide (chat_type c = 0) then c = chat_zero else chat_ok c.

Definition enc_head (h : tgev_head) : list (string * json) :=
  ("message_id", enc_uint (msg_id h)) :: ("from", enc_from (from h)) ::
  ("chat", enc_chat (chat h)) :: ("date", JInt (date h)) ::
  enc_sender (sender_chat h) ++ enc_forward h.
Definition head_ok (h : tgev_head) : Prop :=
  0 <= msg_id h /\ from_ok (from h) /\ chat_ok (chat h) /\ sender_ok (sender_chat h) /\
  forward_ok h.

(** ** A message and the messages it replies to *)
Definition enc_entities (es : list tgevi_entity) : json := JArray (enc_entity <$> es).
Definition array_ok {A} (P : A -> Prop) (l : list A) : Prop :=
  Z.of_nat (length l) < 2 ^ 16 /\ Forall P l.

Definition enc_reply (enc : list node -> json) (ns : list node) : list (string * json) :=
  match ns with [] => [] | _ => [("reply_to_message", enc ns)] end.

Fixpoint enc_msg (ns : list node) : json :=
  match ns with
  | NText h t es :: ns' =>
      JObject (("text", enc_str t) :: ("entities", enc_entities es) :: enc_head h ++
               enc_reply enc_msg ns')
  | NPhoto h ps cap es :: _ =>
      JObject (("photo", JArray (enc_file <$> ps)) :: ("caption", enc_str cap) ::
               ("caption_entities", enc_entities es) :: enc_head h)
  | NSticker h k :: ns' =>
      JObject (("sticker", enc_sticker k) :: enc_head h ++ enc_reply enc_msg ns')
  | NGif h m d cap es :: _ =>
      JObject (("animation", enc_media m) :: ("document", enc_file d) ::
               ("caption", enc_str cap) :: ("caption_entities", enc_entities es) :: enc_head h)
  | NUnknown h es :: ns' =>
      JObject (("entities", enc_entities es) :: enc_head h ++ enc_reply enc_msg ns')
  | _ => JNull
  end.

(** The messages that can be printed: numbers and texts in their ranges, and
    only what the code parses.  photo.h and gif.h leave replies to be done, and
    parse_tgevi_media reads the thumbnail from the media object itself, so that
    [media_ok] has none. *)
Fixpoint nodes_ok (ns : list node) : Prop :=
  let rest ns' := ns' = [] \/ nodes_ok ns' in
  match ns with
  | NText h t es :: ns' =>
      head_ok h /\ str_ok t /\ array_ok entity_ok es /\ rest ns'
  | NPhoto h ps cap es :: ns' =>
      head_ok h /\ array_ok file_ok ps /\ str_ok cap /\ array_ok entity_ok es /\ ns' = []
  | NSticker h k :: ns' => head_ok h /\ sticker_ok k /\ rest ns'
  | NGif h m d cap es :: ns' =>
      head_ok h /\ media_ok m /\ file_ok d /\ str_ok cap /\ array_ok entity_ok es /\ ns' = []
  | NUnknown h es :: ns' => head_ok h /\ array_ok entity_ok es /\ rest ns'
  | _ => False
  end.

(** ** Parsing them back *)
Section Parse.
Context `{JsonLib}.

Lemma c_str_id s : no_nul s -> c_str s = s.
Proof. induction 1; simpl; [done|]. rewrite decide_False by done. by f_equal. Qed.

Lemma get_enc_str o : str_ok o -> json_object_get_string (enc_str o) = o.
Proof. destruct o; simpl; [|done]. intros. by rewrite c_str_id. Qed.

Lemma get_enc_uint z : 0 <= z -> json_object_get_uint64 (enc_uint z) = z.
Proof. intros. unfold enc_uint. case_decide; [by apply get_uint64_JInt|done]. Qed.

Lemma get_u16 z : u16_ok z -> u16 (json_object_get_uint64 (JInt z)) = z.
Proof. unfold u16_ok. intros. rewrite get_uint64_JInt by lia. by apply u16_small. Qed.

Lemma get_u32 z : 0 <= z < 2 ^ 32 -> u32 (json_object_get_uint64 (JInt z)) = z.
Proof. intros. rewrite get_uint64_JInt by lia. by apply u32_small. Qed.

Lemma c_str_c_str s : c_str (c_str s) = c_str s.
Proof. apply c_str_id, c_str_no_nul. Qed.

(** Reads a literal key of an object of literal keys. *)
Ltac read_keys :=
  cbn [mbind out_bind json_object_object_get_ex];
  repeat match goal with
  | |- context [assoc ?k ((?k', ?v) :: ?l)] =>
      let b := eval vm_compute in (bool_decide (k = k')) in
      match b with
      | true => change (assoc k ((k', v) :: l)) with (Some v)
      | false => change (assoc k ((k', v) :: l)) with (assoc k l)
      end
  | |- context [assoc ?k []] => change (assoc k []) with (@None json)
  end; cbn [snd mbind out_bind mret out_ret].

(** Decides equations between constants. *)
Ltac decide_consts :=
  repeat match goal with
  | |- context [decide (?a = ?b)] =>
      first [rewrite (decide_True (P := a = b)) by done
            |rewrite (decide_False (P := a = b)) by done]
  end.

Ltac read_values :=
  rewrite ?get_enc_str, ?get_enc_uint, ?get_u16, ?get_u32 by (done || lia).

Lemma parse_enc_file f : file_ok f -> spec_file (enc_file f) = Val f.
Proof.
  intros (?&?&?&?&?&?&?). unfold spec_file, spec_size, req, opt_string, enc_file.
  read_keys. read_values. by destruct f.
Qed.

Lemma parse_enc_from f : from_ok f -> spec_from (enc_from f) = Val f.
Proof.
  intros (?&?&?&?&Hl). unfold spec_from, req, opt_string, opt_bool, enc_from.
  read_keys. read_values. cbn [json_object_get_string from_option]. unfold id.
  rewrite c_str_c_str, Hl. by destruct f.
Qed.

Lemma parse_enc_entity e : entity_ok e -> entity_of (enc_entity e) = e.
Proof.
  intros (?&?&?). unfold entity_of, parse_entity, enc_entity. read_keys. read_values.
  by destruct e.
Qed.

Lemma parse_enc_chat c : chat_ok c -> spec_chat (enc_chat c) = Val c.
Proof.
  intros (?&?&?&?&Ht). unfold spec_chat, spec_chat_type, req, opt_string, enc_chat.
  destruct c as [i t un fn ln ty aa]. simpl in *.
  destruct Ht as [(->&->&->)|(Hne&->&->&[->|(->&->)])];
    decide_consts; read_keys; cbn [json_object_get_string]; simpl c_str; decide_consts;
    cbn [mbind out_bind]; decide_consts; read_keys; read_values; done.
Qed.

Lemma parse_enc_media m : media_ok m -> spec_media (enc_media m) = Val m.
Proof.
  intros (?&?&?&?&?&?&?&?&?&?&Ht). unfold spec_media, spec_size, req, opt_string, enc_media.
  read_keys. read_values. destruct m. simpl in *. by subst.
Qed.

Lemma parse_enc_sticker k : sticker_ok k -> spec_sticker (enc_sticker k) = Val k.
Proof.
  intros (?&?&He&?&?&?&?&?). unfold spec_sticker, req, enc_sticker.
  read_keys. rewrite parse_enc_file by done. read_keys. read_values.
  cbn [json_object_get_string mbind out_bind json_object_get_boolean].
  rewrite c_str_c_str, He. by destruct k.
Qed.

Definition head_keys : list string :=
  ["message_id"; "from"; "chat"; "date"; "sender_chat"; "forward_date"; "forward_sender_name";
   "forward_from"].

Lemma assoc_app k l1 l2 :
  assoc k (l1 ++ l2) = match assoc k l1 with Some v => Some v | None => assoc k l2 end.
Proof. induction l1 as [|[k' v] l1 IH]; simpl; [done|]. by case_decide. Qed.

(** The members of a head are read wherever they stand in the object. *)
Lemma parse_enc_head h l :
  head_ok h -> Forall (fun k => assoc k l = assoc k (enc_head h)) head_keys ->
  spec_head (JObject l) = Val h.
Proof.
  intros (Hid & Hfr & Hch & Hse & Hfw) Hk. unfold head_keys in Hk.
  repeat match goal with H : Forall _ (_ :: _) |- _ => apply Forall_cons in H as [? H] end.
  unfold spec_head, spec_forward, req. cbn [json_object_object_get_ex].
  repeat match goal with H : assoc _ l = _ |- _ => rewrite H; clear H end. clear Hk.
  unfold enc_head, enc_sender, enc_forward, sender_ok, forward_ok in *.
  destruct h as [mid fr ffr fsn ch se da fda isf isu].
  cbn [msg_id from forward_from fwd_sender_name chat sender_chat date forward_date is_forwarded
       is_unknown_fwd] in *.
  destruct (decide (chat_type se = 0)); destruct isf, isu; destr_all; try done; subst;
    cbn [app]; read_keys;
    rewrite ?parse_enc_from, ?parse_enc_chat by done; read_keys;
    rewrite ?parse_enc_from, ?parse_enc_chat by done; read_keys; read_values; done.
Qed.

Lemma seen_map {A} (enc : A -> json) l :
  Z.of_nat (length l) < 2 ^ 16 -> seen (enc <$> l) = enc <$> l.
Proof.
  intros Hl. unfold seen. rewrite length_fmap, u16_small by lia.
  rewrite Nat2Z.id. apply take_ge. by rewrite length_fmap.
Qed.

Lemma map_back {A} (P : A -> Prop) (enc : A -> json) (dec : json -> A) l :
  (forall x, P x -> dec (enc x) = x) -> array_ok P l -> dec <$> seen (enc <$> l) = l.
Proof.
  intros Hd [Hl Hp]. rewrite seen_map by done. rewrite <- list_fmap_compose.
  induction Hp; simpl; [done|]. f_equal; [by apply Hd|]. apply IHHp. simpl in Hl. lia.
Qed.

Lemma entities_back l k es :
  assoc k l = Some (enc_entities es) -> array_ok entity_ok es ->
  spec_entities (JObject l) k = Val es.
Proof.
  intros Hk Ho. unfold spec_entities. cbn [json_object_object_get_ex]. rewrite Hk.
  unfold enc_entities. by rewrite (map_back entity_ok) by eauto using parse_enc_entity.
Qed.

(** The keys of a message that are not keys of a head. *)
Lemma head_lacks k h :
  Forall (fun k' => k <> k') head_keys -> assoc k (enc_head h) = None.
Proof.
  intros Hk. unfold head_keys in Hk.
  repeat match goal with H : Forall _ (_ :: _) |- _ => apply Forall_cons in H as [? H] end.
  unfold enc_head, enc_sender, enc_forward. simpl. rewrite !decide_False by done.
  rewrite assoc_app. case_decide; [|simpl; rewrite decide_False by done];
    (destruct (is_forwarded h); [|done]); simpl; rewrite decide_False by done;
    destruct (is_unknown_fwd h); simpl; by rewrite decide_False by done.
Qed.

Lemma reply_lacks k enc ns : k <> "reply_to_message" -> assoc k (enc_reply enc ns) = None.
Proof. intros. destruct ns; [done|]. simpl. by rewrite decide_False. Qed.

Ltac solve_lacks :=
  rewrite ?assoc_app, ?head_lacks by (repeat constructor; discriminate);
  rewrite ?reply_lacks by discriminate.

Lemma head_back pre h post :
  head_ok h -> Forall (fun k => assoc k pre = None /\ assoc k post = None) head_keys ->
  spec_head (JObject (pre ++ enc_head h ++ post)) = Val h.
Proof.
  intros Ho Hk. apply parse_enc_head; [done|]. eapply Forall_impl; [exact Hk|].
  intros k [Hp Hq]. cbv beta. rewrite !assoc_app, Hp, Hq. by destruct (assoc k (enc_head h)).
Qed.

Ltac solve_head_keys :=
  unfold head_keys; repeat constructor; try (by rewrite reply_lacks).

Lemma reply_back rec pre h ns :
  assoc "reply_to_message" pre = None -> (ns = [] \/ rec (enc_msg ns) = Val ns /\ nodes_ok ns) ->
  spec_reply rec (JObject (pre ++ enc_head h ++ enc_reply enc_msg ns)) = Val ns.
Proof.
  intros Hp Hns. unfold spec_reply. cbn [json_object_object_get_ex].
  rewrite assoc_app, Hp. solve_lacks.
  destruct ns as [|nd ns]; [done|]. destruct Hns as [?|[Hr Hok]]; [done|].
  cbn [enc_reply]. read_keys. rewrite Hr. destruct nd; done.
Qed.

Lemma caption_back l cap es :
  assoc "caption" l = Some (enc_str cap) -> str_ok cap ->
  assoc "caption_entities" l = Some (enc_entities es) -> array_ok entity_ok es ->
  spec_caption (JObject l) = Val (cap, es).
Proof.
  intros Hc Ho He Hes. unfold spec_caption. cbn [json_object_object_get_ex]. rewrite Hc.
  rewrite (entities_back _ _ es) by done. cbn [mbind out_bind]. by rewrite get_enc_str.
Qed.

Ltac use_back L := let E := fresh "E" in pose proof L as E;
  cbn [app] in E; rewrite ?app_nil_r in E; rewrite E; clear E;
  cbn [mbind out_bind].

(** Decides which type an encoded message has. *)
Ltac find_type :=
  cbn [json_object_object_get_ex]; read_keys; solve_lacks; cbv beta iota; read_keys.

Lemma enc_depth ns : nodes_ok ns -> (length ns <= json_depth (enc_msg ns))%nat.
Proof.
  induction ns as [|nd ns IH]; [simpl; lia|]. intros Hok.
  assert (Hgo : forall l, assoc "reply_to_message" l = Some (enc_msg ns) -> nodes_ok ns ->
            (S (length ns) <= json_depth (JObject l))%nat).
  { intros l Ha Hn. apply assoc_depth in Ha. specialize (IH Hn). lia. }
  assert (Hone : forall l, ns = [] -> (S (length ns) <= json_depth (JObject l))%nat).
  { intros l ->. simpl. lia. }
  destruct nd; simpl in Hok; destr_all; try done; cbn [length enc_msg];
    try (by apply Hone);
    match goal with Hr : _ \/ _ |- _ => destruct Hr as [->|Hr]; [by apply Hone|] end;
    (apply Hgo; [|done]); (destruct ns as [|nd' ns]; [done|]); read_keys; solve_lacks;
    cbn [enc_reply]; by read_keys.
Qed.

Lemma spec_printed ns n :
  nodes_ok ns -> (length ns <= n)%nat -> spec_msg_n n (enc_msg ns) = Val ns.
Proof.
  revert n. induction ns as [|nd ns IH]; intros n Hok Hn; [done|].
  destruct n as [|n]; [simpl in Hn; lia|]. simpl in Hn.
  change (spec_msg_n (S n) (enc_msg (nd :: ns)))
    with (spec_body (spec_msg_n n) (enc_msg (nd :: ns))).
  assert (Hrep : forall ns', ns' = ns -> ns' = [] \/ nodes_ok ns' ->
            ns' = [] \/ spec_msg_n n (enc_msg ns') = Val ns' /\ nodes_ok ns').
  { intros ns' -> [->|Hr]; [by left|right]. split; [apply IH; [done|lia]|done]. }
  unfold spec_body. destruct nd as [h t es|h ps cap es|h k|h m d cap es|h es| |];
    try done; cbn [nodes_ok enc_msg] in *.
  - destruct Hok as (Hh & Ht & He & Hr). cbn [json_object_object_get_ex]. read_keys.
    use_back (head_back [("text", enc_str t); ("entities", enc_entities es)] h
                (enc_reply enc_msg ns) Hh ltac:(solve_head_keys)).
    rewrite (entities_back _ _ es) by (done || by read_keys). cbn [mbind out_bind].
    use_back (reply_back (spec_msg_n n) [("text", enc_str t); ("entities", enc_entities es)] h ns
                eq_refl ltac:(auto)).
    by rewrite get_enc_str.
  - destruct Hok as (Hh & Hp & Hc & He & ->). find_type.
    cbn [spec_photos]. rewrite (map_back file_ok) by eauto using photo_of_valid, parse_enc_file.
    cbn [mbind out_bind].
    use_back (head_back [("photo", JArray (enc_file <$> ps)); ("caption", enc_str cap);
                ("caption_entities", enc_entities es)] h [] Hh ltac:(solve_head_keys)).
    rewrite (caption_back _ cap es) by (done || by read_keys). done.
  - destruct Hok as (Hh & Hk & Hr). find_type. rewrite parse_enc_sticker by done. cbn [mbind out_bind].
    use_back (head_back [("sticker", enc_sticker k)] h (enc_reply enc_msg ns) Hh
                ltac:(solve_head_keys)).
    use_back (reply_back (spec_msg_n n) [("sticker", enc_sticker k)] h ns eq_refl ltac:(auto)).
    done.
  - destruct Hok as (Hh & Hm & Hd & Hc & He & ->). find_type. rewrite parse_enc_media by done. cbn [mbind out_bind req]. unfold req.
    cbn [json_object_object_get_ex]. read_keys.
    use_back (head_back [("animation", enc_media m); ("document", enc_file d);
                ("caption", enc_str cap); ("caption_entities", enc_entities es)] h [] Hh
                ltac:(solve_head_keys)).
    rewrite (caption_back _ cap es) by (done || by read_keys). cbn [mbind out_bind].
    by rewrite (photo_of_valid _ d) by by apply parse_enc_file.
  - destruct Hok as (Hh & He & Hr). find_type.
    use_back (head_back [("entities", enc_entities es)] h (enc_reply enc_msg ns) Hh
                ltac:(solve_head_keys)).
    rewrite (entities_back _ _ es) by (done || by read_keys). cbn [mbind out_bind].
    use_back (reply_back (spec_msg_n n) [("entities", enc_entities es)] h ns eq_refl ltac:(auto)).
    done.
Qed.

(** C8: Printing a message, whatever its types and however many messages it
    replies to, and parsing the result gives the message back: the parser
    fills the event with its value and allocates nothing else.  As in the
    parsers, a photo or a GIF ends the chain, and a GIF has no thumbnail of its
    own ([nodes_ok]). *)
Theorem parse_print ns h e :
  heap_ok h -> msg e = MsgZero -> ns <> [] -> nodes_ok ns ->
  exists h' e' A,
    parse_message_json_obj (json_depth (enc_msg ns)) (enc_msg ns) (HS h e) =
      (Val 0, HS h' e') /\ rep (blocks h') e' ns A /\ made true h h' A.
Proof.
  intros Hh He _ Hok.
  pose proof (parse_message_post (json_depth (enc_msg ns)) (enc_msg ns) h e Hh He) as Hp.
  rewrite spec_printed in Hp by (done || by apply enc_depth).
  assert (Hnd : no_drop ns = true).
  { clear - Hok. induction ns as [|nd ns IH]; [done|]. rewrite no_drop_cons.
    destruct nd; simpl in *; destr_all; try done; subst; try done;
      match goal with Hr : _ \/ _ |- _ => destruct Hr as [->|Hr]; [done|by apply IH] end. }
  rewrite Hnd in Hp. destruct Hp as (h' & e' & A & ? & _ & ? & ?). by exists h', e', A.
Qed.
End Parse.

(** ** A concrete message

    The tokener of the examples knows one text. *)
Definition demo_lib (txt : list byte) (j : json) : JsonLib := {|
  json_object_to_json_string := fun _ => bs "0";
  nan_int64 := 0;
  nan_uint64 := 0;
  tokener := unit;
  json_tokener_new := tt;
  json_tokener_parse_ex := fun _ s =>
    if decide (s = txt) then (tt, json_tokener_success, j) else (tt, json_tokener_error, JNull);
|}.

Definition demo_from : tgevi_from :=
  From 42 (Some (bs "Ada")) None (Some (bs "ada")) (bs "en" ++ [Byte.x00; Byte.x00]) false.
Definition demo_chat : tgevi_chat :=
  Chat (-100) (Some (bs "lab")) None None None TGEV_CHAT_SUPERGROUP false.
Definition demo_head : tgev_head :=
  Head 9 demo_from from_zero None demo_chat chat_zero 1600000000 0 false false.
Definition demo_file : tgevi_file :=
  File None (Some (bs "f1")) (Some (bs "u1")) None 512 90 60.
Definition demo_reply : list node :=
  [NText demo_head (Some (bs "/ban")) [Entity 0 4 (Some (bs "bot_command"))];
   NSticker demo_head (Sticker 512 512 (bs "ok" ++ replicate 4 Byte.x00) (Some (bs "set"))
                         demo_file false (Some (bs "f2")) (Some (bs "u2")) 1024);
   NPhoto demo_head [demo_file; demo_file] (Some (bs "hi")) [Entity 0 2 None]].
Definition demo_unknown : list node := [NUnknown demo_head [Entity 0 1 None]].

Definition demo_event (ns : list node) : json :=
  JObject [("update_id", JInt 7); ("message", enc_msg ns)].

Definition demo_heap : heap := Heap {[3 := BTokener]} 4 [].

Lemma demo_heap_ok : heap_ok demo_heap.
Proof.
  split_and!; try done. intros a [b Hb]. unfold demo_heap in *. simpl in *.
  apply lookup_singleton_Some in Hb as [<- _]. lia.
Qed.

Lemma str_ok_some s :
  forallb (fun b => bool_decide (b <> Byte.x00)) s = true -> str_ok (Some s).
Proof.
  intros Hs. apply Forall_forall. intros x Hx. rewrite forallb_forall in Hs.
  specialize (Hs x (proj1 (list_elem_of_In _ _) Hx)). by apply bool_decide_eq_true in Hs.
Qed.

Ltac solve_ok := repeat split; try (apply str_ok_some; reflexivity); try (vm_compute; congruence).

Lemma demo_file_ok : file_ok demo_file.
Proof. solve_ok. Qed.
Lemma demo_chat_ok : chat_ok demo_chat.
Proof. split_and!; try solve_ok. right. split; [discriminate|]. split_and!; try done. by right. Qed.
Lemma demo_head_ok : head_ok demo_head.
Proof. split; [done|]. split; [solve_ok|]. split; [apply demo_chat_ok|]. done. Qed.

Lemma demo_nodes_ok : nodes_ok demo_reply.
Proof.
  pose proof demo_head_ok. pose proof demo_file_ok.
  split; [done|]. split; [solve_ok|]. split.
  { split; [done|]. repeat constructor; solve_ok. }
  right. split; [done|]. split; [split_and!; try done; solve_ok|].
  right. split; [done|]. split; [split; [done|by repeat constructor]|].
  split; [solve_ok|]. split; [|done]. split; [done|]. repeat constructor; solve_ok.
Qed.

Lemma parse_print_witness :
  exists h' e' A,
    @parse_message_json_obj (demo_lib [] JNull) (json_depth (enc_msg demo_reply))
      (enc_msg demo_reply) (HS demo_heap tgev_zero) = (Val 0, HS h' e') /\
    rep (blocks h') e' demo_reply A /\ made true demo_heap h' A.
Proof.
  apply (@parse_print (demo_lib [] JNull) demo_reply demo_heap tgev_zero).
  - apply demo_heap_ok.
  - reflexivity.
  - discriminate.
  - apply demo_nodes_ok.
Defined.
