(* ===== verification/TgLoad.v ===== *)
(** * Loading and destroying a whole event *)
From S2P Require Import Prelude CString Json TgEvent TgSpec TgMem TgPrint.

Section Load.
Context `{JsonLib}.

Notation "'key' j k" := (json_object_object_get_ex j k%string)
  (at level 10, j at next level, k at next level).

(** What [tg_event_json_parse] leaves: the object, if any, in a block of its
    own; the tokener is gone. *)
Definition with_json (h : heap) (j : json) : heap :=
  Heap (match j with JNull => blocks h | _ => <[next h + 1 := BJson j]> (blocks h) end)
    (match j with JNull => next h + 1 | _ => next h + 2 end) [].

Definition json_ptr (h : heap) (j : json) : jptr :=
  match j with JNull => JP_null | _ => JP_root (next h + 1) end.

Definition text_of (s : list byte) (length : Z) : list byte :=
  take (Z.to_nat (sint 32 length)) s.

Lemma json_parse_ok n s len h e j :
  heap_ok h -> tokener_loop n json_tokener_new (text_of s len) = Some (e, j) ->
  tg_event_json_parse n s len h =
  (Val (if decide (e <> json_tokener_success) then - EINVAL else 0, Some (json_ptr h j)),
   with_json h j).
Proof.
  intros Hh Ht. unfold tg_event_json_parse. erewrite bind_val by by apply alloc_ok.
  rewrite decide_False by (destruct Hh; lia). unfold text_of in Ht. rewrite Ht.
  pose proof Hh as (_ & Hn & Hd).
  assert (Hfree : blocks h !! next h = None).
  { destruct (blocks h !! next h) eqn:Hb; [|done].
    specialize (Hd (next h) (mk_is_Some _ _ Hb)). lia. }
  unfold free, mbind, M_bind, mret, M_ret.
  destruct j; cbn [new_json mret M_ret]; unfold mbind, M_bind, push_block; simpl;
    rewrite decide_False by lia; rewrite ?lookup_insert_ne by lia;
    rewrite lookup_insert_eq; unfold with_json; simpl;
    rewrite ?delete_insert_ne by lia; rewrite delete_insert_id by done; [done|..];
    by replace (next h + 1 + 1) with (next h + 2) by lia.
Qed.

Lemma with_json_ok h j : heap_ok h -> heap_ok (with_json h j).
Proof.
  intros (Hf & Hn & Hd). split; [done|].
  assert (Hg : forall x, is_Some (<[next h + 1 := BJson j]> (blocks h) !! x) -> 0 < x < next h + 2).
  { intros x Hx. destruct (decide (x = next h + 1)) as [->|]; [lia|].
    rewrite lookup_insert_ne in Hx by done. specialize (Hd x Hx). lia. }
  split; [destruct j; simpl; lia|]. intros x Hx.
  destruct j; simpl in *; auto. specialize (Hd x Hx). lia.
Qed.

Lemma read_json_ok h h' j :
  heap_ok h -> (forall a, a < next (with_json h j) -> blocks h' !! a = blocks (with_json h j) !! a) ->
  read_json (json_ptr h j) h' = (Val j, h').
Proof.
  intros Hh Hk. destruct j; [done|..]; unfold json_ptr, read_json, load, mbind, M_bind;
    rewrite Hk by (simpl; lia); simpl; by rewrite lookup_insert_eq.
Qed.

(** The event the parsers start from. *)
Definition evt_start (h : heap) (j : json) : tgev := tgev_zero <| evt_json := json_ptr h j |>.

Lemma load_unfold n s len h e j :
  heap_ok h -> tokener_loop n json_tokener_new (text_of s len) = Some (e, j) ->
  tg_event_load_str_len n (Some s) len false (HS h tgev_zero) =
  (ret ← call (parse_update_id j);
   if decide (ret <> 0) then tg_event_destroy;; mret ret
   else ret ← parse_message j;
        if decide (ret <> 0) then tg_event_destroy;; mret ret else mret 0)
  (HS (with_json h j) (evt_start h j)).
Proof.
  intros Hh Ht. unfold tg_event_load_str_len, internal_tg_event_load_str.
  erewrite bind_val.
  2: { unfold on_heap, zoom. simpl. by erewrite json_parse_ok by done. }
  cbv beta iota. erewrite bind_val by apply upd_eq.
  rewrite decide_False by (case_decide; lia).
  erewrite bind_val by reflexivity. erewrite bind_val.
  2: { unfold on_heap, zoom. simpl. by erewrite read_json_ok by done. }
  reflexivity.
Qed.

Lemma length_le_size (A : list Z) (m : gmap Z hblock) :
  NoDup A -> (forall a, a ∈ A -> is_Some (m !! a)) -> (length A <= size m)%nat.
Proof.
  intros Hnd Hl. rewrite <- size_dom.
  rewrite <- (size_list_to_set (C := gset Z)) by done.
  apply subseteq_size. intros a Ha%elem_of_list_to_set. by apply elem_of_dom, Hl.
Qed.

(** Giving back what was made since the text was parsed restores the heap. *)
Lemma restored h h' j A :
  heap_ok h -> made true (with_json h j) h' A ->
  forall a, blocks (match json_ptr h j with
                    | JP_root r => del [r] (del A h') | _ => del A h' end) !! a = blocks h !! a.
Proof.
  intros Hh (_ & Hn & Hk & _ & Hr & Hs) a. pose proof Hh as (_ & _ & Hd).
  assert (Hnone : next h <= a -> blocks h !! a = None).
  { intros Ha. destruct (blocks h !! a) eqn:Hb; [|done].
    specialize (Hd a (mk_is_Some _ _ Hb)). lia. }
  assert (Hout : next (with_json h j) <= a -> blocks (del A h') !! a = None).
  { intros Ha. rewrite lookup_del. case_decide as Hin; [done|].
    destruct (blocks h' !! a) eqn:Hb; [|done]. destruct Hin. by apply Hs. }
  assert (Hin : a < next (with_json h j) -> blocks (del A h') !! a = blocks (with_json h j) !! a).
  { intros Ha. rewrite lookup_del, decide_False; [by apply Hk|].
    intros Hin. specialize (Hr a Hin). lia. }
  destruct j; cbn [json_ptr].
  1: { destruct (decide (a < next h + 1)); [by rewrite Hin by done|].
       rewrite Hout by (simpl; lia). symmetry. apply Hnone. lia. }
  all: rewrite lookup_del; case_decide as Ha;
    [apply list_elem_of_singleton in Ha; symmetry; apply Hnone; lia|].
  all: destruct (decide (a < next h + 2));
    [rewrite Hin by done; simpl; apply lookup_insert_ne; intros <-; by apply Ha, list_elem_of_singleton
    |rewrite Hout by (simpl; lia); symmetry; apply Hnone; lia].
Qed.

Lemma root_block h h' j A r :
  heap_ok h -> made true (with_json h j) h' A -> json_ptr h j = JP_root r ->
  blocks (del A h') !! r = Some (BJson j).
Proof.
  intros Hh (_ & Hn & Hk & _ & Hr & _) Hj.
  assert (r = next h + 1 /\ blocks (with_json h j) !! r = Some (BJson j) /\
          r < next (with_json h j)) as (-> & Hb & Hlt).
  { destruct j; simpl in Hj; simplify_eq; simpl; rewrite lookup_insert_eq; split_and!; done || lia. }
  rewrite lookup_del, decide_False, Hk by done || (intros Hin; specialize (Hr _ Hin); lia).
  done.
Qed.

(** Destroying an event whose message part gives [A] back. *)
Lemma destroy_restores h h' j A e :
  heap_ok h -> made true (with_json h j) h' A ->
  is_replied_node e = false -> evt_json e = json_ptr h j ->
  destroy_msg (tg_event_destroy_n (size (blocks h'))) e h' = (Val tt, del A h') ->
  exists s, tg_event_destroy (HS h' e) = (Val tt, s) /\ blocks (hp s) = blocks h.
Proof.
  intros Hh Hm Hi Hj Hd. pose proof (restored h h' j A Hh Hm) as Hres.
  pose proof (root_block h h' j A) as Hroot. destruct (json_ptr h j) as [|r|j'] eqn:Ej.
  - eexists. split; [by apply destroy_top_null|]. by apply map_eq.
  - specialize (Hroot r Hh Hm eq_refl). eexists. split; [by eapply destroy_top|].
    by apply map_eq.
  - by destruct j.
Qed.

Lemma update_id_ok j u h e : key j "update_id" = Some u ->
  call (parse_update_id j) (HS h e) =
  (Val 0, HS h (e <| update_id := json_object_get_uint64 u |>)).
Proof. unfold parse_update_id, need, call. by intros ->. Qed.

Lemma update_id_missing j h e : key j "update_id" = None ->
  call (parse_update_id j) (HS h e) = (Val (- EINVAL), HS h e).
Proof. unfold parse_update_id, need, call. by intros ->. Qed.

(** [evt_start] after [update_id] was read. *)
Definition evt_mid (h : heap) (j u : json) : tgev :=
  evt_start h j <| update_id := json_object_get_uint64 u |>.

Lemma parse_message_run j u m h :
  heap_ok h -> key j "message" = Some m ->
  parse_message j (HS (with_json h j) (evt_mid h j u)) =
  parse_message_json_obj (json_depth m) m (HS (with_json h j) (evt_mid h j u)).
Proof. intros Hh Hm. unfold parse_message. rewrite Hm. reflexivity. Qed.

(** ** The ways a load ends *)
Section Ends.
Variables (n : nat) (s : list byte) (len : Z) (h : heap) (e : tok_error) (j : json).
Hypothesis (Hh : heap_ok h).
Hypothesis (Ht : tokener_loop n json_tokener_new (text_of s len) = Some (e, j)).

Let load := tg_event_load_str_len n (Some s) len false (HS h tgev_zero).

Lemma made_start : made true (with_json h j) (with_json h j) [].
Proof using Hh. by apply made_refl, with_json_ok. Qed.

Lemma load_no_id :
  key j "update_id" = None ->
  exists s2, load = (Val (- EINVAL), s2) /\ blocks (hp s2) = blocks h.
Proof.
  intros Hu. unfold load. erewrite load_unfold by done.
  erewrite bind_val by by apply update_id_missing. rewrite decide_True by done.
  destruct (destroy_restores h (with_json h j) j [] (evt_start h j) Hh made_start)
    as (s2 & Hd & Hb); [done|done|by rewrite del_nil|].
  exists s2. split; [|done]. by erewrite bind_val by done.
Qed.

Section Id.
Variable u : json.
Hypothesis Hu : key j "update_id" = Some u.

Lemma load_id : load =
  (ret ← parse_message j; if decide (ret <> 0) then tg_event_destroy;; mret ret else mret 0)
  (HS (with_json h j) (evt_mid h j u)).
Proof.
  unfold load. erewrite load_unfold by done. erewrite bind_val by by apply update_id_ok.
  by rewrite decide_False by tauto.
Qed.

Lemma load_no_msg :
  key j "message" = None ->
  exists s2, load = (Val (- EINVAL), s2) /\ blocks (hp s2) = blocks h.
Proof.
  intros Hm. rewrite load_id.
  erewrite bind_val by (unfold parse_message; rewrite Hm; reflexivity).
  rewrite decide_True by done.
  destruct (destroy_restores h (with_json h j) j [] (evt_mid h j u) Hh made_start)
    as (s2 & Hd & Hb); [done|done|by rewrite del_nil|].
  exists s2. split; [|done]. by erewrite bind_val by done.
Qed.

Section Msg.
Variable m : json.
Hypothesis Hm : key j "message" = Some m.

Lemma msg_run : match spec_msg m with
  | Val ns => exists h1 e1 A,
      parse_message j (HS (with_json h j) (evt_mid h j u)) = (Val 0, HS h1 e1) /\
      same_meta (evt_mid h j u) e1 /\ rep (blocks h1) e1 ns A /\
      made (no_drop ns) (with_json h j) h1 A
  | Exit c => exists h1 e1 A,
      parse_message j (HS (with_json h j) (evt_mid h j u)) = (Val c, HS h1 e1) /\
      c = - EINVAL /\ same_meta (evt_mid h j u) e1 /\ partial (blocks h1) e1 A /\
      made true (with_json h j) h1 A
  | Fault x => exists s',
      parse_message j (HS (with_json h j) (evt_mid h j u)) = (Fault x, s')
  end.
Proof.
  rewrite (parse_message_run j u m h Hh Hm).
  exact (parse_message_post (json_depth m) m (with_json h j) (evt_mid h j u)
           (with_json_ok h j Hh) eq_refl).
Qed.

Lemma load_bad c :
  spec_msg m = Exit c ->
  exists s2, load = (Val (- EINVAL), s2) /\ blocks (hp s2) = blocks h.
Proof.
  intros Hs. pose proof msg_run as Hp. rewrite Hs in Hp. rewrite load_id.
  destruct Hp as (h1 & e1 & A & Hrun & -> & (Hej & Heu & Hei) & Hpart & Hmade).
  erewrite bind_val by exact Hrun. rewrite decide_True by done.
  destruct (destroy_restores h h1 j A e1 Hh Hmade) as (s2 & Hd & Hb); [by rewrite Hei|done| |].
  { by apply destroy_msg_partial. }
  exists s2. split; [|done]. by erewrite bind_val by done.
Qed.

Lemma load_good ns :
  spec_msg m = Val ns ->
  exists h1 e1 A, load = (Val 0, HS h1 e1) /\ same_meta (evt_mid h j u) e1 /\
    rep (blocks h1) e1 ns A /\ made (no_drop ns) (with_json h j) h1 A.
Proof.
  intros Hs. pose proof msg_run as Hp. rewrite Hs in Hp. rewrite load_id.
  destruct Hp as (h1 & e1 & A & Hrun & ?). exists h1, e1, A. split; [|done].
  erewrite bind_val by exact Hrun. by rewrite decide_False by tauto.
Qed.

Lemma load_fault f : spec_msg m = Fault f -> exists s2, load = (Fault f, s2).
Proof.
  intros Hs. pose proof msg_run as Hp. rewrite Hs in Hp. rewrite load_id.
  destruct Hp as (s' & Hrun). exists s'. by erewrite bind_fault by exact Hrun.
Qed.
End Msg.
End Id.
End Ends.

(** What loading a JSON value comes to. *)
Definition load_result (j : json) : out Z :=
  match key j "update_id", key j "message" with
  | Some _, Some m =>
      match spec_msg m with Val _ => Val 0 | Exit _ => Val (- EINVAL) | Fault f => Fault f end
  | _, _ => Val (- EINVAL)
  end.


Lemma load_destroy n s len h j u m ns :
  heap_ok h -> tokener_loop n json_tokener_new (text_of s len) = Some (json_tokener_success, j) ->
  key j "update_id" = Some u -> key j "message" = Some m -> spec_msg m = Val ns ->
  forallb known_node ns = true -> no_drop ns = true ->
  exists h1 e1 A s2,
    tg_event_load_str_len n (Some s) len false (HS h tgev_zero) = (Val 0, HS h1 e1) /\
    update_id e1 = json_object_get_uint64 u /\ rep (blocks h1) e1 ns A /\
    tg_event_destroy (HS h1 e1) = (Val tt, s2) /\ blocks (hp s2) = blocks h.
Proof.
  intros Hh Ht Hu Hm Hs Hk Hnd.
  destruct (load_good n s len h _ j Hh Ht u Hu m Hm ns Hs)
    as (h1 & e1 & A & Hrun & (Hej & Heu & Hei) & Hrep & Hmade). rewrite Hnd in Hmade.
  pose proof Hmade as (_ & _ & _ & HA & _).
  pose proof (length_le_size A _ HA (rep_live _ _ _ _ Hrep)) as Hle.
  destruct (destroy_restores h h1 j A e1 Hh Hmade) as (s2 & Hd & Hb); [by rewrite Hei|done| |].
  { by apply (destroy_msg_rep ns). }
  by exists h1, e1, A, s2.
Qed.

(** C10: A text that parses, with an [update_id] and a message of value [ns],
    loads; the event in the heap has that value.  When every message of the
    chain is of a known type and no reply was dropped, destroying the event
    frees every block the load allocated, and no other. *)
Theorem load_destroy_balanced n s len h j u m ns :
  heap_ok h -> tokener_loop n json_tokener_new (text_of s len) = Some (json_tokener_success, j) ->
  key j "update_id" = Some u -> key j "message" = Some m -> spec_msg m = Val ns ->
  forallb known_node ns = true -> no_drop ns = true ->
  exists h1 e1 A s2,
    tg_event_load_str_len n (Some s) len false (HS h tgev_zero) = (Val 0, HS h1 e1) /\
    update_id e1 = json_object_get_uint64 u /\ rep (blocks h1) e1 ns A /\
    tg_event_destroy (HS h1 e1) = (Val tt, s2) /\ blocks (hp s2) = blocks h.
Proof. apply load_destroy. Qed.

Lemma load_error n s len h e j :
  heap_ok h -> tokener_loop n json_tokener_new (text_of s len) = Some (e, j) ->
  load_result j = Val (- EINVAL) ->
  exists s2, tg_event_load_str_len n (Some s) len false (HS h tgev_zero) =
    (Val (- EINVAL), s2) /\ blocks (hp s2) = blocks h.
Proof.
  intros Hh Ht Hr. unfold load_result in Hr.
  destruct (key j "update_id") as [u|] eqn:Hu; [|by eapply load_no_id].
  destruct (key j "message") as [m|] eqn:Hm; [|by eapply load_no_msg].
  destruct (spec_msg m) as [ns|c|f] eqn:Hs; simplify_eq. by eapply load_bad.
Qed.

(** C38: A text that does not load is refused with [-EINVAL], whatever the reason,
    and leaves nothing behind: the blocks are those of before. *)
Theorem load_error_clean n s len h e j :
  heap_ok h -> tokener_loop n json_tokener_new (text_of s len) = Some (e, j) ->
  load_result j = Val (- EINVAL) ->
  exists s2, tg_event_load_str_len n (Some s) len false (HS h tgev_zero) =
    (Val (- EINVAL), s2) /\ blocks (hp s2) = blocks h.
Proof. apply load_error. Qed.

(** Once the tokener stops, loading ends: with 0, with [-EINVAL], or in the
    assertion or the NULL dereference that [load_result] names; the depth of
    the replies is never a limit.  The error of the tokener itself makes no
    difference. *)
Theorem load_result_total n s len h e j :
  heap_ok h -> tokener_loop n json_tokener_new (text_of s len) = Some (e, j) ->
  fst (tg_event_load_str_len n (Some s) len false (HS h tgev_zero)) = load_result j /\
  load_result j <> Fault FFuel.
Proof.
  intros Hh Ht. unfold load_result.
  destruct (key j "update_id") as [u|] eqn:Hu.
  2: { by destruct (load_no_id n s len h e j Hh Ht Hu) as (s2 & -> & _). }
  destruct (key j "message") as [m|] eqn:Hm.
  2: { by destruct (load_no_msg n s len h e j Hh Ht u Hu Hm) as (s2 & -> & _). }
  pose proof (spec_enough (json_depth m) m (le_n _)) as Hf. fold (spec_msg m) in Hf.
  destruct (spec_msg m) as [ns|c|f] eqn:Hs.
  - by destruct (load_good n s len h e j Hh Ht u Hu m Hm ns Hs) as (? & ? & ? & -> & _).
  - by destruct (load_bad n s len h e j Hh Ht u Hu m Hm c Hs) as (? & -> & _).
  - split; [|by destruct f].
    by destruct (load_fault n s len h e j Hh Ht u Hu m Hm f Hs) as (? & ->).
Qed.

(** When the tokener itself cannot be allocated the caller gets [-EINVAL], not
    the [-ENOMEM] that [tg_event_json_parse] returns. *)
Theorem load_enomem_lost n s len h :
  fails h = [true] ->
  exists s2, tg_event_load_str_len n (Some s) len false (HS h tgev_zero) =
    (Val (- EINVAL), s2) /\ blocks (hp s2) = blocks h.
Proof.
  intros Hf. unfold tg_event_load_str_len, internal_tg_event_load_str.
  assert (Hp : tg_event_json_parse n s len h = (Val (- ENOMEM, None), h <| fails := [] |>)).
  { unfold tg_event_json_parse, alloc, mbind, M_bind. by rewrite Hf. }
  erewrite bind_val by (unfold on_heap, zoom; simpl; rewrite Hp; reflexivity).
  cbv beta iota. erewrite bind_val by reflexivity.
  rewrite decide_False by (case_decide; lia).
  erewrite bind_val by reflexivity. erewrite bind_val by reflexivity.
  erewrite bind_val by reflexivity. rewrite decide_True by done.
  eexists. split; reflexivity.
Qed.

(** The blocks of a message of no known type are never freed. *)
Theorem unknown_event_leaks n s len h j u m hd es :
  heap_ok h -> tokener_loop n json_tokener_new (text_of s len) = Some (json_tokener_success, j) ->
  key j "update_id" = Some u -> key j "message" = Some m ->
  spec_msg m = Val [NUnknown hd es] -> es <> [] ->
  exists h1 e1 s2 a,
    tg_event_load_str_len n (Some s) len false (HS h tgev_zero) = (Val 0, HS h1 e1) /\
    tg_event_destroy (HS h1 e1) = (Val tt, s2) /\
    blocks h !! a = None /\ blocks (hp s2) !! a = Some (BEntities es).
Proof.
  intros Hh Ht Hu Hm Hs Hne.
  destruct (load_good n s len h _ j Hh Ht u Hu m Hm _ Hs)
    as (h1 & e1 & A & Hrun & (Hej & Heu & Hei) & Hrep & Hmade).
  destruct Hrep as (A1 & A2 & -> & Hty & c & p & r & Hmsg & [Hc He] & Hr).
  destruct es as [|x es]; [done|]. destruct He as (Hp & Hpb & ->).
  pose proof Hh as (_ & Hn & Hd). pose proof Hmade as (_ & Hn1 & _ & _ & Hrange & _).
  assert (Hpr : next (with_json h j) <= p < next h1) by (apply Hrange; left).
  assert (Hnone : blocks h !! p = None).
  { destruct (blocks h !! p) eqn:Hb; [|done]. specialize (Hd p (mk_is_Some _ _ Hb)).
    destruct j; simpl in Hpr; lia. }
  assert (Hdm : forall k, destroy_msg (tg_event_destroy_n k) e1 h1 = (Val tt, h1)).
  { intros k. unfold destroy_msg. by rewrite Hty, decide_True by done. }
  assert (Hej' : evt_json e1 = json_ptr h j) by done.
  destruct j as [| | | | | | |l]; try done. cbn [json_ptr] in Hej'.
  assert (Hroot : blocks h1 !! (next h + 1) = Some (BJson (JObject l))).
  { destruct Hmade as (_ & _ & Hk & _). rewrite Hk by (simpl; lia). apply lookup_insert_eq. }
  eexists h1, e1, _, p. split; [done|]. split.
  { eapply destroy_top; [by rewrite Hei|done|exact Hroot|apply Hdm]. }
  split; [done|]. cbn [hp]. rewrite lookup_del, decide_False; [done|].
  rewrite list_elem_of_singleton. simpl in Hpr. lia.
Qed.
End Load.

(** ** The accessors *)
Definition node_head (nd : node) : option tgev_head :=
  match nd with
  | NText h _ _ | NPhoto h _ _ _ | NSticker h _ | NGif h _ _ _ _ | NUnknown h _ => Some h
  | NBadUnknown | NDropped => None
  end.

Definition node_text (nd : node) : cstr :=
  match nd with NText _ t _ => t | NPhoto _ _ c _ | NGif _ _ _ c _ => c | _ => None end.

(** The accessors give the members of the message, whatever its type. *)
Theorem accessors_agree m e nd ns A hd :
  rep m e (nd :: ns) A -> node_head nd = Some hd ->
  tge_get_msg_id e = msg_id hd /\ tge_get_chat_id e = chat_id (chat hd) /\
  tge_get_from e = Some (from hd) /\ tge_get_user_id e = from_id (from hd) /\
  tge_get_text e = node_text nd.
Proof.
  intros (A1 & A2 & _ & Hr) Hh. cbv zeta in Hr. destruct nd; simplify_eq/=; destr_all;
    unfold tge_get_msg_id, tge_get_chat_id, tge_get_from, tge_get_user_id, tge_get_text, by_type;
    match goal with Ht : evt_type e = _, Hm : msg e = _ |- _ => rewrite Ht, Hm end; done.
Qed.

(** Which members lie where [msg_text.reply_to] is read. *)
Lemma reply_slot :
  let o := offset_of "reply_to" text_layout in
  o = offset_of "caption_entity_c" photo_layout /\
  o = offset_of "sticker" sticker_layout + offset_of "thumb" sticker_info_layout +
      offset_of "file_unique_id" file_layout /\
  o = offset_of "animation" gif_layout + offset_of "file_unique_id" media_layout /\
  o = offset_of "is_forwarded" unknown_layout.
Proof. by vm_compute. Qed.

(** For a text message [tge_get_reply_to] gives the replied message: NULL if
    there is none, and an event of the heap with the rest of the value. *)
Theorem reply_to_of_text m e h t es ns A :
  rep m e (NText h t es :: ns) A ->
  exists r, tge_get_reply_to e = PEvt r /\
    match ns with
    | [] | NDropped :: _ => r = 0
    | _ => exists e' A', r <> 0 /\ m !! r = Some (BEvent e') /\ is_replied_node e' = true /\
             rep m e' ns A'
    end.
Proof.
  intros (A1 & A2 & _ & Ht & c & p & r & Hm & _ & Hr). exists r.
  unfold tge_get_reply_to. rewrite Ht, Hm. split; [done|]. unfold reply_at in Hr.
  destruct ns as [|n ns]; [by destruct Hr|]. destruct n; destr_all; eauto 10.
Qed.

(** For the other types it reads another member of the union: a photo with
    caption entities gives their number, which is not NULL, as a pointer, and
    a sticker or an animation gives a string as an event. *)
Theorem reply_to_confused m e nd ns A :
  rep m e (nd :: ns) A ->
  match nd with
  | NPhoto _ _ _ es => tge_get_reply_to e = PInt (Z.of_nat (length es))
  | NSticker _ k => tge_get_reply_to e = PChars (file_unique_id (stk_thumb k))
  | NGif _ a _ _ _ => tge_get_reply_to e = PChars (md_file_unique_id a)
  | _ => True
  end.
Proof.
  intros (A1 & A2 & _ & Hr). cbv zeta in Hr. destruct nd; try done; destr_all;
    unfold tge_get_reply_to;
    match goal with Ht : evt_type e = _, Hm : msg e = _ |- _ => rewrite Ht, Hm end; try done.
  simpl. match goal with He : ents_at _ _ _ _ _ |- _ => destruct He as [-> _] end. done.
Qed.

(** *** Witnesses *)
Definition demo_text : list byte := asz (bs "{..}").
Definition demo_len : Z := Z.of_nat (length demo_text).

Lemma load_destroy_balanced_witness :
  let l := demo_lib demo_text (demo_event demo_reply) in
  exists h1 e1 A s2,
    @tg_event_load_str_len l 1 (Some demo_text) demo_len false (HS demo_heap tgev_zero) =
      (Val 0, HS h1 e1) /\ update_id e1 = 7 /\ rep (blocks h1) e1 demo_reply A /\
    tg_event_destroy (HS h1 e1) = (Val tt, s2) /\ blocks (hp s2) = blocks demo_heap.
Proof.
  apply (@load_destroy_balanced (demo_lib demo_text (demo_event demo_reply)) 1 demo_text demo_len
           demo_heap (demo_event demo_reply) (JInt 7) (enc_msg demo_reply) demo_reply).
  - apply demo_heap_ok.
  - vm_compute. reflexivity.
  - reflexivity.
  - reflexivity.
  - vm_compute. reflexivity.
  - reflexivity.
  - reflexivity.
Defined.

Lemma load_error_clean_witness :
  let l := demo_lib (bs "x") JNull in
  exists s2, @tg_event_load_str_len l 1 (Some demo_text) demo_len false
    (HS demo_heap tgev_zero) = (Val (- EINVAL), s2) /\ blocks (hp s2) = blocks demo_heap.
Proof.
  apply (@load_error_clean (demo_lib (bs "x") JNull) 1 demo_text demo_len demo_heap
           json_tokener_error JNull).
  - apply demo_heap_ok.
  - vm_compute. reflexivity.
  - reflexivity.
Defined.

Lemma load_result_total_witness :
  let l := demo_lib demo_text (demo_event demo_reply) in
  fst (@tg_event_load_str_len l 1 (Some demo_text) demo_len false (HS demo_heap tgev_zero)) = Val 0.
Proof.
  destruct (@load_result_total (demo_lib demo_text (demo_event demo_reply)) 1 demo_text demo_len
           demo_heap json_tokener_success (demo_event demo_reply)) as [H _].
  - apply demo_heap_ok.
  - vm_compute. reflexivity.
  - simpl. etransitivity; [exact H|]. vm_compute. reflexivity.
Defined.

Lemma load_enomem_lost_witness :
  let l := demo_lib demo_text (demo_event demo_reply) in
  exists s2, @tg_event_load_str_len l 1 (Some demo_text) demo_len false
    (HS (Heap ∅ 1 [true]) tgev_zero) = (Val (- EINVAL), s2) /\ blocks (hp s2) = ∅.
Proof.
  apply (@load_enomem_lost (demo_lib demo_text (demo_event demo_reply)) 1 demo_text demo_len
           (Heap ∅ 1 [true])). reflexivity.
Defined.

Lemma unknown_event_leaks_witness :
  let l := demo_lib demo_text (demo_event demo_unknown) in
  exists h1 e1 s2 a,
    @tg_event_load_str_len l 1 (Some demo_text) demo_len false (HS demo_heap tgev_zero) =
      (Val 0, HS h1 e1) /\
    tg_event_destroy (HS h1 e1) = (Val tt, s2) /\
    blocks demo_heap !! a = None /\ blocks (hp s2) !! a = Some (BEntities [Entity 0 1 None]).
Proof.
  apply (@unknown_event_leaks (demo_lib demo_text (demo_event demo_unknown)) 1 demo_text demo_len
           demo_heap (demo_event demo_unknown) (JInt 7) (enc_msg demo_unknown) demo_head).
  - apply demo_heap_ok.
  - vm_compute. reflexivity.
  - reflexivity.
  - reflexivity.
  - vm_compute. reflexivity.
  - discriminate.
Defined.

(** A text event and a photo in a heap. *)
Definition demo_blocks : gmap Z hblock :=
  {[1 := BFiles [demo_file]; 2 := BEntities [Entity 0 1 None]]}.
Definition demo_text_evt : tgev :=
  Tgev JP_null 0 TGEV_TEXT false (MsgText (Text demo_head (Some (bs "hi")) 0 0 0)).
Definition demo_photo_evt : tgev :=
  Tgev JP_null 0 TGEV_PHOTO false (MsgPhoto (Photo demo_head 1 1 (Some (bs "hi")) 1 2 0)).

Lemma demo_text_rep :
  rep demo_blocks demo_text_evt [NText demo_head (Some (bs "hi")) []] [].
Proof. exists [], []. split; [done|]. split; [done|]. by exists 0, 0, 0. Qed.

Lemma demo_photo_rep :
  rep demo_blocks demo_photo_evt
    [NPhoto demo_head [demo_file] (Some (bs "hi")) [Entity 0 1 None]] [1; 2].
Proof.
  exists [1], [2]. split; [done|]. split; [done|]. split; [done|]. exists 1, 1, 2.
  split; [done|]. by split; [split|].
Qed.

Lemma accessors_agree_witness :
  tge_get_text demo_photo_evt = Some (bs "hi") /\ tge_get_chat_id demo_photo_evt = -100.
Proof.
  destruct (accessors_agree _ _ _ _ _ demo_head demo_photo_rep eq_refl) as (_ & Hc & _ & _ & Ht).
  split; [exact Ht|exact Hc].
Defined.

Lemma reply_to_of_text_witness : exists r, tge_get_reply_to demo_text_evt = PEvt r /\ r = 0.
Proof. apply (reply_to_of_text _ _ _ _ _ _ _ demo_text_rep). Defined.

Lemma reply_to_confused_witness : tge_get_reply_to demo_photo_evt = PInt 1.
Proof. apply (reply_to_confused _ _ _ _ _ demo_photo_rep). Defined.
