(* ===== verification/TgTyped.v ===== *)
(** * The types of a loaded event

    Whatever values a text gives, each member of the structures the parsers
    fill is a value of its C type: integers in their range, character arrays of
    their length with a terminator in them, strings without a NUL, and a count
    of elements is the length of the array it belongs to. *)
From Stdlib Require Import SpecFloat.
From S2P Require Import Prelude CString Json TgEvent TgSpec TgMem TgPrint TgLoad.

(** ** The types *)
Definition u32_ok (z : Z) : Prop := 0 <= z < 2 ^ 32.
Definition u64_ok (z : Z) : Prop := 0 <= z < 2 ^ 64.
Definition i64_ok (z : Z) : Prop := - 2 ^ 63 <= z < 2 ^ 63.

(** [char a[n]], holding a C string. *)
Definition chars_ok (n : nat) (a : list byte) : Prop := length a = n /\ Byte.x00 ∈ a.

Record file_typed (f : tgevi_file) : Prop := {
  ft_name : str_ok (file_name f); ft_id : str_ok (file_id f); ft_uid : str_ok (file_unique_id f);
  ft_mime : str_ok (mime_type f); ft_size : u64_ok (file_size f); ft_width : u16_ok (width f); ft_height : u16_ok (height f);
}.

Record from_typed (f : tgevi_from) : Prop := {
  fr_id : u64_ok (from_id f); fr_first : str_ok (first_name f); fr_last : str_ok (last_name f);
  fr_user : str_ok (username f); fr_lang : chars_ok 4 (lang f);
}.

(** The enumeration starts at 1; 0 is a chat that was not given. *)
Record chat_typed (c : tgevi_chat) : Prop := {
  ct_id : i64_ok (chat_id c); ct_title : str_ok (title c); ct_user : str_ok (chat_username c);
  ct_first : str_ok (chat_first_name c); ct_last : str_ok (chat_last_name c);
  ct_type : chat_type c ∈ [0; TGEV_CHAT_PRIVATE; TGEV_CHAT_GROUP; TGEV_CHAT_SUPERGROUP];
}.

Record entity_typed (e : tgevi_entity) : Prop := {
  et_offset : u16_ok (offset e); et_length : u16_ok (ent_length e); et_type : str_ok (ent_type e);
}.

Record sticker_typed (k : tgevi_sticker) : Prop := {
  st_width : u16_ok (stk_width k); st_height : u16_ok (stk_height k); st_emoji : chars_ok 6 (emoji k);
  st_set : str_ok (set_name k); st_thumb : file_typed (stk_thumb k); st_id : str_ok (stk_file_id k);
  st_uid : str_ok (stk_file_unique_id k); st_size : u64_ok (stk_file_size k);
}.

Record media_typed (m : tgevi_media) : Prop := {
  mt_strings : Forall str_ok [md_file_id m; md_file_name m; md_mime_type m; md_title m; md_performer m; md_file_unique_id m];
  mt_size : u64_ok (md_file_size m); mt_duration : u32_ok (md_duration m);
  mt_width : u16_ok (md_width m); mt_height : u16_ok (md_height m); mt_thumb : file_typed (md_thumb m);
}.

Record head_typed (h : tgev_head) : Prop := {
  ht_id : u64_ok (msg_id h); ht_from : from_typed (from h); ht_fwd : from_typed (forward_from h);
  ht_name : str_ok (fwd_sender_name h); ht_chat : chat_typed (chat h); ht_sender : chat_typed (sender_chat h);
  ht_date : i64_ok (date h); ht_fdate : i64_ok (forward_date h);
}.

(** [c] elements of a type from the address [p] on. *)
Definition entities_typed (m : gmap Z hblock) (c p : Z) : Prop :=
  u16_ok c /\ (p = 0 /\ c = 0 \/
    exists l, m !! p = Some (BEntities l) /\ c = Z.of_nat (length l) /\ Forall entity_typed l).

(** A message, in the member of the union its type selects, and the message it
    replies to. *)
Inductive event_typed (m : gmap Z hblock) (e : tgev) : Prop :=
| typed_text h t c p r :
    evt_type e = TGEV_TEXT -> msg e = MsgText (Text h t c p r) -> head_typed h -> str_ok t ->
    entities_typed m c p -> (r = 0 \/ exists e', m !! r = Some (BEvent e') /\ event_typed m e') -> event_typed m e
| typed_photo h n q cap c p :
    evt_type e = TGEV_PHOTO -> msg e = MsgPhoto (Photo h n q cap c p 0) -> head_typed h -> str_ok cap ->
    (exists l, m !! q = Some (BFiles l) /\ n = Z.of_nat (length l) /\ Forall file_typed l) -> u16_ok n ->
    entities_typed m c p -> event_typed m e
| typed_sticker h k r :
    evt_type e = TGEV_STICKER -> msg e = MsgSticker (EvSticker h k r) -> head_typed h -> sticker_typed k ->
    (r = 0 \/ exists e', m !! r = Some (BEvent e') /\ event_typed m e') -> event_typed m e
| typed_gif h a d cap c p :
    evt_type e = TGEV_GIF -> msg e = MsgGif (Gif h a d cap c p 0) -> head_typed h -> media_typed a -> file_typed d ->
    str_ok cap -> entities_typed m c p -> event_typed m e
| typed_unknown h c p r :
    evt_type e = TGEV_UNKNOWN -> msg e = MsgUnknown (Unknown h c p r) -> head_typed h ->
    entities_typed m c p -> (r = 0 \/ exists e', m !! r = Some (BEvent e') /\ event_typed m e') -> event_typed m e.

(** ** JSON values of the library *)
Inductive json_typed : json -> Prop :=
| jt_null : json_typed JNull
| jt_bool b : json_typed (JBool b)
| jt_int z : i64_ok z -> json_typed (JInt z)
| jt_uint z : u64_ok z -> json_typed (JUint z)
| jt_double d : json_typed (JDouble d)
| jt_string s : json_typed (JString s)
| jt_array l : Forall json_typed l -> json_typed (JArray l)
| jt_object l : Forall (fun kv => json_typed (snd kv)) l -> json_typed (JObject l).

Section Typed.
Context `{JsonLib}.

Notation "'key' j k" := (json_object_object_get_ex j k%string) (at level 10, j at next level, k at next level).

(** What a NaN is converted to is some value of the type. *)
Definition nan_typed : Prop := i64_ok nan_int64 /\ u64_ok nan_uint64.
Hypothesis Hnan : nan_typed.

Lemma key_typed j k r : json_typed j -> key j k = Some r -> json_typed r.
Proof.
  destruct 1 as [| | | | | | |l Hl]; try done. cbn [json_object_object_get_ex].
  induction Hl as [|[k' v] l Hv _ IH]; [done|]. cbn [assoc]. case_decide; [by intros [= <-]|done].
Qed.

Lemma get_int64_typed j : json_typed j -> i64_ok (json_object_get_int64 j).
Proof.
  destruct Hnan as [Hn _]. unfold i64_ok in *.
  destruct 1 as [|b|z Hz|z Hz|d|s|l|l]; cbn [json_object_get_int64]; unfold int64_max, int64_min in *; try done.
  - destruct b; done.
  - unfold u64_ok in Hz. case_decide; lia.
  - destruct d as [|[]| |]; try done. repeat case_decide; lia.
  - case_match; [|done]. unfold strtol. destruct (sign _). lia.
Qed.

Lemma get_uint64_typed j : json_typed j -> u64_ok (json_object_get_uint64 j).
Proof.
  destruct Hnan as [_ Hn]. unfold u64_ok in *.
  destruct 1 as [|b|z Hz|z Hz|d|s|l|l]; cbn [json_object_get_uint64]; unfold uint64_max in *; try done.
  - destruct b; done.
  - unfold i64_ok in Hz. case_decide; lia.
  - destruct d as [|[]| |]; try done. repeat case_decide; lia.
  - assert (forall s, 0 <= strtoull s < 2 ^ 64) as Hs.
    { intros s'. unfold strtoull, u64. destruct (sign _). case_decide; [lia|]. apply Z.mod_pos_bound. lia. }
    unfold json_parse_uint64. destruct (skip_blanks _); cbn; [done|]. repeat case_decide; cbn; try done; case_match; cbn; done.
Qed.

Lemma u16_typed z : u16_ok (u16 z).
Proof. unfold u16_ok, u16. by apply Z.mod_pos_bound. Qed.
Lemma u32_typed z : u32_ok (u32 z).
Proof. unfold u32_ok, u32. by apply Z.mod_pos_bound. Qed.

Lemma get_string_typed j : str_ok (json_object_get_string j).
Proof. unfold str_ok. destruct (json_object_get_string j) eqn:E; [by eapply get_string_no_nul|done]. Qed.
Lemma opt_string_typed j k : str_ok (opt_string j k).
Proof. unfold opt_string. case_match; [apply get_string_typed|done]. Qed.

Lemma char_array_typed n s : (0 < n)%nat -> chars_ok n (char_array n s).
Proof.
  intros Hn. unfold chars_ok, char_array. split.
  - rewrite length_app, length_take, length_replicate. lia.
  - apply elem_of_app. right. apply elem_of_replicate. split; [done|lia].
Qed.

Create HintDb typed.
#[local] Hint Resolve get_string_typed opt_string_typed u16_typed u32_typed get_uint64_typed get_int64_typed : typed.
#[local] Hint Extern 1 (chars_ok _ (char_array _ _)) => apply char_array_typed; lia : typed.
#[local] Hint Extern 2 (json_typed _) => eapply key_typed; [|eassumption] : typed.
#[local] Hint Extern 1 (u16_ok 0) => done : typed.
#[local] Hint Extern 1 (u32_ok 0) => done : typed.
#[local] Hint Extern 1 (i64_ok 0) => done : typed.
#[local] Hint Extern 1 (str_ok None) => exact I : typed.

(** Takes apart an equation [spec = Val v]. *)
Ltac run_spec := unfold req, spec_size, mbind, out_bind in *;
  repeat match goal with
  | H : match ?x with _ => _ end = Val _ |- _ => destruct x eqn:?; try discriminate H
  | H : Val _ = Val _ |- _ => injection H; clear H; intros; subst
  | p : (_ * _)%type |- _ => destruct p
  end.
Ltac typed := split; cbn -[char_array u16 u32]; eauto 6 with typed.

Lemma file_zero_typed : file_typed file_zero.
Proof. by split. Qed.
Lemma from_zero_typed : from_typed from_zero.
Proof. split; try done. by split; [|left]. Qed.
Lemma chat_zero_typed : chat_typed chat_zero.
Proof. split; try done. by left. Qed.
#[local] Hint Resolve file_zero_typed from_zero_typed chat_zero_typed : typed.

Lemma spec_file_typed j f : spec_file j = Val f -> json_typed j -> file_typed f.
Proof. intros Hf Hj. unfold spec_file in Hf. run_spec; typed. Qed.

Lemma spec_from_typed j f : spec_from j = Val f -> json_typed j -> from_typed f.
Proof. intros Hf Hj. unfold spec_from in Hf. run_spec; typed. Qed.

Lemma spec_chat_type_typed j ty : spec_chat_type j = Val ty -> ty ∈ [0; TGEV_CHAT_PRIVATE; TGEV_CHAT_GROUP; TGEV_CHAT_SUPERGROUP].
Proof. unfold spec_chat_type. intros Hf. run_spec; by apply (bool_decide_unpack _). Qed.

Lemma spec_chat_typed j c : spec_chat j = Val c -> json_typed j -> chat_typed c.
Proof.
  intros Hf Hj. unfold spec_chat in Hf. cbv zeta in Hf. destruct (spec_chat_type j) as [ty| |] eqn:Hty;
    [|run_spec..]. pose proof (spec_chat_type_typed _ _ Hty) as Ht. run_spec; typed.
Qed.
#[local] Hint Resolve spec_file_typed spec_from_typed spec_chat_typed : typed.

Lemma spec_media_typed j m : spec_media j = Val m -> json_typed j -> media_typed m.
Proof.
  intros Hf Hj. unfold spec_media in Hf. run_spec; split; cbn -[char_array u16 u32]; eauto 6 with typed;
    try (case_match; eauto with typed); repeat (apply Forall_cons; split); eauto with typed.
Qed.

Lemma spec_sticker_typed j k : spec_sticker j = Val k -> json_typed j -> sticker_typed k.
Proof. intros Hf Hj. unfold spec_sticker in Hf. run_spec; typed. Qed.

Lemma spec_head_typed j h : spec_head j = Val h -> json_typed j -> head_typed h.
Proof. intros Hf Hj. unfold spec_head, spec_forward in Hf. run_spec; typed. Qed.

(** ** Messages *)
Definition array_typed {A} (P : A -> Prop) (l : list A) : Prop := u16_ok (Z.of_nat (length l)) /\ Forall P l.

Definition node_typed (n : node) : Prop :=
  match n with
  | NText h t es => head_typed h /\ str_ok t /\ array_typed entity_typed es
  | NPhoto h ps cap es => head_typed h /\ array_typed file_typed ps /\ str_ok cap /\ array_typed entity_typed es
  | NSticker h k => head_typed h /\ sticker_typed k
  | NGif h a d cap es => head_typed h /\ media_typed a /\ file_typed d /\ str_ok cap /\ array_typed entity_typed es
  | NUnknown h es => head_typed h /\ array_typed entity_typed es
  | NBadUnknown | NDropped => True
  end.

Lemma entity_of_typed j : json_typed j -> entity_typed (entity_of j).
Proof. intros Hj. unfold entity_of, parse_entity. repeat case_match; typed; done. Qed.

Lemma photo_of_typed j : json_typed j -> file_typed (photo_of j).
Proof.
  intros Hj. unfold photo_of, parse_tgevi_file, need, maybe, ignore. munfold.
  repeat (case_match; simplify_eq; munfold); typed; done.
Qed.

Lemma seen_typed {A} (P : A -> Prop) (f : json -> A) l :
  (forall j, json_typed j -> P (f j)) -> json_typed (JArray l) -> array_typed P (f <$> seen l).
Proof.
  intros Hf Hl. inversion_clear Hl as [| | | | | |l' Ha|]. split.
  - rewrite length_fmap, length_seen. apply u16_typed.
  - apply Forall_fmap. unfold seen. apply Forall_take. by eapply Forall_impl.
Qed.

Lemma spec_entities_typed j k es : spec_entities j k = Val es -> json_typed j -> array_typed entity_typed es.
Proof.
  unfold spec_entities. intros Hs Hj. destruct (key j k) as [r|] eqn:Hk; [|injection Hs as <-; by split].
  pose proof (key_typed _ _ _ Hj Hk) as Hr. destruct r; try done. injection Hs as <-. apply seen_typed; [apply entity_of_typed|done].
Qed.

Lemma spec_photos_typed j ps : spec_photos j = Val ps -> json_typed j -> array_typed file_typed ps.
Proof.
  unfold spec_photos. intros Hs Hj. destruct j; try done. injection Hs as <-. apply seen_typed; [apply photo_of_typed|done].
Qed.

Lemma spec_caption_typed j cap es : spec_caption j = Val (cap, es) -> json_typed j -> str_ok cap /\ array_typed entity_typed es.
Proof.
  unfold spec_caption. intros Hs Hj. destruct (key j "caption"); [|by injection Hs as <- <-; repeat split].
  run_spec. split; [apply get_string_typed|by eapply spec_entities_typed].
Qed.
#[local] Hint Resolve spec_head_typed spec_sticker_typed spec_media_typed spec_entities_typed spec_photos_typed photo_of_typed : typed.

Lemma spec_reply_typed rec j ns :
  (forall r ns, rec r = Val ns -> json_typed r -> Forall node_typed ns) ->
  spec_reply rec j = Val ns -> json_typed j -> Forall node_typed ns.
Proof.
  intros Hrec Hs Hj. unfold spec_reply in Hs. destruct (key j "reply_to_message") as [r|] eqn:Hk; [|by injection Hs as <-].
  pose proof (key_typed _ _ _ Hj Hk) as Hr. pose proof (Hrec r) as Hrec'.
  destruct r; first [by injection Hs as <- | destruct (rec _) as [ns'| |]; try done; simplify_eq; [by apply Hrec'|by repeat constructor]].
Qed.

Lemma spec_body_typed rec j ns :
  (forall r ns, rec r = Val ns -> json_typed r -> Forall node_typed ns) ->
  spec_body rec j = Val ns -> json_typed j -> Forall node_typed ns.
Proof.
  intros Hrec Hs Hj. unfold spec_body in Hs. run_spec;
    repeat match goal with H : spec_reply _ _ = Val _ |- _ => apply (spec_reply_typed rec j _ Hrec) in H; [|done] end;
    repeat match goal with H : spec_caption _ = Val (_, _) |- _ => apply spec_caption_typed in H as [? ?]; [|done] end;
    repeat (apply Forall_cons; split); try apply Forall_nil_2; try exact I; cbn;
    repeat match goal with |- _ /\ _ => split end; eauto 4 with typed.
Qed.

Lemma spec_msg_typed j ns : spec_msg j = Val ns -> json_typed j -> Forall node_typed ns.
Proof.
  unfold spec_msg. generalize (json_depth j). intros n. revert j ns. induction n as [|n IH]; intros j ns Hs Hj; [done|].
  by apply (spec_body_typed (spec_msg_n n) j).
Qed.
End Typed.

(** ** Events in the heap *)
Lemma ents_typed m c p es A : ents_at m c p es A -> array_typed entity_typed es -> entities_typed m c p.
Proof.
  intros [-> Hp] [Hlen Hes]. split; [done|]. destruct es as [|x es]; [by left; destruct Hp|].
  right. destruct Hp as (_ & Hp & _). by exists (x :: es).
Qed.

(** Every message of the chain parsed to its end. *)
Definition complete (n : node) : bool := match n with NBadUnknown => false | _ => true end.

Lemma rep_typed m ns e A :
  rep m e ns A -> Forall node_typed ns -> forallb complete ns = true -> event_typed m e.
Proof.
  revert e A. induction ns as [|n ns IH]; intros e A Hrep Hty Hc; [done|].
  apply Forall_cons in Hty as [Hn Hty]. cbn [forallb] in Hc. apply andb_true_iff in Hc as [Hc Hcs].
  assert (Hreply : forall r A2, reply_at (fun e A' => rep m e ns A') m r ns A2 ->
    r = 0 \/ exists e', m !! r = Some (BEvent e') /\ event_typed m e').
  { intros r A2 Hr. unfold reply_at in Hr. destruct ns as [|n' ns]; [by left; destruct Hr|].
    destruct n'; try (by left; destruct Hr); right; destruct Hr as (e' & A' & _ & Hm & _ & _ & Hr);
      exists e'; (split; [done|]); by eapply IH. }
  destruct Hrep as (A1 & A2 & -> & Hrep). destruct n as [h t es|h ps cap es|h k|h a d cap es|h es| |]; try done; cbn in Hn.
  - destruct Hrep as (Hty' & c & p & r & Hmsg & Hes & Hr). destruct Hn as (Hh & Ht & Hn).
    eapply typed_text; [done|done|done|done|by eapply ents_typed|by eapply Hreply].
  - destruct Hrep as (Hty' & -> & q & c & p & Hmsg & (_ & Hq & _) & Hes). destruct Hn as (Hh & [Hpl Hps] & Hcap & Hn).
    eapply typed_photo; [done|done|done|done|by exists ps|done|by eapply ents_typed].
  - destruct Hrep as (Hty' & _ & r & Hmsg & Hr). destruct Hn as [Hh Hk].
    eapply typed_sticker; [done|done|done|done|by eapply Hreply].
  - destruct Hrep as (Hty' & -> & _ & c & p & Hmsg & Hes). destruct Hn as (Hh & Ha & Hd & Hcap & Hn).
    eapply typed_gif; [done|done|done|done|done|done|by eapply ents_typed].
  - destruct Hrep as (Hty' & c & p & r & Hmsg & Hes & Hr). destruct Hn as [Hh Hn].
    eapply typed_unknown; [done|done|done|by eapply ents_typed|by eapply Hreply].
Qed.

(** C9: Whatever values a text gives its members, the event it is loaded to has
    the types of the C structures, with the messages it replies to, as long as
    no event of unknown type was left half parsed ([complete]). *)
Theorem load_typed `{JsonLib} n s len h j u m ns :
  nan_typed -> json_typed j ->
  heap_ok h -> tokener_loop n json_tokener_new (text_of s len) = Some (json_tokener_success, j) ->
  json_object_object_get_ex j "update_id" = Some u -> json_object_object_get_ex j "message" = Some m ->
  spec_msg m = Val ns -> forallb complete ns = true ->
  exists h1 e1, tg_event_load_str_len n (Some s) len false (HS h tgev_zero) = (Val 0, HS h1 e1) /\
    u64_ok (update_id e1) /\ event_typed (blocks h1) e1.
Proof.
  intros Hnan Hj Hh Ht Hu Hm Hs Hc.
  destruct (load_good n s len h _ j Hh Ht u Hu m Hm ns Hs) as (h1 & e1 & A & Hrun & (_ & Hid & _) & Hrep & _).
  exists h1, e1. split; [done|]. split.
  - rewrite Hid. apply get_uint64_typed; [done|by eapply key_typed].
  - eapply rep_typed; [done| |done]. eapply spec_msg_typed; [done|done|by eapply key_typed].
Qed.

(** A message id below 0, a language of seven letters, an entity behind 65535. *)
Definition demo_wild_msg : json :=
  JObject [("message_id", JInt (-5)); ("from", JObject [("id", JDouble S754_nan); ("first_name", JString (bs "A")); ("language_code", JString (bs "english"))]);
    ("chat", JObject [("id", JUint (2 ^ 64 - 1)); ("type", JString (bs "private")); ("first_name", JNull)]); ("date", JBool true);
    ("text", JString (bs "hi")); ("entities", JArray [JObject [("offset", JInt 70000); ("length", JInt 2); ("type", JString (bs "url"))]])].
Definition demo_wild : json := JObject [("update_id", JInt 7); ("message", demo_wild_msg)].

Ltac json_typed := repeat first [solve [unfold i64_ok, u64_ok; lia] | apply Forall_nil_2 | apply Forall_cons; split | apply jt_null | apply jt_bool |
  apply jt_int | apply jt_uint | apply jt_double | apply jt_string | apply jt_array | apply jt_object | progress cbn [snd]].

Lemma load_typed_witness :
  let l := demo_lib demo_text demo_wild in
  exists h1 e1, @tg_event_load_str_len l 1 (Some demo_text) demo_len false (HS demo_heap tgev_zero) = (Val 0, HS h1 e1) /\
    u64_ok (update_id e1) /\ event_typed (blocks h1) e1.
Proof.
  apply (@load_typed (demo_lib demo_text demo_wild) 1 demo_text demo_len demo_heap demo_wild (JInt 7) demo_wild_msg
    [NText (Head 0 (From 0 (Some (bs "A")) None None (bs "eng" ++ [Byte.x00]) false) from_zero None
       (Chat (2 ^ 63 - 1) None None None None TGEV_CHAT_PRIVATE false) chat_zero 1 0 false false) (Some (bs "hi"))
       [Entity 4464 2 (Some (bs "url"))]]).
  - split; split; done.
  - unfold demo_wild, demo_wild_msg. json_typed.
  - apply demo_heap_ok.
  - vm_compute. reflexivity.
  - reflexivity.
  - reflexivity.
  - vm_compute. reflexivity.
  - reflexivity.
Defined.
