(* ===== verification/Gwthread.v ===== *)
(** * The mutex and condition variable wrappers:
      include/gwbot/gwthread.h, debug build

    In a debug build each wrapper owns a one-byte block, [init], whose only
    purpose is that a leak checker reports a wrapper that is never destroyed.
    The calls of the pthread library are arguments: the code they return. *)
From S2P Require Import Prelude.

(** What the pthread object is: not initialised, free, or held. *)
Inductive pth := PNone | PFree | PHeld.

(** [gwlock_t] and [gwcond_t] have the same members. *)
Record gwlock := Lock {
  init : option positive;
  need_destroy : bool;
  pthread : pth;
}.
#[export] Instance eta_lock : Eta gwlock := fun r => Lock (init r) (need_destroy r) (pthread r).

(** A wrapper, and the live [init] blocks of the program. *)
Record lst := Lst { lock : gwlock; live : gset positive }.
#[export] Instance eta_lst : Eta lst := fun r => Lst (lock r) (live r).

Definition lock_zero : gwlock := Lock None false PNone.
Definition set_lock (f : gwlock -> gwlock) : M lst unit :=
  modify (fun s => s <| lock := f (lock s) |>).

(** [malloc(1)]: NULL, or the address of a new block. *)
Definition malloc1 (mem : option positive) : M lst (option positive) :=
  match mem with
  | None => mret None
  | Some p => modify (fun s => s <| live := {[p]} ∪ live s |>);; mret (Some p)
  end.

Definition free1 (p : option positive) : M lst unit :=
  s ← get;
  match p with
  | None => mret tt
  | Some a => if decide (a ∈ live s) then put (s <| live := live s ∖ {[a]} |>) else faulty FFree
  end.

Definition gw_mutex_init (mem : option positive) (rc : Z) : M lst Z :=
  p ← malloc1 mem;
  set_lock (fun l => l <| init := p |>);;
  set_lock (fun l => l <| need_destroy := true |>);;
  (if decide (rc = 0) then set_lock (fun l => l <| pthread := PFree |>) else mret tt);;
  mret rc.

Definition gw_cond_init (mem : option positive) (rc : Z) : M lst Z := gw_mutex_init mem rc.

(** [rc] is what [pthread_mutex_destroy] returns. *)
Definition gw_mutex_destroy (rc : Z) : M lst Z :=
  s ← get;
  ret ← (if need_destroy (lock s) then
           set_lock (fun l => l <| pthread := PNone |>);;
           set_lock (fun l => l <| need_destroy := false |>);; mret rc
         else mret 0);
  free1 (init (lock s));;
  mret ret.

Definition gw_cond_destroy (rc : Z) : M lst Z := gw_mutex_destroy rc.

Definition gw_assert : M lst unit :=
  s ← get; if need_destroy (lock s) then mret tt else faulty FAssert.

(** A lock that is free is taken; [PHeld] would wait for its holder. *)
Definition gw_mutex_lock : M lst Z :=
  gw_assert;; set_lock (fun l => l <| pthread := PHeld |>);; mret 0.

Definition gw_mutex_unlock : M lst Z :=
  gw_assert;; set_lock (fun l => l <| pthread := PFree |>);; mret 0.

Definition gw_cond_signal : M lst Z := gw_assert;; mret 0.

(** The wait on a condition variable: both wrappers are checked first.  [rc]
    is what the wait returns. *)
Definition gw_cond_timedwait (cond mutex : gwlock) (rc : Z) : out Z :=
  if need_destroy cond then if need_destroy mutex then Val rc else Fault FAssert
  else Fault FAssert.

Definition gw_cond_wait : gwlock -> gwlock -> Z -> out Z := gw_cond_timedwait.

(** The deadline is the current second plus [rel_time], with no fraction:
    [now] is in microseconds, the deadline too. *)
Definition deadline (now rel_time : Z) : Z := (now / 1000000 + rel_time) * 1000000.

Definition gw_cond_timedwait_rel (tod : Z + Z) (rel_time : Z) (wait : Z -> Z)
    (cond mutex : gwlock) : out Z :=
  match tod with
  | inr err => Val (- err)
  | inl now => gw_cond_timedwait cond mutex (wait (deadline now rel_time))
  end.

(** ** Properties *)
Lemma free1_in a s :
  a ∈ live s -> free1 (Some a) s = (Val tt, s <| live := live s ∖ {[a]} |>).
Proof. intros Ha. unfold free1, mbind, M_bind, get. by rewrite decide_True. Qed.

Lemma free1_out a s : a ∉ live s -> free1 (Some a) s = (Fault FFree, s).
Proof. intros Ha. unfold free1, mbind, M_bind, get. by rewrite decide_False. Qed.

(** Destroying an initialised wrapper, and one that was destroyed. *)
Lemma destroy_first p ph L :
  p ∈ L -> gw_mutex_destroy 0 (Lst (Lock (Some p) true ph) L) =
    (Val 0, Lst (Lock (Some p) false PNone) (L ∖ {[p]})).
Proof.
  intros Hp. unfold gw_mutex_destroy. erewrite bind_val by reflexivity.
  erewrite bind_val by reflexivity. by erewrite bind_val by by apply free1_in.
Qed.

Lemma destroy_again p ph L :
  p ∉ L -> fst (gw_mutex_destroy 0 (Lst (Lock (Some p) false ph) L)) = Fault FFree.
Proof.
  intros Hp. unfold gw_mutex_destroy. erewrite bind_val by reflexivity.
  erewrite bind_val by reflexivity. by erewrite bind_fault by by apply free1_out.
Qed.

(** A wrapper that was initialised is usable, is destroyed with its [init]
    block given back, is refused afterwards, and must not be destroyed twice:
    the second call frees [init] again. *)
Theorem gw_mutex_lifecycle s p :
  p ∉ live s ->
  exists s1 s2,
    gw_mutex_init (Some p) 0 s = (Val 0, s1) /\
    fst (gw_mutex_lock s1) = Val 0 /\ fst (gw_mutex_unlock s1) = Val 0 /\
    gw_mutex_destroy 0 s1 = (Val 0, s2) /\ live s2 = live s /\
    fst (gw_mutex_lock s2) = Fault FAssert /\
    fst (gw_mutex_destroy 0 s2) = Fault FFree.
Proof.
  intros Hp. exists (Lst (Lock (Some p) true PFree) ({[p]} ∪ live s)),
    (Lst (Lock (Some p) false PNone) (({[p]} ∪ live s) ∖ {[p]})).
  split; [done|]. split; [done|]. split; [done|].
  split; [apply destroy_first; set_solver|]. split; [simpl; set_solver|]. split; [done|].
  apply destroy_again. set_solver.
Qed.

Lemma gw_mutex_lifecycle_witness :
  exists s1 s2,
    gw_mutex_init (Some 1%positive) 0 (Lst lock_zero ∅) = (Val 0, s1) /\
    gw_mutex_destroy 0 s1 = (Val 0, s2) /\ live s2 = ∅.
Proof.
  destruct (gw_mutex_lifecycle (Lst lock_zero ∅) 1%positive) as (s1 & s2 & H1 & _ & _ & H2 & H3 & _).
  - vm_compute. discriminate.
  - exists s1, s2. split; [exact H1|]. split; [exact H2|exact H3].
Defined.

(** A wait of [rel_time] seconds ends up to a second early, never late. *)
Theorem timedwait_short now rel_time :
  0 <= now -> 0 <= rel_time ->
  now + rel_time * 1000000 - 1000000 < deadline now rel_time <= now + rel_time * 1000000.
Proof. intros. unfold deadline. 
  pose proof (Z.div_mod now 1000000 ltac:(lia)). pose proof (Z.mod_pos_bound now 1000000 ltac:(lia)).
  lia. Qed.

Lemma timedwait_short_witness : deadline 5999999 1 <= 5999999 + 1 * 1000000.
Proof. apply timedwait_short; lia. Defined.
