(* ===== verification/Gwbot.v ===== *)
(** * The shared state: include/gwbot/gwbot.h

    The records of a channel (one accepted connection), a worker thread and
    the server, with the operations on arrays and packets that the components
    share.  A [Z] that indexes an array is checked against its length. *)
From S2P Require Import Prelude Tstack Que.

Definition CHPKT_DATA_BUFSIZ : Z := 24576.     (** 0x6000 *)
Definition CHPKT_LEN : Z := 2.                 (** offsetof(struct chan_pkt, data) *)
Definition PKT_SIZE : Z := CHPKT_LEN + CHPKT_DATA_BUFSIZ.   (** sizeof(struct chan_pkt) *)

(** [union chan_pkt_uni]: the bytes of [raw_buf]; [pkt.len] is the first two,
    [pkt.data] the rest. *)
Definition chan_pkt : Type := list byte.
Definition pkt_zero : chan_pkt := replicate (Z.to_nat PKT_SIZE) Byte.x00.

Record gwbot_chan := Chan {
  is_online : bool;
  chan_fd : Z;
  chan_idx : Z;          (** uint16_t *)
  src_port : Z;          (** uint16_t *)
  src_ip : list byte;    (** char [IPV4_L + 1] *)
  accepted_at : Z;       (** time_t *)
  recv_s : Z;            (** size_t *)
  pkt : chan_pkt;
}.
#[export] Instance eta_chan : Eta gwbot_chan := fun r =>
  Chan (is_online r) (chan_fd r) (chan_idx r) (src_port r) (src_ip r) (accepted_at r) (recv_s r)
    (pkt r).

Record gwbot_thread := Thread {
  th_idx : Z;            (** thread_idx, uint16_t *)
  th_online : bool;      (** is_online *)
  has_event : bool;
  ev_from_sqe : bool;
  pkt_len : Z;           (** size_t *)
  sqe_node : option positive;
  th_pkt : chan_pkt;     (** pkt *)
}.
#[export] Instance eta_thread : Eta gwbot_thread := fun r =>
  Thread (th_idx r) (th_online r) (has_event r) (ev_from_sqe r) (pkt_len r) (sqe_node r)
    (th_pkt r).

(** The event a thread holds: the queue node with its contents, or the packet
    in the thread.  The text starts after the length. *)
Definition event_text (node : option que_node) (th : gwbot_thread) : list byte :=
  if ev_from_sqe th then match node with Some n => drop 2 (data n) | None => [] end
  else drop 2 (th_pkt th).

Record gwbot_state := State {
  stop_el : bool;
  intr_sig : Z;
  tcp_fd : Z;
  epl_fd : Z;
  epl_map : list Z;               (** uint16_t [EPL_MAP_SIZE] *)
  chans : list gwbot_chan;
  threads : list gwbot_thread;
  active_chan : Z;                (** uint32_t *)
  sqes : qst;
  cqes : que_master;
  chan_stk : tstack;
  thread_stk : tstack;
  online_thread : Z;              (** _Atomic(uint32_t) *)
  (* the kernel: open descriptors, those in the epoll set, those shut down,
     and the worker threads created, by index *)
  fds : gset Z;
  epl_set : gset Z;
  shut : gset Z;
  spawned : list Z;
}.
#[export] Instance eta_state : Eta gwbot_state := fun r =>
  State (stop_el r) (intr_sig r) (tcp_fd r) (epl_fd r) (epl_map r) (chans r) (threads r)
    (active_chan r) (sqes r) (cqes r) (chan_stk r) (thread_stk r) (online_thread r) (fds r) (epl_set r) (shut r)
    (spawned r).

(** ** Arrays *)
Definition aget {S A} (l : list A) (i : Z) : M S A :=
  if decide (0 <= i) then
    match l !! Z.to_nat i with Some a => mret a | None => faulty FBounds end
  else faulty FBounds.

Definition aset {S A} (l : list A) (i : Z) (a : A) : M S (list A) :=
  if decide (0 <= i < Z.of_nat (length l)) then mret (<[Z.to_nat i := a]> l) else faulty FBounds.

Lemma aget_ok {S A} (l : list A) i a (s : S) :
  0 <= i -> l !! Z.to_nat i = Some a -> aget l i s = (Val a, s).
Proof. intros Hi Hl. unfold aget. by rewrite decide_True, Hl. Qed.

Lemma aset_ok {S A} (l : list A) i a (s : S) :
  0 <= i < Z.of_nat (length l) -> aset l i a s = (Val (<[Z.to_nat i := a]> l), s).
Proof. intros Hi. unfold aset. by rewrite decide_True. Qed.
