(* ===== verification/EventHandler.v ===== *)
(** * Modules and event dispatch: core/event_handler.c, include/gwbot/module.h
      and module_table.h

    A module is a record of functions over the state [W] of the outside world
    (the Telegram server, the database); the modules themselves are parameters
    here.  An entry reads the event and the heap, and does not change them. *)
From S2P Require Import Prelude CString Json TgEvent TgSpec TgMem TgPrint TgLoad Que Gwbot.

Section Handler.
Context `{JsonLib} {W : Type}.

Record module_entry := Module_entry {
  mod_name : string;
  startup : option (M W Z);
  shutdown : option (M W Z);
  entry : option (tgev -> heap -> M W Z);
  event_mask : Z;            (** uint64_t *)
}.

(** The last row of the table, [GWMOD_REG_END]. *)
Definition GWMOD_REG_END : module_entry := Module_entry "" None None None 0.

(** The table: every module is registered for text and photo events. *)
Definition GWMOD_REG (name : string) (st sh : M W Z) (en : tgev -> heap -> M W Z) : module_entry :=
  Module_entry name (Some st) (Some sh) (Some en) (Z.lor TGEV_TEXT TGEV_PHOTO).

Record estate := Estate {
  e_heap : heap;
  world : W;
  is_mod_initialized : bool;
}.
#[export] Instance eta_estate : Eta estate := fun r =>
  Estate (e_heap r) (world r) (is_mod_initialized r).

Definition on_world {A} (m : M W A) : M estate A := zoom world (fun w s => s <| world := w |>) m.

(** ** Startup and shutdown *)
Fixpoint startup_loop (mods : list module_entry) : M W Z :=
  match mods with
  | [] => mret 0
  | m :: mods' =>
      match startup m with
      | None => startup_loop mods'
      | Some f => ret ← f; if decide (ret <> 0) then mret ret else startup_loop mods'
      end
  end.

Definition gwbot_module_startup (mods : list module_entry) : M estate Z :=
  s ← get;
  if is_mod_initialized s then mret 0
  else
    ret ← on_world (startup_loop mods);
    if decide (ret <> 0) then mret ret
    else modify (fun s => s <| is_mod_initialized := true |>);; mret 0.

Fixpoint shutdown_loop (mods : list module_entry) : M W unit :=
  match mods with
  | [] => mret tt
  | m :: mods' =>
      match shutdown m with
      | None => shutdown_loop mods'
      | Some f => f;; shutdown_loop mods'
      end
  end.

Definition gwbot_module_shutdown (mods : list module_entry) : M estate Z :=
  s ← get;
  if negb (is_mod_initialized s) then mret 0
  else
    on_world (shutdown_loop mods);;
    modify (fun s => s <| is_mod_initialized := false |>);; mret 0.

(** ** gwbot_event_handler *)

(** The loop over the table; [ret] is the variable of that name. *)
Fixpoint dispatch (mods : list module_entry) (evt : tgev) (h : heap) (ret : Z) : M W Z :=
  match mods with
  | [] => mret ret
  | m :: mods' =>
      if decide (Z.land (event_mask m) (evt_type evt) = 0) then dispatch mods' evt h ret
      else
        match entry m with
        | None => dispatch mods' evt h ret
        | Some f =>
            ret ← f evt h;
            if decide (ret <> - ECANCELED) then mret ret else dispatch mods' evt h ret
        end
  end.

(** [json_str] is the text the thread holds; [n] bounds the rounds of the
    tokener. *)
Definition gwbot_event_handler (mods : list module_entry) (n : nat) (json_str : list byte) :
    M estate Z := fun s =>
  match tg_event_load_str n (Some json_str) false (HS (e_heap s) tgev_zero) with
  | (Val ret, HS h evt) =>
      if decide (ret <> 0) then (Val ret, s <| e_heap := h |>)
      else
        let '(r, w) := dispatch mods evt h ret (world s) in
        let s := s <| e_heap := h |> <| world := w |> in
        match r with
        | Val ret =>
            let '(d, t) := tg_event_destroy (HS h evt) in
            (match d with Val _ => Val ret | Exit c => Exit c | Fault f => Fault f end,
             s <| e_heap := hp t |>)
        | o => (o, s)
        end
  | (Exit c, t) => (Exit c, s <| e_heap := hp t |>)
  | (Fault f, t) => (Fault f, s <| e_heap := hp t |>)
  end.

(** ** Which modules run *)

(** The entries of the modules registered for an event. *)
Definition listeners (mods : list module_entry) (evt : tgev) : list (tgev -> heap -> M W Z) :=
  omap entry (filter (fun m => Z.land (event_mask m) (evt_type evt) <> 0) mods).

(** Entries that decline an event one after the other. *)
Inductive declines (evt : tgev) (h : heap) : list (tgev -> heap -> M W Z) -> W -> W -> Prop :=
| declines_nil w : declines evt h [] w w
| declines_cons f fs w w' w'' :
    f evt h w = (Val (- ECANCELED), w') -> declines evt h fs w' w'' ->
    declines evt h (f :: fs) w w''.

Lemma listeners_cons m mods evt :
  listeners (m :: mods) evt =
  if decide (Z.land (event_mask m) (evt_type evt) = 0) then listeners mods evt
  else match entry m with
       | None => listeners mods evt
       | Some f => f :: listeners mods evt
       end.
Proof.
  unfold listeners. rewrite filter_cons.
  repeat case_decide; tauto.
Qed.

(** The modules that are not listeners make no difference. *)
Lemma dispatch_listeners mods evt h ret w :
  dispatch mods evt h ret w =
  match listeners mods evt with
  | [] => (Val ret, w)
  | f :: _ => dispatch mods evt h 0 w
  end.
Proof.
  revert ret w. induction mods as [|m mods IH]; intros ret w; [done|].
  rewrite listeners_cons. cbn [dispatch]. case_decide.
  - rewrite IH. by destruct (listeners mods evt).
  - destruct (entry m) as [f|]; [done|].
    rewrite IH. by destruct (listeners mods evt).
Qed.

(** The first listener is run; when it declines the rest of the table is. *)
Lemma dispatch_step mods evt h w f fs :
  listeners mods evt = f :: fs ->
  exists mods', listeners mods' evt = fs /\
    dispatch mods evt h 0 w =
    (ret ← f evt h; if decide (ret <> - ECANCELED) then mret ret else dispatch mods' evt h ret) w.
Proof.
  revert w. induction mods as [|m mods IH]; intros w; [done|].
  rewrite listeners_cons. cbn [dispatch]. case_decide; [by apply IH|].
  destruct (entry m) as [g|]; [|by apply IH]. intros [= -> Hl]. by exists mods.
Qed.

(** The listeners are asked in the order of the table; the first that does
    not decline decides the result, and no later one runs. *)
Theorem dispatch_first mods evt h w pre f post w1 r w2 :
  listeners mods evt = pre ++ f :: post -> declines evt h pre w w1 ->
  f evt h w1 = (Val r, w2) -> r <> - ECANCELED ->
  dispatch mods evt h 0 w = (Val r, w2).
Proof.
  intros Hl Hd Hf Hr. revert mods Hl. induction Hd as [w|g fs w w' w'' Hg Hd IH]; intros mods Hl.
  - destruct (dispatch_step mods evt h w f post Hl) as (mods' & _ & ->).
    erewrite bind_val by done. by rewrite decide_True by done.
  - destruct (dispatch_step mods evt h w g (fs ++ f :: post) Hl) as (mods' & Hl' & ->).
    erewrite bind_val by done. rewrite decide_False by tauto. rewrite dispatch_listeners, Hl'.
    destruct (fs ++ f :: post) eqn:E; [by destruct fs|]. apply IH; [done|]. by rewrite Hl'.
Qed.

(** The event is offered to entries one after the other until one does not
    decline: [r] is the last answer, [ret] if nobody is asked. *)
Inductive offered (evt : tgev) (h : heap) : list (tgev -> heap -> M W Z) -> Z -> W -> Z -> W -> Prop :=
| offered_end ret w : offered evt h [] ret w ret w
| offered_taken f fs ret w r w' :
    f evt h w = (Val r, w') -> r <> - ECANCELED -> offered evt h (f :: fs) ret w r w'
| offered_declined f fs ret w w1 r w' :
    f evt h w = (Val (- ECANCELED), w1) -> offered evt h fs (- ECANCELED) w1 r w' ->
    offered evt h (f :: fs) ret w r w'.

Lemma dispatch_offered mods evt h ret w r w' :
  offered evt h (listeners mods evt) ret w r w' -> dispatch mods evt h ret w = (Val r, w').
Proof.
  revert ret w. induction mods as [|m mods IH]; intros ret w; [by inversion 1|].
  rewrite listeners_cons. cbn [dispatch]. case_decide; [by apply IH|].
  destruct (entry m) as [f|]; [|by apply IH].
  inversion 1 as [|? ? ? ? ? ? Hf Hr|? ? ? ? w1 ? ? Hf Ho]; subst; rewrite (bind_val _ _ _ _ _ Hf).
  - by rewrite decide_True.
  - rewrite decide_False by tauto. by apply IH.
Qed.

(** ** The whole handler *)
Lemma load_str_text n txt rest s :
  no_nul txt -> 
  tg_event_load_str n (Some (asz txt ++ rest)) false s =
  tg_event_load_str_len n (Some (asz txt ++ rest)) (Z.of_nat (length txt) + 1) false s.
Proof.
  intros Ht. unfold tg_event_load_str, asz. rewrite <- app_assoc. cbn [app].
  rewrite strlen_asz by done. reflexivity.
Qed.

Lemma text_of_asz txt rest :
  Z.of_nat (length txt) + 1 < 2 ^ 31 ->
  text_of (asz txt ++ rest) (Z.of_nat (length txt) + 1) = asz txt.
Proof.
  intros Hl. unfold text_of, sint. rewrite Z.mod_small by lia.
  rewrite decide_True by lia. replace (Z.to_nat _) with (length (asz txt)).
  - apply take_app_length.
  - rewrite length_asz. lia.
Qed.

(** A text that does not load reaches no module and leaves nothing behind. *)
Theorem handler_rejects mods n txt rest s e j :
  no_nul txt -> Z.of_nat (length txt) + 1 < 2 ^ 31 -> heap_ok (e_heap s) ->
  tokener_loop n json_tokener_new (asz txt) = Some (e, j) -> load_result j = Val (- EINVAL) ->
  exists s', gwbot_event_handler mods n (asz txt ++ rest) s = (Val (- EINVAL), s') /\
    world s' = world s /\ blocks (e_heap s') = blocks (e_heap s).
Proof.
  intros Ht Hl Hh Htok Hr. rewrite <- (text_of_asz txt rest Hl) in Htok.
  destruct (load_error n (asz txt ++ rest) _ (e_heap s) e j Hh Htok Hr) as ([h e2] & Hrun & Hb).
  unfold gwbot_event_handler. rewrite load_str_text, Hrun by done.
  rewrite decide_True by done. eexists. split; [done|]. split; [done|exact Hb].
Qed.

(** C11: A text that loads, to messages of known types none of whose replies was
    dropped, is offered to the modules registered for its type, in the order of
    the table, as the event it describes, until one does not decline; the last
    answer is the result (0 when no module is registered), and afterwards the
    event and all it allocated are gone. *)
Theorem handler_serves mods n txt rest s j u m ns :
  no_nul txt -> Z.of_nat (length txt) + 1 < 2 ^ 31 -> heap_ok (e_heap s) ->
  tokener_loop n json_tokener_new (asz txt) = Some (json_tokener_success, j) ->
  json_object_object_get_ex j "update_id" = Some u ->
  json_object_object_get_ex j "message" = Some m ->
  spec_msg m = Val ns -> forallb known_node ns = true -> no_drop ns = true ->
  exists h1 evt A, rep (blocks h1) evt ns A /\ update_id evt = json_object_get_uint64 u /\
    forall r w, offered evt h1 (listeners mods evt) 0 (world s) r w ->
    exists s', gwbot_event_handler mods n (asz txt ++ rest) s = (Val r, s') /\
      world s' = w /\ blocks (e_heap s') = blocks (e_heap s).
Proof.
  intros Ht Hl Hh Htok Hu Hm Hs Hk Hnd. rewrite <- (text_of_asz txt rest Hl) in Htok.
  destruct (load_destroy n (asz txt ++ rest) _ (e_heap s) j u m ns Hh Htok Hu Hm Hs Hk Hnd)
    as (h1 & e1 & A & s2 & Hrun & Hid & Hrep & Hd & Hb).
  exists h1, e1, A. split; [done|]. split; [done|]. intros r w Hdis%dispatch_offered.
  unfold gwbot_event_handler. rewrite load_str_text, Hrun by done.
  rewrite decide_False by tauto. rewrite Hdis. cbv beta iota zeta. rewrite Hd.
  eexists. split; [done|]. split; [done|exact Hb].
Qed.

(** An event that is neither a text nor a photo reaches no module of the
    program's table. *)
Theorem table_text_photo mods evt h w :
  Forall (fun m => event_mask m = Z.lor TGEV_TEXT TGEV_PHOTO \/ event_mask m = 0) mods ->
  In (evt_type evt) [TGEV_UNKNOWN; TGEV_STICKER; TGEV_GIF] ->
  dispatch mods evt h 0 w = (Val 0, w).
Proof.
  intros Hm Ht. induction Hm as [|m mods Hmask Hm IH]; [done|]. cbn [dispatch].
  rewrite decide_True; [done|]. simpl in Ht.
  destruct Hmask as [->| ->], Ht as [<-|[<-|[<-|[]]]]; reflexivity.
Qed.

(** ** Startup and shutdown *)

(** Modules that start one after the other. *)
Inductive starts : list module_entry -> W -> W -> Prop :=
| starts_nil w : starts [] w w
| starts_none m ms w w' : startup m = None -> starts ms w w' -> starts (m :: ms) w w'
| starts_some m ms f w w' w'' :
    startup m = Some f -> f w = (Val 0, w') -> starts ms w' w'' -> starts (m :: ms) w w''.

Lemma startup_app ms ms' w w' :
  starts ms w w' -> startup_loop (ms ++ ms') w = startup_loop ms' w'.
Proof.
  induction 1 as [|m ms w w' Hm _ IH|m ms f w w' w'' Hm Hf _ IH]; [done|..]; cbn [app startup_loop];
    rewrite Hm; [done|]. erewrite bind_val by done. by rewrite decide_False by tauto.
Qed.

(** Starting runs every module once, whatever the number of calls. *)
Theorem startup_once mods s w :
  is_mod_initialized s = false -> starts mods (world s) w ->
  exists s', gwbot_module_startup mods s = (Val 0, s') /\ world s' = w /\
    gwbot_module_startup mods s' = (Val 0, s').
Proof.
  intros Hi Hst. pose proof (startup_app mods [] _ _ Hst) as Hrun. rewrite app_nil_r in Hrun.
  unfold gwbot_module_startup, mbind, M_bind, get. rewrite Hi.
  unfold on_world, zoom. rewrite Hrun. cbn. eexists. split; [done|]. split; done.
Qed.

(** When a module does not start, the ones before it stay started: shutting
    down does nothing, since the table counts as not initialised. *)
Theorem startup_failure_keeps_modules pre m post f s w1 r w2 :
  is_mod_initialized s = false -> starts pre (world s) w1 ->
  startup m = Some f -> f w1 = (Val r, w2) -> r <> 0 ->
  exists s', gwbot_module_startup (pre ++ m :: post) s = (Val r, s') /\ world s' = w2 /\
    gwbot_module_shutdown (pre ++ m :: post) s' = (Val 0, s').
Proof.
  intros Hi Hst Hm Hf Hr. pose proof (startup_app pre (m :: post) _ _ Hst) as Hrun.
  cbn [startup_loop] in Hrun. rewrite Hm in Hrun. unfold mbind, M_bind in Hrun.
  rewrite Hf, decide_True in Hrun by done. unfold mret, M_ret in Hrun.
  unfold gwbot_module_startup, mbind, M_bind, get. rewrite Hi.
  unfold on_world, zoom. rewrite Hrun. cbv beta iota. rewrite decide_True by done.
  eexists. split; [done|]. split; [done|].
  unfold gwbot_module_shutdown, mbind, M_bind, get. cbn. by rewrite Hi.
Qed.
End Handler.

(** *** Witnesses

    The outside world is a log; a module writes its name and declines, handles
    or fails. *)
Definition logs (name : string) (ret : Z) : M (list string) Z :=
  modify (fun l => l ++ [name]);; mret ret.
Definition demo_module (name : string) (st en : Z) : module_entry :=
  GWMOD_REG name (logs name st) (logs name 0) (fun _ _ => logs name en).
Definition demo_tbl : list (module_entry (W := list string)) :=
  [demo_module "debug" 0 (- ECANCELED); demo_module "standard" 0 (- ECANCELED);
   demo_module "translate" 0 0; demo_module "admin" 0 0; GWMOD_REG_END].
Definition demo_sticker_evt : tgev :=
  Tgev JP_null 0 TGEV_STICKER false (MsgSticker (EvSticker demo_head sticker_zero 0)).
Definition demo_estate : estate (W := list string) := Estate demo_heap [] false.

Lemma dispatch_first_witness :
  dispatch demo_tbl demo_text_evt demo_heap 0 [] =
    (Val 0, ["debug"; "standard"; "translate"]%string).
Proof.
  apply (dispatch_first demo_tbl demo_text_evt demo_heap []
    [fun _ _ => logs "debug" (- ECANCELED); fun _ _ => logs "standard" (- ECANCELED)]
    (fun _ _ => logs "translate" 0) [fun _ _ => logs "admin" 0] ["debug"; "standard"]%string).
  - vm_compute. reflexivity.
  - repeat (eapply declines_cons; [reflexivity|]). apply declines_nil.
  - reflexivity.
  - discriminate.
Defined.

Lemma handler_rejects_witness :
  let l := demo_lib (bs "x") JNull in
  exists s', @gwbot_event_handler l _ demo_tbl 1 (asz (bs "{..}") ++ []) demo_estate =
    (Val (- EINVAL), s') /\ world s' = [] /\ blocks (e_heap s') = blocks demo_heap.
Proof.
  apply (@handler_rejects (demo_lib (bs "x") JNull) _ demo_tbl 1 (bs "{..}") [] demo_estate
           json_tokener_error JNull).
  - repeat constructor; discriminate.
  - vm_compute. reflexivity.
  - apply demo_heap_ok.
  - vm_compute. reflexivity.
  - reflexivity.
Defined.

Lemma handler_serves_witness :
  let l := demo_lib demo_text (demo_event demo_reply) in
  exists h1 evt A, rep (blocks h1) evt demo_reply A /\ update_id evt = 7 /\
    forall r w, offered evt h1 (listeners demo_tbl evt) 0 [] r w ->
    exists s', @gwbot_event_handler l _ demo_tbl 1 (asz (bs "{..}") ++ []) demo_estate =
      (Val r, s') /\ world s' = w /\ blocks (e_heap s') = blocks demo_heap.
Proof.
  apply (@handler_serves (demo_lib demo_text (demo_event demo_reply)) _ demo_tbl 1 (bs "{..}") []
           demo_estate (demo_event demo_reply) (JInt 7) (enc_msg demo_reply) demo_reply).
  - repeat constructor; discriminate.
  - vm_compute. reflexivity.
  - apply demo_heap_ok.
  - vm_compute. reflexivity.
  - reflexivity.
  - reflexivity.
  - vm_compute. reflexivity.
  - reflexivity.
  - reflexivity.
Defined.

Lemma table_text_photo_witness :
  dispatch demo_tbl demo_sticker_evt demo_heap 0 [] = (Val 0, []).
Proof.
  apply table_text_photo.
  - repeat (apply Forall_cons; split; [first [left; reflexivity|right; reflexivity]|]).
    apply Forall_nil. exact I.
  - simpl. tauto.
Defined.

Lemma demo_starts : starts demo_tbl [] ["debug"; "standard"; "translate"; "admin"]%string.
Proof.
  repeat (eapply starts_some; [reflexivity|reflexivity|]).
  apply starts_none; [reflexivity|]. apply starts_nil.
Qed.

Lemma startup_once_witness :
  exists s', gwbot_module_startup demo_tbl demo_estate = (Val 0, s') /\
    world s' = ["debug"; "standard"; "translate"; "admin"]%string /\
    gwbot_module_startup demo_tbl s' = (Val 0, s').
Proof. apply (startup_once demo_tbl demo_estate _ eq_refl demo_starts). Defined.

Lemma startup_failure_keeps_modules_witness :
  let tbl := [demo_module "debug" 0 0; demo_module "admin" (- ENOMEM) 0] in
  exists s', gwbot_module_startup tbl demo_estate = (Val (- ENOMEM), s') /\
    world s' = ["debug"; "admin"]%string /\ gwbot_module_shutdown tbl s' = (Val 0, s').
Proof.
  apply (startup_failure_keeps_modules [demo_module "debug" 0 0] (demo_module "admin" (- ENOMEM) 0)
           [] (logs "admin" (- ENOMEM)) demo_estate ["debug"]%string).
  - reflexivity.
  - eapply starts_some; [reflexivity|reflexivity|]. apply starts_nil.
  - reflexivity.
  - reflexivity.
  - discriminate.
Defined.
