(* ===== verification/Server.v ===== *)
(** * The server: core/server.c

    The event loop of the main thread, over the shared state of Gwbot.v.  What
    the kernel answers is an argument of the handler that asks: an error
    number, 0 for none, or the value of the call.  The worker threads are
    Worker.v. *)
From S2P Require Import Prelude Tstack Que Config CString Gwbot.

Definition EPL_MAP_TO_NOP : Z := 0.
Definition EPL_MAP_SHIFT : Z := 1.
Definition EPL_MAP_SIZE : Z := 65535.

Notation srv := (M gwbot_state).

(** ** validate_cfg *)
Definition str_empty (o : option (list byte)) : bool :=
  match o with None | Some [] => true | _ => false end.

Definition validate_mysql_cfg (m : gwbot_mysql_cfg (list byte)) : Z :=
  if decide (host m = None) then - EINVAL
  else if decide (user m = None) then - EINVAL
  else if decide (db m = None) then - EINVAL
  else 0.

Definition validate_cfg (c : gwbot_cfg (list byte)) : Z :=
  if str_empty (bind_addr (sock c)) then - EINVAL
  else if decide (bind_port (sock c) = 0) then - EINVAL
  else if decide (backlog (sock c) = 0) then - EINVAL
  else if str_empty (token c) then - EINVAL
  else if decide (thread_c c = 0) then - EINVAL
  else if use_db c then
    let ret := validate_mysql_cfg (mysql c) in if decide (ret <> 0) then ret else 0
  else 0.

(** ** State *)
Definition upd_st (f : gwbot_state -> gwbot_state) : srv unit := modify f.
Definition in_chan_stk {A} (m : M tstack A) : srv A :=
  zoom chan_stk (fun t s => s <| chan_stk := t |>) m.
Definition in_thread_stk {A} (m : M tstack A) : srv A :=
  zoom thread_stk (fun t s => s <| thread_stk := t |>) m.
Definition in_sqes {A} (m : M qst A) : srv A := zoom sqes (fun q s => s <| sqes := q |>) m.

Definition get_chan (i : Z) : srv gwbot_chan := s ← get; aget (chans s) i.
Definition set_chan (i : Z) (f : gwbot_chan -> gwbot_chan) : srv unit :=
  s ← get; c ← aget (chans s) i; l ← aset (chans s) i (f c); upd_st (fun s => s <| chans := l |>).
Definition get_thread (i : Z) : srv gwbot_thread := s ← get; aget (threads s) i.
Definition set_thread (i : Z) (f : gwbot_thread -> gwbot_thread) : srv unit :=
  s ← get; t ← aget (threads s) i; l ← aset (threads s) i (f t);
  upd_st (fun s => s <| threads := l |>).
Definition set_epl_map (fd v : Z) : srv unit :=
  s ← get; l ← aset (epl_map s) fd v; upd_st (fun s => s <| epl_map := l |>).

(** The kernel's side of descriptors: a closed one leaves the epoll set. *)
Definition sys_close (fd : Z) : srv unit :=
  upd_st (fun s => s <| fds := fds s ∖ {[fd]} |> <| epl_set := epl_set s ∖ {[fd]} |>).
Definition sys_shutdown (fd : Z) : srv unit :=
  upd_st (fun s => s <| shut := {[fd]} ∪ shut s |>).

Definition handle_interrupt (sig : Z) : srv unit :=
  upd_st (fun s => s <| intr_sig := sig |> <| stop_el := true |>).

Definition reset_chan (idx : Z) (c : gwbot_chan) : gwbot_chan :=
  c <| chan_fd := -1 |> <| chan_idx := u16 idx |> <| accepted_at := 0 |> <| recv_s := 0 |>
    <| is_online := false |>.

(** [calloc]'s channels and threads. *)
Definition chan_zero : gwbot_chan := Chan false 0 0 0 (replicate 17 Byte.x00) 0 0 pkt_zero.
Definition thread_zero : gwbot_thread := Thread 0 false false false 0 None pkt_zero.

Definition init_state_chans (calloc_ok : bool) (thread_c : Z) : srv Z :=
  if calloc_ok then
    upd_st (fun s => s <| chans :=
      (fun i => reset_chan (Z.of_nat i) chan_zero) <$> seq 0 (Z.to_nat thread_c) |>);; mret 0
  else mret (-1).

(** [rc1] and [rc2] are what the initialisation of the mutex and of the
    condition variable return. *)
Definition reset_thread (idx rc1 rc2 : Z) (t : gwbot_thread) : Z * gwbot_thread :=
  let t := t <| th_idx := u16 idx |> <| th_online := false |> <| has_event := false |>
             <| ev_from_sqe := false |> <| pkt_len := 0 |> <| sqe_node := None |> in
  if decide (rc1 <> 0) then (- Z.abs rc1, t)
  else if decide (rc2 <> 0) then (- Z.abs rc2, t) else (0, t).

(** The loop of [init_state_threads]; [rc] numbers the pthread calls. *)
Fixpoint init_threads_loop (rc : nat -> Z) (n i : nat) (acc : list gwbot_thread) :
    Z * list gwbot_thread :=
  match n with
  | O => (0, acc)
  | S n' =>
      let '(ret, t) := reset_thread (Z.of_nat i) (rc (2 * i)%nat) (rc (2 * i + 1)%nat) thread_zero in
      if decide (ret <> 0) then (ret, acc) else init_threads_loop rc n' (S i) (acc ++ [t])
  end.

Definition init_state_threads (calloc_ok : bool) (rc : nat -> Z) (thread_c : Z) : srv Z :=
  if calloc_ok then
    let '(ret, l) := init_threads_loop rc (Z.to_nat thread_c) 0 [] in
    if decide (ret <> 0) then mret ret
    else upd_st (fun s => s <| threads := l |>);; mret 0
  else mret (- ENOMEM).

Definition init_epl_map (calloc_ok : bool) : srv Z :=
  if calloc_ok then
    upd_st (fun s => s <| epl_map := replicate (Z.to_nat EPL_MAP_SIZE) EPL_MAP_TO_NOP |>);; mret 0
  else mret (- ENOMEM).

(** What the initialisations of the five locks of the state return. *)
Record lock_codes := LockCodes {
  rc_sqe_lock : Z;
  rc_cqe_lock : Z;
  rc_log_lock : Z;
  rc_log_cond : Z;
  rc_thread_stk_lock : Z;
}.

(** What the allocations and the pthread calls of [init_state] give. *)
Record init_env := InitEnv {
  ok_chans : bool;
  ok_threads : bool;
  ok_map : bool;
  ok_chan_stk : bool;
  ok_thread_stk : bool;
  thread_rc : nat -> Z;      (** of the thread locks *)
  lock_rc : lock_codes;
}.

(** [for (i = thread_c; i--;)]: pushes [n - 1], ..., 0 on both stacks. *)
Fixpoint push_all (n : nat) : srv unit :=
  match n with
  | O => mret tt
  | S i =>
      ret ← in_chan_stk (tss_push (u16 (Z.of_nat i)));
      tassert (ret = Z.of_nat i);;
      ret ← in_thread_stk (tss_push (u16 (Z.of_nat i)));
      tassert (ret = Z.of_nat i);;
      push_all i
  end.

Definition lock_inits (r : lock_codes) : Z :=
  if decide (rc_sqe_lock r <> 0) then - Z.abs (rc_sqe_lock r)
  else if decide (rc_cqe_lock r <> 0) then - Z.abs (rc_cqe_lock r)
  else if decide (rc_log_lock r <> 0) then - Z.abs (rc_log_lock r)
  else if decide (rc_log_cond r <> 0) then - Z.abs (rc_log_cond r)
  else if decide (rc_thread_stk_lock r <> 0) then - Z.abs (rc_thread_stk_lock r)
  else 0.

(** Runs a step that returns a code; a code other than 0 is returned. *)
Definition try_call {S} (m : M S Z) : M S unit :=
  ret ← m; if decide (ret <> 0) then exit ret else mret tt.

Definition init_state (e : init_env) (thread_c : Z) : srv Z := call (
  upd_st (fun s => s <| stop_el := false |> <| intr_sig := -1 |> <| tcp_fd := -1 |>
    <| epl_fd := -1 |> <| epl_map := [] |> <| chans := [] |> <| threads := [] |>
    <| active_chan := 0 |> <| online_thread := 0 |>);;
  try_call (init_state_chans (ok_chans e) thread_c);;
  try_call (init_state_threads (ok_threads e) (thread_rc e) thread_c);;
  try_call (init_epl_map (ok_map e));;
  (match tss_init (ok_chan_stk e) thread_c with
   | Some t => upd_st (fun s => s <| chan_stk := t |>)
   | None => exit (- ENOMEM)
   end);;
  (match tss_init (ok_thread_stk e) thread_c with
   | Some t => upd_st (fun s => s <| thread_stk := t |>)
   | None => exit (- ENOMEM)
   end);;
  in_sqes (que_init 100000);;
  upd_st (fun s => s <| cqes := Que None None 0 100000 |>);;
  try_call (mret (lock_inits (lock_rc e)));;
  push_all (Z.to_nat thread_c)).

(** [rc]: what [pthread_create] returns.  The main thread then waits until the
    logger has counted itself online. *)
Definition init_logger_thread (rc : Z) : srv Z :=
  if decide (rc <> 0) then mret (- Z.abs rc)
  else upd_st (fun s => s <| online_thread := u32 (online_thread s + 1) |>);; mret 0.

(** ** Sockets *)
Definition init_epoll (r : Z + Z) : srv Z :=
  match r with
  | inr err => mret (- err)
  | inl fd =>
      upd_st (fun s => s <| epl_fd := fd |> <| fds := {[fd]} ∪ fds s |>);; mret 0
  end.

Definition epoll_delete (fd err : Z) : srv Z :=
  if decide (err <> 0) then mret (- err)
  else upd_st (fun s => s <| epl_set := epl_set s ∖ {[fd]} |>);; mret 0.

Definition epoll_add (fd err : Z) : srv Z :=
  if decide (err <> 0) then mret (- err)
  else upd_st (fun s => s <| epl_set := {[fd]} ∪ epl_set s |>);; mret 0.

(** The errors of the two [setsockopt] calls. *)
Definition setup_socket (err1 err2 : Z) : Z :=
  if decide (err1 <> 0) then - err1 else if decide (err2 <> 0) then - err2 else 0.

Record sock_env := SockEnv {
  e_socket : Z + Z;
  e_opt1 : Z;
  e_opt2 : Z;
  e_bind : Z;
  e_listen : Z;
  e_epoll : Z;
}.

Definition init_socket (e : sock_env) : srv Z :=
  match e_socket e with
  | inr err => mret (- err)
  | inl fd =>
      upd_st (fun s => s <| fds := {[fd]} ∪ fds s |>);;
      ret ← call (
        try_call (mret (setup_socket (e_opt1 e) (e_opt2 e)));;
        try_call (mret (- e_bind e));;
        try_call (mret (- e_listen e));;
        try_call (epoll_add fd (e_epoll e));;
        upd_st (fun s => s <| tcp_fd := fd |>));
      (if decide (ret <> 0) then sys_close fd else mret tt);;
      mret ret
  end.

(** ** run_acceptor *)
Record acc_env := AccEnv {
  a_accept : Z + Z;                 (** the descriptor, or an error *)
  a_len_ok : bool;                  (** addr_len <= sizeof(addr) *)
  a_ip : option (list byte);        (** inet_ntop *)
  a_port : Z;
  a_time : Z + Z;                   (** gettimeofday *)
  a_epoll : Z;                      (** epoll_ctl *)
}.

Definition out_close {A} (fd ret : Z) : srv A := sys_close fd;; exit ret.

Definition run_acceptor (e : acc_env) : srv Z :=
  match a_accept e with
  | inr err => mret (- err)
  | inl fd => call (
      upd_st (fun s => s <| fds := {[fd]} ∪ fds s |>);;
      (if a_len_ok e then mret tt else out_close fd (- EOVERFLOW));;
      ip ← (match a_ip e with Some ip => mret ip | None => out_close fd (- EINVAL) end);
      pop_ret ← in_chan_stk tss_pop;
      (if decide (pop_ret = -1) then out_close fd (- EAGAIN) else mret tt);;
      let epl_map_val := u32 (pop_ret + EPL_MAP_SHIFT) in
      (if decide (epl_map_val >= EPL_MAP_SIZE) then out_close fd (- EAGAIN) else mret tt);;
      now ← (match a_time e with inl t => mret t | inr err => out_close fd (- err) end);
      ret ← epoll_add fd (a_epoll e);
      (if decide (ret <> 0) then out_close fd ret else mret tt);;
      c ← get_chan pop_ret;
      '(r, ip') ← mret (Bounded.sane_strncpy (asz ip) 17 (src_ip c));
      match r with Fault f => faulty f | _ => mret tt end;;
      set_chan pop_ret (fun c => c <| chan_fd := fd |> <| chan_idx := u16 pop_ret |>
        <| accepted_at := now |> <| recv_s := 0 |> <| src_port := a_port e |>
        <| is_online := true |> <| src_ip := ip' |>);;
      set_epl_map fd (u16 epl_map_val);;
      upd_st (fun s => s <| active_chan := u32 (active_chan s + 1) |>))
  end.

Definition handle_tcp_event (e : acc_env) (err_event : bool) : srv Z :=
  if err_event then mret (- ENETDOWN) else run_acceptor e.

(** ** Submitting an event *)

(** [spawn_thread]: [rc] is what [pthread_create] returns. *)
Definition spawn_thread (idx rc : Z) : srv Z :=
  if decide (rc <> 0) then mret (- Z.abs rc)
  else upd_st (fun s => s <| spawned := spawned s ++ [idx] |>);; mret 0.

Definition submit_to_thread (idx : Z) (c : gwbot_chan) (cpy_len spawn_rc : Z) : srv Z :=
  t ← get_thread idx;
  '(r, buf) ← mret ((pokes 0 (take (Z.to_nat cpy_len) (pkt c));; poke cpy_len Byte.x00) (th_pkt t));
  match r with Fault f => faulty f | _ => mret tt end;;
  set_thread idx (fun t => t <| ev_from_sqe := false |> <| has_event := true |>
    <| pkt_len := cpy_len |> <| th_pkt := buf |>);;
  if th_online t then mret 0 else spawn_thread idx spawn_rc.

(** [mem]: what the allocator gives for the node; its failure sets [ENOMEM]. *)
Definition enqueue_to_sqe (mem : option positive) (c : gwbot_chan) (cpy_len : Z) : srv Z :=
  node ← in_sqes (que_enqueue mem (pkt c) (Z.to_nat cpy_len));
  match node with
  | None => s ← get; mret (- errno (sqes s))
  | Some _ => mret 0
  end.

Record sub_env := SubEnv { s_spawn : Z; s_mem : option positive }.

Definition submit_event (e : sub_env) (fdata_len : Z) (c : gwbot_chan) : srv Z :=
  let cpy_len := CHPKT_LEN + fdata_len in
  pop_ret ← in_thread_stk tss_pop;
  if decide (pop_ret = -1) then enqueue_to_sqe (s_mem e) c cpy_len
  else submit_to_thread pop_ret c cpy_len (s_spawn e).

(** ** handle_client_event *)

(** [ntohs(pkt->len)], and the store of the length in host order. *)
Definition net_len (p : chan_pkt) : Z :=
  match p with b0 :: b1 :: _ => 256 * bz b0 + bz b1 | _ => 0 end.
Definition host_len (n : Z) : list byte := [zb n; zb (n / 256)].

Definition handle_client_event3 (e : sub_env) (rs idx : Z) : srv Z :=
  set_chan idx (fun c => c <| recv_s := rs |>);;
  if decide (rs < CHPKT_LEN) then mret 0
  else
    c ← get_chan idx;
    let fdata_len := net_len (pkt c) in
    let cdata_len := u16 (Z.land (rs - CHPKT_LEN) 0xffff) in
    if decide (fdata_len > CHPKT_DATA_BUFSIZ) then mret (- E2BIG)
    else if decide (cdata_len < fdata_len) then mret 0
    else if decide (cdata_len > fdata_len) then mret (- EINVAL)
    else
      '(r, p) ← mret ((pokes 0 (host_len fdata_len);; poke (CHPKT_LEN + fdata_len) Byte.x00) (pkt c));
      match r with Fault f => faulty f | _ => mret tt end;;
      set_chan idx (fun c => c <| pkt := p |>);;
      c ← get_chan idx;
      ret ← submit_event e fdata_len c;
      if decide (ret <> 0) then mret ret else mret (- EINPROGRESS).

(** What [recv] does: some bytes, none when the peer is gone, or an error. *)
Inductive recv_res := RecvData (l : list byte) | RecvErr (err : Z).

Record cli_env := CliEnv { c_recv : recv_res; c_sub : sub_env; c_del : Z }.

Definition close_client (fd idx del_err : Z) : srv unit :=
  c ← get_chan idx;
  in_chan_stk (tss_push (chan_idx c));;
  set_epl_map fd EPL_MAP_TO_NOP;;
  epoll_delete fd del_err;;
  set_chan idx (fun c => reset_chan (chan_idx c) c);;
  sys_close fd.

Definition handle_client_event2 (e : cli_env) (fd idx : Z) (err_event : bool) : srv Z :=
  c ← get_chan idx;
  if err_event || bool_decide (chan_fd c = -1) then close_client fd idx (c_del e);; mret 0
  else
    match c_recv e with
    | RecvErr err =>
        if decide (err = EAGAIN) then mret 0 else close_client fd idx (c_del e);; mret 0
    | RecvData l =>
        let got := take (Z.to_nat (PKT_SIZE - recv_s c)) l in
        '(r, p) ← mret (pokes (recv_s c) got (pkt c));
        match r with Fault f => faulty f | _ => mret tt end;;
        set_chan idx (fun c => c <| pkt := p |>);;
        if decide (got = []) then close_client fd idx (c_del e);; mret 0
        else
          ret ← handle_client_event3 (c_sub e) (recv_s c + Z.of_nat (length got)) idx;
          if decide (ret < 0) then close_client fd idx (c_del e);; mret 0 else mret 0
    end.

Definition handle_client_event (e : cli_env) (fd : Z) (err_event : bool) : srv Z :=
  s ← get;
  map_to ← aget (epl_map s) fd;
  if decide (map_to = EPL_MAP_TO_NOP) then faulty FAbort
  else handle_client_event2 e fd (u16 (map_to - EPL_MAP_SHIFT)) err_event.

(** ** The event loop *)
Record event := Event {
  ev_fd : Z;
  ev_err : bool;         (** EPOLLERR or EPOLLHUP *)
  ev_acc : acc_env;
  ev_cli : cli_env;
}.

Definition handle_event (ev : event) : srv Z :=
  s ← get;
  if decide (ev_fd ev = tcp_fd s) then handle_tcp_event (ev_acc ev) (ev_err ev)
  else handle_client_event (ev_cli ev) (ev_fd ev) (ev_err ev).

Fixpoint handle_events (evs : list event) : srv Z :=
  match evs with
  | [] => mret 0
  | ev :: evs' =>
      ret ← handle_event ev;
      if decide (ret <> 0) then mret ret else handle_events evs'
  end.

(** [for (i = 0; i < thread_c; i++)] over the channels. *)
Fixpoint monitor_loop (now : Z) (n i : nat) : srv unit :=
  match n with
  | O => mret tt
  | S n' =>
      c ← get_chan (Z.of_nat i);
      (if is_online c then
         if decide (now - accepted_at c > 10) then sys_shutdown (chan_fd c) else mret tt
       else mret tt);;
      monitor_loop now n' (S i)
  end.

Definition monitor_client_time (tod : Z + Z) (thread_c : Z) : srv Z :=
  match tod with
  | inr err => mret (- err)
  | inl now => monitor_loop now (Z.to_nat thread_c) 0;; mret 0
  end.

Definition le16 (l : list byte) : Z := match l with b0 :: b1 :: _ => bz b0 + 256 * bz b1 | _ => 0 end.

Definition dispatch_sqe (spawn_rc : Z) : srv unit :=
  pop_ret ← in_thread_stk tss_pop;
  if decide (pop_ret = -1) then mret tt
  else
    t ← get_thread pop_ret;
    node ← in_sqes que_dequeue;
    match node with
    | None => faulty FAbort
    | Some a =>
        n ← in_sqes (load (Some a));
        set_thread pop_ret (fun t => t <| ev_from_sqe := true |> <| has_event := true |>
          <| pkt_len := le16 (data n) |> <| sqe_node := Some a |>);;
        if th_online t then mret tt else spawn_thread pop_ret spawn_rc;; mret tt
    end.

(** One turn of the loop: a signal that may arrive, what [dispatch_sqe] and
    [monitor_client_time] see, and what [epoll_wait] gives. *)
Record turn := Turn {
  t_sig : option Z;
  t_spawn : Z;
  t_time : Z + Z;
  t_epoll : list event + Z;
}.

(** The part of a turn before the events. *)
Definition loop_head (thread_c : Z) (t : turn) : srv unit :=
  s ← get;
  (if decide (que_count (sqes s) > 0) then dispatch_sqe (t_spawn t) else mret tt);;
  n ← in_chan_stk tss_count;
  s ← get;
  (if decide (n <> capacity (chan_stk s)) then
     monitor_client_time (t_time t) thread_c;; mret tt
   else mret tt);;
  match t_sig t with Some sig => handle_interrupt sig | None => mret tt end.

(** [inl ret] when the loop ends, [inr ret] when the turns are used up. *)
Fixpoint run_event_loop (thread_c : Z) (ts : list turn) (ret : Z) : srv (Z + Z) :=
  s ← get;
  if stop_el s then mret (inl ret)
  else
    match ts with
    | [] => mret (inr ret)
    | t :: ts' =>
        loop_head thread_c t;;
        match t_epoll t with
        | inl [] => run_event_loop thread_c ts' ret
        | inr err =>
            if decide (err = EINTR) then run_event_loop thread_c ts' ret else mret (inl ret)
        | inl evs =>
            ret ← handle_events evs;
            (if decide (ret <> 0 /\ ret <> - EAGAIN) then upd_st (fun s => s <| stop_el := true |>)
             else mret tt);;
            run_event_loop thread_c ts' ret
        end
    end.

(** ** Shutdown *)
Fixpoint close_chans_loop (n i : nat) : srv unit :=
  match n with
  | O => mret tt
  | S n' =>
      c ← get_chan (Z.of_nat i);
      (if is_online c then
         sys_shutdown (chan_fd c);; sys_close (chan_fd c);;
         set_chan (Z.of_nat i) (fun c => reset_chan (chan_idx c) c)
       else mret tt);;
      close_chans_loop n' (S i)
  end.

Definition close_fds (thread_c : Z) : srv unit :=
  s ← get;
  (if decide (tcp_fd s <> -1) then
     sys_close (tcp_fd s);; upd_st (fun s => s <| tcp_fd := -1 |>) else mret tt);;
  (if decide (epl_fd s <> -1) then
     sys_close (epl_fd s);; upd_st (fun s => s <| epl_fd := -1 |>) else mret tt);;
  close_chans_loop (Z.to_nat thread_c) 0.

(** The polls of [wait_for_threads]: [seen k] is the number of online threads
    at poll [k].  The result is the number of rounds, the one that gives up
    without a poll included. *)
Fixpoint wait_loop (fuel : nat) (seen : nat -> Z) (k counter i : Z) : option Z :=
  match fuel with
  | O => None
  | S f =>
      if decide (i > 0) then
        if decide (counter > 300000) then Some (k + 1)
        else wait_loop f seen (k + 1) (counter + 1) (seen (Z.to_nat k))
      else Some k
  end.

Definition wait_for_threads (fuel : nat) (first : Z) (seen : nat -> Z) : option Z :=
  if decide (first = 0) then Some 0 else wait_loop fuel seen 0 1 first.

(** [for (i = 0; i < thread_c; i++)]: [need_destroy] of the two locks of
    [threads[i]] is read; the locks themselves are Gwthread.v. *)
Fixpoint destroy_thread_locks (n i : nat) : srv unit :=
  match n with
  | O => mret tt
  | S n' => get_thread (Z.of_nat i);; destroy_thread_locks n' (S i)
  end.

(** [polls]: what the atomic loads of [wait_for_threads] give, the first one
    excepted.  The arrays of the state are freed: no index is in them.  The
    shutdown of the modules is EventHandler.v. *)
Definition destroy_state (thread_c : Z) (polls : nat -> Z) : srv unit :=
  upd_st (fun s => s <| stop_el := true |>);;
  s ← get;
  match wait_for_threads (Z.to_nat 300001) (online_thread s) polls with
  | Some _ => mret tt
  | None => faulty FFuel
  end;;
  close_fds thread_c;;
  in_chan_stk tss_destroy;;
  in_thread_stk tss_destroy;;
  in_sqes que_destroy;;
  upd_st (fun s => s <| cqes := Que None None 0 0 |>);;
  destroy_thread_locks (Z.to_nat thread_c) 0;;
  upd_st (fun s => s <| epl_map := [] |> <| threads := [] |> <| chans := [] |>).

(** ** gwbot_run *)
Record run_env := RunEnv {
  r_init : init_env;
  r_log : Z;                  (** pthread_create of the logger *)
  r_epoll : Z + Z;            (** epoll_create *)
  r_modules : Z;              (** gwbot_module_startup *)
  r_sock : sock_env;
  r_turns : list turn;
  r_polls : nat -> Z;
}.

(** Up to the event loop: [Some ret] for [goto out]. *)
Definition run_prefix (e : run_env) (thread_c : Z) : srv (option Z) :=
  ret ← init_state (r_init e) thread_c;
  if decide (ret <> 0) then mret (Some ret) else
  ret ← init_logger_thread (r_log e);
  if decide (ret <> 0) then mret (Some ret) else
  ret ← init_epoll (r_epoll e);
  if decide (ret <> 0) then mret (Some ret) else
  if decide (r_modules e <> 0) then mret (Some (r_modules e)) else
  ret ← init_socket (r_sock e);
  if decide (ret <> 0) then mret (Some ret) else mret None.

(** [None] when the turns are used up. *)
Definition run_body (e : run_env) (thread_c : Z) : srv (option Z) :=
  o ← run_prefix e thread_c;
  match o with
  | Some ret => mret (Some ret)
  | None =>
      r ← run_event_loop thread_c (r_turns e) 0;
      match r with inl ret => mret (Some ret) | inr _ => mret None end
  end.

(** The state starts as zeroed memory; a configuration that is refused leaves
    it allocated. *)
Definition gwbot_run (e : run_env) (c : gwbot_cfg (list byte)) : srv (option Z) :=
  let ret := validate_cfg c in
  if decide (ret <> 0) then mret (Some ret)
  else
    r ← run_body e (thread_c c);
    match r with
    | None => mret None
    | Some ret => destroy_state (thread_c c) (r_polls e);; mret (Some ret)
    end.
