(* ===== verification/ServerInv.v ===== *)
(** * The invariant of the server's state

    The channel pool: the free slots on [chan_stk], the online channels, the
    map from descriptors to slots and the epoll set agree.  The worker pool:
    the idle workers on [thread_stk], the events the busy ones hold, and the
    queue own disjoint parts of the heap of nodes. *)
From S2P Require Import Prelude Tstack Que Config CString Gwbot Server.

(** ** Running the accessors of the state *)
Lemma get_chan_ok s i c :
  0 <= i -> chans s !! Z.to_nat i = Some c -> get_chan i s = (Val c, s).
Proof. intros. unfold get_chan. munfold. by rewrite (aget_ok _ _ c). Qed.

Lemma set_chan_ok s i c f :
  0 <= i -> chans s !! Z.to_nat i = Some c ->
  set_chan i f s = (Val tt, s <| chans := <[Z.to_nat i := f c]> (chans s) |>).
Proof.
  intros Hi Hc. unfold set_chan, upd_st. munfold. rewrite (aget_ok _ _ c) by done.
  rewrite aset_ok; [done|]. apply lookup_lt_Some in Hc. lia.
Qed.

Lemma get_thread_ok s i t :
  0 <= i -> threads s !! Z.to_nat i = Some t -> get_thread i s = (Val t, s).
Proof. intros. unfold get_thread. munfold. by rewrite (aget_ok _ _ t). Qed.

Lemma set_thread_ok s i t f :
  0 <= i -> threads s !! Z.to_nat i = Some t ->
  set_thread i f s = (Val tt, s <| threads := <[Z.to_nat i := f t]> (threads s) |>).
Proof.
  intros Hi Hc. unfold set_thread, upd_st. munfold. rewrite (aget_ok _ _ t) by done.
  rewrite aset_ok; [done|]. apply lookup_lt_Some in Hc. lia.
Qed.

Lemma set_epl_map_ok s fd v :
  0 <= fd < Z.of_nat (length (epl_map s)) ->
  set_epl_map fd v s = (Val tt, s <| epl_map := <[Z.to_nat fd := v]> (epl_map s) |>).
Proof. intros. unfold set_epl_map, upd_st. munfold. by rewrite aset_ok. Qed.

Lemma in_chan_stk_ok {A} (m : M tstack A) s a t :
  m (chan_stk s) = (Val a, t) -> in_chan_stk m s = (Val a, s <| chan_stk := t |>).
Proof. intros H. unfold in_chan_stk, zoom. by rewrite H. Qed.

Lemma in_thread_stk_ok {A} (m : M tstack A) s a t :
  m (thread_stk s) = (Val a, t) -> in_thread_stk m s = (Val a, s <| thread_stk := t |>).
Proof. intros H. unfold in_thread_stk, zoom. by rewrite H. Qed.

Lemma in_sqes_ok {A} (m : M qst A) s a q :
  m (sqes s) = (Val a, q) -> in_sqes m s = (Val a, s <| sqes := q |>).
Proof. intros H. unfold in_sqes, zoom. by rewrite H. Qed.

(** ** Channels *)
Record chan_ok (i : nat) (c : gwbot_chan) : Prop := {
  co_idx : chan_idx c = Z.of_nat i;
  co_recv : 0 <= recv_s c <= PKT_SIZE;
  co_pkt : Z.of_nat (length (pkt c)) = PKT_SIZE;
  co_ip : length (src_ip c) = 17%nat;
}.

Section Pool.
Variable n : nat.

Record pool_wf (ch : list gwbot_chan) (map : list Z) (stk : tstack) (F E : gset Z) (tcp : Z) :
    Prop := {
  pw_n : Z.of_nat n < EPL_MAP_SIZE;
  pw_stk : tss_wf stk;
  pw_cap : capacity stk = Z.of_nat n;
  pw_len : length ch = n;
  pw_map_len : Z.of_nat (length map) = EPL_MAP_SIZE;
  pw_chan i c : ch !! i = Some c -> chan_ok i c;
  pw_nodup : NoDup (contents stk);
  pw_free v : v ∈ contents stk ->
    0 <= v /\ exists c, ch !! Z.to_nat v = Some c /\ is_online c = false;
  pw_online i c : ch !! i = Some c -> is_online c = true ->
    chan_fd c ∈ F /\ 0 <= chan_fd c /\ map !! Z.to_nat (chan_fd c) = Some (Z.of_nat i + 1);
  pw_map fd v : map !! fd = Some v -> v <> 0 ->
    1 <= v /\ exists c, ch !! Z.to_nat (v - 1) = Some c /\ is_online c = true /\
      chan_fd c = Z.of_nat fd;
  pw_epl fd : fd ∈ E -> fd <> tcp ->
    0 <= fd /\ exists v, map !! Z.to_nat fd = Some v /\ v <> 0;
}.

Lemma pool_slot_bound ch map stk F E tcp v :
  pool_wf ch map stk F E tcp -> v ∈ contents stk -> 0 <= v < Z.of_nat n.
Proof.
  intros Hw Hv. destruct (pw_free _ _ _ _ _ _ Hw v Hv) as (H0 & c & Hc & _).
  apply lookup_lt_Some in Hc. rewrite (pw_len _ _ _ _ _ _ Hw) in Hc. lia.
Qed.

(** The slot of an accepted connection leaves the stack. *)
Lemma pool_accept ch map stk stk' F E tcp fd v l c :
  pool_wf ch map stk F E tcp -> contents stk = v :: l ->
  tss_wf stk' -> contents stk' = l -> capacity stk' = capacity stk ->
  0 <= fd < EPL_MAP_SIZE -> fd ∉ F -> chan_ok (Z.to_nat v) c -> is_online c = true ->
  chan_fd c = fd ->
  pool_wf (<[Z.to_nat v := c]> ch) (<[Z.to_nat fd := v + 1]> map) stk'
    ({[fd]} ∪ F) ({[fd]} ∪ E) tcp.
Proof.
  intros Hw Hs Hw' Hs' Hc' Hfd HF Hc Hon Hcfd.
  assert (Hb : 0 <= v < Z.of_nat n) by (eapply pool_slot_bound; [done|]; rewrite Hs; by left).
  destruct Hw. rewrite Hs in pw_nodup0. apply NoDup_cons in pw_nodup0 as [Hv Hnd].
  assert (Hnew : forall i d, ch !! i = Some d -> is_online d = true ->
    Z.to_nat (chan_fd d) <> Z.to_nat fd /\ i <> Z.to_nat v).
  { intros i d Hi Hd. destruct (pw_online0 i d Hi Hd) as (HdF & Hd0 & Hm). split.
    - intros He. apply HF. replace fd with (chan_fd d) by lia. done.
    - intros ->. destruct (pw_free0 v) as (_ & c' & Hc'' & Hoff); [rewrite Hs; by left|]. congruence. }
  split; try done; rewrite ?length_insert; try done; try congruence.
  - intros i d [[<- [<- _]]|[Hne Hi]]%list_lookup_insert_Some; [done|]. by apply pw_chan0.
  - intros w Hin. rewrite Hs' in Hin.
    destruct (pw_free0 w) as (? & d & Hd & ?); [rewrite Hs; by right|]. split; [done|].
    exists d. rewrite list_lookup_insert_ne; [done|]. intros Heq.
    replace w with v in Hin by lia. done.
  - intros i d [[<- [<- Hlt]]|[Hne Hi]]%list_lookup_insert_Some Hd.
    + split; [set_solver|]. split; [lia|]. rewrite Hcfd.
      rewrite list_lookup_insert_eq by lia. repeat f_equal. lia.
    + destruct (Hnew i d Hi Hd) as [Hnf _]. destruct (pw_online0 i d Hi Hd) as (? & ? & ?).
      split; [set_solver|]. split; [done|]. by rewrite list_lookup_insert_ne.
  - intros g w [[<- [<- Hlt]]|[Hne Hg]]%list_lookup_insert_Some Hw0.
    + split; [lia|]. exists c. rewrite Z.add_simpl_r, list_lookup_insert_eq by lia.
      split; [done|]. split; [done|]. lia.
    + destruct (pw_map0 g w Hg Hw0) as (? & d & Hd & Hdon & Hdfd). split; [done|]. exists d.
      rewrite list_lookup_insert_ne; [done|]. intros He. by destruct (Hnew _ d Hd Hdon).
  - intros g Hg Hgt. destruct (decide (g = fd)) as [->|Hne].
    + split; [lia|]. exists (v + 1). rewrite list_lookup_insert_eq by lia. split; [done|lia].
    + destruct (pw_epl0 g) as (? & w & ? & ?); [set_solver|done|]. split; [done|]. exists w.
      rewrite list_lookup_insert_ne by lia. done.
Qed.

(** A slot that is popped and never pushed back. *)
Lemma pool_drop ch map stk stk' F E tcp v l :
  pool_wf ch map stk F E tcp -> contents stk = v :: l ->
  tss_wf stk' -> contents stk' = l -> capacity stk' = capacity stk ->
  pool_wf ch map stk' F E tcp.
Proof.
  intros Hw Hs Hw' Hs' Hc'. destruct Hw. rewrite Hs in pw_nodup0.
  apply NoDup_cons in pw_nodup0 as [Hv Hnd]. split; try done; try congruence.
  intros w. rewrite Hs'. intros Hin. apply pw_free0. rewrite Hs. by right.
Qed.

(** Descriptors of no channel come and go. *)
Lemma pool_fds ch map stk F F' E E' tcp :
  pool_wf ch map stk F E tcp ->
  (forall i c, ch !! i = Some c -> is_online c = true -> chan_fd c ∈ F -> chan_fd c ∈ F') ->
  E' ⊆ E -> pool_wf ch map stk F' E' tcp.
Proof.
  intros Hw HF HE. destruct Hw. split; try done.
  - intros i c Hc Hon. destruct (pw_online0 i c Hc Hon) as (? & ? & ?). eauto.
  - intros fd Hfd. apply pw_epl0. set_solver.
Qed.

(** A change inside a channel. *)
Lemma pool_upd ch map stk F E tcp i c c' :
  pool_wf ch map stk F E tcp -> ch !! i = Some c -> chan_ok i c' ->
  is_online c' = is_online c -> chan_fd c' = chan_fd c ->
  pool_wf (<[i := c']> ch) map stk F E tcp.
Proof.
  intros Hw Hc Hok Hon Hfd. destruct Hw.
  split; try done; rewrite ?length_insert; try done.
  - intros j d [[<- [<- _]]|[_ Hj]]%list_lookup_insert_Some; auto.
  - intros v Hv. destruct (pw_free0 v Hv) as (Hv0 & d & Hd & Hoff). split; [done|].
    destruct (decide (i = Z.to_nat v)) as [->|Hne].
    + exists c'. rewrite list_lookup_insert_eq by (by eapply lookup_lt_Some).
      split; [done|]. congruence.
    + exists d. by rewrite list_lookup_insert_ne.
  - intros j d [[<- [<- _]]|[_ Hj]]%list_lookup_insert_Some Hd; [|by apply pw_online0].
    rewrite Hfd. apply pw_online0; congruence.
  - intros fd v Hfv Hv. destruct (pw_map0 fd v Hfv Hv) as (Hv1 & d & Hd & Hdon & Hdfd).
    split; [done|]. destruct (decide (i = Z.to_nat (v - 1))) as [->|Hne].
    + exists c'. rewrite list_lookup_insert_eq by (by eapply lookup_lt_Some).
      split; [done|]. split; congruence.
    + exists d. by rewrite list_lookup_insert_ne.
Qed.

(** Distinct online channels have distinct descriptors. *)
Lemma pool_fd_inj ch map stk F E tcp i j c d :
  pool_wf ch map stk F E tcp -> ch !! i = Some c -> ch !! j = Some d ->
  is_online c = true -> is_online d = true -> chan_fd c = chan_fd d -> i = j.
Proof.
  intros Hw Hi Hj Hc Hd He.
  destruct (pw_online _ _ _ _ _ _ Hw i c Hi Hc) as (_ & _ & H1).
  destruct (pw_online _ _ _ _ _ _ Hw j d Hj Hd) as (_ & _ & H2).
  rewrite He, H2 in H1. injection H1. lia.
Qed.

(** A closed connection gives its slot back: there is room on the stack. *)
Lemma pool_room ch map stk F E tcp i c :
  pool_wf ch map stk F E tcp -> ch !! i = Some c -> is_online c = true ->
  Z.of_nat (length (contents stk)) < capacity stk /\ Z.of_nat i ∉ contents stk.
Proof.
  intros Hw Hi Hc.
  assert (Hni : Z.of_nat i ∉ contents stk).
  { intros Hin. destruct (pw_free _ _ _ _ _ _ Hw _ Hin) as (_ & d & Hd & Hoff).
    rewrite Nat2Z.id in Hd. congruence. }
  split; [|done].
  assert (Hin : i ∈ seq 0 n).
  { apply elem_of_seq. apply lookup_lt_Some in Hi. rewrite (pw_len _ _ _ _ _ _ Hw) in Hi. lia. }
  assert (Hle : (length (Z.of_nat i :: contents stk) <= length (Z.of_nat <$> seq 0 n))%nat).
  { apply submseteq_length, NoDup_submseteq.
    { apply NoDup_cons. split; [done|]. apply (pw_nodup _ _ _ _ _ _ Hw). }
    intros v [->|Hv]%elem_of_cons; apply list_elem_of_fmap.
    - eauto.
    - exists (Z.to_nat v). pose proof (pool_slot_bound _ _ _ _ _ _ v Hw Hv).
      rewrite elem_of_seq. split; lia. }
  rewrite (pw_cap _ _ _ _ _ _ Hw). simpl in Hle. rewrite length_fmap, length_seq in Hle. lia.
Qed.

Lemma pool_close ch map stk stk' F E tcp i c c' :
  pool_wf ch map stk F E tcp -> ch !! i = Some c -> is_online c = true ->
  tss_wf stk' -> contents stk' = Z.of_nat i :: contents stk -> capacity stk' = capacity stk ->
  chan_ok i c' -> is_online c' = false ->
  pool_wf (<[i := c']> ch) (<[Z.to_nat (chan_fd c) := 0]> map) stk'
    (F ∖ {[chan_fd c]}) (E ∖ {[chan_fd c]}) tcp.
Proof.
  intros Hw Hc Hon Hw' Hs' Hcap Hok Hoff.
  destruct (pool_room _ _ _ _ _ _ i c Hw Hc Hon) as [_ Hni].
  assert (Hinj := fun j d Hj Hd => pool_fd_inj _ _ _ _ _ _ i j c d Hw Hc Hj Hon Hd).
  destruct Hw. destruct (pw_online0 i c Hc Hon) as (HcF & Hc0 & Hcm).
  assert (Hil : (i < length ch)%nat) by (by eapply lookup_lt_Some).
  split; try done; rewrite ?length_insert; try done; try congruence.
  - intros j d [[<- [<- _]]|[_ Hj]]%list_lookup_insert_Some; auto.
  - rewrite Hs'. by apply NoDup_cons.
  - intros v. rewrite Hs'. intros [->|Hv]%elem_of_cons.
    + split; [lia|]. exists c'. by rewrite Nat2Z.id, list_lookup_insert_eq.
    + destruct (pw_free0 v Hv) as (? & d & Hd & ?). split; [done|]. exists d.
      rewrite list_lookup_insert_ne; [done|]. intros ->. apply Hni. by rewrite Z2Nat.id.
  - intros j d [[<- [<- _]]|[Hne Hj]]%list_lookup_insert_Some Hd; [congruence|].
    destruct (pw_online0 j d Hj Hd) as (? & ? & ?).
    assert (chan_fd c <> chan_fd d) by (intros He; eauto).
    split; [set_solver|]. split; [done|]. rewrite list_lookup_insert_ne by lia. done.
  - intros g v [[_ [<- _]]|[Hne Hg]]%list_lookup_insert_Some Hv; [done|].
    destruct (pw_map0 g v Hg Hv) as (? & d & Hd & ? & ?). split; [done|]. exists d.
    rewrite list_lookup_insert_ne; [done|]. intros ->. simplify_eq. lia.
  - intros g Hg Hgt. destruct (pw_epl0 g) as (? & v & ? & ?); [set_solver|done|].
    split; [done|]. exists v. rewrite list_lookup_insert_ne; [done|]. set_solver by lia.
Qed.
End Pool.

(** ** Worker threads and the queue *)
Record thread_ok (i : nat) (t : gwbot_thread) : Prop := {
  to_idx : th_idx t = Z.of_nat i;
  to_pkt : Z.of_nat (length (th_pkt t)) = PKT_SIZE;
}.

Section Workers.
Variable n : nat.

(** [l]: what the queue holds. *)
Record workers_wf (ths : list gwbot_thread) (stk : tstack) (q : qst)
    (l : list (positive * list byte)) : Prop := {
  ww_n : Z.of_nat n < EPL_MAP_SIZE;
  ww_stk : tss_wf stk;
  ww_cap : capacity stk = Z.of_nat n;
  ww_len : length ths = n;
  ww_thread i t : ths !! i = Some t -> thread_ok i t;
  ww_nodup : NoDup (contents stk);
  ww_free v : v ∈ contents stk ->
    0 <= v /\ exists t, ths !! Z.to_nat v = Some t /\ has_event t = false /\ sqe_node t = None;
  ww_que : que_rep q l;
  ww_len_ok a d : (a, d) ∈ l -> 2 <= Z.of_nat (length d);
  ww_node i t a : ths !! i = Some t -> sqe_node t = Some a ->
    (a ∉ l.*1) /\ is_Some (nodes q !! a);
  ww_own i j t u a : ths !! i = Some t -> ths !! j = Some u ->
    sqe_node t = Some a -> sqe_node u = Some a -> i = j;
}.

(** A worker that takes no event from the queue. *)
Lemma workers_upd ths stk stk' q l i t t' :
  workers_wf ths stk q l -> ths !! i = Some t -> thread_ok i t' ->
  (sqe_node t' = sqe_node t \/ sqe_node t' = None) ->
  tss_wf stk' -> capacity stk' = capacity stk -> NoDup (contents stk') ->
  (forall v, v ∈ contents stk' -> v <> Z.of_nat i /\ v ∈ contents stk) ->
  workers_wf (<[i := t']> ths) stk' q l.
Proof.
  intros Hw Ht Hok Hn Hw' Hcap Hnd Hv. destruct Hw.
  assert (Hil : (i < length ths)%nat) by (by eapply lookup_lt_Some).
  assert (Hnodes : forall j u a, <[i := t']> ths !! j = Some u -> sqe_node u = Some a ->
    exists u', ths !! j = Some u' /\ sqe_node u' = Some a).
  { intros j u a [[<- [<- _]]|[_ Hj]]%list_lookup_insert_Some Ha; [|by eauto].
    exists t. split; [done|]. destruct Hn as [Hn|Hn]; congruence. }
  split; try done; rewrite ?length_insert; try done; try congruence.
  - intros j u [[<- [<- _]]|[_ Hj]]%list_lookup_insert_Some; auto.
  - intros v Hin. destruct (Hv v Hin) as [Hne Hin']. destruct (ww_free0 v Hin') as (H0 & u & Hu & ?).
    split; [done|]. exists u. by rewrite list_lookup_insert_ne by lia.
  - intros j u a Hj Ha. destruct (Hnodes j u a Hj Ha) as (u' & ? & ?). eauto.
  - intros j k u u' a Hj Hk Ha Ha'. destruct (Hnodes j u a Hj Ha) as (? & ? & ?).
    destruct (Hnodes k u' a Hk Ha') as (? & ? & ?). eauto.
Qed.
End Workers.

(** The invariant of the server's state. *)
Definition srv_wf (n : nat) (l : list (positive * list byte)) (s : gwbot_state) : Prop :=
  pool_wf n (chans s) (epl_map s) (chan_stk s) (fds s) (epl_set s) (tcp_fd s) /\
  workers_wf n (threads s) (thread_stk s) (sqes s) l.

(** A thread after [submit_to_thread]. *)
Definition submitted (t : gwbot_thread) (c : gwbot_chan) (k : Z) : gwbot_thread :=
  t <| ev_from_sqe := false |> <| has_event := true |> <| pkt_len := k |>
    <| th_pkt := take (Z.to_nat k) (pkt c) ++ Byte.x00 :: drop (S (Z.to_nat k)) (th_pkt t) |>.

Lemma submit_copy (src dst : list byte) (k : Z) :
  0 <= k < Z.of_nat (length dst) -> Z.of_nat (length dst) <= Z.of_nat (length src) ->
  (pokes 0 (take (Z.to_nat k) src);; poke k Byte.x00) dst =
    (Val tt, take (Z.to_nat k) src ++ Byte.x00 :: drop (S (Z.to_nat k)) dst).
Proof.
  intros Hk Hs. assert (Hl : length (take (Z.to_nat k) src) = Z.to_nat k)
    by (rewrite length_take; lia).
  pose proof (pokes_app [] dst 0 (take (Z.to_nat k) src) eq_refl) as Hp.
  rewrite app_nil_l in Hp. erewrite bind_val by (apply Hp; lia).
  rewrite app_nil_l, Hl. rewrite poke_app; [|lia|rewrite length_drop; lia].
  by rewrite drop_drop, Nat.add_1_r.
Qed.

Lemma spawn_thread_run idx rc s :
  exists ret, spawn_thread idx rc s =
    (Val ret, if decide (rc = 0) then s <| spawned := spawned s ++ [idx] |> else s) /\
    ret = - Z.abs rc.
Proof.
  unfold spawn_thread, upd_st. case_decide.
  - rewrite decide_False by done. by eexists.
  - munfold. rewrite decide_True by lia. subst. by eexists.
Qed.

(** The threads [submit_to_thread] creates. *)
Definition spawn_log (t : gwbot_thread) (v rc : Z) (s : gwbot_state) : list Z :=
  if th_online t then spawned s else if decide (rc = 0) then spawned s ++ [v] else spawned s.
Definition spawn_ret (t : gwbot_thread) (rc : Z) : Z := if th_online t then 0 else - Z.abs rc.

Lemma submit_to_thread_run s v t c k rc :
  0 <= v -> threads s !! Z.to_nat v = Some t -> Z.of_nat (length (th_pkt t)) = PKT_SIZE ->
  Z.of_nat (length (pkt c)) = PKT_SIZE -> 0 <= k < PKT_SIZE ->
  submit_to_thread v c k rc s =
    (Val (spawn_ret t rc), s <| threads := <[Z.to_nat v := submitted t c k]> (threads s) |>
        <| spawned := spawn_log t v rc s |>).
Proof.
  intros Hv Ht Hl Hc Hk. unfold submit_to_thread.
  erewrite bind_val by (by apply get_thread_ok).
  rewrite submit_copy by lia. munfold. erewrite set_thread_ok by done.
  unfold spawn_ret, spawn_log. destruct (th_online t).
  - munfold. by destruct s.
  - destruct (spawn_thread_run v rc (s <| threads := <[Z.to_nat v := submitted t c k]> (threads s) |>))
      as (ret & Hr & ->). unfold submitted in Hr. cbn in Hr |- *.
    rewrite Hr. case_decide; [done|]. by destruct s.
Qed.

(** ** submit_event

    An idle worker takes the packet; else the queue does; else it is refused. *)
Inductive submit_res (e : sub_env) (k : Z) (c : gwbot_chan) (s : gwbot_state)
    (l : list (positive * list byte)) :
    Z -> gwbot_state -> list (positive * list byte) -> Prop :=
| res_thread v st t stk' :
    contents (thread_stk s) = v :: st -> 0 <= v -> threads s !! Z.to_nat v = Some t ->
    has_event t = false -> sqe_node t = None -> contents stk' = st -> capacity stk' = capacity (thread_stk s) ->
    submit_res e k c s l (spawn_ret t (s_spawn e))
      (s <| thread_stk := stk' |> <| threads := <[Z.to_nat v := submitted t c k]> (threads s) |>
         <| spawned := spawn_log t v (s_spawn e) s |>) l
| res_queue a q' :
    contents (thread_stk s) = [] -> s_mem e = Some a ->
    Z.of_nat (length l) < qcapacity (que (sqes s)) -> qcapacity (que q') = qcapacity (que (sqes s)) ->
    nodes (sqes s) !! a = None -> (forall b, b ∉ l.*1 -> b <> a -> nodes q' !! b = nodes (sqes s) !! b) ->
    submit_res e k c s l 0 (s <| sqes := q' |>) (l ++ [(a, take (Z.to_nat k) (pkt c))])
| res_refused err :
    contents (thread_stk s) = [] ->
    (err = EAGAIN /\ Z.of_nat (length l) = qcapacity (que (sqes s)) \/
     err = ENOMEM /\ s_mem e = None) ->
    submit_res e k c s l (- err) (s <| sqes := (sqes s) <| errno := err |> |>) l.

Definition mem_ok (m : option positive) (s : gwbot_state) : Prop :=
  match m with Some a => nodes (sqes s) !! a = None | None => True end.

Lemma que_rep_errno q l err : que_rep q l -> que_rep (q <| errno := err |>) l.
Proof. intros []. by split. Qed.

Lemma workers_errno n ths stk q l err :
  workers_wf n ths stk q l -> workers_wf n ths stk (q <| errno := err |>) l.
Proof. intros []. split; try done. by apply que_rep_errno. Qed.

Lemma workers_enqueue n ths stk q q' l a d :
  workers_wf n ths stk q l -> que_rep q' (l ++ [(a, d)]) -> nodes q !! a = None ->
  (forall b, b ∉ l.*1 -> b <> a -> nodes q' !! b = nodes q !! b) -> 2 <= Z.of_nat (length d) ->
  workers_wf n ths stk q' (l ++ [(a, d)]).
Proof.
  intros Hw Hq Ha Hn Hd. destruct Hw. split; try done.
  - intros b d' [Hin|Hin]%elem_of_app; [by eauto|].
    apply list_elem_of_singleton in Hin. by simplify_eq.
  - intros i t b Hi Hb. destruct (ww_node0 i t b Hi Hb) as [Hbl Hlive].
    assert (b <> a) by (intros ->; rewrite Ha in Hlive; by destruct Hlive).
    rewrite Hn by done. split; [|done]. rewrite fmap_app. simpl.
    rewrite not_elem_of_app, list_elem_of_singleton. done.
Qed.

Lemma submitted_ok i t c k :
  thread_ok i t -> 0 <= k < PKT_SIZE -> Z.of_nat (length (pkt c)) = PKT_SIZE ->
  thread_ok i (submitted t c k).
Proof.
  intros [] Hk Hc. split; [done|]. simpl. rewrite length_app. cbn [length].
  rewrite length_take, length_drop. lia.
Qed.

Lemma enqueue_run e k c s l :
  que_rep (sqes s) l -> mem_ok (s_mem e) s -> 0 <= k <= Z.of_nat (length (pkt c)) ->
  exists ret q', enqueue_to_sqe (s_mem e) c k s = (Val ret, s <| sqes := q' |>) /\
    ((exists a, ret = 0 /\ s_mem e = Some a /\ Z.of_nat (length l) < qcapacity (que (sqes s)) /\
       qcapacity (que q') = qcapacity (que (sqes s)) /\
       que_rep q' (l ++ [(a, take (Z.to_nat k) (pkt c))]) /\ nodes (sqes s) !! a = None /\
       (forall b, b ∉ l.*1 -> b <> a -> nodes q' !! b = nodes (sqes s) !! b)) \/
     (exists err, ret = - err /\ q' = (sqes s) <| errno := err |> /\
       (err = EAGAIN /\ Z.of_nat (length l) = qcapacity (que (sqes s)) \/
        err = ENOMEM /\ s_mem e = None))).
Proof.
  intros Hq Hm Hk. unfold enqueue_to_sqe.
  destruct (decide (Z.of_nat (length l) = qcapacity (que (sqes s)))) as [Hf|Hf].
  { erewrite bind_val by (eapply in_sqes_ok, que_enqueue_full; eauto).
    eexists _, _. split; [munfold; done|]. right. exists EAGAIN. auto. }
  assert (Hlt : Z.of_nat (length l) < qcapacity (que (sqes s))) by (destruct Hq; lia).
  destruct (s_mem e) as [a|] eqn:He.
  - destruct (que_enqueue_room a (pkt c) (Z.to_nat k) (sqes s) l)
      as (q' & Hrun & Hq' & Hcap & Herr & Hn); [done|done|done|lia|].
    erewrite bind_val by (eapply in_sqes_ok, Hrun).
    eexists _, _. split; [done|]. left. exists a. done.
  - erewrite bind_val by (eapply in_sqes_ok, que_enqueue_nomem; eauto).
    eexists _, _. split; [munfold; done|]. right. exists ENOMEM. auto.
Qed.

Lemma submit_event_run n l e k c s :
  workers_wf n (threads s) (thread_stk s) (sqes s) l -> mem_ok (s_mem e) s ->
  Z.of_nat (length (pkt c)) = PKT_SIZE -> 0 <= k < CHPKT_DATA_BUFSIZ ->
  exists ret s' l', submit_event e k c s = (Val ret, s') /\
    submit_res e (CHPKT_LEN + k) c s l ret s' l' /\
    workers_wf n (threads s') (thread_stk s') (sqes s') l'.
Proof.
  intros Hw Hm Hc Hk. unfold submit_event, CHPKT_LEN, CHPKT_DATA_BUFSIZ in *.
  assert (Hp : PKT_SIZE = 24578) by done.
  destruct (contents (thread_stk s)) as [|v st] eqn:Hs.
  - erewrite bind_val by (eapply in_thread_stk_ok, tss_pop_empty; [apply (ww_stk _ _ _ _ _ Hw)|done]).
    rewrite decide_True by done.
    replace (s <| thread_stk := thread_stk s |>) with s by (by destruct s).
    destruct (enqueue_run e (2 + k) c s l) as (ret & q' & Hrun & Hcases);
      [apply (ww_que _ _ _ _ _ Hw)|done|lia|].
    destruct Hcases as [(a & -> & He & Hlt & Hcap & Hq' & Ha & Hn)|(err & -> & -> & Herr)].
    + eexists _, _, _. split; [exact Hrun|]. split; [by econstructor|].
      simpl. eapply workers_enqueue; eauto. rewrite length_take. lia.
    + eexists _, _, _. split; [exact Hrun|]. split; [by econstructor|].
      simpl. by apply workers_errno.
  - destruct (tss_pop_cons (thread_stk s) v st) as (stk' & Hpop & Hw' & Hs' & Hcap);
      [apply (ww_stk _ _ _ _ _ Hw)|done|].
    erewrite bind_val by (eapply in_thread_stk_ok, Hpop).
    destruct (ww_free _ _ _ _ _ Hw v) as (Hv & t & Ht & Hev & Hno); [rewrite Hs; by left|].
    rewrite decide_False by lia.
    destruct (ww_thread _ _ _ _ _ Hw _ _ Ht) as [Hti Htp].
    eexists _, _, _. split; [apply (submit_to_thread_run _ v t); [done|done|done|done|lia]|]. split; [refine (res_thread e (2 + k) c s l v st t stk' _ _ _ _ _ _ _); done|].
    simpl. eapply workers_upd; try done; [|by left| |].
    + apply submitted_ok; [done|lia|done].
    + pose proof (ww_nodup _ _ _ _ _ Hw) as Hnd. rewrite Hs in Hnd.
      apply NoDup_cons in Hnd as [_ Hnd]. by rewrite Hs'.
    + pose proof (ww_nodup _ _ _ _ _ Hw) as Hnd. rewrite Hs in Hnd |- *.
      apply NoDup_cons in Hnd as [Hnin _]. intros w. rewrite Hs'. intros Hin.
      split; [|by right]. rewrite Z2Nat.id by done. by intros ->.
Qed.
