(* ===== verification/ServerInit.v ===== *)
(** * Starting the server: core/server.c, init_state and run_acceptor

    A state that [init_state] returns 0 for has the invariant of ServerInv.v,
    with every slot and every worker free; [run_acceptor] keeps it. *)
From S2P Require Import Prelude Tstack Que Config CString Gwbot Server ServerInv.

(** [malloc] and [memset] of [gwbot_run]. *)
Definition state_zero : gwbot_state :=
  State false 0 0 0 [] [] [] 0 (Qst (Que None None 0 0) ∅ 0) (Que None None 0 0) (Tstack 0 0 []) (Tstack 0 0 []) 0
    ∅ ∅ ∅ [].

(** ** The loops *)
Definition fresh_thread (i : nat) : gwbot_thread := thread_zero <| th_idx := u16 (Z.of_nat i) |>.

Lemma init_threads_loop_ok rc k i acc :
  (forall j, (2 * i <= j < 2 * (i + k))%nat -> rc j = 0) ->
  init_threads_loop rc k i acc = (0, acc ++ (fresh_thread <$> seq i k)).
Proof.
  revert i acc. induction k as [|k IH]; intros i acc Hrc; cbn [init_threads_loop seq fmap list_fmap].
  - by rewrite app_nil_r.
  - unfold reset_thread. rewrite !Hrc by lia. rewrite !decide_False by lia.
    rewrite IH by (intros; apply Hrc; lia). by rewrite <- app_assoc.
Qed.

(** A thread whose mutex or condition variable cannot be made ends the loop
    with the error. *)
Lemma init_threads_loop_err rc k i acc j :
  (forall j', (2 * i <= j' < j)%nat -> rc j' = 0) -> (2 * i <= j < 2 * (i + k))%nat -> rc j <> 0 ->
  exists l, init_threads_loop rc k i acc = (- Z.abs (rc j), l).
Proof.
  revert i acc. induction k as [|k IH]; intros i acc Hrc Hj Hne; [lia|].
  cbn [init_threads_loop]. unfold reset_thread.
  destruct (decide (j = 2 * i)%nat) as [->|H0].
  { rewrite decide_True by done. cbv beta iota. rewrite decide_True by lia. by eexists. }
  rewrite (Hrc (2 * i)%nat) by lia. rewrite decide_False by lia.
  destruct (decide (j = 2 * i + 1)%nat) as [->|H1].
  { rewrite decide_True by done. cbv beta iota. rewrite decide_True by lia. by eexists. }
  rewrite (Hrc (2 * i + 1)%nat) by lia. rewrite !decide_False by lia.
  apply IH; [|lia|done]. intros. apply Hrc. lia.
Qed.

(** Every lock of the state is made. *)
Definition locks_made (r : lock_codes) : Prop :=
  rc_sqe_lock r = 0 /\ rc_cqe_lock r = 0 /\ rc_log_lock r = 0 /\ rc_log_cond r = 0 /\ rc_thread_stk_lock r = 0.

Lemma lock_inits_ok r : locks_made r -> lock_inits r = 0.
Proof. unfold lock_inits. intros (-> & -> & -> & -> & ->). done. Qed.

Lemma push_all_run k s :
  Z.of_nat k < 2 ^ 16 ->
  tss_wf (chan_stk s) -> tss_wf (thread_stk s) ->
  Z.of_nat (length (contents (chan_stk s))) + Z.of_nat k <= capacity (chan_stk s) ->
  Z.of_nat (length (contents (thread_stk s))) + Z.of_nat k <= capacity (thread_stk s) ->
  exists c t, push_all k s = (Val tt, s <| chan_stk := c |> <| thread_stk := t |>) /\
    tss_wf c /\ tss_wf t /\ capacity c = capacity (chan_stk s) /\
    capacity t = capacity (thread_stk s) /\
    contents c = (Z.of_nat <$> seq 0 k) ++ contents (chan_stk s) /\
    contents t = (Z.of_nat <$> seq 0 k) ++ contents (thread_stk s).
Proof.
  revert s. induction k as [|k IH]; intros s Hk Hc Ht Hcl Htl; cbn [push_all].
  - exists (chan_stk s), (thread_stk s). split; [by destruct s|]. done.
  - destruct (tss_push_room (chan_stk s) (Z.of_nat k)) as (c1 & Hp1 & Hw1 & Hs1 & Hcap1); [done|lia|].
    destruct (tss_push_room (thread_stk s) (Z.of_nat k)) as (t1 & Hp2 & Hw2 & Hs2 & Hcap2); [done|lia|].
    rewrite !u16_small by lia.
    erewrite bind_val by (by apply in_chan_stk_ok).
    unfold tassert. rewrite decide_True by done. erewrite bind_val by done.
    erewrite bind_val by (by apply in_thread_stk_ok).
    rewrite decide_True by done. erewrite bind_val by done.
    match goal with |- context [push_all k ?s2] => destruct (IH s2) as (c & t & Hrun & Hrest) end.
    + lia.
    + done.
    + done.
    + simpl. rewrite Hs1, Hcap1. simpl. lia.
    + simpl. rewrite Hs2, Hcap2. simpl. lia.
    + exists c, t. rewrite Hrun. split; [done|]. simpl in Hrest.
      destruct Hrest as (? & ? & -> & -> & -> & ->). rewrite seq_S, fmap_app, Hs1, Hs2.
      simpl. by rewrite <- !app_assoc.
Qed.

Lemma first_failure (rc : nat -> Z) k :
  (forall j, (j < k)%nat -> rc j = 0) \/
  (exists j, (j < k)%nat /\ rc j <> 0 /\ forall j', (j' < j)%nat -> rc j' = 0).
Proof.
  induction k as [|k [IH|(j & Hj & ?)]]; [left; lia| |right; exists j; split; [lia|done]].
  destruct (decide (rc k = 0)) as [Hk|Hk]; [left|right; exists k; auto].
  intros j Hj. destruct (decide (j = k)) as [->|]; [done|]. apply IH. lia.
Qed.

Lemma lock_inits_cases r :
  (lock_inits r = 0 /\ locks_made r) \/ (lock_inits r < 0 /\ ~ locks_made r).
Proof. unfold lock_inits, locks_made. repeat case_decide; lia. Qed.

(** ** init_state *)
Record env_ok (e : init_env) (k : nat) : Prop := {
  eo_chans : ok_chans e = true;
  eo_threads : ok_threads e = true;
  eo_map : ok_map e = true;
  eo_chan_stk : ok_chan_stk e = true;
  eo_thread_stk : ok_thread_stk e = true;
  eo_thread_rc j : (j < 2 * k)%nat -> thread_rc e j = 0;
  eo_lock_rc : locks_made (lock_rc e);
}.

Definition fresh_chan (i : nat) : gwbot_chan := reset_chan (Z.of_nat i) chan_zero.

(** The state [init_state] builds. *)
Definition state_fresh (k : nat) (c t : tstack) (q : qst) (s : gwbot_state) : gwbot_state :=
  s <| stop_el := false |> <| intr_sig := -1 |> <| tcp_fd := -1 |> <| epl_fd := -1 |>
    <| active_chan := 0 |> <| online_thread := 0 |>
    <| chans := fresh_chan <$> seq 0 k |> <| threads := fresh_thread <$> seq 0 k |>
    <| epl_map := replicate (Z.to_nat EPL_MAP_SIZE) EPL_MAP_TO_NOP |>
    <| chan_stk := c |> <| thread_stk := t |> <| sqes := q |>
    <| cqes := Que None None 0 100000 |>.

Lemma try_call_ok {S} (m : M S Z) s s' : m s = (Val 0, s') -> try_call m s = (Val tt, s').
Proof. intros H. unfold try_call. erewrite bind_val by done. by rewrite decide_False by lia. Qed.

Lemma try_call_err {S} (m : M S Z) s s' ret : m s = (Val ret, s') -> ret <> 0 -> try_call m s = (Exit ret, s').
Proof. intros H Hr. unfold try_call. erewrite bind_val by done. by rewrite decide_True. Qed.

Section Fresh.
Variable k : nat.
Hypothesis Hk : Z.of_nat k < EPL_MAP_SIZE.

Local Lemma all_slots v : v ∈ Z.of_nat <$> seq 0 k -> 0 <= v /\ seq 0 k !! Z.to_nat v = Some (Z.to_nat v).
Proof.
  intros (j & -> & Hj)%list_elem_of_fmap. apply elem_of_seq in Hj. split; [lia|].
  rewrite Nat2Z.id. by rewrite lookup_seq_lt by lia.
Qed.

Local Lemma all_slots_nodup : NoDup (Z.of_nat <$> seq 0 k).
Proof. apply NoDup_fmap; [intros ???; lia|apply NoDup_ListNoDup, seq_NoDup]. Qed.

Local Lemma lookup_fresh {A} (f : nat -> A) i x :
  (f <$> seq 0 k) !! i = Some x -> x = f i /\ Z.of_nat i < EPL_MAP_SIZE.
Proof.
  rewrite list_lookup_fmap. intros (j & [-> Hj]%lookup_seq & ->)%fmap_Some. split; [done|lia].
Qed.

Lemma pkt_zero_length : Z.of_nat (length pkt_zero) = PKT_SIZE.
Proof.
  unfold pkt_zero. rewrite length_replicate. apply Z2Nat.id.
  unfold PKT_SIZE, CHPKT_LEN, CHPKT_DATA_BUFSIZ. lia.
Qed.

Lemma fresh_chan_ok i : Z.of_nat i < EPL_MAP_SIZE -> chan_ok i (fresh_chan i).
Proof.
  unfold EPL_MAP_SIZE. intros Hi. split; [apply u16_small; lia| |exact pkt_zero_length|done].
  change (0 <= 0 <= PKT_SIZE). unfold PKT_SIZE, CHPKT_LEN, CHPKT_DATA_BUFSIZ. lia.
Qed.

Lemma pool_fresh map stk F tcp :
  Z.of_nat (length map) = EPL_MAP_SIZE -> (forall i v, map !! i = Some v -> v = 0) ->
  tss_wf stk -> capacity stk = Z.of_nat k -> contents stk = Z.of_nat <$> seq 0 k ->
  pool_wf k (fresh_chan <$> seq 0 k) map stk F ∅ tcp.
Proof.
  intros Hm Hz Hw Hc Hs. split; try assumption.
  - by rewrite length_fmap, length_seq.
  - intros i x [-> Hi]%lookup_fresh. by apply fresh_chan_ok.
  - rewrite Hs. apply all_slots_nodup.
  - intros v. rewrite Hs. intros [Hv Hl]%all_slots. split; [done|]. rewrite list_lookup_fmap, Hl.
    by eexists.
  - intros i x [-> _]%lookup_fresh. done.
  - intros fd v Hv. apply Hz in Hv. done.
  - intros fd. by rewrite elem_of_empty.
Qed.

Lemma workers_fresh stk q :
  tss_wf stk -> capacity stk = Z.of_nat k -> contents stk = Z.of_nat <$> seq 0 k -> que_rep q [] ->
  workers_wf k (fresh_thread <$> seq 0 k) stk q [].
Proof.
  intros Hw Hc Hs Hq. split; try assumption.
  - by rewrite length_fmap, length_seq.
  - intros i x [-> Hi]%lookup_fresh. unfold EPL_MAP_SIZE in Hi.
    split; [apply u16_small; lia|exact pkt_zero_length].
  - rewrite Hs. apply all_slots_nodup.
  - intros v. rewrite Hs. intros [Hv Hl]%all_slots. split; [done|]. rewrite list_lookup_fmap, Hl.
    by eexists.
  - intros a d Hd. by apply elem_of_nil in Hd.
  - intros i x a [-> _]%lookup_fresh. done.
  - intros i j x y a [-> _]%lookup_fresh. done.
Qed.

Lemma state_fresh_wf c t q s :
  epl_set s = ∅ -> tss_wf c -> tss_wf t -> capacity c = Z.of_nat k -> capacity t = Z.of_nat k ->
  contents c = Z.of_nat <$> seq 0 k -> contents t = Z.of_nat <$> seq 0 k -> que_rep q [] ->
  srv_wf k [] (state_fresh k c t q s).
Proof.
  intros He Hc Ht Hcc Hct Hsc Hst Hq. split.
  - change (pool_wf k (fresh_chan <$> seq 0 k) (replicate (Z.to_nat EPL_MAP_SIZE) EPL_MAP_TO_NOP)
      c (fds s) (epl_set s) (-1)).
    rewrite He. apply pool_fresh; try assumption.
    + rewrite length_replicate. apply Z2Nat.id. unfold EPL_MAP_SIZE. lia.
    + intros i v [-> _]%lookup_replicate. reflexivity.
  - change (workers_wf k (fresh_thread <$> seq 0 k) t q []). by apply workers_fresh.
Qed.
End Fresh.

(** The steps of [init_state] before the stacks. *)
Lemma init_chans_run ok k s :
  init_state_chans ok k s =
    if ok then (Val 0, s <| chans := fresh_chan <$> seq 0 (Z.to_nat k) |>) else (Val (-1), s).
Proof. by destruct ok. Qed.

Lemma init_threads_run ok rc k s :
  (ok = true /\ (forall j, (j < 2 * Z.to_nat k)%nat -> rc j = 0) /\
     init_state_threads ok rc k s = (Val 0, s <| threads := fresh_thread <$> seq 0 (Z.to_nat k) |>)) \/
  (~ (ok = true /\ (forall j, (j < 2 * Z.to_nat k)%nat -> rc j = 0)) /\
     exists ret, ret < 0 /\ init_state_threads ok rc k s = (Val ret, s)).
Proof.
  unfold init_state_threads. destruct ok; [|right; split; [by intros []|by exists (- ENOMEM)]].
  destruct (first_failure rc (2 * Z.to_nat k)) as [Hok|(j & Hj & Hne & Hok)].
  - left. split; [done|]. split; [done|]. rewrite init_threads_loop_ok by (intros; apply Hok; lia).
    by rewrite decide_False by lia.
  - right. split; [intros [_ H]; by rewrite (H j Hj) in Hne|].
    destruct (init_threads_loop_err rc (Z.to_nat k) 0 [] j) as [l ->]; [intros; apply Hok; lia|lia|done|].
    exists (- Z.abs (rc j)). split; [lia|]. by rewrite decide_True by lia.
Qed.

Lemma init_map_run ok s :
  init_epl_map ok s =
    if ok then (Val 0, s <| epl_map := replicate (Z.to_nat EPL_MAP_SIZE) EPL_MAP_TO_NOP |>)
    else (Val (- ENOMEM), s).
Proof. by destruct ok. Qed.

Lemma tss_init_fresh k : 0 <= k < EPL_MAP_SIZE ->
  exists t, tss_init true k = Some t /\ tss_wf t /\ contents t = [] /\ capacity t = k.
Proof.
  unfold EPL_MAP_SIZE. intros Hk. eexists. split; [done|]. by apply tss_init_wf; [lia|].
Qed.

(** The part of [init_state] after the allocations. *)
Lemma init_tail_run k rcs s c t :
  tss_init true (Z.of_nat k) = Some c -> tss_init true (Z.of_nat k) = Some t ->
  Z.of_nat k < EPL_MAP_SIZE -> chan_stk s = c -> thread_stk s = t -> 
  locks_made rcs ->
  exists c' t' q, (in_sqes (que_init 100000);;
      upd_st (fun s => s <| cqes := Que None None 0 100000 |>);; try_call (mret (lock_inits rcs));; push_all k) s =
      (Val tt, s <| sqes := q |> <| cqes := Que None None 0 100000 |> <| chan_stk := c' |> <| thread_stk := t' |>) /\
    tss_wf c' /\ tss_wf t' /\ capacity c' = Z.of_nat k /\ capacity t' = Z.of_nat k /\
    contents c' = Z.of_nat <$> seq 0 k /\ contents t' = Z.of_nat <$> seq 0 k /\
    que_rep q [] /\ nodes q = nodes (sqes s) /\ qcapacity (que q) = 100000.
Proof.
  intros Hc Ht Hk Hcs Hts Hrc. unfold EPL_MAP_SIZE in Hk.
  destruct (tss_init_wf (Z.of_nat k) c) as (Hcw & Hc0 & Hcc); [lia|done|].
  destruct (tss_init_wf (Z.of_nat k) t) as (Htw & Ht0 & Htc); [lia|done|].
  destruct (que_init_spec 100000 (sqes s)) as (q & Hq & Hrep & Hn & Hcap); [lia|].
  erewrite bind_val by (by apply in_sqes_ok). erewrite bind_val by reflexivity.
  erewrite bind_val by (by apply try_call_ok; rewrite lock_inits_ok).
  match goal with |- context [push_all k ?s2] =>
    destruct (push_all_run k s2) as (c' & t' & Hrun & Hcw' & Htw' & Hcc' & Htc' & Hsc & Hst) end;
    try lia; try (simpl; rewrite ?Hcs, ?Hts; done || rewrite ?Hc0, ?Ht0, ?Hcc, ?Htc; simpl; lia).
  simpl in *. rewrite Hcs, Hts, ?Hc0, ?Ht0, ?app_nil_r in *.
  exists c', t', q. split; [exact Hrun|]. split_and!; congruence || done.
Qed.

Lemma call_val {S} (m : M S unit) s s' : m s = (Val tt, s') -> call m s = (Val 0, s').
Proof. unfold call. by intros ->. Qed.

Lemma call_exit {S} (m : M S unit) s c s' : m s = (Exit c, s') -> call m s = (Val c, s').
Proof. unfold call. by intros ->. Qed.

Lemma init_state_ok e k s :
  Z.of_nat k < EPL_MAP_SIZE -> env_ok e k ->
  exists c t q, init_state e (Z.of_nat k) s = (Val 0, state_fresh k c t q s) /\
    tss_wf c /\ tss_wf t /\ capacity c = Z.of_nat k /\ capacity t = Z.of_nat k /\
    contents c = Z.of_nat <$> seq 0 k /\ contents t = Z.of_nat <$> seq 0 k /\
    que_rep q [] /\ nodes q = nodes (sqes s) /\ qcapacity (que q) = 100000.
Proof.
  intros Hk [H1 H2 H3 H4 H5 Hth Hlk].
  destruct (tss_init_fresh (Z.of_nat k)) as (t0 & Ht0 & _); [lia|].
  set (sf := s <| stop_el := false |> <| intr_sig := -1 |> <| tcp_fd := -1 |> <| epl_fd := -1 |>
    <| active_chan := 0 |> <| online_thread := 0 |>
    <| chans := fresh_chan <$> seq 0 k |> <| threads := fresh_thread <$> seq 0 k |>
    <| epl_map := replicate (Z.to_nat EPL_MAP_SIZE) EPL_MAP_TO_NOP |>
    <| chan_stk := t0 |> <| thread_stk := t0 |>).
  destruct (init_tail_run k (lock_rc e) sf t0 t0) as (c & t & q & Hrun & Hrest); try done.
  exists c, t, q. split; [|exact Hrest].
  unfold init_state. apply call_val. erewrite bind_val by reflexivity.
  erewrite bind_val by (apply try_call_ok; rewrite init_chans_run, H1; reflexivity).
  destruct (init_threads_run (ok_threads e) (thread_rc e) (Z.of_nat k)
    (s <| stop_el := false |> <| intr_sig := -1 |> <| tcp_fd := -1 |> <| epl_fd := -1 |>
       <| epl_map := [] |> <| chans := [] |> <| threads := [] |>
       <| active_chan := 0 |> <| online_thread := 0 |>
       <| chans := fresh_chan <$> seq 0 (Z.to_nat (Z.of_nat k)) |>)) as [(_ & _ & Hrt)|[Hn _]].
  2:{ exfalso. apply Hn. split; [done|]. rewrite Nat2Z.id. done. }
  erewrite bind_val by (apply try_call_ok; exact Hrt).
  erewrite bind_val by (apply try_call_ok; rewrite init_map_run, H3; reflexivity).
  rewrite H4, H5, Ht0. erewrite bind_val by reflexivity. erewrite bind_val by reflexivity.
  rewrite Nat2Z.id. exact Hrun.
Qed.

(** [fails m s]: the computation returns a negative code early. *)
Definition fails {S A} (m : M S A) (s : S) : Prop := exists ret s', m s = (Exit ret, s') /\ ret < 0.

Lemma fails_here {S A B} (m : M S A) (k : A -> M S B) s : fails m s -> fails (x ← m; k x) s.
Proof. intros (ret & s' & Hm & Hr). exists ret, s'. by rewrite (bind_exit _ _ _ _ _ Hm). Qed.

Lemma fails_later {S A B} (m : M S A) (k : A -> M S B) s a s' :
  m s = (Val a, s') -> fails (k a) s' -> fails (x ← m; k x) s.
Proof. intros Hm (ret & s'' & Hk & Hr). exists ret, s''. by rewrite (bind_val _ _ _ _ _ Hm). Qed.

Lemma fails_try {S} (m : M S Z) s ret s' : m s = (Val ret, s') -> ret < 0 -> fails (try_call m) s.
Proof. intros Hm Hr. exists ret, s'. split; [|done]. apply try_call_err; [done|lia]. Qed.

Lemma init_state_err e k s :
  ~ env_ok e k -> exists ret s', init_state e (Z.of_nat k) s = (Val ret, s') /\ ret < 0.
Proof.
  intros Hn.
  enough (Hf : exists m, init_state e (Z.of_nat k) = call m /\ fails m s).
  { destruct Hf as (m & -> & ret & s' & Hm & Hr). exists ret, s'. by rewrite (call_exit _ _ _ _ Hm). }
  eexists. split; [reflexivity|]. eapply fails_later; [reflexivity|].
  destruct (ok_chans e) eqn:H1.
  2:{ apply fails_here. eapply fails_try; [reflexivity|lia]. }
  eapply fails_later; [apply try_call_ok; reflexivity|].
  match goal with |- fails (_ ← try_call (init_state_threads ?a ?b ?c); _) ?s0 =>
    destruct (init_threads_run a b c s0) as [(H2 & Hrc & Hrun)|(_ & ret & Hr & Hrun)] end.
  2:{ apply fails_here. by eapply fails_try. }
  eapply fails_later; [by apply try_call_ok|]. rewrite Nat2Z.id in Hrc.
  destruct (ok_map e) eqn:H3.
  2:{ apply fails_here. eapply fails_try; [reflexivity|done]. }
  eapply fails_later; [apply try_call_ok; reflexivity|].
  destruct (ok_chan_stk e) eqn:H4.
  2:{ apply fails_here. exists (- ENOMEM). eexists. split; [reflexivity|unfold ENOMEM; lia]. }
  eapply fails_later; [reflexivity|].
  destruct (ok_thread_stk e) eqn:H5.
  2:{ apply fails_here. exists (- ENOMEM). eexists. split; [reflexivity|unfold ENOMEM; lia]. }
  do 3 (eapply fails_later; [reflexivity|]). apply fails_here.
  destruct (lock_inits_cases (lock_rc e)) as [[_ H6]|[Hlt _]].
  - exfalso. apply Hn. by split.
  - eapply fails_try; [reflexivity|exact Hlt].
Qed.

(** C23: [init_state] returns 0 exactly when every allocation and every pthread
    call succeeds; then the state has the invariant, both stacks hold all
    slots, and nothing is open or queued.  Otherwise it returns a negative
    code.  The assertions on the pushes never fail. *)
Theorem init_state_correct e k :
  Z.of_nat k < EPL_MAP_SIZE ->
  exists ret s', init_state e (Z.of_nat k) state_zero = (Val ret, s') /\
    ((ret = 0 /\ env_ok e k /\ srv_wf k [] s' /\
        contents (chan_stk s') = Z.of_nat <$> seq 0 k /\
        contents (thread_stk s') = Z.of_nat <$> seq 0 k /\ fds s' = ∅ /\ nodes (sqes s') = ∅) \/
     (ret < 0 /\ ~ env_ok e k)).
Proof.
  intros Hk.
  assert (Hdec : env_ok e k \/ ~ env_ok e k).
  { destruct (first_failure (thread_rc e) (2 * k)) as [Hrc|(j & Hj & Hne & _)];
      [|right; intros []; by apply Hne, eo_thread_rc0].
    destruct (lock_inits_cases (lock_rc e)) as [[_ Hl]|[_ Hl]]; [|right; by intros []].
    destruct (ok_chans e) eqn:?, (ok_threads e) eqn:?, (ok_map e) eqn:?, (ok_chan_stk e) eqn:?,
      (ok_thread_stk e) eqn:?; try (right; intros []; congruence). by left; split. }
  destruct Hdec as [Hok|Hno].
  - destruct (init_state_ok e k state_zero Hk Hok)
      as (c & t & q & Hrun & Hc & Ht & Hcc & Hct & Hsc & Hst & Hq & Hn & _).
    eexists 0, _. split; [exact Hrun|]. left. split; [done|]. split; [done|].
    split; [by apply state_fresh_wf|]. done.
  - destruct (init_state_err e k state_zero Hno) as (ret & s' & Hrun & Hr).
    exists ret, s'. split; [exact Hrun|]. by right.
Qed.

(** ** run_acceptor *)

(** What the code relies on: a new descriptor is new, and below the size of
    the map. *)
Definition acc_ok (s : gwbot_state) (e : acc_env) : Prop :=
  match a_accept e with
  | inl fd => 0 <= fd < EPL_MAP_SIZE /\ (fd ∉ fds s) /\ (forall ip, a_ip e = Some ip -> no_nul ip)
  | inr _ => True
  end.

(** The descriptor is opened and closed again. *)
Definition refused (fd : Z) (s : gwbot_state) : gwbot_state :=
  s <| fds := ({[fd]} ∪ fds s) ∖ {[fd]} |> <| epl_set := epl_set s ∖ {[fd]} |>.

Definition accepted (fd v now port : Z) (ip : list byte) (stk : tstack) (c : gwbot_chan)
    (s : gwbot_state) : gwbot_state :=
  s <| fds := {[fd]} ∪ fds s |> <| epl_set := {[fd]} ∪ epl_set s |> <| chan_stk := stk |>
    <| epl_map := <[Z.to_nat fd := v + 1]> (epl_map s) |>
    <| chans := <[Z.to_nat v := c <| chan_fd := fd |> <| chan_idx := v |> <| accepted_at := now |>
         <| recv_s := 0 |> <| src_port := port |> <| is_online := true |> <| src_ip := ip |>]> (chans s) |>
    <| active_chan := u32 (active_chan s + 1) |>.

Inductive acc_out (e : acc_env) (s : gwbot_state) : Z -> gwbot_state -> Prop :=
| acc_none err : a_accept e = inr err -> acc_out e s (- err) s
| acc_refused fd ret :
    a_accept e = inl fd ->
    (a_len_ok e = false /\ ret = - EOVERFLOW \/ a_ip e = None /\ ret = - EINVAL \/
     contents (chan_stk s) = [] /\ ret = - EAGAIN) ->
    acc_out e s ret (refused fd s)
| acc_leaked fd v st stk' ret :
    a_accept e = inl fd -> contents (chan_stk s) = v :: st -> contents stk' = st ->
    (a_time e = inr (- ret) \/ (exists now, a_time e = inl now) /\ a_epoll e <> 0 /\ ret = - a_epoll e) ->
    acc_out e s ret (refused fd s <| chan_stk := stk' |>)
| acc_taken fd v st stk' now ip ip' c :
    a_accept e = inl fd -> a_time e = inl now -> a_epoll e = 0 -> a_ip e = Some ip ->
    contents (chan_stk s) = v :: st -> contents stk' = st -> 0 <= v ->
    chans s !! Z.to_nat v = Some c -> c_str ip' = take 16 ip ->
    acc_out e s 0 (accepted fd v now (a_port e) ip' stk' c s).

Lemma call_step {S A} (m : M S A) (k : A -> M S unit) s a s' :
  m s = (Val a, s') -> call (x ← m; k x) s = call (k a) s'.
Proof. intros H. unfold call. by rewrite (bind_val _ _ _ _ _ H). Qed.

Lemma call_stop {S A} (m : M S A) (k : A -> M S unit) s c s' :
  m s = (Exit c, s') -> call (x ← m; k x) s = (Val c, s').
Proof. intros H. apply call_exit. by rewrite (bind_exit _ _ _ _ _ H). Qed.

Lemma srv_wf_refused n l s fd stk v st :
  srv_wf n l s -> fd ∉ fds s ->
  (stk = chan_stk s \/
   contents (chan_stk s) = v :: st /\ tss_wf stk /\ contents stk = st /\ capacity stk = capacity (chan_stk s)) ->
  srv_wf n l (refused fd s <| chan_stk := stk |>).
Proof.
  intros [Hp Hw] Hfd Hs. split; [|done].
  change (pool_wf n (chans s) (epl_map s) stk (({[fd]} ∪ fds s) ∖ {[fd]}) (epl_set s ∖ {[fd]}) (tcp_fd s)).
  eapply (pool_fds n _ _ _ (fds s) _ (epl_set s)); [|set_solver|set_solver].
  destruct Hs as [->|(Hs & Hw' & Hs' & Hcap)]; [done|]. by eapply pool_drop.
Qed.

Lemma srv_wf_accepted n l s fd v st stk now port ip c :
  srv_wf n l s -> 0 <= fd < EPL_MAP_SIZE -> fd ∉ fds s -> contents (chan_stk s) = v :: st ->
  tss_wf stk -> contents stk = st -> capacity stk = capacity (chan_stk s) -> 0 <= v ->
  chans s !! Z.to_nat v = Some c -> length ip = 17%nat ->
  srv_wf n l (accepted fd v now port ip stk c s).
Proof.
  intros [Hp Hw] Hfd Hnew Hs Hw' Hs' Hcap Hv Hc Hip. split; [|done].
  destruct (pw_chan _ _ _ _ _ _ _ Hp _ _ Hc) as [Hi Hr Hpk _].
  eapply (pool_accept n (chans s) (epl_map s) (chan_stk s)); try done.
  split; simpl; try done; unfold PKT_SIZE, CHPKT_LEN, CHPKT_DATA_BUFSIZ; lia.
Qed.

(** The steps after the slot is popped. *)
Lemma accept_tail n l s fd v st stk e ip c now ip' :
  srv_wf n l s -> acc_ok s e -> a_accept e = inl fd -> a_epoll e = 0 ->
  contents (chan_stk s) = v :: st -> chans s !! Z.to_nat v = Some c -> 0 <= v < Z.of_nat n ->
  Bounded.sane_strncpy (asz ip) 17 (src_ip c) = (Val tt, ip') ->
  (ret ← epoll_add fd (a_epoll e);
   (if decide (ret <> 0) then out_close fd ret else mret tt);;
   c ← get_chan v;
   '(r, ip') ← mret (Bounded.sane_strncpy (asz ip) 17 (src_ip c));
   match r with Fault f => faulty f | _ => mret tt end;;
   set_chan v (fun c => c <| chan_fd := fd |> <| chan_idx := u16 v |>
     <| accepted_at := now |> <| recv_s := 0 |> <| src_port := a_port e |>
     <| is_online := true |> <| src_ip := ip' |>);;
   set_epl_map fd (u16 (v + 1));;
   upd_st (fun s => s <| active_chan := u32 (active_chan s + 1) |>))
  (s <| fds := {[fd]} ∪ fds s |> <| chan_stk := stk |>) =
  (Val tt, accepted fd v now (a_port e) ip' stk c s).
Proof.
  intros [Hp Hw] Ha Hacc He Hs Hc Hv Hip. unfold acc_ok in Ha. rewrite Hacc in Ha.
  destruct Ha as (Hfd & Hnew & _).
  pose proof (pw_n _ _ _ _ _ _ _ Hp) as Hn. unfold EPL_MAP_SIZE in Hn.
  unfold epoll_add, upd_st. rewrite He. rewrite !decide_False by lia.
  erewrite bind_val by reflexivity. rewrite decide_False by lia. erewrite bind_val by reflexivity.
  erewrite bind_val by (apply get_chan_ok; [lia|exact Hc]). rewrite Hip.
  erewrite bind_val by reflexivity. cbv beta iota. erewrite bind_val by reflexivity.
  erewrite bind_val by (apply (set_chan_ok _ _ c); [lia|exact Hc]).
  erewrite bind_val.
  2:{ apply set_epl_map_ok. simpl. rewrite (pw_map_len _ _ _ _ _ _ _ Hp). done. }
  rewrite !u16_small by lia. reflexivity.
Qed.

Section Acceptor.
Context (n : nat) (l : list (positive * list byte)) (s : gwbot_state) (e : acc_env) (fd : Z).
Hypothesis Hw : srv_wf n l s.
Hypothesis Ha : acc_ok s e.
Hypothesis Hacc : a_accept e = inl fd.

Definition accept_result : Prop :=
  exists ret s', run_acceptor e s = (Val ret, s') /\ srv_wf n l s' /\ acc_out e s ret s'.

Local Lemma fd_ok : 0 <= fd < EPL_MAP_SIZE /\ (fd ∉ fds s) /\ (forall ip, a_ip e = Some ip -> no_nul ip).
Proof. pose proof Ha as H. unfold acc_ok in H. by rewrite Hacc in H. Qed.

Local Lemma refused_wf : srv_wf n l (refused fd s).
Proof.
  pose proof fd_ok as (_ & Hnew & _).
  change (refused fd s) with (refused fd s <| chan_stk := chan_stk s |>).
  eapply (srv_wf_refused n l s fd (chan_stk s) 0 []); auto.
Qed.

(** The connection is refused before a slot is taken. *)
Lemma acceptor_refuses ret :
  (a_len_ok e = false /\ ret = - EOVERFLOW) \/ (a_len_ok e = true /\ a_ip e = None /\ ret = - EINVAL) \/
  (a_len_ok e = true /\ is_Some (a_ip e) /\ contents (chan_stk s) = [] /\ ret = - EAGAIN) ->
  accept_result.
Proof.
  intros Hcase. exists ret, (refused fd s). split; [|split; [apply refused_wf|econstructor; [done|tauto]]].
  unfold run_acceptor. rewrite Hacc. erewrite call_step by reflexivity.
  destruct Hcase as [[-> ->]|[(-> & -> & ->)|(-> & [ip ->] & Hs & ->)]]; [reflexivity|reflexivity|].
  erewrite call_step by reflexivity. erewrite call_step by reflexivity.
  erewrite call_step by (apply in_chan_stk_ok, tss_pop_empty;
    [apply (pw_stk _ _ _ _ _ _ _ (proj1 Hw))|exact Hs]).
  rewrite (decide_True (P := -1 = -1)) by done. erewrite call_stop by reflexivity. by destruct s.
Qed.

(** After a slot is taken. *)
Lemma acceptor_with_slot ip v st :
  a_len_ok e = true -> a_ip e = Some ip -> contents (chan_stk s) = v :: st -> accept_result.
Proof.
  intros Hlen Hip Hs. pose proof fd_ok as (Hfd & Hnew & Hipn).
  assert (Hstk := pw_stk _ _ _ _ _ _ _ (proj1 Hw)).
  destruct (tss_pop_cons (chan_stk s) v st Hstk Hs) as (stk & Hpop & Hw' & Hs' & Hcap).
  assert (Hv : 0 <= v < Z.of_nat n)
    by (eapply pool_slot_bound; [apply (proj1 Hw)|]; rewrite Hs; by left).
  pose proof (pw_n _ _ _ _ _ _ _ (proj1 Hw)) as Hn. unfold EPL_MAP_SIZE in Hn.
  destruct (pw_free _ _ _ _ _ _ _ (proj1 Hw) v) as (_ & c & Hc & _); [rewrite Hs; by left|].
  assert (Hleak : srv_wf n l (refused fd s <| chan_stk := stk |>))
    by (eapply srv_wf_refused; eauto 10).
  unfold accept_result, run_acceptor. rewrite Hacc, Hlen, Hip. erewrite call_step by reflexivity.
  erewrite call_step by reflexivity. erewrite call_step by reflexivity.
  erewrite call_step by (by apply in_chan_stk_ok).
  rewrite (decide_False (P := v = -1)) by lia. erewrite call_step by reflexivity. cbv zeta.
  unfold EPL_MAP_SHIFT. rewrite u32_small by lia.
  rewrite (decide_False (P := _ >= EPL_MAP_SIZE)) by (unfold EPL_MAP_SIZE; lia). erewrite call_step by reflexivity.
  destruct (a_time e) as [now|err] eqn:Ht.
  2:{ eexists (- err), _. split; [reflexivity|]. split; [exact Hleak|].
      eapply (acc_leaked e s fd v st stk); [exact Hacc|exact Hs|exact Hs'|].
      left. rewrite Z.opp_involutive. exact Ht. }
  erewrite call_step by reflexivity. destruct (decide (a_epoll e = 0)) as [He|He].
  - destruct (Bounded.sane_strncpy_spec ip [] (src_ip c) 17) as (ip' & Hcpy & Hl & Hcs);
      [by apply Hipn|lia|apply (pw_chan _ _ _ _ _ _ _ (proj1 Hw) _ _ Hc)|]. rewrite app_nil_r in Hcpy.
    eexists 0, _. split; [apply call_val; by eapply (accept_tail n l s fd v st stk e ip c now)|].
    split; [eapply srv_wf_accepted; done || lia|]. eapply acc_taken; done || lia.
  - eexists (- a_epoll e), _. unfold epoll_add. rewrite decide_True by done.
    erewrite call_step by reflexivity. rewrite decide_True by lia.
    split; [reflexivity|]. split; [exact Hleak|]. eapply (acc_leaked e s fd v st stk); [exact Hacc|exact Hs|exact Hs'|eauto].
Qed.
End Acceptor.

Lemma run_acceptor_spec n l s e :
  srv_wf n l s -> acc_ok s e ->
  exists ret s', run_acceptor e s = (Val ret, s') /\ srv_wf n l s' /\ acc_out e s ret s'.
Proof.
  intros Hw Ha. destruct (a_accept e) as [fd|err] eqn:Hacc.
  2:{ exists (- err), s. unfold run_acceptor. rewrite Hacc. split; [done|]. split; [done|]. by constructor. }
  destruct (a_len_ok e) eqn:Hlen; [|eapply (acceptor_refuses n l s e fd); eauto].
  destruct (a_ip e) as [ip|] eqn:Hip; [|eapply (acceptor_refuses n l s e fd); eauto].
  destruct (contents (chan_stk s)) as [|v st] eqn:Hs; [|eapply (acceptor_with_slot n l s e fd); eauto].
  eapply (acceptor_refuses n l s e fd); eauto 10.
Qed.

(** A connection that fails after its slot is popped, when the clock or epoll
    fails, is closed; its slot is on the stack no more and belongs to no
    channel, so that one connection less can ever be served. *)
Theorem acceptor_leaks_slot n l s e fd ip v st :
  srv_wf n l s -> acc_ok s e -> a_accept e = inl fd -> a_len_ok e = true -> a_ip e = Some ip ->
  contents (chan_stk s) = v :: st ->
  (exists err, a_time e = inr err) \/ a_epoll e <> 0 ->
  exists ret s', run_acceptor e s = (Val ret, s') /\ srv_wf n l s' /\
    contents (chan_stk s') = st /\ chans s' = chans s /\ (fd ∉ fds s') /\
    (exists c, chans s' !! Z.to_nat v = Some c /\ is_online c = false) /\ v ∉ contents (chan_stk s').
Proof.
  intros Hw Ha Hacc Hlen Hip Hs Hfail.
  destruct (pw_free _ _ _ _ _ _ _ (proj1 Hw) v) as (_ & c & Hc & Hoff); [rewrite Hs; by left|].
  pose proof (pw_nodup _ _ _ _ _ _ _ (proj1 Hw)) as Hnd. rewrite Hs in Hnd.
  apply NoDup_cons in Hnd as [Hv _].
  destruct (acceptor_with_slot n l s e fd Hw Ha Hacc ip v st Hlen Hip Hs) as (ret & s' & Hrun & Hw' & Hout).
  exists ret, s'. split; [done|]. split; [done|].
  destruct Hout as [err Hn|fd' ret Hf Hwhy|fd' v' st' stk' ret Hf Hs1 Hs2 Hwhy
    |fd' v' st' stk' now ip' ip2 c' Hf Ht He]; try congruence.
  - exfalso. destruct Hwhy as [[? _]|[[? _]|[? _]]]; congruence.
  - rewrite Hs in Hs1. injection Hs1 as <- <-. simpl. rewrite Hs2. split; [done|]. split; [done|].
    split; [|by eauto]. rewrite Hf in Hacc. injection Hacc as ->. set_solver.
  - exfalso. destruct Hfail as [[err ?]|?]; congruence.
Qed.

(** C24: An accepted connection takes the top slot, which becomes the channel of
    the new descriptor: mapped, watched and empty; the counter of connections
    is one higher, and every other channel and map entry is as before. *)
Theorem acceptor_takes_slot n l s e fd ip now v st :
  srv_wf n l s -> acc_ok s e -> a_accept e = inl fd -> a_len_ok e = true -> a_ip e = Some ip ->
  a_time e = inl now -> a_epoll e = 0 -> contents (chan_stk s) = v :: st ->
  exists s' c, run_acceptor e s = (Val 0, s') /\ srv_wf n l s' /\ contents (chan_stk s') = st /\
    chans s' !! Z.to_nat v = Some c /\ is_online c = true /\ chan_fd c = fd /\ recv_s c = 0 /\
    chan_idx c = v /\ accepted_at c = now /\ src_port c = a_port e /\ c_str (src_ip c) = take 16 ip /\
    epl_map s' !! Z.to_nat fd = Some (v + 1) /\ fd ∈ epl_set s' /\ fd ∈ fds s' /\
    active_chan s' = (active_chan s + 1) mod 2 ^ 32 /\
    (forall j, j <> Z.to_nat v -> chans s' !! j = chans s !! j) /\
    (forall j, j <> Z.to_nat fd -> epl_map s' !! j = epl_map s !! j) /\
    threads s' = threads s /\ thread_stk s' = thread_stk s /\ sqes s' = sqes s.
Proof.
  intros Hw Ha Hacc Hlen Hip Ht He Hs.
  destruct (acceptor_with_slot n l s e fd Hw Ha Hacc ip v st Hlen Hip Hs) as (ret & s' & Hrun & Hw' & Hout).
  destruct Hout as [err Hn|fd' ret Hf Hwhy|fd' v' st' stk' ret Hf Hs1 Hs2 Hwhy
    |fd' v' st' stk' now' ip' ip2 c' Hf Ht' He' Hip' Hs1 Hs2 Hv Hc Hcs]; try congruence.
  - exfalso. destruct Hwhy as [[? _]|[[? _]|[? _]]]; congruence.
  - exfalso. destruct Hwhy as [?|(_ & ? & _)]; congruence.
  - rewrite Hs in Hs1. injection Hs1 as <- <-.
    assert (fd' = fd /\ now' = now /\ ip' = ip) as (-> & -> & ->) by (split_and!; congruence).
    eexists _, _. split; [done|]. split; [done|]. split; [done|]. simpl.
    rewrite list_lookup_insert_eq by (by eapply lookup_lt_Some). split; [done|]. simpl.
    unfold acc_ok in Ha. rewrite Hacc in Ha. destruct Ha as (Hfd & _).
    rewrite list_lookup_insert_eq by (rewrite <- (pw_map_len _ _ _ _ _ _ _ (proj1 Hw)) in Hfd; lia).
    split_and!; try done; try set_solver; intros j Hj; by rewrite list_lookup_insert_ne by done.
Qed.

(** *** Witnesses *)
Definition demo_init : init_env :=
  InitEnv true true true true true (fun _ => 0) (LockCodes 0 0 0 0 0).
Definition demo_acc : acc_env := AccEnv (inl 5) true (Some (bs "10.0.0.1")) 4000 (inl 1000) 0.

Lemma demo_init_ok k : env_ok demo_init k.
Proof. by split. Qed.

(** A server of two slots that waits for connections. *)
Lemma demo_waiting :
  exists s, srv_wf 2 [] s /\ contents (chan_stk s) = [0; 1] /\ contents (thread_stk s) = [0; 1] /\
    fds s = ∅ /\ nodes (sqes s) = ∅ /\ stop_el s = false /\ tcp_fd s = -1 /\ shut s = ∅ /\ epl_fd s = -1 /\
    threads s = fresh_thread <$> seq 0 2.
Proof.
  destruct (init_state_ok demo_init 2 state_zero) as (c & t & q & _ & Hc & Ht & Hcc & Hct & Hsc & Hst & Hq & Hn & _);
    [done|apply demo_init_ok|].
  exists (state_fresh 2 c t q state_zero). split; [by apply state_fresh_wf|]. done.
Qed.

(** The same server with one connection. *)
Lemma demo_connected :
  exists s c, srv_wf 2 [] s /\ chans s !! 0%nat = Some c /\ is_online c = true /\ chan_fd c = 5 /\
    recv_s c = 0 /\ accepted_at c = 1000 /\ contents (chan_stk s) = [1] /\
    contents (thread_stk s) = [0; 1] /\ nodes (sqes s) = ∅ /\ stop_el s = false /\ tcp_fd s = -1 /\
    shut s = ∅ /\ (5 ∈ epl_set s) /\ threads s = fresh_thread <$> seq 0 2.
Proof.
  destruct demo_waiting as (s & Hw & Hcs & Hts & Hfds & Hn & Hstop & Htcp & Hshut & _ & Hth).
  assert (Ha : acc_ok s demo_acc).
  { split; [done|]. split; [rewrite Hfds; set_solver|]. intros ip [= <-].
    repeat constructor; discriminate. }
  destruct (acceptor_with_slot 2 [] s demo_acc 5 Hw Ha eq_refl (bs "10.0.0.1") 0 [1] eq_refl eq_refl Hcs)
    as (ret & s' & _ & Hw' & Hout).
  destruct Hout as [err Hn'|fd' ret Hf Hwhy|fd' v' st' stk' ret Hf Hs1 Hs2 Hwhy
    |fd' v' st' stk' now' ip' ip2 c' Hf Ht' He' Hip' Hs1 Hs2 Hv Hc Hcs2]; try done.
  - exfalso. destruct Hwhy as [[? _]|[[? _]|[? _]]]; done || congruence.
  - exfalso. destruct Hwhy as [?|(_ & ? & _)]; done.
  - rewrite Hcs in Hs1. injection Hs1 as <- Hst. injection Hf as <-. injection Ht' as <-.
    eexists _, _. split; [exact Hw'|]. simpl.
    rewrite list_lookup_insert_eq by (by eapply lookup_lt_Some). split; [done|].
    split_and!; try done; [congruence|set_solver].
Qed.

Lemma init_state_correct_witness :
  exists s', init_state demo_init 2 state_zero = (Val 0, s') /\ srv_wf 2 [] s' /\
    contents (chan_stk s') = [0; 1].
Proof.
  destruct (init_state_correct demo_init 2) as (ret & s' & Hrun & [H|[_ Hn]]).
  - vm_compute. reflexivity.
  - destruct H as (-> & _ & Hw & Hc & _). exists s'. split; [exact Hrun|]. split; [exact Hw|exact Hc].
  - exfalso. apply Hn. apply demo_init_ok.
Defined.

Lemma acceptor_takes_slot_witness :
  exists s s' c, run_acceptor demo_acc s = (Val 0, s') /\ chans s' !! 0%nat = Some c /\ chan_fd c = 5.
Proof.
  destruct demo_waiting as (s & Hw & Hcs & _ & Hfds & _).
  destruct (acceptor_takes_slot 2 [] s demo_acc 5 (bs "10.0.0.1") 1000 0 [1]) as (s' & c & Hrun & _ & _ & Hc & _ & Hfd & _).
  - exact Hw.
  - split; [vm_compute; split; [discriminate|reflexivity]|]. split; [rewrite Hfds; set_solver|].
    intros ip [= <-]. repeat constructor; discriminate.
  - reflexivity.
  - reflexivity.
  - reflexivity.
  - reflexivity.
  - reflexivity.
  - exact Hcs.
  - exists s, s', c. split; [exact Hrun|split; [exact Hc|exact Hfd]].
Defined.

Lemma acceptor_leaks_slot_witness :
  exists ret s s', run_acceptor (AccEnv (inl 5) true (Some (bs "10.0.0.1")) 4000 (inr EINVAL) 0) s = (Val ret, s') /\
    contents (chan_stk s) = [0; 1] /\ contents (chan_stk s') = [1] /\ 5 ∉ fds s'.
Proof.
  destruct demo_waiting as (s & Hw & Hcs & _ & Hfds & _).
  destruct (acceptor_leaks_slot 2 [] s (AccEnv (inl 5) true (Some (bs "10.0.0.1")) 4000 (inr EINVAL) 0)
    5 (bs "10.0.0.1") 0 [1]) as (ret & s' & Hrun & _ & Hst & _ & Hfd & _).
  - exact Hw.
  - split; [vm_compute; split; [discriminate|reflexivity]|]. split; [rewrite Hfds; set_solver|].
    intros ip [= <-]. repeat constructor; discriminate.
  - reflexivity.
  - reflexivity.
  - reflexivity.
  - exact Hcs.
  - left. exists EINVAL. reflexivity.
  - exists ret, s, s'. split; [exact Hrun|split; [exact Hcs|split; [exact Hst|exact Hfd]]].
Defined.
