(* ===== verification/Logger.v ===== *)
(** * The logger thread and its handshake with the main thread:
      core/event_logger.c, internal_gw_event_logger, and core/server.c,
      init_logger_thread

    Server.v has the outcome of init_logger_thread as one step.  Here are the
    two threads: every point at which one of them takes, releases or waits on
    [log_lock], or looks at [online_thread] or [stop_el], is a step, and the
    steps come in any order. *)
From S2P Require Import Prelude Gwbot Server ServerInit.

Inductive thread_id := ByMain | ByLogger.

(** Where the main thread is: init_logger_thread up to [MReturned], then the
    server, [MPoll]: wait_for_threads, [MGone]: the state is destroyed. *)
Inductive main_pc := MLoad | MCreate | MLock | MTest | MSleep | MWait | MRelock | MUnlock | MReturned (ret : Z) | MPoll | MGone.

(** Where the logger is.  [LHold]: in front of its wait, with the lock;
    [LRelease]: behind it.  [LCrash]: it used the state after its end. *)
Inductive log_pc :=
  LOff | LStart | LLock | LSignal | LUnlock | LAgain | LHold | LWait | LRelock | LRelease | LTest | LLeave | LCrash.

#[export] Instance thread_id_eq_dec : EqDecision thread_id.
Proof. solve_decision. Defined.
#[export] Instance main_pc_eq_dec : EqDecision main_pc.
Proof. solve_decision. Defined.
#[export] Instance log_pc_eq_dec : EqDecision log_pc.
Proof. solve_decision. Defined.

(** [others]: the workers among the threads online.  [forced]: the main
    thread no longer waited for a thread that was online. *)
Record hs := Hs {
  m_pc : main_pc;
  l_pc : log_pc;
  holder : option thread_id;
  online : Z;
  otv_old : Z;
  others : Z;
  stop : bool;
  alive : bool;
  forced : bool;
}.
#[export] Instance eta_hs : Eta hs := fun r => Hs (m_pc r) (l_pc r) (holder r) (online r) (otv_old r) (others r) (stop r) (alive r) (forced r).

Definition acquire (w : thread_id) (s : hs) : option hs :=
  match holder s with None => Some (s <| holder := Some w |>) | Some _ => None end.
Definition release (s : hs) : hs := s <| holder := None |>.

Definition main_to (pc : main_pc) (s : hs) : hs := s <| m_pc := pc |>.
Definition log_to (pc : log_pc) (s : hs) : hs := s <| l_pc := pc |>.

(** init_logger_thread, then destroy_state.  [rc]: what pthread_create
    returns; [force]: wait_for_threads has counted to its end.  [None]: the
    thread is blocked. *)
Definition main_step (rc : Z) (force : bool) (s : hs) : option hs :=
  match m_pc s with
  | MLoad => Some (main_to MCreate (s <| otv_old := online s |>))
  | MCreate => Some (if decide (rc = 0) then main_to MLock (log_to LStart s) else main_to (MReturned (- Z.abs rc)) s)
  | MLock | MRelock => main_to MTest <$> acquire ByMain s
  | MTest => Some (main_to (if decide (online s = otv_old s) then MSleep else MUnlock) s)
  | MSleep => Some (main_to MWait (release s))
  | MWait => None
  | MUnlock => Some (main_to (MReturned 0) (release s))
  | MReturned _ => Some (main_to MPoll (s <| stop := true |>))
  | MPoll =>
      Some (if decide (online s = 0) then main_to MGone (s <| alive := false |>)
            else if force then main_to MGone (s <| alive := false |> <| forced := true |>) else s)
  | MGone => None
  end.

(** A signal wakes the main thread when it waits, and is lost otherwise. *)
Definition signal (s : hs) : hs := match m_pc s with MWait => main_to MRelock s | _ => s end.

(** [early]: the wait fails at once, without the lock released. *)
Definition log_step (early : bool) (s : hs) : option hs :=
  match l_pc s, alive s with
  | LOff, _ | LCrash, _ => None
  | _, false => Some (log_to LCrash s)
  | LStart, _ => Some (log_to LLock (s <| online := u32 (online s + 1) |>))
  | LLock, _ => log_to LSignal <$> acquire ByLogger s
  | LSignal, _ => Some (log_to LUnlock (signal s))
  | LUnlock, _ => Some (log_to LAgain (release s))
  | LAgain, _ => log_to LHold <$> acquire ByLogger s
  | LHold, _ => Some (if early then log_to LRelease s else log_to LWait (release s))
  | LWait, _ => Some (log_to LRelock s)
  | LRelock, _ => log_to LRelease <$> acquire ByLogger s
  | LRelease, _ => Some (log_to LTest (release s))
  | LTest, _ => Some (log_to (if stop s then LLeave else LAgain) s)
  | LLeave, _ => Some (log_to LOff (s <| online := u32 (online s - 1) |>))
  end.

(** [Spurious]: the wait of the main thread ends without a signal.
    [Interrupt]: handle_interrupt.  [Worker d]: a worker comes or goes. *)
Inductive act := Main (rc : Z) (force : bool) | Log (early : bool) | Spurious | Interrupt | Worker (up : bool).

Definition workers_run (pc : main_pc) : bool := match pc with MReturned 0 | MPoll => true | _ => false end.

Definition hs_step (a : act) (s : hs) : option hs :=
  match a with
  | Main rc force => main_step rc force s
  | Log early => log_step early s
  | Spurious => match m_pc s with MWait => Some (main_to MRelock s) | _ => None end
  | Interrupt => if alive s then Some (s <| stop := true |>) else None
  | Worker true =>
      if workers_run (m_pc s) && (others s <? 65535) then
        Some (s <| others := others s + 1 |> <| online := u32 (online s + 1) |>) else None
  | Worker false =>
      if workers_run (m_pc s) && (0 <? others s) then
        Some (s <| others := others s - 1 |> <| online := u32 (online s - 1) |>) else None
  end.

(** In front of init_logger_thread, with [n] threads online. *)
Definition hs_start (n : Z) : hs := Hs MLoad LOff None n 0 n false true false.

Fixpoint hs_run (l : list act) (s : hs) : option hs :=
  match l with [] => Some s | a :: l => hs_step a s ≫= hs_run l end.

Inductive hs_reach (s : hs) : hs -> Prop :=
| hs_refl : hs_reach s s
| hs_next s1 a s2 : hs_reach s s1 -> hs_step a s1 = Some s2 -> hs_reach s s2.

(** ** The invariant *)
Definition counted (pc : log_pc) : Z := match pc with LOff | LStart => 0 | _ => 1 end.
Definition main_holds (pc : main_pc) : bool := match pc with MTest | MSleep | MUnlock => true | _ => false end.
Definition log_holds (pc : log_pc) : bool := match pc with LSignal | LUnlock | LHold | LRelease => true | _ => false end.

(** In init_logger_thread, with the logger created. *)
Definition shaking (pc : main_pc) : bool :=
  match pc with MLock | MTest | MSleep | MWait | MRelock | MUnlock => true | _ => false end.

(** [otv_old] is what was loaded and no worker came since. *)
Definition loaded (pc : main_pc) : bool := match pc with MCreate => true | _ => shaking pc end.
Definition at_start (pc : main_pc) : bool := match pc with MLoad => true | _ => loaded pc end.
Definition gone (pc : main_pc) : bool := match pc with MGone => true | _ => false end.

(** The logger has the signal of the handshake before it, or [LOff]. *)
Definition to_signal (pc : log_pc) : bool := match pc with LStart | LLock | LSignal => true | _ => false end.

Definition held_by (w : thread_id) (o : option thread_id) : bool :=
  match w, o with ByMain, Some ByMain | ByLogger, Some ByLogger => true | _, _ => false end.

(** The positions that go together: who holds the lock; that the logger has
    not started when its thread is not created, and not ended while the main
    thread looks for it; that its signal is before it when the main thread
    waits; that it ended when the state is destroyed. *)
Definition pcs_ok (m : main_pc) (l : log_pc) (o : option thread_id) (st al : bool) : bool :=
  Bool.eqb (main_holds m) (held_by ByMain o) && Bool.eqb (log_holds l) (held_by ByLogger o) &&
  Bool.eqb al (negb (gone m)) &&
  match l with
  | LOff => st || negb (shaking m)
  | LStart => match m with MUnlock => false | _ => shaking m end
  | LCrash => false
  | _ =>
      match m with
      | MLoad | MCreate | MGone => false
      | MSleep | MWait => st || to_signal l
      | _ => match l with LLeave => st || negb (shaking m) | _ => true end
      end
  end.

Record hs_inv (n : Z) (s : hs) : Prop := HsInv {
  hi_online : online s = others s + counted (l_pc s);
  hi_others : 0 <= others s <= 65535;
  hi_old : loaded (m_pc s) = true -> otv_old s = others s;
  hi_same : at_start (m_pc s) = true -> others s = n;
  hi_pcs : pcs_ok (m_pc s) (l_pc s) (holder s) (stop s) (alive s) = true;
}.

Lemma hs_inv_start n : 0 <= n <= 65535 -> hs_inv n (hs_start n).
Proof. intros Hn. split; simpl; try done; lia. Qed.

(** Runs through the positions that the invariant leaves. *)
Ltac hs_cases :=
  match goal with H : pcs_ok ?m ?l ?o ?st ?al = true |- _ =>
    destruct m, l; try discriminate H; destruct o as [[]|]; try discriminate H; destruct st, al; try discriminate H
  end.

(** The main thread has destroyed the state with threads online. *)
Definition abandoned (s : hs) : Prop := forced s = true /\ m_pc s = MGone.

Ltac hs_close := split; cbn in *; first [done | lia | auto].

Lemma hs_inv_main n rc force s s' :
  hs_inv n s -> main_step rc force s = Some s' -> abandoned s' \/ hs_inv n s'.
Proof.
  intros [Hon Hot Hold Hsame Hp] Hs. destruct s as [m l h o old oth st al fo]. unfold main_step, acquire in Hs. cbn in *.
  hs_cases; cbn in *; repeat case_decide; try destruct force; simplify_eq; try (by left); try lia; right; hs_close.
Qed.

Lemma hs_inv_log n early s s' : hs_inv n s -> log_step early s = Some s' -> hs_inv n s'.
Proof.
  intros [Hon Hot Hold Hsame Hp] Hs. destruct s as [m l h o old oth st al fo]. unfold log_step, acquire, signal in Hs. cbn in *.
  hs_cases; cbn in *; try destruct early; simplify_eq; cbn; rewrite ?u32_small by lia; hs_close.
Qed.

Lemma hs_inv_step n a s s' : hs_inv n s -> hs_step a s = Some s' -> abandoned s' \/ hs_inv n s'.
Proof.
  intros Hi. destruct a as [rc force|early| | |[]]; [by apply hs_inv_main|right; by eapply hs_inv_log|..];
    intros Hs; right; destruct Hi as [Hon Hot Hold Hsame Hp]; destruct s as [m l h o old oth st al fo]; cbn in *.
  1, 2: hs_cases; cbn in *; simplify_eq; hs_close.
  all: destruct (workers_run m) eqn:Hw; [|done]; cbn in Hs; case_match; [|done]; simplify_eq;
    (assert (Hm : at_start m = false /\ loaded m = false) by (by destruct m); destruct Hm as [Hm1 Hm2]);
    assert (0 <= counted l <= 1) by (by destruct l); cbn; rewrite u32_small by lia;
    split; cbn in *; rewrite ?Hm1, ?Hm2; done || lia.
Qed.

Lemma abandoned_step a s s' : hs_step a s = Some s' -> abandoned s -> abandoned s'.
Proof.
  intros Hs [Hf Hm]. destruct s as [m l h o old oth st al fo]. cbn in Hf, Hm. subst fo m.
  destruct a as [rc force|early| | |[]]; unfold hs_step, main_step, log_step, acquire, signal in Hs; cbn in Hs;
    repeat (case_match; simplify_eq; cbn in *); done || by injection Hs as <-.
Qed.

Lemma hs_inv_reach n s : 0 <= n <= 65535 -> hs_reach (hs_start n) s -> abandoned s \/ hs_inv n s.
Proof.
  intros Hn. induction 1 as [|s1 a s2 _ IH Hs]; [right; by apply hs_inv_start|].
  destruct IH as [Hf|Hi]; [left; by eapply abandoned_step|by eapply hs_inv_step].
Qed.

(** ** The handshake is answered *)
Lemma handshake_inv n s : 0 <= n <= 65535 -> hs_reach (hs_start n) s -> loaded (m_pc s) = true -> hs_inv n s.
Proof. intros Hn Hr Hl. destruct (hs_inv_reach n s Hn Hr) as [[_ Hm]|Hi]; [|done]. by rewrite Hm in Hl. Qed.

(** The steps that are left: first the signal, then the end of the loop. *)
Definition log_rank (pc : log_pc) : nat :=
  match pc with LStart => 7 | LLock => 6 | LSignal => 5 | LUnlock => 4 | LHold | LRelease => 1 | _ => 0 end.
Definition main_rank (pc : main_pc) : nat :=
  match pc with MSleep => 5 | MWait => 4 | MLock | MRelock => 3 | MTest => 2 | MUnlock => 1 | _ => 0 end.
Definition hs_rank (s : hs) : nat := log_rank (l_pc s) + main_rank (m_pc s).

Lemma rank_falls n s :
  hs_inv n s -> shaking (m_pc s) = true -> stop s = false ->
  exists a s', (a = Main 0 false \/ a = Log false) /\ hs_step a s = Some s' /\ (hs_rank s' < hs_rank s)%nat /\
    (m_pc s' = MReturned 0 \/ hs_inv n s' /\ shaking (m_pc s') = true /\ stop s' = false).
Proof.
  intros Hi Hsh Hst.
  assert (exists a s', (a = Main 0 false \/ a = Log false) /\ hs_step a s = Some s' /\ (hs_rank s' < hs_rank s)%nat /\
    (m_pc s' = MReturned 0 \/ shaking (m_pc s') = true /\ stop s' = false /\ forced s' = forced s)) as (a & s' & Ha & Hs & Hr & Hn).
  { destruct Hi as [Hon Hot Hold Hsame Hp]. destruct s as [m l h o old oth st al fo]. cbn in *.
    hs_cases; try discriminate Hsh; try discriminate Hst; cbn in Hon, Hold; specialize (Hold eq_refl);
      first [ by (eexists (Log false), _; split; [by right|]; split; [reflexivity|]; cbn; split; [lia|]; auto)
            | by (eexists (Main 0 false), _; split; [by left|]; split; [cbn; rewrite ?decide_False by lia; reflexivity|];
                  cbn; split; [lia|]; auto) ]. }
  exists a, s'. split; [done|]. split; [done|]. split; [done|]. destruct Hn as [?|(Hsh' & ? & Hf)]; [by left|]. right.
  destruct (hs_inv_step _ _ _ _ Hi Hs) as [[_ Hm]|?]; [by rewrite Hm in Hsh'|done].
Qed.

Lemma hs_completes n s :
  hs_inv n s -> shaking (m_pc s) = true -> stop s = false ->
  exists l s', hs_run l s = Some s' /\ m_pc s' = MReturned 0 /\ (length l <= hs_rank s)%nat /\
    Forall (fun a => a = Main 0 false \/ a = Log false) l.
Proof.
  remember (hs_rank s) as k eqn:Hk. revert s Hk. induction (lt_wf k) as [k _ IH]. intros s -> Hi Hsh Hst.
  destruct (rank_falls n s Hi Hsh Hst) as (a & s1 & Ha & Hs & Hr & [Hm|(Hi1 & Hsh1 & Hst1)]).
  { exists [a], s1. cbn [hs_run]. rewrite Hs. split; [done|]. split; [done|]. split; [cbn [length]; lia|by constructor]. }
  destruct (IH _ Hr s1 eq_refl Hi1 Hsh1 Hst1) as (l & s' & Hl & Hm & Hlen & Hall).
  exists (a :: l), s'. cbn [hs_run length]. rewrite Hs. split; [done|]. split; [done|]. split; [lia|by constructor].
Qed.

(** C26: The wake-up of the logger is never lost: as long as no signal has asked the
    server to stop, init_logger_thread can return from every point of every
    interleaving, and twelve steps of the two threads are enough; when its
    thread waits, the logger still has its signal before it. *)
Theorem handshake_completes n s :
  0 <= n <= 65535 -> hs_reach (hs_start n) s -> shaking (m_pc s) = true -> stop s = false ->
  (m_pc s = MWait -> to_signal (l_pc s) = true) /\
  exists l s', hs_run l s = Some s' /\ m_pc s' = MReturned 0 /\ (length l <= 12)%nat /\
    Forall (fun a => a = Main 0 false \/ a = Log false) l.
Proof.
  intros Hn Hr Hsh Hst.
  assert (Hi : hs_inv n s) by (apply handshake_inv; [done..|]; by destruct (m_pc s)). split.
  - intros Hm. destruct Hi as [_ _ _ _ Hp]. rewrite Hm, Hst in Hp. by destruct (l_pc s), (holder s) as [[]|], (alive s).
  - destruct (hs_completes n s Hi Hsh Hst) as (l & s' & Hl & Hm & Hlen & Hall). exists l, s'.
    assert (hs_rank s <= 12)%nat by (unfold hs_rank; destruct (l_pc s), (m_pc s); simpl; lia).
    split; [done|]. split; [done|]. split; [lia|done].
Qed.

Lemma hs_run_reach l s0 s s' : hs_reach s0 s -> hs_run l s = Some s' -> hs_reach s0 s'.
Proof.
  revert s. induction l as [|a l IH]; intros s Hr Hl; [by injection Hl as <-|].
  cbn [hs_run] in Hl. destruct (hs_step a s) as [s1|] eqn:Hs; [|done]. eapply IH; [|exact Hl]. by eapply hs_next.
Qed.

(** The main thread tests first, and waits. *)
Lemma handshake_completes_witness :
  let wait := Hs MWait LStart None 0 0 0 false true false in
  hs_run [Main 0 false; Main 0 false; Main 0 false; Main 0 false; Main 0 false] (hs_start 0) = Some wait /\
  exists l s', hs_run l wait = Some s' /\ m_pc s' = MReturned 0 /\ (length l <= 12)%nat.
Proof.
  intros wait. assert (Hl : hs_run [Main 0 false; Main 0 false; Main 0 false; Main 0 false; Main 0 false] (hs_start 0) = Some wait)
    by reflexivity. split; [exact Hl|].
  destruct (handshake_completes 0 wait) as (_ & l & s' & H1 & H2 & H3 & _).
  - lia.
  - eapply hs_run_reach; [apply hs_refl|exact Hl].
  - reflexivity.
  - reflexivity.
  - exists l, s'. split; [exact H1|]. split; [exact H2|exact H3].
Defined.

(** ** The one step of Server.v *)

(** C27: As long as no signal has stopped the server, however the two threads
    take their steps, init_logger_thread returns what its one-step description
    returns, with the same threads online. *)
Theorem handshake_refines g s rc force s' ret :
  0 <= online_thread g <= 65535 -> hs_reach (hs_start (online_thread g)) s ->
  loaded (m_pc s) = true -> stop s = false ->
  hs_step (Main rc force) s = Some s' -> m_pc s' = MReturned ret ->
  exists g', init_logger_thread (if decide (m_pc s = MCreate) then rc else 0) g = (Val ret, g') /\
    online s' = online_thread g'.
Proof.
  intros Hn Hr Hl Hst Hs Hm. pose proof (handshake_inv _ _ Hn Hr Hl) as [Hon Hot Hold Hsame Hp].
  destruct s as [m l h o old oth st al fo]. cbn in *. unfold main_step, acquire in Hs. cbn in Hs.
  hs_cases; try discriminate Hl; try discriminate Hst; cbn in *; repeat case_decide; simplify_eq; cbn in *; simplify_eq;
    specialize (Hsame eq_refl); subst oth;
    try (eexists; split; [unfold init_logger_thread; cbn; by rewrite decide_False by done|]; cbn; lia);
    eexists; (split; [unfold init_logger_thread; cbn; rewrite ?decide_True by done; reflexivity|]); cbn; rewrite ?u32_small; lia.
Qed.

Lemma handshake_refines_witness :
  let g := state_zero in
  let s := Hs MUnlock LLock (Some ByMain) 1 0 0 false true false in
  exists g', init_logger_thread 0 g = (Val 0, g') /\ 1 = online_thread g'.
Proof.
  intros g s.
  destruct (handshake_refines g s 0 false (Hs (MReturned 0) LLock None 1 0 0 false true false) 0) as (g' & H1 & H2).
  - split; by vm_compute.
  - eapply (hs_run_reach [Main 0 false; Main 0 false; Log false; Main 0 false; Main 0 false]); [apply hs_refl|reflexivity].
  - reflexivity.
  - reflexivity.
  - reflexivity.
  - reflexivity.
  - exists g'. split; [exact H1|exact H2].
Defined.

(** ** A signal in between *)
Definition deaf (s : hs) : Prop :=
  l_pc s = LOff /\ online s = otv_old s /\ m_pc s ∈ [MTest; MSleep; MWait; MRelock].

Lemma deaf_step a s s' : deaf s -> hs_step a s = Some s' -> deaf s'.
Proof.
  intros (Hl & Ho & Hm) Hs. destruct s as [m l h o old oth st al fo]. cbn in *. subst l old.
  repeat (apply elem_of_cons in Hm as [->|Hm]; [
    destruct a as [rc force|early| | |[]]; unfold hs_step, main_step, log_step, acquire, signal in Hs; cbn in Hs;
      rewrite ?decide_True in Hs by done; try done; repeat case_match; try done; injection Hs as <-;
      (split; [done|]); (split; [done|]); by apply (bool_decide_unpack _)|]).
  by apply elem_of_nil in Hm.
Qed.

(** The run: the logger comes, is told to stop, and goes; then the main thread
    looks. *)
Definition unseen : list act :=
  [Main 0 false; Main 0 false] ++ replicate 6 (Log false) ++ [Interrupt] ++ replicate 5 (Log false) ++
  replicate 3 (Main 0 false).

(** C40: When a signal asks the server to stop before the main thread has looked,
    the logger may come and go unseen: from then on init_logger_thread does not
    return, whatever happens. *)
Theorem handshake_deadlock :
  exists s, hs_run unseen (hs_start 0) = Some s /\ m_pc s = MWait /\
    forall s', hs_reach s s' -> shaking (m_pc s') = true.
Proof.
  exists (Hs MWait LOff None 0 0 0 true true false). split; [reflexivity|]. split; [done|]. intros s' Hr.
  assert (deaf s') as (_ & _ & Hm).
  { induction Hr as [|s1 a s2 _ IH Hs]; [|by eapply deaf_step]. split; [done|]. split; [done|]. by apply (bool_decide_unpack _). }
  repeat (apply elem_of_cons in Hm as [->|Hm]; [done|]). by apply elem_of_nil in Hm.
Qed.

(** The logger never uses the state after it was destroyed, unless the main
    thread gave up waiting for the threads. *)
Theorem logger_outlived n s :
  0 <= n <= 65535 -> hs_reach (hs_start n) s -> forced s = false ->
  l_pc s <> LCrash /\ (alive s = false -> l_pc s = LOff).
Proof.
  intros Hn Hr Hf. destruct (hs_inv_reach n s Hn Hr) as [[? _]|[_ _ _ _ Hp]]; [congruence|].
  destruct s as [m l h o old oth st al fo]. cbn in *. by hs_cases.
Qed.

(** The server is stopped and the logger leaves before the state goes. *)
Lemma logger_outlived_witness :
  let l := [Main 0 false; Main 0 false] ++ replicate 6 (Log false) ++ replicate 4 (Main 0 false) ++
    replicate 5 (Log false) ++ [Main 0 false] in
  exists s, hs_run l (hs_start 0) = Some s /\ alive s = false /\ l_pc s = LOff.
Proof.
  intros l. destruct (hs_run l (hs_start 0)) as [s|] eqn:Hs; [|vm_compute in Hs; discriminate].
  assert (Ha : alive s = false) by (vm_compute in Hs; injection Hs as <-; reflexivity).
  exists s. split; [reflexivity|]. split; [exact Ha|]. apply (logger_outlived 0 s); [lia|eapply hs_run_reach; [apply hs_refl|exact Hs]| |exact Ha].
  vm_compute in Hs. injection Hs as <-. reflexivity.
Defined.
