(* ===== verification/ServerClient.v ===== *)
(** * One client connection: core/server.c, handle_client_event

    What the server makes of the bytes of a connection, whatever pieces [recv]
    delivers them in: the frame is submitted once, when it is complete, and
    the connection is closed; every other end of the connection submits
    nothing. *)
From S2P Require Import Prelude Tstack Que Config CString Gwbot Server ServerInv ServerInit.

(** ** Closing *)
Definition closed (fd : Z) (i : nat) (c : gwbot_chan) (stk : tstack) (s : gwbot_state) : gwbot_state :=
  s <| chan_stk := stk |> <| epl_map := <[Z.to_nat fd := EPL_MAP_TO_NOP]> (epl_map s) |>
    <| chans := <[i := reset_chan (chan_idx c) c]> (chans s) |>
    <| fds := fds s ∖ {[fd]} |> <| epl_set := epl_set s ∖ {[fd]} |>.

Lemma epoll_delete_run fd err s :
  exists r E, epoll_delete fd err s = (Val r, s <| epl_set := E |>) /\
    E ∖ {[fd]} = epl_set s ∖ {[fd]}.
Proof.
  unfold epoll_delete, upd_st. case_decide; munfold.
  - exists (- err), (epl_set s). by destruct s.
  - eexists _, _. split; [done|]. set_solver.
Qed.

Lemma reset_chan_ok i c : Z.of_nat i < EPL_MAP_SIZE -> chan_ok i c -> chan_ok i (reset_chan (chan_idx c) c).
Proof.
  intros Hi []. unfold EPL_MAP_SIZE in Hi. split; simpl; try done.
  rewrite co_idx, u16_small; lia.
Qed.

Section Close.
Context (n : nat) (l : list (positive * list byte)).

Lemma close_client_run s i c fd del :
  srv_wf n l s -> chans s !! i = Some c -> is_online c = true -> chan_fd c = fd ->
  exists stk', close_client fd (Z.of_nat i) del s = (Val tt, closed fd i c stk' s) /\
    srv_wf n l (closed fd i c stk' s) /\
    contents stk' = Z.of_nat i :: contents (chan_stk s).
Proof.
  intros [Hp Hw] Hc Hon Hfd.
  destruct (pool_room _ _ _ _ _ _ _ i c Hp Hc Hon) as [Hroom _].
  destruct (tss_push_room (chan_stk s) (Z.of_nat i)) as (stk' & Hpush & Hw' & Hs' & Hcap);
    [apply (pw_stk _ _ _ _ _ _ _ Hp)|done|].
  destruct (pw_chan _ _ _ _ _ _ _ Hp _ _ Hc) as [Hi _ _ _].
  destruct (pw_online _ _ _ _ _ _ _ Hp _ _ Hc Hon) as (_ & Hfd0 & Hm).
  apply lookup_lt_Some in Hm.
  exists stk'. split; [|split; [split|done]].
  - unfold close_client. erewrite bind_val by (apply get_chan_ok; [lia|by rewrite Nat2Z.id]).
    rewrite Hi. erewrite bind_val by (by apply in_chan_stk_ok).
    erewrite bind_val by (apply set_epl_map_ok; simpl; lia).
    match goal with |- (_ ← _; _) ?s0 = _ => destruct (epoll_delete_run fd del s0) as (r & E & Hd & HE) end.
    rewrite (bind_val _ _ _ _ _ Hd).
    erewrite bind_val by (apply (set_chan_ok _ _ c); [lia|by rewrite Nat2Z.id]).
    unfold sys_close, upd_st, closed, modify. simpl in *. rewrite HE, Nat2Z.id, Hi. done.
  - unfold closed. simpl. rewrite <- Hfd.
    apply (pool_close n (chans s) (epl_map s) (chan_stk s)); try done.
    apply reset_chan_ok; [|by apply (pw_chan _ _ _ _ _ _ _ Hp)].
    pose proof (pw_n _ _ _ _ _ _ _ Hp). apply lookup_lt_Some in Hc.
    rewrite (pw_len _ _ _ _ _ _ _ Hp) in Hc. lia.
  - done.
Qed.
End Close.

(** ** The verdict on the bytes received so far *)
Inductive verdict := Wait | TooBig | Surplus | Complete (k : Z).

Definition frame_verdict (raw : list byte) : verdict :=
  let got := Z.of_nat (length raw) - CHPKT_LEN in
  if decide (got < 0) then Wait
  else
    let k := net_len raw in
    if decide (k > CHPKT_DATA_BUFSIZ) then TooBig
    else if decide (got < k) then Wait
    else if decide (got > k) then Surplus else Complete k.

(** A frame: the length in network order, then the data. *)
Definition frame (p : list byte) : list byte :=
  zb (Z.of_nat (length p) / 256) :: zb (Z.of_nat (length p)) :: p.

Lemma net_len_frame p r :
  Z.of_nat (length p) < 2 ^ 16 -> net_len (frame p ++ r) = Z.of_nat (length p).
Proof.
  intros Hp. unfold frame, net_len. cbn [app].
  assert (Hz : forall z, zb z = zb (z mod 256)) by (intros; unfold zb; by rewrite Zmod_mod).
  rewrite (Hz (Z.of_nat (length p))), !bz_zb.
  - rewrite (Z.div_mod (Z.of_nat (length p)) 256) at 3 by lia. lia.
  - apply Z.mod_pos_bound. lia.
  - split; [apply Z.div_pos; lia|apply Z.div_lt_upper_bound; lia].
Qed.

Lemma frame_verdict_prefix p raw :
  Z.of_nat (length p) <= CHPKT_DATA_BUFSIZ -> raw `prefix_of` frame p -> raw <> frame p ->
  frame_verdict raw = Wait.
Proof.
  intros Hp [r Hr] Hne. unfold frame_verdict, CHPKT_LEN, CHPKT_DATA_BUFSIZ in *. case_decide; [done|].
  assert (Hlen : Z.of_nat (length raw) < 2 + Z.of_nat (length p)).
  { assert (Hr0 : r <> []) by (intros ->; rewrite app_nil_r in Hr; congruence).
    apply (f_equal length) in Hr. rewrite length_app in Hr. unfold frame in Hr. simpl in Hr.
    destruct r; [done|]. simpl in Hr. lia. }
  assert (Hk : net_len raw = Z.of_nat (length p)).
  { rewrite <- (net_len_frame p []) by lia. rewrite app_nil_r, Hr.
    by destruct raw as [|? [|? ?]]; simpl in *; try lia. }
  rewrite Hk, decide_False, decide_True by lia. done.
Qed.

Lemma frame_verdict_frame p :
  Z.of_nat (length p) <= CHPKT_DATA_BUFSIZ -> frame_verdict (frame p) = Complete (Z.of_nat (length p)).
Proof.
  intros Hp. unfold frame_verdict, CHPKT_LEN, CHPKT_DATA_BUFSIZ in *.
  rewrite <- (app_nil_r (frame p)), net_len_frame, app_nil_r by lia.
  unfold frame. cbn [length]. rewrite !decide_False by lia. done.
Qed.

(** ** handle_client_event3 *)

(** The channel once the frame is complete: length in host order, data, NUL. *)
Definition completed (c : gwbot_chan) (raw : list byte) (k : Z) : gwbot_chan :=
  c <| recv_s := Z.of_nat (length raw) |>
    <| pkt := host_len k ++ drop 2 raw ++ Byte.x00 :: drop (S (length raw)) (pkt c) |>.

Lemma cdata_small z : 0 <= z < 2 ^ 16 -> u16 (Z.land z 0xffff) = z.
Proof.
  intros Hz. change 0xffff with (Z.ones 16). rewrite Z.land_ones by lia.
  rewrite (Z.mod_small z) by done. by apply u16_small.
Qed.

Lemma complete_copy (raw rest : list byte) (k : Z) :
  Z.of_nat (length raw) = 2 + k -> (0 < length rest)%nat -> 0 <= k ->
  (pokes 0 (host_len k);; poke (CHPKT_LEN + k) Byte.x00) (raw ++ rest) =
    (Val tt, host_len k ++ drop 2 raw ++ Byte.x00 :: drop 1 rest).
Proof.
  intros Hl Hr Hk. destruct raw as [|b0 [|b1 raw]]; simpl in Hl; try lia.
  pose proof (pokes_app [] (b0 :: b1 :: raw ++ rest) 0 (host_len k) eq_refl) as Hp.
  rewrite !app_nil_l in Hp. cbn [app]. erewrite bind_val by (apply Hp; simpl; lia).
  cbn [length host_len drop]. rewrite drop_0, !app_assoc.
  rewrite poke_app; [done| |done]. rewrite length_app. simpl. unfold CHPKT_LEN. lia.
Qed.

Definition with_chan (i : nat) (c : gwbot_chan) (s : gwbot_state) : gwbot_state :=
  s <| chans := <[i := c]> (chans s) |>.

Lemma net_len_take l r : (2 <= length l)%nat -> net_len (l ++ r) = net_len l.
Proof. destruct l as [|? [|? ?]]; simpl; lia || done. Qed.

Lemma set_chan_with s i c f :
  chans s !! i = Some c -> set_chan (Z.of_nat i) f s = (Val tt, with_chan i (f c) s).
Proof. intros Hc. rewrite (set_chan_ok s _ c) by (rewrite ?Nat2Z.id; done || lia). by rewrite Nat2Z.id. Qed.

Lemma event3_run e s i c raw rest :
  chans s !! i = Some c -> pkt c = raw ++ rest -> Z.of_nat (length (pkt c)) = PKT_SIZE ->
  handle_client_event3 e (Z.of_nat (length raw)) (Z.of_nat i) s =
    match frame_verdict raw with
    | Wait => (Val 0, with_chan i (c <| recv_s := Z.of_nat (length raw) |>) s)
    | TooBig => (Val (- E2BIG), with_chan i (c <| recv_s := Z.of_nat (length raw) |>) s)
    | Surplus => (Val (- EINVAL), with_chan i (c <| recv_s := Z.of_nat (length raw) |>) s)
    | Complete k =>
        if decide (k = CHPKT_DATA_BUFSIZ) then
          (Fault FBounds, with_chan i (c <| recv_s := Z.of_nat (length raw) |>) s)
        else
          (ret ← submit_event e k (completed c raw k);
           if decide (ret <> 0) then mret ret else mret (- EINPROGRESS))
            (with_chan i (completed c raw k) s)
    end.
Proof.
  intros Hc Hp Hl. set (c1 := c <| recv_s := Z.of_nat (length raw) |>).
  assert (Hil : (i < length (chans s))%nat) by (by eapply lookup_lt_Some).
  assert (Hlen : Z.of_nat (length raw) + Z.of_nat (length rest) = PKT_SIZE)
    by (rewrite <- Hl, Hp, length_app; lia).
  assert (HP : PKT_SIZE = 24578) by done.
  unfold handle_client_event3. erewrite bind_val by (by apply set_chan_with). fold c1.
  unfold frame_verdict, CHPKT_LEN in *. case_decide as Hlt; [by rewrite decide_True by lia|].
  rewrite (decide_False (P := _ - 2 < 0)) by lia.
  assert (Hc1 : chans (with_chan i c1 s) !! i = Some c1) by (simpl; by rewrite list_lookup_insert_eq).
  erewrite bind_val by (apply get_chan_ok; [lia|by rewrite Nat2Z.id]).
  change (pkt c1) with (pkt c). rewrite Hp, net_len_take by lia. rewrite cdata_small by lia.
  case_decide as Hbig; [done|]. case_decide; [done|]. case_decide; [done|].
  assert (Hk : Z.of_nat (length raw) = 2 + net_len raw) by lia.
  unfold CHPKT_DATA_BUFSIZ in *. case_decide as Hmax.
  - rewrite Hmax in *. munfold.
    assert (Hpk : pokes 0 (host_len 24576) (raw ++ rest) = (Val tt, host_len 24576 ++ drop 2 (raw ++ rest))).
    { pose proof (pokes_app [] (raw ++ rest) 0 (host_len 24576) eq_refl) as Hq.
      rewrite !app_nil_l in Hq. apply Hq. rewrite length_app. simpl. lia. }
    rewrite Hpk. rewrite poke_oob; [done|].
    rewrite length_app, length_drop, length_app. simpl length. lia.
  - rewrite complete_copy by (unfold net_len in *; repeat case_match; try lia; pose proof (bz_range b); pose proof (bz_range b0); lia).
    munfold. erewrite set_chan_with by done.
    assert (Hc2 : chans (with_chan i (completed c raw (net_len raw)) s) !! i =
      Some (completed c raw (net_len raw))) by (simpl; by rewrite list_lookup_insert_eq).
    replace (with_chan i _ (with_chan i c1 s)) with (with_chan i (completed c raw (net_len raw)) s).
    2:{ unfold with_chan, completed, c1. simpl. rewrite list_insert_insert_eq.
        rewrite Hp. rewrite drop_app_ge, (Nat.sub_succ_l) by lia. rewrite Nat.sub_diag. done. }
    rewrite (get_chan_ok _ _ (completed c raw (net_len raw))); [done|lia|by rewrite Nat2Z.id].
Qed.

(** ** handle_client_event *)

(** The bytes the buffer of a channel holds after a [recv]. *)
Definition buffered (c : gwbot_chan) : list byte := take (Z.to_nat (recv_s c)) (pkt c).
Definition stream (c : gwbot_chan) (l : list byte) : list byte :=
  buffered c ++ take (Z.to_nat (PKT_SIZE - recv_s c)) l.

(** The bytes complete a frame of the greatest length the header check lets
    through: its terminator is stored behind the buffer. *)
Definition overlong (c : gwbot_chan) (e : cli_env) : Prop :=
  exists d, c_recv e = RecvData d /\ stream c d <> buffered c /\
    frame_verdict (stream c d) = Complete CHPKT_DATA_BUFSIZ.

Lemma overlong_dec c e : overlong c e \/ ~ overlong c e.
Proof.
  unfold overlong. destruct (c_recv e) as [d|x]; [|right; by intros (? & ? & _)].
  destruct (decide (stream c d = buffered c)) as [He|He]; [right; by intros (? & [= <-] & ? & _)|].
  destruct (frame_verdict (stream c d)) as [| | |k] eqn:Hv; [right; intros (? & [= <-] & _ & ?); congruence..|].
  destruct (decide (k = CHPKT_DATA_BUFSIZ)) as [->|Hk]; [left; by eauto|].
  right. intros (? & [= <-] & _ & ?). congruence.
Qed.

Definition cli_ok (s : gwbot_state) (c : gwbot_chan) (err : bool) (e : cli_env) : Prop :=
  mem_ok (s_mem (c_sub e)) s /\ (err = false -> ~ overlong c e).

(** The channel with more bytes in its buffer. *)
Definition received (c : gwbot_chan) (raw : list byte) : gwbot_chan :=
  c <| pkt := raw ++ drop (length raw) (pkt c) |> <| recv_s := Z.of_nat (length raw) |>.

Inductive client_out (e : cli_env) (i : nat) (c : gwbot_chan) (s : gwbot_state)
    (l : list (positive * list byte)) (err : bool) :
    gwbot_state -> list (positive * list byte) -> Prop :=
| out_again : err = false -> c_recv e = RecvErr EAGAIN -> client_out e i c s l err s l
| out_wait d :
    err = false -> c_recv e = RecvData d -> stream c d <> buffered c ->
    frame_verdict (stream c d) = Wait ->
    client_out e i c s l err (with_chan i (received c (stream c d)) s) l
| out_drop c' stk' :
    chan_fd c' = chan_fd c ->
    contents stk' = Z.of_nat i :: contents (chan_stk s) ->
    (err = true \/ (exists x, c_recv e = RecvErr x /\ x <> EAGAIN) \/
     (exists d, c_recv e = RecvData d /\
       (stream c d = buffered c \/ frame_verdict (stream c d) = TooBig \/
        frame_verdict (stream c d) = Surplus))) ->
    client_out e i c s l err (closed (chan_fd c) i c' stk' (with_chan i c' s)) l
| out_deliver d k ret s1 l' stk' :
    err = false -> c_recv e = RecvData d -> stream c d <> buffered c ->
    frame_verdict (stream c d) = Complete k ->
    submit_res (c_sub e) (CHPKT_LEN + k) (completed (received c (stream c d)) (stream c d) k)
      (with_chan i (completed (received c (stream c d)) (stream c d) k) s) l ret s1 l' ->
    contents stk' = Z.of_nat i :: contents (chan_stk s) ->
    client_out e i c s l err
      (closed (chan_fd c) i (completed (received c (stream c d)) (stream c d) k) stk' s1) l'.

Lemma submit_res_frame e k c s l ret s' l' :
  submit_res e k c s l ret s' l' ->
  chans s' = chans s /\ epl_map s' = epl_map s /\ chan_stk s' = chan_stk s /\ fds s' = fds s /\
  epl_set s' = epl_set s /\ tcp_fd s' = tcp_fd s /\ (ret = 0 \/ ret < 0) /\
  epl_fd s' = epl_fd s.
Proof.
  assert (Hs : forall t rc, spawn_ret t rc = 0 \/ spawn_ret t rc < 0).
  { intros t rc. unfold spawn_ret. destruct (th_online t); lia. }
  destruct 1 as [| |err ? [[-> _]|[-> _]]]; simpl; repeat split; auto;
    right; unfold EAGAIN, ENOMEM; lia.
Qed.

Lemma buffered_length c i : chan_ok i c -> Z.of_nat (length (buffered c)) = recv_s c.
Proof. intros []. unfold buffered. rewrite length_take. lia. Qed.

Lemma stream_length c d i : chan_ok i c -> Z.of_nat (length (stream c d)) <= PKT_SIZE.
Proof.
  intros Hc. unfold stream. rewrite length_app. pose proof (buffered_length c i Hc).
  rewrite length_take. destruct Hc. lia.
Qed.

Lemma recv_copy c d i :
  chan_ok i c ->
  pokes (recv_s c) (take (Z.to_nat (PKT_SIZE - recv_s c)) d) (pkt c) =
    (Val tt, pkt (received c (stream c d))).
Proof.
  intros Hc. pose proof (buffered_length c i Hc) as Hb. destruct Hc.
  set (got := take (Z.to_nat (PKT_SIZE - recv_s c)) d).
  pose proof (pokes_app (buffered c) (drop (Z.to_nat (recv_s c)) (pkt c)) (recv_s c) got) as Hp.
  unfold buffered in Hp at 2. rewrite take_drop in Hp. rewrite Hp; [|done|].
  - unfold received, stream. fold got. simpl. rewrite drop_drop, length_app.
    rewrite <- app_assoc. repeat f_equal. lia.
  - unfold got. rewrite length_take, length_drop. lia.
Qed.

Lemma received_ok i c d : chan_ok i c -> chan_ok i (received c (stream c d)).
Proof.
  intros Hc. pose proof (stream_length c d i Hc). destruct Hc. split; simpl; try done; [lia|].
  rewrite length_app, length_drop. lia.
Qed.

Lemma completed_ok i c raw rest k :
  chan_ok i c -> pkt c = raw ++ rest -> Z.of_nat (length raw) = 2 + k -> 0 <= k < CHPKT_DATA_BUFSIZ ->
  chan_ok i (completed c raw k).
Proof.
  intros Hc Hp Hr Hk. destruct Hc. unfold PKT_SIZE, CHPKT_LEN, CHPKT_DATA_BUFSIZ in *.
  split; simpl; try done; [unfold PKT_SIZE, CHPKT_LEN, CHPKT_DATA_BUFSIZ; lia|].
  rewrite length_app, !length_drop. cbn [length]. rewrite length_drop.
  unfold PKT_SIZE, CHPKT_LEN, CHPKT_DATA_BUFSIZ. lia.
Qed.

Lemma complete_bounds raw k : frame_verdict raw = Complete k ->
  Z.of_nat (length raw) = 2 + k /\ 0 <= k <= CHPKT_DATA_BUFSIZ.
Proof.
  unfold frame_verdict, CHPKT_LEN. repeat case_decide; try done. intros [= <-].
  split; [lia|]. split; [|lia]. unfold net_len. repeat case_match; try lia.
  pose proof (bz_range b). pose proof (bz_range b0). lia.
Qed.

Lemma srv_wf_chan n l s i c c' :
  srv_wf n l s -> chans s !! i = Some c -> chan_ok i c' -> is_online c' = is_online c ->
  chan_fd c' = chan_fd c -> srv_wf n l (with_chan i c' s).
Proof. intros [Hp Hw] Hc Hok Hon Hfd. split; [|done]. by eapply pool_upd. Qed.

Lemma close_with n l s i c c' del :
  srv_wf n l s -> chans s !! i = Some c -> is_online c = true -> chan_ok i c' ->
  is_online c' = true -> chan_fd c' = chan_fd c ->
  exists stk', close_client (chan_fd c) (Z.of_nat i) del (with_chan i c' s) =
      (Val tt, closed (chan_fd c) i c' stk' (with_chan i c' s)) /\
    srv_wf n l (closed (chan_fd c) i c' stk' (with_chan i c' s)) /\
    contents stk' = Z.of_nat i :: contents (chan_stk s).
Proof.
  intros Hw Hc Hon Hok Hon' Hfd.
  apply (close_client_run n l (with_chan i c' s) i c'); try done.
  { eapply srv_wf_chan; eauto; congruence. }
  simpl. apply list_lookup_insert_eq. by eapply lookup_lt_Some.
Qed.

Lemma with_chan_same s i c : chans s !! i = Some c -> with_chan i c s = s.
Proof. intros Hc. unfold with_chan. rewrite list_insert_id by done. by destruct s. Qed.

Section ClientEvent.
Context (n : nat) (l : list (positive * list byte)) (s : gwbot_state) (i : nat) (c : gwbot_chan).
Context (e : cli_env).
Hypothesis Hw : srv_wf n l s.
Hypothesis Hc : chans s !! i = Some c.
Hypothesis Hon : is_online c = true.
Hypothesis Hmem : mem_ok (s_mem (c_sub e)) s.

Local Lemma c_ok : chan_ok i c.
Proof. apply (pw_chan _ _ _ _ _ _ _ (proj1 Hw) _ _ Hc). Qed.

Lemma drop_run c' del err :
  chan_ok i c' -> is_online c' = true -> chan_fd c' = chan_fd c ->
  (err = true \/ (exists x, c_recv e = RecvErr x /\ x <> EAGAIN) \/
     (exists d, c_recv e = RecvData d /\
       (stream c d = buffered c \/ frame_verdict (stream c d) = TooBig \/
        frame_verdict (stream c d) = Surplus))) ->
  exists s', (close_client (chan_fd c) (Z.of_nat i) del;; mret 0) (with_chan i c' s) = (Val 0, s') /\
    srv_wf n l s' /\ client_out e i c s l err s' l.
Proof.
  intros Hok' Hon' Hfd Hwhy.
  destruct (close_with n l s i c c' del) as (stk' & Hrun & Hw' & Hs'); try done.
  eexists. rewrite (bind_val _ _ _ _ _ Hrun). split; [done|]. split; [done|]. by econstructor.
Qed.

Lemma deliver_run d k :
  c_recv e = RecvData d -> stream c d <> buffered c -> frame_verdict (stream c d) = Complete k ->
  k <> CHPKT_DATA_BUFSIZ ->
  exists ret s1 s' l',
    submit_event (c_sub e) k (completed (received c (stream c d)) (stream c d) k)
      (with_chan i (completed (received c (stream c d)) (stream c d) k) s) = (Val ret, s1) /\
    (ret = 0 \/ ret < 0) /\
    (close_client (chan_fd c) (Z.of_nat i) (c_del e);; mret 0) s1 = (Val 0, s') /\
    srv_wf n l' s' /\ client_out e i c s l false s' l'.
Proof.
  intros Hr Hne Hv Hmax. destruct (complete_bounds _ _ Hv) as [Hlen Hk].
  assert (Hk' : 0 <= k < CHPKT_DATA_BUFSIZ) by lia.
  set (c2 := completed (received c (stream c d)) (stream c d) k).
  assert (Hc2 : chan_ok i c2).
  { eapply completed_ok; [by apply received_ok, c_ok|done|done|done]. }
  assert (Hw2 : srv_wf n l (with_chan i c2 s)) by (by eapply srv_wf_chan).
  destruct (submit_event_run n l (c_sub e) k c2 (with_chan i c2 s)) as (ret & s1 & l' & Hrun & Hres & Hth);
    [apply Hw2|done|apply Hc2|done|].
  destruct (submit_res_frame _ _ _ _ _ _ _ _ Hres) as (H1 & H2 & H3 & H4 & H5 & H6 & Hret & _).
  assert (Hw1 : srv_wf n l' s1).
  { split; [|done]. rewrite H1, H2, H3, H4, H5, H6. apply Hw2. }
  assert (Hc1 : chans s1 !! i = Some c2).
  { rewrite H1. simpl. apply list_lookup_insert_eq. by eapply lookup_lt_Some. }
  destruct (close_client_run n l' s1 i c2 (chan_fd c) (c_del e)) as (stk' & Hcl & Hw' & Hs'); try done.
  rewrite H3 in Hs'. change (chan_stk (with_chan i c2 s)) with (chan_stk s) in Hs'.
  eexists _, _, _, _. split; [exact Hrun|]. split; [exact Hret|].
  rewrite (bind_val _ _ _ _ _ Hcl). split; [done|]. split; [done|].
  by eapply out_deliver.
Qed.

(** The receipt of bytes, up to the verdict on them. *)
Lemma recv_reads d :
  c_recv e = RecvData d -> stream c d <> buffered c ->
  handle_client_event2 e (chan_fd c) (Z.of_nat i) false s =
    (ret ← handle_client_event3 (c_sub e) (Z.of_nat (length (stream c d))) (Z.of_nat i);
     if decide (ret < 0) then close_client (chan_fd c) (Z.of_nat i) (c_del e);; mret 0 else mret 0)
      (with_chan i (c <| pkt := pkt (received c (stream c d)) |>) s).
Proof.
  intros Hr Hne. pose proof c_ok as Hco.
  destruct (pw_online _ _ _ _ _ _ _ (proj1 Hw) _ _ Hc Hon) as (_ & Hfd0 & _).
  unfold handle_client_event2. erewrite bind_val by (apply get_chan_ok; [lia|by rewrite Nat2Z.id]).
  rewrite bool_decide_eq_false_2 by lia. cbn [orb]. rewrite Hr, (recv_copy c d i) by done.
  munfold. erewrite set_chan_with by done. rewrite decide_False.
  - replace (recv_s c + _) with (Z.of_nat (length (stream c d))); [done|].
    unfold stream. rewrite length_app. pose proof (buffered_length c i Hco). lia.
  - intros He. apply Hne. unfold stream. by rewrite He, app_nil_r.
Qed.

Lemma recv_verdict d :
  c_recv e = RecvData d -> stream c d <> buffered c ->
  let c1 := c <| pkt := pkt (received c (stream c d)) |> in
  handle_client_event3 (c_sub e) (Z.of_nat (length (stream c d))) (Z.of_nat i) (with_chan i c1 s) =
    match frame_verdict (stream c d) with
    | Wait => (Val 0, with_chan i (received c (stream c d)) s)
    | TooBig => (Val (- E2BIG), with_chan i (received c (stream c d)) s)
    | Surplus => (Val (- EINVAL), with_chan i (received c (stream c d)) s)
    | Complete k =>
        if decide (k = CHPKT_DATA_BUFSIZ) then (Fault FBounds, with_chan i (received c (stream c d)) s)
        else
          (ret ← submit_event (c_sub e) k (completed (received c (stream c d)) (stream c d) k);
           if decide (ret <> 0) then mret ret else mret (- EINPROGRESS))
            (with_chan i (completed (received c (stream c d)) (stream c d) k) s)
    end.
Proof.
  intros Hr Hne c1. pose proof (received_ok i c d c_ok) as Hrok.
  assert (Hil : (i < length (chans s))%nat) by (by eapply lookup_lt_Some).
  rewrite (event3_run (c_sub e) (with_chan i c1 s) i c1 (stream c d) (drop (length (stream c d)) (pkt c)));
    [|simpl; by apply list_lookup_insert_eq|done|by destruct Hrok].
  assert (Hcc : forall x, with_chan i x (with_chan i c1 s) = with_chan i x s).
  { intros x. unfold with_chan. simpl. by rewrite list_insert_insert_eq. }
  rewrite !Hcc. destruct (frame_verdict (stream c d)) as [| | |k]; try done.
  by rewrite Hcc.
Qed.

Lemma recv_run d :
  c_recv e = RecvData d -> ~ overlong c e ->
  exists s' l', handle_client_event2 e (chan_fd c) (Z.of_nat i) false s = (Val 0, s') /\
    srv_wf n l' s' /\ client_out e i c s l false s' l'.
Proof.
  intros Hr Hmax. pose proof c_ok as Hco.
  destruct (pw_online _ _ _ _ _ _ _ (proj1 Hw) _ _ Hc Hon) as (_ & Hfd0 & _).
  destruct (decide (stream c d = buffered c)) as [He|Hne].
  { unfold handle_client_event2. erewrite bind_val by (apply get_chan_ok; [lia|by rewrite Nat2Z.id]).
    rewrite bool_decide_eq_false_2 by lia. cbn [orb]. rewrite Hr, (recv_copy c d i) by done.
    munfold. erewrite set_chan_with by done.
    set (c1 := c <| pkt := pkt (received c (stream c d)) |>).
    assert (Hc1 : chan_ok i c1) by (destruct (received_ok i c d Hco), Hco; by split).
    rewrite decide_True.
    - destruct (drop_run c1 (c_del e) false) as (s' & Hrun & ? & ?); try done; [by eauto 6|].
      exists s', l. split; [exact Hrun|done].
    - unfold stream in He. rewrite <- (app_nil_r (buffered c)) in He at 2. by simplify_list_eq. }
  rewrite (recv_reads d Hr Hne). pose proof (recv_verdict d Hr Hne) as Hv3. cbv zeta in Hv3.
  pose proof (received_ok i c d Hco) as Hrok.
  destruct (frame_verdict (stream c d)) as [| | |k] eqn:Hv.
  - rewrite (bind_val _ _ _ _ _ Hv3).
    eexists _, l. split; [done|]. split; [by eapply srv_wf_chan|]. by econstructor.
  - rewrite (bind_val _ _ _ _ _ Hv3).
    destruct (drop_run (received c (stream c d)) (c_del e) false) as (s' & Hrun & ? & ?); eauto 10.
  - rewrite (bind_val _ _ _ _ _ Hv3).
    destruct (drop_run (received c (stream c d)) (c_del e) false) as (s' & Hrun & ? & ?); eauto 10.
  - assert (Hk : k <> CHPKT_DATA_BUFSIZ) by (intros ->; apply Hmax; by exists d).
    rewrite decide_False in Hv3 by done.
    destruct (deliver_run d k Hr Hne Hv Hk) as (ret & s1 & s' & l' & Hsub & Hret & Hcl & ? & ?).
    exists s', l'. split; [|done]. unfold mbind, M_bind in *. rewrite Hv3, Hsub.
    destruct (decide (ret <> 0)); munfold; rewrite decide_True by (unfold EINPROGRESS; lia); exact Hcl.
Qed.

Lemma recv_overruns :
  overlong c e -> fst (handle_client_event2 e (chan_fd c) (Z.of_nat i) false s) = Fault FBounds.
Proof.
  intros (d & Hr & Hne & Hv). rewrite (recv_reads d Hr Hne).
  pose proof (recv_verdict d Hr Hne) as Hv3. cbv zeta in Hv3. rewrite Hv, decide_True in Hv3 by done.
  by rewrite (bind_fault _ _ _ _ _ Hv3).
Qed.

(** The map leads an event to its channel. *)
Lemma event_mapped err :
  handle_client_event e (chan_fd c) err s = handle_client_event2 e (chan_fd c) (Z.of_nat i) err s.
Proof.
  destruct (pw_online _ _ _ _ _ _ _ (proj1 Hw) _ _ Hc Hon) as (_ & Hfd0 & Hm).
  assert (Hi : Z.of_nat i < EPL_MAP_SIZE).
  { pose proof (pw_n _ _ _ _ _ _ _ (proj1 Hw)). apply lookup_lt_Some in Hc.
    rewrite (pw_len _ _ _ _ _ _ _ (proj1 Hw)) in Hc. lia. }
  unfold handle_client_event. erewrite bind_val by done. erewrite bind_val by (by apply aget_ok).
  rewrite decide_False by (unfold EPL_MAP_TO_NOP; lia).
  unfold EPL_MAP_SIZE, EPL_MAP_SHIFT in *. rewrite u16_small by lia. by rewrite Z.add_simpl_r.
Qed.

Lemma client_event_run err :
  (err = false -> ~ overlong c e) ->
  exists s' l', handle_client_event e (chan_fd c) err s = (Val 0, s') /\
    srv_wf n l' s' /\ client_out e i c s l err s' l'.
Proof.
  intros Hno. rewrite event_mapped.
  destruct (pw_online _ _ _ _ _ _ _ (proj1 Hw) _ _ Hc Hon) as (_ & Hfd0 & _).
  destruct err; [|destruct (c_recv e) as [d|x] eqn:Hr; [by apply (recv_run d); auto|]].
  - unfold handle_client_event2. erewrite bind_val by (apply get_chan_ok; [lia|by rewrite Nat2Z.id]).
    cbn [orb]. destruct (drop_run c (c_del e) true) as (s' & Hrun & ? & ?); try done; [apply c_ok|by left|].
    rewrite with_chan_same in Hrun by done. eauto.
  - unfold handle_client_event2. erewrite bind_val by (apply get_chan_ok; [lia|by rewrite Nat2Z.id]).
    rewrite bool_decide_eq_false_2 by lia. cbn [orb]. rewrite Hr. case_decide as Hx.
    + exists s, l. split; [done|]. split; [done|]. apply out_again; [done|by subst].
    + destruct (drop_run c (c_del e) false) as (s' & Hrun & ? & ?); try done; [apply c_ok|by eauto|].
      rewrite with_chan_same in Hrun by done. eauto.
Qed.

Lemma overlong_overruns :
  overlong c e -> fst (handle_client_event e (chan_fd c) false s) = Fault FBounds.
Proof. rewrite event_mapped. apply recv_overruns. Qed.
End ClientEvent.

(** ** What becomes of a frame *)

(** The packet [p], with what [submit_event] does with it: the first idle
    worker gets it, else the queue, if it has room and there is memory. *)
Definition delivered (p : list byte) (e : sub_env) (s : gwbot_state) (l : list (positive * list byte))
    (s' : gwbot_state) (l' : list (positive * list byte)) : Prop :=
  let k := Z.of_nat (length p) in
  match contents (thread_stk s) with
  | v :: st =>
      l' = l /\ contents (thread_stk s') = st /\
      exists t, threads s' !! Z.to_nat v = Some t /\ has_event t = true /\ ev_from_sqe t = false /\
        pkt_len t = CHPKT_LEN + k /\
        take (length p + 3) (th_pkt t) = host_len k ++ p ++ [Byte.x00]
  | [] =>
      contents (thread_stk s') = [] /\
      match s_mem e with
      | Some a =>
          if decide (Z.of_nat (length l) < qcapacity (que (sqes s)))
          then l' = l ++ [(a, host_len k ++ p)] else l' = l
      | None => l' = l
      end
  end.

(** The connection is closed and its slot is free again. *)
Definition hung_up (i : nat) (fd : Z) (s s' : gwbot_state) : Prop :=
  (exists c, chans s' !! i = Some c /\ is_online c = false /\ chan_fd c = -1 /\ recv_s c = 0) /\
  contents (chan_stk s') = Z.of_nat i :: contents (chan_stk s) /\
  epl_map s' !! Z.to_nat fd = Some EPL_MAP_TO_NOP /\ (fd ∉ fds s') /\ (fd ∉ epl_set s').

Lemma closed_hung_up s0 s i c fd stk :
  (i < length (chans s))%nat -> (Z.to_nat fd < length (epl_map s))%nat ->
  contents stk = Z.of_nat i :: contents (chan_stk s0) ->
  hung_up i fd s0 (closed fd i c stk s).
Proof.
  intros Hi Hfd Hs. split; [|split; [done|split; [|split]]]; simpl.
  - rewrite list_lookup_insert_eq by done. by eexists.
  - by rewrite list_lookup_insert_eq.
  - set_solver.
  - set_solver.
Qed.

(** The events of a connection, one after the other. *)
Fixpoint client_events (fd : Z) (es : list cli_env) : srv Z :=
  match es with
  | [] => mret 0
  | e :: es' => handle_client_event e fd false;; client_events fd es'
  end.

Lemma host_len_length k : length (host_len k) = 2%nat.
Proof. done. Qed.

Lemma submit_delivered p e c s l ret s' l' r :
  pkt c = host_len (Z.of_nat (length p)) ++ p ++ r ->
  submit_res e (CHPKT_LEN + Z.of_nat (length p)) c s l ret s' l' -> delivered p e s l s' l'.
Proof.
  intros Hc Hres. unfold delivered, CHPKT_LEN in *.
  assert (Htake : take (Z.to_nat (2 + Z.of_nat (length p))) (pkt c) =
    host_len (Z.of_nat (length p)) ++ p).
  { rewrite Hc, app_assoc, take_app_length' by (rewrite length_app, host_len_length; lia). done. }
  inversion Hres as [v st t stk' Hs Hv Ht Hh Hno Hs' Hcap|a q' Hs Hm Hlt Hcap Hfresh Hsame|err Hs Herr]; subst;
    rewrite Hs.
  - split; [done|]. split; [done|]. eexists. simpl.
    rewrite list_lookup_insert_eq by (by eapply lookup_lt_Some).
    split; [done|]. split_and!; try done. simpl. rewrite Htake.
    rewrite cons_middle, (app_assoc _ [Byte.x00]), take_app_length'; [by rewrite <- app_assoc|].
    rewrite !length_app, host_len_length. simpl. lia.
  - simpl. split; [done|]. rewrite Hm, decide_True by done. by rewrite Htake.
  - simpl. split; [done|]. destruct Herr as [[_ Hl]|[_ ->]]; [|done].
    destruct (s_mem e); [|done]. by rewrite decide_False by lia.
Qed.

Lemma stream_all c i d p :
  chan_ok i c -> Z.of_nat (length p) <= CHPKT_DATA_BUFSIZ -> buffered c ++ d `prefix_of` frame p ->
  stream c d = buffered c ++ d.
Proof.
  intros Hc Hp Hpre. unfold stream. rewrite take_ge; [done|].
  apply prefix_length in Hpre. rewrite length_app in Hpre. pose proof (buffered_length c i Hc).
  destruct Hc. unfold frame, PKT_SIZE, CHPKT_LEN in *. simpl in Hpre. lia.
Qed.

Lemma buffered_received c d : buffered (received c (stream c d)) = stream c d.
Proof. unfold buffered, received. simpl. by rewrite Nat2Z.id, take_app_length. Qed.

Section Frames.
Context (n : nat) (l : list (positive * list byte)) (i : nat) (p : list byte).
Context (sub : sub_env) (del : Z).
Hypothesis Hp : Z.of_nat (length p) < CHPKT_DATA_BUFSIZ.

Definition piece (d : list byte) : cli_env := CliEnv (RecvData d) sub del.

Lemma piece_ok c d : chan_ok i c -> buffered c ++ d `prefix_of` frame p -> ~ overlong c (piece d).
Proof.
  intros Hc Hpre (d' & [= <-] & _ & Hv). rewrite (stream_all c i d p) in Hv by (done || lia).
  destruct (decide (buffered c ++ d = frame p)) as [He|Hne].
  - rewrite He, frame_verdict_frame in Hv by lia. injection Hv. lia.
  - rewrite (frame_verdict_prefix p) in Hv by (done || lia). done.
Qed.

(** A piece that does not complete the frame. *)
Lemma piece_waits s c d :
  srv_wf n l s -> chans s !! i = Some c -> is_online c = true -> mem_ok (s_mem sub) s ->
  d <> [] -> buffered c ++ d `prefix_of` frame p -> buffered c ++ d <> frame p ->
  exists c', handle_client_event (piece d) (chan_fd c) false s = (Val 0, with_chan i c' s) /\
    srv_wf n l (with_chan i c' s) /\ is_online c' = true /\ chan_fd c' = chan_fd c /\
    buffered c' = buffered c ++ d.
Proof.
  intros Hw Hc Hon Hm Hd Hpre Hne.
  assert (Hco := pw_chan _ _ _ _ _ _ _ (proj1 Hw) _ _ Hc).
  pose proof (piece_ok c d Hco Hpre) as Hok.
  assert (Hstr : stream c d = buffered c ++ d) by (apply (stream_all c i d p); done || lia).
  assert (Hv : frame_verdict (stream c d) = Wait)
    by (rewrite Hstr; apply (frame_verdict_prefix p); done || lia).
  destruct (client_event_run n l s i c (piece d) Hw Hc Hon Hm false (fun _ => Hok)) as (s' & l' & Hrun & Hw' & Hout).
  inversion Hout as [|d' _ Hr _ _| c' stk' _ _ Hwhy|d' k ret s1 l1 stk' _ Hr _ Hv' _ _]; subst; try done.
  - injection Hr as <-. eexists. split; [exact Hrun|]. split; [done|]. split; [done|]. split; [done|].
    by rewrite buffered_received.
  - destruct Hwhy as [|[(x & Hx & _)|(d' & Hr & Hwhy)]]; try done. injection Hr as <-.
    destruct Hwhy as [He|[He|He]]; [|congruence..]. rewrite Hstr in He.
    rewrite <- (app_nil_r (buffered c)) in He at 2. by simplify_list_eq.
  - injection Hr as <-. congruence.
Qed.

(** The piece that completes it: the packet is submitted and the slot freed. *)
Lemma piece_submits s c d :
  srv_wf n l s -> chans s !! i = Some c -> is_online c = true -> mem_ok (s_mem sub) s ->
  d <> [] -> buffered c ++ d = frame p ->
  exists c' ret s1 l' stk',
    handle_client_event (piece d) (chan_fd c) false s = (Val 0, closed (chan_fd c) i c' stk' s1) /\
    srv_wf n l' (closed (chan_fd c) i c' stk' s1) /\
    submit_res sub (CHPKT_LEN + Z.of_nat (length p)) c' (with_chan i c' s) l ret s1 l' /\
    contents stk' = Z.of_nat i :: contents (chan_stk s) /\
    exists r, pkt c' = host_len (Z.of_nat (length p)) ++ p ++ r.
Proof.
  intros Hw Hc Hon Hm Hd Hpre.
  assert (Hco := pw_chan _ _ _ _ _ _ _ (proj1 Hw) _ _ Hc).
  assert (Hok : ~ overlong c (piece d)) by (apply piece_ok; [done|by rewrite Hpre]).
  assert (Hstr : stream c d = frame p).
  { rewrite <- Hpre. apply (stream_all c i d p); [done|lia|by rewrite Hpre]. }
  assert (Hv := frame_verdict_frame p ltac:(lia)). rewrite <- Hstr in Hv.
  destruct (client_event_run n l s i c (piece d) Hw Hc Hon Hm false (fun _ => Hok)) as (s' & l' & Hrun & Hw' & Hout).
  inversion Hout as [|d' _ Hr _ Hv'| c' stk' _ _ Hwhy|d' k ret s1 l1 stk' _ Hr Hne Hv' Hsub Hs]; subst; try done.
  - injection Hr as <-. congruence.
  - destruct Hwhy as [|[(x & Hx & _)|(d' & Hr & Hwhy)]]; try done. injection Hr as <-.
    destruct Hwhy as [He|[He|He]]; [|congruence..]. rewrite Hstr, <- Hpre in He.
    rewrite <- (app_nil_r (buffered c)) in He at 2. by simplify_list_eq.
  - injection Hr as <-. rewrite Hv in Hv'. injection Hv' as <-. rewrite Hstr in *.
    eexists _, ret, s1, l', stk'. split; [done|]. split; [done|]. split; [exact Hsub|]. split; [done|]. by eexists.
Qed.

Lemma piece_delivers s c d :
  srv_wf n l s -> chans s !! i = Some c -> is_online c = true -> mem_ok (s_mem sub) s ->
  d <> [] -> buffered c ++ d = frame p ->
  exists s' l', handle_client_event (piece d) (chan_fd c) false s = (Val 0, s') /\
    srv_wf n l' s' /\ delivered p sub s l s' l' /\ hung_up i (chan_fd c) s s'.
Proof.
  intros Hw Hc Hon Hm Hd Hpre.
  destruct (pw_online _ _ _ _ _ _ _ (proj1 Hw) _ _ Hc Hon) as (_ & Hfd0 & Hmap).
  destruct (piece_submits s c d Hw Hc Hon Hm Hd Hpre) as (c' & ret & s1 & l' & stk' & Hrun & Hw' & Hsub & Hs & r & Hpk).
  destruct (submit_res_frame _ _ _ _ _ _ _ _ Hsub) as (H1 & H2 & H3 & _).
  exists (closed (chan_fd c) i c' stk' s1), l'. split; [done|]. split; [done|]. split.
  - eapply (submit_delivered p) in Hsub; [|done]. exact Hsub.
  - apply closed_hung_up; [|by rewrite H2; eapply lookup_lt_Some|done].
    rewrite H1. simpl. rewrite length_insert. by eapply lookup_lt_Some.
Qed.

Lemma pieces_deliver ds s c :
  srv_wf n l s -> chans s !! i = Some c -> is_online c = true -> mem_ok (s_mem sub) s ->
  ds <> [] -> Forall (fun d => d <> []) ds -> buffered c ++ concat ds = frame p ->
  exists s' l', client_events (chan_fd c) (piece <$> ds) s = (Val 0, s') /\
    srv_wf n l' s' /\ delivered p sub s l s' l' /\ hung_up i (chan_fd c) s s'.
Proof.
  revert s c. induction ds as [|d ds IH]; intros s c Hw Hc Hon Hm Hne Hall Hcat; [done|].
  apply Forall_cons in Hall as [Hd Hall]. cbn [fmap list_fmap client_events].
  destruct ds as [|d' ds].
  - simpl in Hcat. rewrite app_nil_r in Hcat.
    destruct (piece_delivers s c d Hw Hc Hon Hm Hd Hcat) as (s' & l' & Hrun & ?).
    exists s', l'. rewrite (bind_val _ _ _ _ _ Hrun). done.
  - cbn [concat] in Hcat. apply Forall_cons in Hall as Hd'.
    destruct (piece_waits s c d Hw Hc Hon Hm Hd) as (c' & Hrun & Hw' & Hon' & Hfd & Hbuf).
    { rewrite <- Hcat, app_assoc. by eexists. }
    { rewrite <- Hcat. intros He. rewrite app_assoc, <- (app_nil_r (_ ++ d)) in He at 1.
      destruct d'; [by destruct Hd'|]. by simplify_list_eq. }
    rewrite (bind_val _ _ _ _ _ Hrun), <- Hfd.
    destruct (IH (with_chan i c' s) c') as (s' & l' & Hrun' & Hw'' & Hdel & Hup); try done.
    + simpl. apply list_lookup_insert_eq. by eapply lookup_lt_Some.
    + rewrite Hbuf, <- app_assoc. done.
    + exists s', l'. done.
Qed.
End Frames.

(** C7: However the bytes of a frame of fewer than 24576 bytes of data arrive, in
    pieces of any length, the packet is submitted exactly once, when its last
    byte is there: to the first idle worker; when none is idle to the queue, if
    it has room and there is memory for a node, and else it is dropped.  The
    connection is closed and its slot freed; the pieces before change nothing
    outside the channel. *)
Theorem frame_delivered n l s i c p sub del ds :
  srv_wf n l s -> chans s !! i = Some c -> is_online c = true -> recv_s c = 0 ->
  mem_ok (s_mem sub) s -> Z.of_nat (length p) < CHPKT_DATA_BUFSIZ ->
  Forall (fun d => d <> []) ds -> concat ds = frame p ->
  exists s' l', client_events (chan_fd c) (piece sub del <$> ds) s = (Val 0, s') /\
    srv_wf n l' s' /\ delivered p sub s l s' l' /\ hung_up i (chan_fd c) s s'.
Proof.
  intros Hw Hc Hon Hr Hm Hp Hne Hcat.
  apply (pieces_deliver n l i p sub del Hp ds s c); try done.
  - by intros ->.
  - unfold buffered. by rewrite Hr.
Qed.

(** C28: A frame that announces too much data, or that carries more than it
    announces, is refused: the connection is closed and no worker, no queue
    and no other channel sees anything of it. *)
Theorem frame_refused n l s i c e d :
  srv_wf n l s -> chans s !! i = Some c -> is_online c = true ->
  c_recv e = RecvData d -> mem_ok (s_mem (c_sub e)) s ->
  frame_verdict (stream c d) = TooBig \/ frame_verdict (stream c d) = Surplus ->
  exists s', handle_client_event e (chan_fd c) false s = (Val 0, s') /\ srv_wf n l s' /\
    hung_up i (chan_fd c) s s' /\ threads s' = threads s /\ thread_stk s' = thread_stk s /\
    sqes s' = sqes s /\ spawned s' = spawned s /\
    (forall j, j <> i -> chans s' !! j = chans s !! j).
Proof.
  intros Hw Hc Hon Hr Hm Hv.
  assert (Hok : ~ overlong c e).
  { intros (d' & Hd' & _ & Hx). rewrite Hr in Hd'. injection Hd' as <-. destruct Hv; congruence. }
  destruct (pw_online _ _ _ _ _ _ _ (proj1 Hw) _ _ Hc Hon) as (_ & _ & Hmap).
  destruct (client_event_run n l s i c e Hw Hc Hon Hm false (fun _ => Hok)) as (s' & l' & Hrun & Hw' & Hout).
  exists s'. split; [done|].
  destruct Hout as [_ Hx|d' _ Hr' _ Hv'|c' stk' Hfd Hs Hwhy|d' k ret s1 l1 stk' _ Hr' _ Hv' _ _].
  - congruence.
  - rewrite Hr in Hr'. injection Hr' as <-. destruct Hv; congruence.
  - split; [done|]. split.
    + apply closed_hung_up; simpl; [|by eapply lookup_lt_Some|done].
      rewrite length_insert. by eapply lookup_lt_Some.
    + split_and!; try done. intros j Hj. simpl. by rewrite !list_lookup_insert_ne by done.
  - rewrite Hr in Hr'. injection Hr' as <-. destruct Hv; congruence.
Qed.

(** A complete frame of the greatest length the header check lets through:
    its terminator is stored one byte behind the buffer. *)
Theorem maximal_frame_overruns n l s i c e p :
  srv_wf n l s -> chans s !! i = Some c -> is_online c = true -> recv_s c = 0 ->
  Z.of_nat (length p) = CHPKT_DATA_BUFSIZ -> c_recv e = RecvData (frame p) ->
  fst (handle_client_event e (chan_fd c) false s) = Fault FBounds.
Proof.
  intros Hw Hc Hon Hr Hp He.
  apply (overlong_overruns n l s i c e Hw Hc Hon). exists (frame p). split; [done|].
  assert (Hstr : stream c (frame p) = frame p).
  { unfold stream, buffered. rewrite Hr. apply take_ge.
    unfold frame, PKT_SIZE, CHPKT_LEN, CHPKT_DATA_BUFSIZ in *. simpl length. lia. }
  rewrite Hstr, frame_verdict_frame by lia. rewrite Hp. split; [|done]. unfold buffered. by rewrite Hr.
Qed.

(** *** Witnesses *)
Lemma frame_delivered_witness :
  exists s s' l', srv_wf 2 [] s /\
    client_events 5 [piece (SubEnv 0 None) 0 [Byte.x00]; piece (SubEnv 0 None) 0 [Byte.x02; "h"%byte];
      piece (SubEnv 0 None) 0 ["i"%byte]] s = (Val 0, s') /\
    delivered (bs "hi") (SubEnv 0 None) s [] s' l' /\ hung_up 0 5 s s'.
Proof.
  destruct demo_connected as (s & c & Hw & Hc & Hon & Hfd & Hr & _).
  destruct (frame_delivered 2 [] s 0 c (bs "hi") (SubEnv 0 None) 0
    [[Byte.x00]; [Byte.x02; "h"%byte]; ["i"%byte]]) as (s' & l' & Hrun & _ & Hdel & Hup).
  - exact Hw.
  - exact Hc.
  - exact Hon.
  - exact Hr.
  - exact I.
  - reflexivity.
  - repeat constructor; discriminate.
  - reflexivity.
  - rewrite Hfd in *. exists s, s', l'. split; [exact Hw|split; [exact Hrun|split; [exact Hdel|exact Hup]]].
Defined.

Lemma frame_refused_witness :
  exists s s', handle_client_event (piece (SubEnv 0 None) 0 (bs "get / ")) 5 false s = (Val 0, s') /\
    hung_up 0 5 s s' /\ threads s' = threads s.
Proof.
  destruct demo_connected as (s & c & Hw & Hc & Hon & Hfd & Hr & _).
  destruct (frame_refused 2 [] s 0 c (piece (SubEnv 0 None) 0 (bs "get / ")) (bs "get / "))
    as (s' & Hrun & _ & Hup & Ht & _).
  - exact Hw.
  - exact Hc.
  - exact Hon.
  - reflexivity.
  - exact I.
  - unfold stream, buffered. rewrite Hr. left. reflexivity.
  - rewrite Hfd in *. exists s, s'. split; [exact Hrun|split; [exact Hup|exact Ht]].
Defined.

Lemma maximal_frame_overruns_witness :
  exists s, srv_wf 2 [] s /\
    fst (handle_client_event (piece (SubEnv 0 None) 0 (frame (replicate 24576 "a"%byte))) 5 false s) =
      Fault FBounds.
Proof.
  destruct demo_connected as (s & c & Hw & Hc & Hon & Hfd & Hr & _). exists s. split; [exact Hw|].
  rewrite <- Hfd. apply (maximal_frame_overruns 2 [] s 0 c _ (replicate 24576 "a"%byte)).
  - exact Hw.
  - exact Hc.
  - exact Hon.
  - exact Hr.
  - rewrite length_replicate. vm_compute. reflexivity.
  - reflexivity.
Defined.
