(* ===== verification/ServerLoop.v ===== *)
(** * The event loop: core/server.c, handle_events to wait_for_threads

    Every batch of events that epoll can report is handled without a panic, an
    out-of-bounds access or a failed assertion, and keeps the invariant of
    ServerInv.v; so do the dispatch of queued packets, the monitor of slow
    clients and the shutdown. *)
From S2P Require Import Prelude Tstack Que Config CString Gwbot Server ServerInv ServerClient ServerInit.

(** ** Events *)

(** The descriptors epoll may report. *)
Definition registered (s : gwbot_state) (fd : Z) : Prop :=
  fd = tcp_fd s \/ exists i c, chans s !! i = Some c /\ is_online c = true /\ chan_fd c = fd.

Lemma epl_registered n l s fd : srv_wf n l s -> fd ∈ epl_set s -> registered s fd.
Proof.
  intros [Hp _] Hfd. destruct (decide (fd = tcp_fd s)) as [->|Hne]; [by left|right].
  destruct (pw_epl _ _ _ _ _ _ _ Hp fd Hfd Hne) as (H0 & v & Hm & Hv).
  destruct (pw_map _ _ _ _ _ _ _ Hp _ _ Hm Hv) as (_ & c & Hc & Hon & He).
  exists (Z.to_nat (v - 1)), c. rewrite Z2Nat.id in He by done. done.
Qed.

(** What the kernel, the allocator and the client may do while an event is
    handled. *)
Definition event_ok (s : gwbot_state) (ev : event) : Prop :=
  acc_ok s (ev_acc ev) /\
  (forall i c, chans s !! i = Some c -> is_online c = true -> chan_fd c = ev_fd ev ->
     cli_ok s c (ev_err ev) (ev_cli ev)).

Lemma registered_chan s s' i c' fd :
  tcp_fd s' = tcp_fd s -> chans s' = <[i := c']> (chans s) ->
  (forall c, chans s !! i = Some c -> is_online c = true ->
     chan_fd c <> fd \/ (is_online c' = true /\ chan_fd c' = chan_fd c)) ->
  registered s fd -> registered s' fd.
Proof.
  intros Ht Hch Hi [->|(j & c & Hj & Hon & Hfd)]; [by left|right].
  rewrite Hch. destruct (decide (i = j)) as [->|Hne].
  - destruct (Hi c Hj Hon) as [?|[Hon' Hfd']]; [done|]. exists j, c'.
    rewrite list_lookup_insert_eq by (by eapply lookup_lt_Some). split; [done|]. split; congruence.
  - exists j, c. by rewrite list_lookup_insert_ne.
Qed.

Lemma registered_same s s' fd :
  tcp_fd s' = tcp_fd s -> chans s' = chans s -> registered s fd -> registered s' fd.
Proof. unfold registered. by intros -> ->. Qed.

Lemma acc_out_registered n l e s ret s' fd :
  srv_wf n l s -> acc_out e s ret s' -> registered s fd -> registered s' fd /\ tcp_fd s' = tcp_fd s.
Proof.
  intros [Hp _] Hout Hr. destruct Hout as [| | |fd' v st stk' now ip ip' c Ha Ht He Hip Hs Hs' Hv Hc Hcs];
    (split; [|done]); try done.
  eapply (registered_chan s _ (Z.to_nat v)); [done|reflexivity|intros c0 Hc0 Hon|exact Hr].
  destruct (pw_free _ _ _ _ _ _ _ Hp v) as (_ & d & Hd & Hoff); [rewrite Hs; by left|]. congruence.
Qed.

Lemma client_out_registered e i c s l err s' l' fd :
  chans s !! i = Some c -> client_out e i c s l err s' l' -> fd <> chan_fd c ->
  registered s fd -> registered s' fd /\ tcp_fd s' = tcp_fd s.
Proof.
  intros Hc Hout Hne Hr.
  destruct Hout as [| |c' stk' Hfd Hs Hwhy|d k ret s1 l1 stk' Herr Hrecv Hgot Hv Hsub Hs].
  - done.
  - split; [|done].
    eapply (registered_chan s _ i (received c (stream c d))); [done|reflexivity| |exact Hr].
    intros c0 Hc0 Hon. right. by simplify_eq.
  - split; [|done]. eapply (registered_chan s _ i); [done| | |exact Hr].
    { simpl. by rewrite list_insert_insert_eq. }
    intros c0 Hc0 _. left. simplify_eq. done.
  - destruct (submit_res_frame _ _ _ _ _ _ _ _ Hsub) as (H1 & _ & _ & _ & _ & H6 & _).
    split; [|done]. eapply (registered_chan s _ i); [done| | |exact Hr].
    { simpl. rewrite H1. simpl. by rewrite list_insert_insert_eq. }
    intros c0 Hc0 _. left. simplify_eq. done.
Qed.

(** Every open descriptor has an owner: the epoll instance, the listener or a
    channel. *)
Definition fds_known (s : gwbot_state) : Prop :=
  forall fd, fd ∈ fds s -> 0 <= fd /\ (fd = epl_fd s \/ registered s fd).

Lemma acc_out_known n l e s ret s' :
  srv_wf n l s -> acc_ok s e -> acc_out e s ret s' -> fds_known s -> fds_known s'.
Proof.
  intros Hw Ha Hout Hk fd Hfd.
  assert (Hreg := fun Hr => acc_out_registered n l e s ret s' fd Hw Hout Hr).
  assert (Hold : fd ∈ fds s -> 0 <= fd /\ (fd = epl_fd s' \/ registered s' fd)).
  { intros Hin. destruct (Hk fd Hin) as [H0 [He|Hr]]; (split; [done|]); [left|right; by apply Hreg].
    rewrite He. by destruct Hout. }
  destruct Hout as [|fd' ret Hf Hwhy|fd' v st stk' ret Hf Hs Hs' Hwhy
    |fd' v st stk' now ip ip' c Hf Ht He Hip Hs Hs' Hv Hc Hcs].
  - by apply Hold.
  - apply Hold. simpl in Hfd. set_solver.
  - apply Hold. simpl in Hfd. set_solver.
  - simpl in Hfd. apply elem_of_union in Hfd as [->%elem_of_singleton|Hin]; [|by apply Hold].
    unfold acc_ok in Ha. rewrite Hf in Ha. destruct Ha as (Hr0 & _). split; [lia|].
    right. right. eexists (Z.to_nat v), _. simpl. split; [|split].
    + apply list_lookup_insert_eq. by eapply lookup_lt_Some.
    + done.
    + done.
Qed.

Lemma client_out_known e i c s l err s' l' :
  chans s !! i = Some c -> is_online c = true -> client_out e i c s l err s' l' ->
  fds_known s -> fds_known s'.
Proof.
  intros Hc Hon Hout Hk fd Hfd.
  assert (Hreg := fun Hne Hr => proj1 (client_out_registered e i c s l err s' l' fd Hc Hout Hne Hr)).
  assert (Hold : fd ∈ fds s -> fd <> chan_fd c -> epl_fd s' = epl_fd s ->
    0 <= fd /\ (fd = epl_fd s' \/ registered s' fd)).
  { intros Hin Hne ->. destruct (Hk fd Hin) as [H0 [He|Hr]]; (split; [done|]); auto. }
  destruct Hout as [| |c' stk' Hfd' Hs Hwhy|d k ret s1 l1 stk' Herr Hrecv Hgot Hv Hsub Hs].
  - by apply Hk.
  - simpl in Hfd. destruct (decide (fd = chan_fd c)) as [->|Hne]; [|by apply Hold].
    split; [by apply (Hk (chan_fd c))|]. right. right. eexists i, _. simpl.
    rewrite list_lookup_insert_eq by (by eapply lookup_lt_Some). split; [done|]. done.
  - simpl in Hfd. apply Hold; [set_solver|set_solver|done].
  - destruct (submit_res_frame _ _ _ _ _ _ _ _ Hsub) as (_ & _ & _ & Hf & _ & _ & _ & He).
    simpl in Hfd. rewrite Hf in Hfd. simpl in Hfd. apply Hold; [set_solver|set_solver|exact He].
Qed.

Lemma handle_event_run n l s ev :
  srv_wf n l s -> registered s (ev_fd ev) -> event_ok s ev ->
  exists ret s' l', handle_event ev s = (Val ret, s') /\ srv_wf n l' s' /\ (fds_known s -> fds_known s') /\
    tcp_fd s' = tcp_fd s /\ (forall fd, fd <> ev_fd ev -> registered s fd -> registered s' fd).
Proof.
  intros Hw Hr [Ha Hc]. unfold handle_event. erewrite bind_val by reflexivity. case_decide as Htcp.
  - unfold handle_tcp_event. destruct (ev_err ev).
    { eexists _, s, l. done. }
    destruct (run_acceptor_spec n l s (ev_acc ev) Hw Ha) as (ret & s' & Hrun & Hw' & Hout).
    exists ret, s', l. split; [done|]. split; [done|]. split; [by eapply acc_out_known|].
    assert (H := fun fd => acc_out_registered n l _ _ _ _ fd Hw Hout).
    split; [by destruct (H (tcp_fd s)); [left|]|]. intros fd _ Hfd. by apply H.
  - destruct Hr as [?|(i & c & Hi & Hon & Hfd)]; [done|].
    destruct (Hc i c Hi Hon Hfd) as [Hmem Hno].
    destruct (client_event_run n l s i c (ev_cli ev) Hw Hi Hon Hmem (ev_err ev) Hno)
      as (s' & l' & Hrun & Hw' & Hout).
    exists 0, s', l'. rewrite <- Hfd. split; [done|]. split; [done|].
    split; [by eapply client_out_known|].
    assert (H := fun fd => client_out_registered _ _ _ _ _ _ _ _ fd Hi Hout).
    split; [|intros fd Hne Hreg; by apply H].
    destruct (H (tcp_fd s)); [congruence|by left|done].
Qed.

(** The environment's part, along the run. *)
Fixpoint events_ok (evs : list event) (s : gwbot_state) : Prop :=
  match evs with
  | [] => True
  | ev :: evs' =>
      event_ok s ev /\ forall s', handle_event ev s = (Val 0, s') -> events_ok evs' s'
  end.

Lemma handle_events_run n evs l s :
  srv_wf n l s -> NoDup (ev_fd <$> evs) -> Forall (registered s) (ev_fd <$> evs) ->
  events_ok evs s ->
  exists ret s' l', handle_events evs s = (Val ret, s') /\ srv_wf n l' s' /\ tcp_fd s' = tcp_fd s /\
    (fds_known s -> fds_known s').
Proof.
  revert l s. induction evs as [|ev evs IH]; intros l s Hw Hnd Hreg Hok.
  { by exists 0, s, l. }
  cbn [fmap list_fmap] in Hnd, Hreg.
  apply NoDup_cons in Hnd as [Hni Hnd]. apply Forall_cons in Hreg as [Hr Hreg].
  destruct Hok as [Hev Hok]. cbn [handle_events].
  destruct (handle_event_run n l s ev Hw Hr Hev) as (ret & s1 & l1 & Hrun & Hw1 & Hk1 & Ht1 & Hr1).
  rewrite (bind_val _ _ _ _ _ Hrun). case_decide as Hret; [by exists ret, s1, l1|].
  assert (ret = 0) as -> by lia.
  destruct (IH l1 s1 Hw1 Hnd) as (ret & s' & l' & Hrun' & Hw' & Ht' & Hk').
  - rewrite Forall_forall in Hreg |- *. intros fd Hfd. apply Hr1; [by intros ->|by apply Hreg].
  - by apply Hok.
  - exists ret, s', l'. split; [done|]. split; [done|]. split; [congruence|auto].
Qed.

(** ** monitor_client_time *)
Definition with_shut (S : gset Z) (s : gwbot_state) : gwbot_state := s <| shut := S |>.

(** The connections that are more than ten seconds old, among the slots
    [i], ..., [i + k - 1]. *)
Definition late (now : Z) (i k : nat) (s : gwbot_state) (fd : Z) : Prop :=
  exists j c, (i <= j < i + k)%nat /\ chans s !! j = Some c /\ is_online c = true /\
    now - accepted_at c > 10 /\ chan_fd c = fd.

Lemma monitor_loop_run now k i s :
  (i + k <= length (chans s))%nat ->
  exists S, monitor_loop now k i s = (Val tt, with_shut S s) /\
    forall fd, fd ∈ S <-> fd ∈ shut s \/ late now i k s fd.
Proof.
  revert i s. induction k as [|k IH]; intros i s Hl; cbn [monitor_loop].
  { exists (shut s). split; [by destruct s|]. intros fd. split; [by left|].
    intros [?|(j & c & Hj & _)]; [done|lia]. }
  destruct (lookup_lt_is_Some_2 (chans s) i) as [c Hc]; [lia|].
  erewrite bind_val by (apply get_chan_ok; [lia|by rewrite Nat2Z.id]).
  set (hit := is_online c = true /\ now - accepted_at c > 10).
  assert (Hstep : exists S1, (if is_online c then
       if decide (now - accepted_at c > 10) then sys_shutdown (chan_fd c) else mret tt
     else mret tt) s = (Val tt, with_shut S1 s) /\
     forall fd, fd ∈ S1 <-> fd ∈ shut s \/ (hit /\ chan_fd c = fd)).
  { unfold hit. destruct (is_online c); [case_decide|].
    - exists ({[chan_fd c]} ∪ shut s). split; [done|]. set_solver.
    - exists (shut s). split; [by destruct s|]. set_solver by lia.
    - exists (shut s). split; [by destruct s|]. intros fd. split; [by left|]. by intros [?|[[]]]. }
  destruct Hstep as (S1 & Hrun & HS1). rewrite (bind_val _ _ _ _ _ Hrun).
  destruct (IH (S i) (with_shut S1 s)) as (S2 & Hrun2 & HS2); [simpl; lia|].
  exists S2. split; [exact Hrun2|]. intros fd. rewrite HS2. simpl. rewrite HS1. unfold hit, late. simpl.
  split.
  - intros [[?|[[] ?]]|(j & d & ? & ? & ? & ? & ?)]; [by left|right..].
    + exists i, c. split; [lia|]. done.
    + exists j, d. split; [lia|]. done.
  - intros [?|(j & d & Hj & Hd & ? & ? & ?)]; [by left; left|].
    destruct (decide (j = i)) as [->|Hne]; [left; right; by simplify_eq|].
    right. exists j, d. split; [lia|]. done.
Qed.

(** ** dispatch_sqe *)

(** The worker [v] after it has been given the queue node [a]. *)
Definition dispatched (t : gwbot_thread) (a : positive) (d : list byte) : gwbot_thread :=
  t <| ev_from_sqe := true |> <| has_event := true |> <| pkt_len := le16 d |> <| sqe_node := Some a |>.

Inductive dispatch_res (rc : Z) (s : gwbot_state) :
    list (positive * list byte) -> gwbot_state -> list (positive * list byte) -> Prop :=
| disp_busy l : contents (thread_stk s) = [] -> dispatch_res rc s l s l
| disp_done v st t stk' q' a d l :
    contents (thread_stk s) = v :: st -> 0 <= v -> threads s !! Z.to_nat v = Some t ->
    has_event t = false -> sqe_node t = None -> contents stk' = st ->
    capacity stk' = capacity (thread_stk s) -> nodes q' = nodes (sqes s) ->
    (exists node, nodes q' !! a = Some node /\ node_holds node d) -> a ∉ l.*1 ->
    qcapacity (que q') = qcapacity (que (sqes s)) ->
    dispatch_res rc s ((a, d) :: l)
      (s <| thread_stk := stk' |> <| sqes := q' |>
         <| threads := <[Z.to_nat v := dispatched t a d]> (threads s) |>
         <| spawned := spawn_log t v rc s |>) l.

Lemma load_live a q node : nodes q !! a = Some node -> load (Some a) q = (Val node, q).
Proof. intros Ha. unfold load. munfold. by rewrite Ha. Qed.

Lemma le16_app d r : 2 <= Z.of_nat (length d) -> le16 (d ++ r) = le16 d.
Proof. destruct d as [|? [|? ?]]; simpl; [lia|lia|done]. Qed.

(** A queue node moves to a worker. *)
Lemma workers_dispatch n ths stk stk' q q' l i t a d :
  workers_wf n ths stk q ((a, d) :: l) -> ths !! i = Some t -> sqe_node t = None ->
  nodes q' = nodes q -> que_rep q' l -> a ∉ l.*1 -> is_Some (nodes q !! a) ->
  tss_wf stk' -> capacity stk' = capacity stk -> NoDup (contents stk') ->
  (forall v, v ∈ contents stk' -> v <> Z.of_nat i /\ v ∈ contents stk) ->
  workers_wf n (<[i := dispatched t a d]> ths) stk' q' l.
Proof.
  intros Hw Ht Hno Hq Hrep Ha Hlive Hw' Hcap Hnd Hv. destruct Hw.
  assert (Hil : (i < length ths)%nat) by (by eapply lookup_lt_Some).
  assert (Hold : forall j u b, ths !! j = Some u -> sqe_node u = Some b -> b <> a /\ b ∉ l.*1).
  { intros j u b Hj Hb. destruct (ww_node j u b Hj Hb) as [Hnb _].
    by rewrite fmap_cons, not_elem_of_cons in Hnb. }
  split; try done; rewrite ?length_insert; try done; try congruence.
  - intros j u [[<- [<- _]]|[_ Hj]]%list_lookup_insert_Some; [|auto].
    destruct (ww_thread _ _ Ht). by split.
  - intros v Hin. destruct (Hv v Hin) as [Hne Hin']. destruct (ww_free v Hin') as (H0 & u & Hu & ?).
    split; [done|]. exists u. by rewrite list_lookup_insert_ne by lia.
  - intros b e Hb. apply (ww_len_ok b). by right.
  - intros j u b [[<- [<- _]]|[_ Hj]]%list_lookup_insert_Some Hb.
    + injection Hb as <-. rewrite Hq. done.
    + destruct (Hold j u b Hj Hb) as [_ Hnb]. destruct (ww_node j u b Hj Hb) as [_ ?].
      rewrite Hq. done.
  - intros j k u w b Hj Hk Hb Hb'.
    apply list_lookup_insert_Some in Hj as [[<- [<- _]]|[Hnj Hj]];
      apply list_lookup_insert_Some in Hk as [[<- [<- _]]|[Hnk Hk]]; [done| | |by eauto].
    + injection Hb as <-. by destruct (Hold k w a Hk Hb').
    + injection Hb' as <-. by destruct (Hold j u a Hj Hb).
Qed.

Lemma dispatch_sqe_run n rc s l :
  srv_wf n l s -> l <> [] ->
  exists s' l', dispatch_sqe rc s = (Val tt, s') /\ srv_wf n l' s' /\ dispatch_res rc s l s' l'.
Proof.
  intros [Hp Hw] Hl. destruct l as [|[a d] l]; [done|]. unfold dispatch_sqe.
  destruct (contents (thread_stk s)) as [|v st] eqn:Hs.
  { exists s, ((a, d) :: l).
    erewrite bind_val by (apply in_thread_stk_ok, tss_pop_empty; [apply (ww_stk _ _ _ _ _ Hw)|done]).
    split; [by destruct s|]. split; [done|]. by constructor. }
  destruct (tss_pop_cons (thread_stk s) v st) as (stk' & Hpop & Hw' & Hs' & Hcap);
    [apply (ww_stk _ _ _ _ _ Hw)|done|].
  erewrite bind_val by (by apply in_thread_stk_ok).
  destruct (ww_free _ _ _ _ _ Hw v) as (Hv & t & Ht & Hev & Hno); [rewrite Hs; by left|].
  rewrite decide_False by lia.
  destruct (que_dequeue_cons (sqes s) a d l) as (q' & node & Hdq & Hrep & Hn & Hqc & Hnode & Hholds & Hna);
    [apply (ww_que _ _ _ _ _ Hw)|].
  erewrite bind_val by (by apply get_thread_ok).
  erewrite bind_val by (by apply in_sqes_ok).
  cbv beta iota. erewrite bind_val by (apply in_sqes_ok, load_live; simpl; by rewrite Hn).
  pose proof Hholds as [Hlen Hdata].
  assert (Hd2 := ww_len_ok _ _ _ _ _ Hw a d ltac:(by left)).
  rewrite Hdata, le16_app by done.
  erewrite bind_val by (apply (set_thread_ok _ _ t); done). 
  set (s1 := s <| thread_stk := stk' |> <| sqes := q' |>
         <| threads := <[Z.to_nat v := dispatched t a d]> (threads s) |>).
  exists (s1 <| spawned := spawn_log t v rc s |>), l. split; [|split; [split|]].
  - unfold spawn_log. destruct (th_online t); [by destruct s|].
    destruct (spawn_thread_run v rc s1) as (ret & Hr & _). erewrite bind_val by exact Hr.
    case_decide; by destruct s.
  - done.
  - simpl. pose proof (ww_nodup _ _ _ _ _ Hw) as Hnd. rewrite Hs in Hnd. apply NoDup_cons in Hnd as [Hvn Hnd].
    eapply (workers_dispatch n (threads s) (thread_stk s) stk' (sqes s)); try done; try (by rewrite Hs').
    intros w. rewrite Hs', Hs. intros Hin. split; [|by right]. rewrite Z2Nat.id by done. by intros ->.
  - eapply disp_done; try done. exists node. by rewrite Hn.
Qed.

(** ** run_event_loop *)
Lemma count_pos q l : que_rep q l -> (que_count q > 0 <-> l <> []).
Proof. intros []. unfold que_count. rewrite rep_count. destruct l; simpl; split; done || lia. Qed.

Lemma loop_head_run n s l t :
  srv_wf n l s ->
  exists s' l', loop_head (Z.of_nat n) t s = (Val tt, s') /\ srv_wf n l' s' /\ (fds_known s -> fds_known s').
Proof.
  intros Hw. unfold loop_head. erewrite bind_val by reflexivity.
  assert (Hd : exists s1 l1, (if decide (que_count (sqes s) > 0) then dispatch_sqe (t_spawn t) else mret tt) s =
    (Val tt, s1) /\ srv_wf n l1 s1 /\ (fds_known s -> fds_known s1)).
  { case_decide as Hc; [|by exists s, l].
    apply (count_pos _ l) in Hc; [|apply (ww_que _ _ _ _ _ (proj2 Hw))].
    destruct (dispatch_sqe_run n (t_spawn t) s l Hw Hc) as (s1 & l1 & ? & ? & Hres). exists s1, l1.
    split; [done|]. split; [done|]. by destruct Hres. }
  destruct Hd as (s1 & l1 & Hrun & Hw1 & Hk1). rewrite (bind_val _ _ _ _ _ Hrun).
  erewrite bind_val by (apply in_chan_stk_ok, tss_count_spec, (pw_stk _ _ _ _ _ _ _ (proj1 Hw1))).
  replace (s1 <| chan_stk := chan_stk s1 |>) with s1 by (by destruct s1).
  erewrite bind_val by reflexivity.
  assert (Hm : exists s2, (if decide (Z.of_nat (length (contents (chan_stk s1))) <> capacity (chan_stk s1)) then
       monitor_client_time (t_time t) (Z.of_nat n);; mret tt else mret tt) s1 = (Val tt, s2) /\ srv_wf n l1 s2 /\
       (fds_known s1 -> fds_known s2)).
  { clear Hrun. case_decide; [|by exists s1]. unfold monitor_client_time. destruct (t_time t) as [now|err]; [|by exists s1].
    destruct (monitor_loop_run now n 0 s1) as (S & Hr & _).
    { rewrite (pw_len _ _ _ _ _ _ _ (proj1 Hw1)). lia. }
    rewrite Nat2Z.id. exists (with_shut S s1).
    split; [munfold; by rewrite Hr|]. split; [exact Hw1|]. intros Hks. exact Hks. }
  destruct Hm as (s2 & Hr2 & Hw2 & Hk2). rewrite (bind_val _ _ _ _ _ Hr2).
  destruct (t_sig t); [|exists s2, l1; split; [done|]; split; [done|auto]].
  eexists _, l1. split; [reflexivity|]. split; [exact Hw2|]. intros Hks. exact (Hk2 (Hk1 Hks)).
Qed.

Definition after_events (ret : Z) (s : gwbot_state) : gwbot_state :=
  if decide (ret <> 0 /\ ret <> - EAGAIN) then s <| stop_el := true |> else s.

(** The environment's part in the turns of the loop: epoll reports distinct
    descriptors of its set. *)
Fixpoint turns_ok (thread_c : Z) (ts : list turn) (s : gwbot_state) : Prop :=
  match ts with
  | [] => True
  | t :: ts' =>
      forall s1, loop_head thread_c t s = (Val tt, s1) ->
        match t_epoll t with
        | inl evs =>
            NoDup (ev_fd <$> evs) /\ Forall (fun fd => fd ∈ epl_set s1) (ev_fd <$> evs) /\
            events_ok evs s1 /\
            forall ret s2, handle_events evs s1 = (Val ret, s2) -> turns_ok thread_c ts' (after_events ret s2)
        | inr _ => turns_ok thread_c ts' s1
        end
  end.

Lemma run_event_loop_run n ts l s ret :
  srv_wf n l s -> turns_ok (Z.of_nat n) ts s ->
  exists r s' l', run_event_loop (Z.of_nat n) ts ret s = (Val r, s') /\ srv_wf n l' s' /\
    (fds_known s -> fds_known s').
Proof.
  revert l s ret. induction ts as [|t ts IH]; intros l s ret Hw Hok; cbn [run_event_loop];
    (erewrite bind_val by reflexivity); destruct (stop_el s); try (by eexists _, _, l).
  destruct (loop_head_run n s l t Hw) as (s1 & l1 & Hrun & Hw1 & Hk1).
  rewrite (bind_val _ _ _ _ _ Hrun). specialize (Hok s1 Hrun).
  destruct (t_epoll t) as [[|ev evs]|err].
  - destruct Hok as (_ & _ & _ & Hok). destruct (IH l1 s1 ret Hw1 (Hok 0 s1 eq_refl)) as (r & s' & l' & ? & ? & ?).
    exists r, s', l'. auto.
  - destruct Hok as (Hnd & Hset & Hev & Hok).
    destruct (handle_events_run n (ev :: evs) l1 s1 Hw1 Hnd) as (r & s2 & l2 & Hrun2 & Hw2 & _ & Hk2).
    { eapply Forall_impl; [exact Hset|]. intros fd. by eapply epl_registered. }
    { done. }
    rewrite (bind_val _ _ _ _ _ Hrun2).
    assert (Hafter : forall k : unit -> srv (Z + Z), ((if decide (r <> 0 /\ r <> - EAGAIN)
        then upd_st (fun s => s <| stop_el := true |>) else mret tt) ≫= k) s2 = k tt (after_events r s2)).
    { intros k. unfold after_events. by case_decide. }
    rewrite Hafter. assert (Hwa : srv_wf n l2 (after_events r s2)) by (unfold after_events; by case_decide).
    destruct (IH l2 (after_events r s2) r Hwa (Hok r s2 Hrun2)) as (r' & s' & l' & ? & ? & Hk').
    exists r', s', l'. split; [done|]. split; [done|]. intros Hks. apply Hk'. unfold after_events.
    case_decide; exact (Hk2 (Hk1 Hks)).
  - case_decide; [|by eexists _, _, l1].
    destruct (IH l1 s1 ret Hw1 Hok) as (r & s' & l' & ? & ? & ?). exists r, s', l'. auto.
Qed.

(** ** What a turn does *)

(** Exactly the connections older than ten seconds are shut down, and nothing
    else changes. *)
Theorem monitor_shuts_late n l s now :
  srv_wf n l s ->
  exists S, monitor_client_time (inl now) (Z.of_nat n) s = (Val 0, s <| shut := S |>) /\
    forall fd, fd ∈ S <-> fd ∈ shut s \/
      exists j c, chans s !! j = Some c /\ is_online c = true /\ now - accepted_at c > 10 /\ chan_fd c = fd.
Proof.
  intros Hw. unfold monitor_client_time. rewrite Nat2Z.id.
  pose proof (pw_len _ _ _ _ _ _ _ (proj1 Hw)) as Hl.
  destruct (monitor_loop_run now n 0 s) as (S & Hr & HS); [lia|].
  exists S. rewrite (bind_val _ _ _ _ _ Hr). split; [done|]. intros fd. rewrite HS. unfold late.
  split; (intros [?|(j & c & H)]; [by left|right]); exists j, c.
  - tauto.
  - destruct H as (Hj & H). apply lookup_lt_Some in Hj as Hlt. split; [lia|done].
Qed.

(** C29: The oldest packet of the queue goes to the worker on top of the stack,
    which sees its text and owns its node; without an idle worker nothing
    happens. *)
Theorem dispatch_hands_over n l s rc a p :
  srv_wf n ((a, host_len (Z.of_nat (length p)) ++ p) :: l) s -> Z.of_nat (length p) < CHPKT_DATA_BUFSIZ ->
  no_nul p ->
  (contents (thread_stk s) = [] /\ dispatch_sqe rc s = (Val tt, s)) \/
  (exists v st s' t node, contents (thread_stk s) = v :: st /\ dispatch_sqe rc s = (Val tt, s') /\
     srv_wf n l s' /\ contents (thread_stk s') = st /\ threads s' !! Z.to_nat v = Some t /\
     has_event t = true /\ sqe_node t = Some a /\ nodes (sqes s') !! a = Some node /\
     c_str (event_text (Some node) t) = p /\ pkt_len t = Z.of_nat (length p)).
Proof.
  intros Hw Hp Hnn.
  destruct (dispatch_sqe_run n rc s _ Hw) as (s' & l' & Hrun & Hw' & Hres); [done|].
  inversion Hres as [l0 Hs Hl1 Hl2 Hl3|v st t stk' q' a' d l0 Hs Hv Ht Hh Hno Hs' Hcap Hnq (node & Hnode & Hholds) Ha Hq];
    subst; [by left|right].
  eexists v, _, _, (dispatched t a _), node. split; [exact Hs|]. split; [exact Hrun|]. split; [exact Hw'|].
  simpl. split; [done|]. split; [apply list_lookup_insert_eq; by eapply lookup_lt_Some|].
  split; [done|]. split; [done|]. split; [done|]. unfold event_text. simpl.
  destruct Hholds as [_ Hdata]. rewrite Hdata. unfold host_len in *. simpl.
  split; [by apply c_str_asz|]. unfold le16, CHPKT_DATA_BUFSIZ in *.
  assert (Hz : forall z, bz (zb z) = z mod 256).
  { intros z. rewrite <- (bz_zb (z mod 256)) by (apply Z.mod_pos_bound; lia).
    unfold zb. by rewrite Zmod_mod. }
  rewrite !Hz, (Z.mod_small (_ / 256)) by (split; [apply Z.div_pos; lia|apply Z.div_lt_upper_bound; lia]).
  pose proof (Z.div_mod (Z.of_nat (length p)) 256). lia.
Qed.

(** *** Witnesses *)
Lemma monitor_shuts_late_witness :
  exists s S, monitor_client_time (inl 1011) 2 s = (Val 0, s <| shut := S |>) /\ 5 ∈ S.
Proof.
  destruct demo_connected as (s & c & Hw & Hc & Hon & Hfd & _ & Hat & _).
  destruct (monitor_shuts_late 2 [] s 1011) as (S & Hrun & HS).
  - exact Hw.
  - exists s, S. split; [exact Hrun|]. apply HS. right. exists 0%nat, c.
    rewrite Hat. split; [exact Hc|]. split; [exact Hon|]. split; [reflexivity|exact Hfd].
Defined.

(** A server with one packet in the queue, and every worker free. *)
Lemma demo_queued :
  exists s, srv_wf 2 [(1%positive, host_len 2 ++ bs "hi")] s /\ contents (thread_stk s) = [0; 1].
Proof.
  destruct demo_waiting as (s & [Hp Hw] & _ & Hts & _ & Hn & _).
  destruct (que_enqueue_room 1 (host_len 2 ++ bs "hi") 4 (qinit 5) []) as (q & _ & Hrep & _).
  { split; simpl; try done; try lia. constructor. }
  { simpl. lia. }
  { done. }
  { simpl. lia. }
  exists (s <| sqes := q |>). split; [|exact Hts]. split; [exact Hp|].
  pose proof Hw as []. split; try done.
  - intros a d Hd. apply list_elem_of_singleton in Hd. injection Hd as _ ->. simpl. lia.
  - intros i t a Ht Ha. exfalso. destruct (ww_node i t a Ht Ha) as [_ [x Hx]]. by rewrite Hn in Hx.
Qed.

Lemma dispatch_hands_over_witness :
  exists s s' t node, dispatch_sqe 0 s = (Val tt, s') /\ threads s' !! 0%nat = Some t /\
    c_str (event_text (Some node) t) = bs "hi".
Proof.
  destruct demo_queued as (s & Hw & Hts).
  destruct (dispatch_hands_over 2 [] s 0 1 (bs "hi")) as [[Hs _]|(v & st & s' & t & node & Hs & Hrun & _ & _ & Ht & _ & _ & _ & Htxt & _)].
  - exact Hw.
  - reflexivity.
  - repeat constructor; discriminate.
  - rewrite Hts in Hs. discriminate Hs.
  - rewrite Hts in Hs. injection Hs as <- _. exists s, s', t, node.
    split; [exact Hrun|split; [exact Ht|exact Htxt]].
Defined.
