(* ===== verification/ServerStop.v ===== *)
(** * Shutdown and the whole run: core/server.c, close_fds, wait_for_threads,
      destroy_state and gwbot_run *)
From S2P Require Import Prelude Tstack Que Config CString Gwbot Server ServerInv ServerInit ServerClient ServerLoop.

(** ** close_fds *)
Definition stopped (F E S : gset Z) (C : list gwbot_chan) (s : gwbot_state) : gwbot_state :=
  s <| fds := F |> <| epl_set := E |> <| shut := S |> <| chans := C |>.

(** The descriptors of the online channels of the slots [i], ..., [i + k - 1]. *)
Definition chan_fds (C : list gwbot_chan) (i k : nat) (fd : Z) : Prop :=
  exists j c, (i <= j < i + k)%nat /\ C !! j = Some c /\ is_online c = true /\ chan_fd c = fd.

(** One turn of the loop. *)
Lemma close_chan_step i c s :
  chans s !! i = Some c ->
  exists F E S C,
    (if is_online c then
       sys_shutdown (chan_fd c);; sys_close (chan_fd c);;
       set_chan (Z.of_nat i) (fun c => reset_chan (chan_idx c) c)
     else mret tt) s = (Val tt, stopped F E S C s) /\
    (forall fd, fd ∈ F <-> fd ∈ fds s /\ ~ (is_online c = true /\ chan_fd c = fd)) /\
    (forall j, j <> i -> C !! j = chans s !! j) /\
    (exists d, C !! i = Some d /\ is_online d = false) /\ length C = length (chans s).
Proof.
  intros Hc. destruct (is_online c) eqn:Hon.
  - exists (fds s ∖ {[chan_fd c]}), (epl_set s ∖ {[chan_fd c]}), ({[chan_fd c]} ∪ shut s),
      (<[i := reset_chan (chan_idx c) c]> (chans s)). split.
    { erewrite bind_val by reflexivity. erewrite bind_val by reflexivity.
      rewrite (set_chan_with _ i c) by done. reflexivity. }
    split; [|split; [|split]].
    + intros fd. rewrite elem_of_difference, elem_of_singleton.
      split; intros [? Hn]; (split; [done|]); [intros [_ He]; congruence|intros He; by apply Hn].
    + intros j Hj. by rewrite list_lookup_insert_ne by done.
    + rewrite list_lookup_insert_eq by (by eapply lookup_lt_Some). by eexists.
    + by rewrite length_insert.
  - exists (fds s), (epl_set s), (shut s), (chans s). split; [by destruct s|].
    split; [|split; [done|split; [by eauto|done]]].
    intros fd. split; [|tauto]. intros H. split; [done|]. by intros [? _].
Qed.

Lemma close_chans_run k i s :
  (i + k <= length (chans s))%nat ->
  exists F E S C, close_chans_loop k i s = (Val tt, stopped F E S C s) /\
    (forall fd, fd ∈ F <-> fd ∈ fds s /\ ~ chan_fds (chans s) i k fd) /\
    (forall j, ~ (i <= j < i + k)%nat -> C !! j = chans s !! j) /\
    (forall j c, (i <= j < i + k)%nat -> C !! j = Some c -> is_online c = false) /\
    length C = length (chans s).
Proof.
  revert i s. induction k as [|k IH]; intros i s Hl; cbn [close_chans_loop].
  { exists (fds s), (epl_set s), (shut s), (chans s). split; [by destruct s|].
    split; [|split; [done|split; [lia|done]]].
    intros fd. split; [|tauto]. intros H. split; [done|]. intros (j & _ & ? & _). lia. }
  destruct (lookup_lt_is_Some_2 (chans s) i) as [c Hc]; [lia|].
  erewrite bind_val by (apply get_chan_ok; [lia|by rewrite Nat2Z.id]).
  destruct (close_chan_step i c s Hc) as (F1 & E1 & S1 & C1 & Hrun & HF1 & HC1 & (d & Hd & Hoff) & Hlen).
  rewrite (bind_val _ _ _ _ _ Hrun).
  destruct (IH (S i) (stopped F1 E1 S1 C1 s)) as (F & E & S' & C & Hrun2 & HF & HC & HCoff & Hlen2);
    [simpl; lia|]. simpl in HF, HC, Hlen2.
  exists F, E, S', C. split; [exact Hrun2|]. split; [|split; [|split; [|congruence]]].
  - intros fd. rewrite HF, HF1. split.
    + intros [[Hfd Hni] Hno]. split; [done|]. intros (j & c' & Hj & Hc' & Hon & He).
      destruct (decide (j = i)) as [->|Hne]; [simplify_eq; tauto|].
      apply Hno. exists j, c'. rewrite HC1 by done. split; [lia|]. done.
    + intros [Hfd Hno]. split; [split; [done|]|].
      * intros [Hon He]. apply Hno. exists i, c. split; [lia|]. done.
      * intros (j & c' & Hj & Hc' & Hon & He). apply Hno. exists j, c'.
        rewrite HC1 in Hc' by lia. split; [lia|]. done.
  - intros j Hj. rewrite HC, HC1 by lia. done.
  - intros j c' Hj Hc'. destruct (decide (j = i)) as [->|Hne].
    + rewrite HC, Hd in Hc' by lia. by simplify_eq.
    + apply (HCoff j c'); [lia|done].
Qed.

Lemma close_tcp s :
  exists F E,
    (if decide (tcp_fd s <> -1) then
       sys_close (tcp_fd s);; upd_st (fun s => s <| tcp_fd := -1 |>) else mret tt) s =
      (Val tt, s <| fds := F |> <| epl_set := E |> <| tcp_fd := -1 |>) /\
    (forall fd, fd ∈ F <-> fd ∈ fds s /\ (fd = tcp_fd s -> fd = -1)).
Proof.
  case_decide as Ht.
  - exists (fds s ∖ {[tcp_fd s]}), (epl_set s ∖ {[tcp_fd s]}). split; [reflexivity|].
    intros fd. rewrite elem_of_difference, elem_of_singleton. intuition congruence.
  - assert (He : tcp_fd s = -1) by lia. exists (fds s), (epl_set s). split.
    + destruct s. simpl in *. by subst.
    + intros fd. rewrite He. tauto.
Qed.

Lemma close_epl s0 s :
  epl_fd s0 = epl_fd s ->
  exists F E,
    (if decide (epl_fd s0 <> -1) then
       sys_close (epl_fd s0);; upd_st (fun s => s <| epl_fd := -1 |>) else mret tt) s =
      (Val tt, s <| fds := F |> <| epl_set := E |> <| epl_fd := -1 |>) /\
    (forall fd, fd ∈ F <-> fd ∈ fds s /\ (fd = epl_fd s -> fd = -1)).
Proof.
  intros ->. case_decide as Ht.
  - exists (fds s ∖ {[epl_fd s]}), (epl_set s ∖ {[epl_fd s]}). split; [reflexivity|].
    intros fd. rewrite elem_of_difference, elem_of_singleton. intuition congruence.
  - assert (He : epl_fd s = -1) by lia. exists (fds s), (epl_set s). split.
    + destruct s. simpl in *. by subst.
    + intros fd. rewrite He. tauto.
Qed.

Lemma close_fds_run s :
  exists F E S C, close_fds (Z.of_nat (length (chans s))) s =
      (Val tt, stopped F E S C s <| tcp_fd := -1 |> <| epl_fd := -1 |>) /\
    (forall fd, fd ∈ F <-> fd ∈ fds s /\ (fd = tcp_fd s -> fd = -1) /\ (fd = epl_fd s -> fd = -1) /\
       ~ chan_fds (chans s) 0 (length (chans s)) fd) /\
    (forall j c, C !! j = Some c -> is_online c = false) /\ length C = length (chans s).
Proof.
  unfold close_fds. erewrite bind_val by reflexivity. rewrite Nat2Z.id.
  destruct (close_tcp s) as (F1 & E1 & Hr1 & HF1). rewrite (bind_val _ _ _ _ _ Hr1).
  set (s1 := s <| fds := F1 |> <| epl_set := E1 |> <| tcp_fd := -1 |>).
  destruct (close_epl s s1 eq_refl) as (F2 & E2 & Hr2 & HF2). rewrite (bind_val _ _ _ _ _ Hr2).
  set (s2 := s1 <| fds := F2 |> <| epl_set := E2 |> <| epl_fd := -1 |>).
  destruct (close_chans_run (length (chans s)) 0 s2) as (F & E & S & C & Hrun & HF & _ & Hoff & Hlen).
  { reflexivity. }
  exists F, E, S, C. split; [exact Hrun|]. split; [|split; [|exact Hlen]].
  - intros fd. rewrite HF. change (fds s2) with F2. rewrite HF2. change (fds s1) with F1. rewrite HF1.
    change (epl_fd s1) with (epl_fd s). change (chans s2) with (chans s). tauto.
  - intros j c Hj. apply (Hoff j c); [|done]. apply lookup_lt_Some in Hj. rewrite Hlen in Hj.
    change (chans s2) with (chans s) in Hj. lia.
Qed.

(** ** wait_for_threads *)
Lemma wait_loop_ends fuel seen k counter i :
  1 <= counter <= 300001 -> 300001 - counter < Z.of_nat fuel -> 0 <= k ->
  exists r, wait_loop fuel seen k counter i = Some r /\ k <= r <= k + (300002 - counter) /\
    (i <= 0 -> r = k) /\
    (0 < i ->
      (k < r /\ seen (Z.to_nat (r - 1)) <= 0 /\ (forall j, k <= j < r - 1 -> 0 < seen (Z.to_nat j))) \/
      (r = k + (300002 - counter) /\ (forall j, k <= j < r - 1 -> 0 < seen (Z.to_nat j)))).
Proof.
  revert k counter i. induction fuel as [|fuel IH]; intros k counter i Hc Hf Hk; [lia|].
  cbn [wait_loop]. case_decide as Hi; [|exists k; split_and!; done || lia].
  case_decide as Hgt.
  { exists (k + 1). split_and!; try lia; [done|]. right. split; [lia|]. lia. }
  destruct (IH (k + 1) (counter + 1) (seen (Z.to_nat k))) as (r & Hr & Hb & H0 & H1); [lia|lia|lia|].
  exists r. split; [done|]. split; [lia|]. split; [lia|]. intros _.
  destruct (decide (0 < seen (Z.to_nat k))) as [Hs|Hs].
  - assert (Hstep : forall j, (k + 1 <= j < r - 1 -> 0 < seen (Z.to_nat j)) -> k <= j < r - 1 ->
      0 < seen (Z.to_nat j)).
    { intros j Hj ?. destruct (decide (j = k)) as [->|]; [done|]. apply Hj. lia. }
    destruct (H1 Hs) as [(? & ? & Hpre)|(? & Hpre)]; [left|right]; (split; [lia|]); [split; [done|]|]; auto.
  - assert (r = k + 1) as -> by lia. left. split; [lia|]. rewrite Z.add_simpl_r. split; [lia|]. lia.
Qed.

(** C37: The wait for the workers ends, and exactly so: without a poll when none
    is online at first; else with the first poll that finds none, if one of the
    first 300000 does; else with the 300001st round (five minutes), which gives
    up without looking. *)
Theorem wait_bounded first seen :
  0 <= first ->
  exists r, wait_for_threads (Z.to_nat 300001) first seen = Some r /\
    if decide (first = 0) then r = 0
    else
      (1 <= r <= 300001 /\ (forall j, 0 <= j < r - 1 -> 0 < seen (Z.to_nat j))) /\
      (seen (Z.to_nat (r - 1)) <= 0 \/ r = 300001).
Proof.
  intros Hf. unfold wait_for_threads. case_decide; [by exists 0|].
  destruct (wait_loop_ends (Z.to_nat 300001) seen 0 1 first) as (r & Hr & Hb & _ & H1); [lia|lia|lia|].
  exists r. split; [done|].
  destruct H1 as [(? & ? & ?)|(? & ?)]; [lia| |]; (split; [split; [lia|done]|]); [by left|right; lia].
Qed.

(** Three workers, of which the poll number 7 finds none any more. *)
Lemma wait_bounded_witness :
  exists r, wait_for_threads (Z.to_nat 300001) 3 (fun k => if decide (k = 7)%nat then 0 else 3) = Some r /\ r = 8.
Proof.
  destruct (wait_bounded 3 (fun k => if decide (k = 7)%nat then 0 else 3)) as (r & Hr & Hs).
  - lia.
  - exists r. split; [exact Hr|]. rewrite decide_False in Hs by lia. destruct Hs as [[Hb Hpre] Hend].
    destruct (decide (r <= 8)) as [H8|H8].
    + destruct Hend as [Hz|Hz]; [|lia]. case_decide as H7; lia.
    + specialize (Hpre 7 ltac:(lia)). vm_compute in Hpre. discriminate.
Defined.

(** ** destroy_state *)
Lemma destroy_locks_run k i s :
  (i + k <= length (threads s))%nat -> destroy_thread_locks k i s = (Val tt, s).
Proof.
  revert i. induction k as [|k IH]; intros i Hk; cbn [destroy_thread_locks]; [done|].
  destruct (lookup_lt_is_Some_2 (threads s) i) as [t Ht]; [lia|].
  erewrite bind_val by (apply get_thread_ok; [lia|by rewrite Nat2Z.id]). apply IH. lia.
Qed.

Lemma destroy_state_run n l s polls :
  srv_wf n l s -> fds_known s ->
  exists s', destroy_state (Z.of_nat n) polls s = (Val tt, s') /\ fds s' = ∅ /\ stop_el s' = true /\
    tcp_fd s' = -1 /\ epl_fd s' = -1 /\ chans s' = [] /\ threads s' = [] /\ epl_map s' = [] /\
    que (sqes s') = Que None None 0 0 /\
    (forall b, nodes (sqes s') !! b = if decide (b ∈ l.*1) then None else nodes (sqes s) !! b).
Proof.
  intros [Hp Hw] Hk. pose proof (pw_len _ _ _ _ _ _ _ Hp) as Hlen.
  unfold destroy_state. erewrite bind_val by reflexivity. erewrite bind_val by reflexivity.
  set (s1 := s <| stop_el := true |>).
  assert (Hwait : exists r, wait_for_threads (Z.to_nat 300001) (online_thread s1) polls = Some r).
  { unfold wait_for_threads. case_decide; [by eexists|].
    destruct (wait_loop_ends (Z.to_nat 300001) polls 0 1 (online_thread s1)) as (r & -> & _);
      [lia|lia|lia|by eexists]. }
  destruct Hwait as [r ->]. erewrite bind_val by reflexivity.
  destruct (close_fds_run s1) as (F & E & S & C & Hrun & HF & Hoff & HlC).
  change (chans s1) with (chans s) in *. rewrite Hlen in *. rewrite (bind_val _ _ _ _ _ Hrun).
  do 2 (erewrite bind_val by reflexivity).
  destruct (que_destroy_run (sqes s) l (ww_que _ _ _ _ _ Hw)) as (q & Hq & Hqe & Hn).
  erewrite bind_val by (apply in_sqes_ok; exact Hq). erewrite bind_val by reflexivity.
  erewrite bind_val by (apply destroy_locks_run; rewrite Nat2Z.id; simpl; by rewrite (ww_len _ _ _ _ _ Hw)).
  eexists. split; [reflexivity|]. simpl. split_and!; try done.
  apply set_eq. intros fd. rewrite HF. split; [|by rewrite elem_of_empty].
  intros (Hfd & Ht & He & Hno). exfalso. destruct (Hk fd Hfd) as [H0 Hown].
  destruct Hown as [Hfe|[Hft|(i & c & Hc & Hon & Hcf)]]; [apply He in Hfe; lia|apply Ht in Hft; lia|].
  apply Hno. exists i, c. split; [|done]. apply lookup_lt_Some in Hc. simpl. lia.
Qed.

(** ** Starting *)
Definition sys_ok (e : run_env) : Prop :=
  match r_epoll e with inl fd => 0 <= fd | inr _ => True end /\
  match e_socket (r_sock e) with inl fd => 0 <= fd | inr _ => True end.

(** A server whose descriptors all have an owner, without workers. *)
Definition booted (n : nat) (s : gwbot_state) : Prop := srv_wf n [] s /\ fds_known s /\
  threads s = fresh_thread <$> seq 0 n.

(** Before it listens. *)
Record idle (n : nat) (s : gwbot_state) : Prop := {
  id_wf : srv_wf n [] s;
  id_off i c : chans s !! i = Some c -> is_online c = false;
  id_fds fd : fd ∈ fds s -> 0 <= fd /\ fd = epl_fd s;
  id_epl : epl_set s = ∅;
  id_tcp : tcp_fd s = -1;
  id_threads : threads s = fresh_thread <$> seq 0 n;
}.

Lemma idle_booted n s s' :
  idle n s -> chans s' = chans s -> epl_map s' = epl_map s -> chan_stk s' = chan_stk s ->
  threads s' = threads s -> thread_stk s' = thread_stk s -> sqes s' = sqes s ->
  (forall fd, fd ∈ epl_set s' -> fd = tcp_fd s') ->
  (forall fd, fd ∈ fds s' -> 0 <= fd /\ (fd = epl_fd s' \/ fd = tcp_fd s')) -> booted n s'.
Proof.
  intros [[Hp Hw] Hoff _ _ _ Hfr] H1 H2 H3 H4 H5 H6 He Hf. split; [split|split; [|congruence]].
  - rewrite H1, H2, H3. destruct Hp. split; try done.
    + intros i c Hc Hon. rewrite (Hoff i c Hc) in Hon. done.
    + intros fd Hfd Hne. exfalso. by apply Hne, He.
  - by rewrite H4, H5, H6.
  - intros fd Hfd. destruct (Hf fd Hfd) as [? [?|?]]; (split; [done|]); [by left|right; by left].
Qed.

Lemma idle_is_booted n s : idle n s -> booted n s.
Proof.
  intros Hi. eapply idle_booted; try done.
  - intros fd. rewrite (id_epl _ _ Hi). by rewrite elem_of_empty.
  - intros fd Hfd. destruct (id_fds _ _ Hi fd Hfd). auto.
Qed.

Lemma init_logger_idle n rc s :
  idle n s -> exists ret s', init_logger_thread rc s = (Val ret, s') /\ idle n s' /\ epl_fd s' = epl_fd s /\
    fds s' = fds s.
Proof.
  intros Hi. unfold init_logger_thread. case_decide; [by eexists _, s|].
  eexists 0, _. split; [reflexivity|]. destruct Hi. by split.
Qed.

Lemma init_epoll_idle n r s :
  idle n s -> fds s = ∅ -> match r with inl fd => 0 <= fd | inr _ => True end ->
  exists ret s', init_epoll r s = (Val ret, s') /\ idle n s'.
Proof.
  intros Hi Hf Hr. destruct r as [fd|err]; [|by exists (- err), s].
  eexists 0, _. split; [reflexivity|]. destruct Hi as [[Hp Hw] Hoff _ He Ht Hfr]. split; try done.
  - split; [|done]. destruct Hp. split; try done.
    intros i c Hc Hon. rewrite (Hoff i c Hc) in Hon. done.
  - simpl. intros x. rewrite Hf, union_empty_r_L, elem_of_singleton. intros ->. done.
Qed.

(** The steps on the new socket: the first that fails ends them. *)
Lemma init_socket_steps e fd s0 :
  exists ret s1,
    call (try_call (mret (setup_socket (e_opt1 e) (e_opt2 e)));; try_call (mret (- e_bind e));;
      try_call (mret (- e_listen e));; try_call (epoll_add fd (e_epoll e));;
      upd_st (fun s => s <| tcp_fd := fd |>)) s0 = (Val ret, s1) /\
    ((ret <> 0 /\ s1 = s0) \/
     (ret = 0 /\ s1 = s0 <| epl_set := {[fd]} ∪ epl_set s0 |> <| tcp_fd := fd |>)).
Proof.
  assert (Hstop : forall (m : srv Z) ret (k : unit -> srv unit), m s0 = (Val ret, s0) -> ret <> 0 ->
    exists r s1, call (x ← try_call m; k x) s0 = (Val r, s1) /\ ((r <> 0 /\ s1 = s0) \/
     (r = 0 /\ s1 = s0 <| epl_set := {[fd]} ∪ epl_set s0 |> <| tcp_fd := fd |>))).
  { intros m ret k Hm Hr. exists ret, s0. erewrite call_stop by (by apply try_call_err). auto. }
  destruct (decide (setup_socket (e_opt1 e) (e_opt2 e) = 0)) as [E1|E1]; [|by eapply Hstop].
  erewrite call_step by (apply try_call_ok; by rewrite E1).
  destruct (decide (e_bind e = 0)) as [E2|E2]; [|eapply Hstop; [reflexivity|lia]].
  erewrite call_step by (apply try_call_ok; by rewrite E2).
  destruct (decide (e_listen e = 0)) as [E3|E3]; [|eapply Hstop; [reflexivity|lia]].
  erewrite call_step by (apply try_call_ok; by rewrite E3). unfold epoll_add.
  destruct (decide (e_epoll e = 0)) as [E4|E4].
  - rewrite decide_False by lia. erewrite call_step by (by apply try_call_ok).
    eexists 0, _. split; [reflexivity|]. by right.
  - rewrite decide_True by done. eapply Hstop; [reflexivity|lia].
Qed.

Lemma init_socket_idle n e s :
  idle n s -> match e_socket e with inl fd => 0 <= fd | inr _ => True end ->
  exists ret s', init_socket e s = (Val ret, s') /\ booted n s'.
Proof.
  intros Hi Hr. unfold init_socket.
  destruct (e_socket e) as [fd|err]; [|exists (- err), s; split; [done|by apply idle_is_booted]].
  destruct (init_socket_steps e fd (s <| fds := {[fd]} ∪ fds s |>)) as (ret & s1 & Hrun & Hcase).
  erewrite bind_val by reflexivity. rewrite (bind_val _ _ _ _ _ Hrun).
  destruct Hi as [Hw Hoff Hf He Ht Hfr]. destruct Hcase as [[Hret ->]|[-> ->]].
  - rewrite decide_True by done. eexists ret, _. split; [reflexivity|].
    eapply (idle_booted n s); try done; simpl.
    + intros x. rewrite He. set_solver.
    + intros x. rewrite elem_of_difference, elem_of_union, elem_of_singleton.
      intros [[?|Hx] ?]; [done|]. destruct (Hf x Hx). auto.
  - rewrite decide_False by tauto. eexists 0, _. split; [reflexivity|].
    eapply (idle_booted n s); try done; simpl.
    + intros x. rewrite He. set_solver.
    + intros x. rewrite elem_of_union, elem_of_singleton.
      intros [->|Hx]; [auto|]. destruct (Hf x Hx). auto.
Qed.

Lemma run_prefix_run e n :
  Z.of_nat n < EPL_MAP_SIZE -> env_ok (r_init e) n -> sys_ok e ->
  exists o s, run_prefix e (Z.of_nat n) state_zero = (Val o, s) /\ booted n s.
Proof.
  intros Hn He [Hs1 Hs2]. unfold run_prefix.
  destruct (init_state_ok (r_init e) n state_zero Hn He)
    as (c & t & q & Hrun & Hc & Ht & Hcc & Hct & Hsc & Hst & Hq & _).
  assert (Hi : idle n (state_fresh n c t q state_zero)).
  { split; [by apply state_fresh_wf| |simpl; intros fd; by rewrite elem_of_empty|done|done|done].
    intros i x Hx. change ((fresh_chan <$> seq 0 n) !! i = Some x) in Hx.
    rewrite list_lookup_fmap in Hx. by apply fmap_Some in Hx as (j & _ & ->). }
  assert (Hf : fds (state_fresh n c t q state_zero) = ∅) by done.
  rewrite (bind_val _ _ _ _ _ Hrun), decide_False by tauto.
  clear Hrun. revert Hi Hf. generalize (state_fresh n c t q state_zero). intros s0 Hi Hf.
  destruct (init_logger_idle n (r_log e) s0 Hi) as (ret & s1 & Hrun & Hi1 & _ & Hf1).
  rewrite (bind_val _ _ _ _ _ Hrun).
  case_decide; [exists (Some ret), s1; split; [done|by apply idle_is_booted]|].
  destruct (init_epoll_idle n (r_epoll e) s1 Hi1) as (ret2 & s2 & Hrun2 & Hi2); [congruence|done|].
  rewrite (bind_val _ _ _ _ _ Hrun2).
  case_decide; [exists (Some ret2), s2; split; [done|by apply idle_is_booted]|].
  case_decide; [exists (Some (r_modules e)), s2; split; [done|by apply idle_is_booted]|].
  destruct (init_socket_idle n (r_sock e) s2 Hi2 Hs2) as (ret3 & s3 & Hrun3 & Hb).
  rewrite (bind_val _ _ _ _ _ Hrun3). case_decide; by eexists _, s3.
Qed.

(** ** The whole run *)


(** When an array of the state cannot be allocated, the clean-up walks over
    the channels that do not exist. *)
Theorem init_failure_crashes e c n :
  validate_cfg c = 0 -> thread_c c = Z.of_nat n -> (0 < n)%nat -> ok_chans (r_init e) = false ->
  fst (gwbot_run e c state_zero) = Fault FBounds.
Proof.
  intros Hv Hc Hn Hf. unfold gwbot_run. rewrite Hv, Hc. cbv zeta. rewrite decide_False by tauto.
  destruct n as [|n]; [lia|].
  assert (Hb : exists ret s, run_body e (Z.of_nat (S n)) state_zero = (Val (Some ret), s) /\ chans s = [] /\
    tcp_fd s = -1 /\ epl_fd s = -1 /\ online_thread s = 0).
  { unfold run_body, run_prefix, init_state. rewrite Hf. eexists (-1), _. split; [reflexivity|done]. }
  destruct Hb as (ret & s & Hb & Hch & Ht & He & Ho). rewrite (bind_val _ _ _ _ _ Hb).
  assert (Hd : exists s', destroy_state (Z.of_nat (S n)) (r_polls e) s = (Fault FBounds, s')).
  { unfold destroy_state. erewrite bind_val by reflexivity. erewrite bind_val by reflexivity.
    unfold wait_for_threads. rewrite decide_True by done. erewrite bind_val by reflexivity.
    eexists. erewrite bind_fault; [reflexivity|]. unfold close_fds.
    erewrite bind_val by reflexivity. rewrite !decide_False by (simpl; lia).
    do 2 (erewrite bind_val by reflexivity). rewrite Nat2Z.id. cbn [close_chans_loop].
    erewrite bind_fault; [reflexivity|]. unfold get_chan. munfold. simpl. rewrite Hch. reflexivity. }
  destruct Hd as [s' Hd]. by rewrite (bind_fault _ _ _ _ _ Hd).
Qed.

(** When the channels can be allocated but the threads or their locks cannot be
    made, the clean-up dereferences the threads that do not exist. *)
Theorem init_threads_failure_crashes e c n :
  validate_cfg c = 0 -> thread_c c = Z.of_nat n -> (0 < n)%nat -> ok_chans (r_init e) = true ->
  ok_threads (r_init e) = false \/ (exists j, (j < 2 * n)%nat /\ thread_rc (r_init e) j <> 0) ->
  fst (gwbot_run e c state_zero) = Fault FBounds.
Proof.
  intros Hv Hc Hn Hch Hf. unfold gwbot_run. rewrite Hv, Hc. cbv zeta. rewrite decide_False by tauto.
  assert (Hb : exists ret s, run_body e (Z.of_nat n) state_zero = (Val (Some ret), s) /\
    chans s = fresh_chan <$> seq 0 n /\ threads s = [] /\ online_thread s = 0 /\ sqes s = sqes state_zero).
  { unfold run_body, run_prefix. set (s1 := state_zero <| stop_el := false |> <| intr_sig := -1 |>
      <| tcp_fd := -1 |> <| epl_fd := -1 |> <| epl_map := [] |> <| chans := [] |> <| threads := [] |>
      <| active_chan := 0 |> <| online_thread := 0 |> <| chans := fresh_chan <$> seq 0 (Z.to_nat (Z.of_nat n)) |>).
    destruct (init_threads_run (ok_threads (r_init e)) (thread_rc (r_init e)) (Z.of_nat n) s1)
      as [(H1 & H2 & _)|(_ & ret & Hr & Hrun)].
    { exfalso. destruct Hf as [Hf|(j & Hj & Hne)]; [congruence|]. apply Hne, H2. lia. }
    assert (Hi : init_state (r_init e) (Z.of_nat n) state_zero = (Val ret, s1)).
    { unfold init_state. erewrite call_step by reflexivity.
      erewrite call_step by (apply try_call_ok; rewrite init_chans_run, Hch; reflexivity).
      eapply call_stop, try_call_err; [exact Hrun|lia]. }
    exists ret, s1. split; [|split; [by subst s1; rewrite Nat2Z.id|done]].
    unfold mbind, M_bind. rewrite Hi. by rewrite decide_True by lia. }
  destruct Hb as (ret & s & Hb & Hcs & Hts & Ho & Hq). rewrite (bind_val _ _ _ _ _ Hb).
  assert (Hd : exists s', destroy_state (Z.of_nat n) (r_polls e) s = (Fault FBounds, s')).
  { unfold destroy_state. erewrite bind_val by reflexivity. erewrite bind_val by reflexivity.
    unfold wait_for_threads. rewrite decide_True by done. erewrite bind_val by reflexivity.
    set (s1 := s <| stop_el := true |>).
    destruct (close_fds_run s1) as (F & E & S & C & Hrun & _).
    assert (Hl : length (chans s1) = n) by (simpl; by rewrite Hcs, length_fmap, length_seq).
    rewrite Hl in Hrun. rewrite (bind_val _ _ _ _ _ Hrun). do 2 (erewrite bind_val by reflexivity).
    erewrite bind_val.
    2:{ unfold in_sqes, zoom. simpl. rewrite Hq. reflexivity. }
    erewrite bind_val by reflexivity. eexists. erewrite bind_fault; [reflexivity|].
    rewrite Nat2Z.id. destruct n as [|n]; [lia|]. cbn [destroy_thread_locks].
    erewrite bind_fault; [reflexivity|]. unfold get_thread. munfold. simpl. by rewrite Hts. }
  destruct Hd as [s' Hd]. by rewrite (bind_fault _ _ _ _ _ Hd).
Qed.

(** ** validate_cfg *)

(** What the server needs of its configuration. *)
Definition cfg_usable (c : gwbot_cfg (list byte)) : Prop :=
  (exists a, bind_addr (sock c) = Some a /\ a <> []) /\ bind_port (sock c) <> 0 /\
  backlog (sock c) <> 0 /\ (exists t, token c = Some t /\ t <> []) /\ thread_c c <> 0 /\
  (use_db c = true -> is_Some (host (mysql c)) /\ is_Some (user (mysql c)) /\ is_Some (db (mysql c))).

Lemma str_empty_false o : str_empty o = false <-> exists a, o = Some a /\ a <> [].
Proof.
  destruct o as [[|b a]|]; simpl; split; try done.
  - by intros (a & [= <-] & ?).
  - by eexists.
  - by intros (a & ? & _).
Qed.

Lemma validate_mysql_iff m :
  (validate_mysql_cfg m = 0 /\ is_Some (host m) /\ is_Some (user m) /\ is_Some (db m)) \/
  (validate_mysql_cfg m = - EINVAL /\ ~ (is_Some (host m) /\ is_Some (user m) /\ is_Some (db m))).
Proof.
  unfold validate_mysql_cfg. rewrite <- !not_eq_None_Some. repeat case_decide; tauto.
Qed.

(** A configuration is accepted exactly when the server can use it; any other
    is refused with [-EINVAL]. *)
Theorem validate_cfg_correct c :
  (validate_cfg c = 0 /\ cfg_usable c) \/ (validate_cfg c = - EINVAL /\ ~ cfg_usable c).
Proof.
  unfold validate_cfg, cfg_usable. rewrite <- !str_empty_false.
  destruct (str_empty (bind_addr (sock c))); [right; split; [done|intuition congruence]|].
  case_decide; [right; tauto|]. case_decide; [right; tauto|].
  destruct (str_empty (token c)); [right; split; [done|intuition congruence]|].
  case_decide; [right; tauto|].
  destruct (use_db c); [|left; split; [done|intuition congruence]].
  destruct (validate_mysql_iff (mysql c)) as [[-> Hm]|[-> Hm]]; cbv zeta.
  - left. rewrite decide_False by tauto. tauto.
  - right. rewrite decide_True by done. tauto.
Qed.

(** [close_fds] closes whatever the server has opened, and leaves every
    channel offline. *)
Theorem close_fds_closes_all n l s :
  srv_wf n l s -> fds_known s ->
  exists s', close_fds (Z.of_nat n) s = (Val tt, s') /\ fds s' = ∅ /\ tcp_fd s' = -1 /\ epl_fd s' = -1 /\
    (forall j c, chans s' !! j = Some c -> is_online c = false).
Proof.
  intros [Hp _] Hk. rewrite <- (pw_len _ _ _ _ _ _ _ Hp).
  destruct (close_fds_run s) as (F & E & S & C & Hrun & HF & Hoff & Hl).
  eexists. split; [exact Hrun|]. simpl. split; [|by split_and!].
  apply set_eq. intros fd. rewrite HF. split; [|by rewrite elem_of_empty].
  intros (Hfd & Ht & He & Hno). exfalso. destruct (Hk fd Hfd) as [H0 Hown].
  destruct Hown as [Hfe|[Hft|(i & c & Hc & Hon & Hcf)]]; [apply He in Hfe; lia|apply Ht in Hft; lia|].
  apply Hno. exists i, c. split; [|done]. apply lookup_lt_Some in Hc. lia.
Qed.

(** *** Witnesses *)
Definition demo_cfg : gwbot_cfg (list byte) :=
  Cfg None (Some (bs "123:abc")) (SockCfg (Some (bs "0.0.0.0")) 3 8181) 2
    (MysqlCfg None None None None 0 None 0) false.
Definition demo_run : run_env :=
  RunEnv demo_init 0 (inl 3) 0 (SockEnv (inl 4) 0 0 0 0 0)
    [Turn None 0 (inl 5) (inl []); Turn (Some 2) 0 (inl 6) (inr EINTR); Turn None 0 (inl 7) (inl [])] (fun _ => 0).


Lemma init_failure_crashes_witness :
  fst (gwbot_run (RunEnv (InitEnv false true true true true (fun _ => 0) (LockCodes 0 0 0 0 0)) 0 (inl 3) 0
    (SockEnv (inl 4) 0 0 0 0 0) [] (fun _ => 0)) demo_cfg state_zero) = Fault FBounds.
Proof.
  apply (init_failure_crashes _ demo_cfg 2).
  - reflexivity.
  - reflexivity.
  - lia.
  - reflexivity.
Defined.

Lemma init_threads_failure_crashes_witness :
  fst (gwbot_run (RunEnv (InitEnv true false true true true (fun _ => 0) (LockCodes 0 0 0 0 0)) 0 (inl 3) 0
    (SockEnv (inl 4) 0 0 0 0 0) [] (fun _ => 0)) demo_cfg state_zero) = Fault FBounds.
Proof.
  apply (init_threads_failure_crashes _ demo_cfg 2).
  - reflexivity.
  - reflexivity.
  - lia.
  - reflexivity.
  - left. reflexivity.
Defined.

Lemma close_fds_closes_all_witness :
  exists s s', close_fds 2 s = (Val tt, s') /\ fds s' = ∅.
Proof.
  destruct demo_waiting as (s & Hw & _ & _ & Hf & _).
  destruct (close_fds_closes_all 2 [] s) as (s' & Hrun & He & _).
  - exact Hw.
  - intros fd. rewrite Hf. by rewrite elem_of_empty.
  - exists s, s'. split; [exact Hrun|exact He].
Defined.
