(* ===== verification/Worker.v ===== *)
(** * The workers beside the main thread: core/server.c, handle_thread

    The server as a whole: the main thread handles events, the workers take
    their steps, in any order.  A step of a worker is what handle_thread does
    between two points where it takes, releases or waits on its lock; a step
    of the main thread is one of the operations of Server.v. *)
From S2P Require Import Prelude Tstack Que Config CString Gwbot Server ServerInv ServerInit ServerClient ServerLoop.

(** ** handle_thread

    Where a worker is.  [PWait n]: waiting on the condition variable, [n] the
    counter of its timeouts.  [PBusy]: in gwbot_event_handler, with its lock.
    Behind the label [out]: [PExit b], the lock released; [PNoLock b], the lock
    destroyed; [PNoCond b], the condition variable destroyed as well; [b] tells
    whether the worker came there with its event handled. *)
Inductive wpc :=
| POff | PSpawned | PAgain | PWait (counter : Z) | PBusy
| PExit (finished : bool) | PNoLock (finished : bool) | PNoCond (finished : bool).

#[export] Instance wpc_eq_dec : EqDecision wpc.
Proof. solve_decision. Defined.

Definition worker_start : srv wpc :=
  upd_st (fun s => s <| online_thread := u32 (online_thread s + 1) |>);; mret PAgain.

Definition worker_lock (i : Z) : srv wpc :=
  set_thread i (fun t => t <| th_online := true |>);;
  t ← get_thread i;
  mret (if has_event t then PBusy else PWait 0).

(** [ret]: what the timed wait returns. *)
Definition worker_wake (i counter ret : Z) : srv wpc :=
  t ← get_thread i;
  s ← get;
  if decide ((ret <> 0 /\ counter = 300) \/ stop_el s = true) then mret (PExit false)
  else mret (if has_event t then PBusy else PWait (if decide (ret = 0) then counter else u32 (counter + 1))).

(** From the return of gwbot_event_handler to the release of the lock. *)
Definition worker_done (i : Z) : srv wpc :=
  t ← get_thread i;
  (if ev_from_sqe t then
     in_sqes (que_node_destroy (sqe_node t));;
     set_thread i (fun t => t <| sqe_node := None |>)
   else mret tt);;
  s ← get;
  if stop_el s then mret (PExit true)
  else
    set_thread i (fun t => t <| has_event := false |>);;
    in_thread_stk (tss_push (th_idx t));;
    mret PAgain.

(** After both destructions.  The codes of the initialisations in
    [reset_thread] are ignored here. *)
Definition worker_exit (i : Z) : srv wpc :=
  set_thread i (fun t => snd (reset_thread (th_idx t) 0 0 t));;
  upd_st (fun s => s <| online_thread := u32 (online_thread s - 1) |>);;
  mret POff.

(** The next step of a worker. *)
Definition handle_thread (i : Z) (pc : wpc) (ret : Z) : srv wpc :=
  match pc with
  | POff => mret POff
  | PSpawned => worker_start
  | PAgain => worker_lock i
  | PWait counter => worker_wake i counter ret
  | PBusy => worker_done i
  | PExit b => mret (PNoLock b)
  | PNoLock b => mret (PNoCond b)
  | PNoCond _ => worker_exit i
  end.

(** [ev_lock] is destroyed and not yet made again by [reset_thread]:
    [gw_mutex_lock] fails its assertion. *)
Definition lock_destroyed (pc : wpc) : bool :=
  match pc with PNoLock _ | PNoCond _ => true | _ => false end.

(** Behind the label [out]. *)
Definition leaving (pc : wpc) : bool :=
  match pc with PExit _ | PNoLock _ | PNoCond _ => true | _ => false end.

(** The event of the worker is handled, but the worker does not take another. *)
Definition finished_leaving (pc : wpc) : bool :=
  match pc with PExit b | PNoLock b | PNoCond b => b | _ => false end.

(** ** The system *)

(** The text the worker gives to gwbot_event_handler. *)
Definition text_of (q : qst) (t : gwbot_thread) : list byte :=
  c_str (event_text (sqe_node t ≫= (fun a => nodes q !! a)) t).

(** The event a worker holds, as the list of its text. *)
Definition held (q : qst) (pc : wpc) (t : gwbot_thread) : list (list byte) :=
  if has_event t then if finished_leaving pc then [] else [text_of q t] else [].

(** [arrived]: the texts of the packets the server took; [handled]: those given
    to gwbot_event_handler; [lost]: those a worker was reset over. *)
Record sys := Sys {
  main : gwbot_state;
  pcs : list wpc;
  arrived : list (list byte);
  handled : list (list byte);
  lost : list (list byte);
}.

(** The packets an event brings that a worker or the queue takes. *)
Definition room (s : gwbot_state) (e : sub_env) : bool :=
  match contents (thread_stk s) with
  | _ :: _ => true
  | [] => match s_mem e with
          | Some _ => bool_decide (que_count (sqes s) < qcapacity (que (sqes s)))
          | None => false
          end
  end.

Definition frame_text (raw : list byte) : list byte := c_str (drop 2 raw).

Definition arrivals (s : gwbot_state) (ev : event) : list (list byte) :=
  if decide (ev_fd ev = tcp_fd s) then []
  else
    match epl_map s !! Z.to_nat (ev_fd ev) ≫= (fun v => chans s !! Z.to_nat (v - 1)), c_recv (ev_cli ev) with
    | Some c, RecvData d =>
        if ev_err ev || bool_decide (stream c d = buffered c) then []
        else
          match frame_verdict (stream c d) with
          | Complete _ => if room s (c_sub (ev_cli ev)) then [frame_text (stream c d)] else []
          | _ => []
          end
    | _, _ => []
    end.

(** A thread that was created starts at the top of handle_thread. *)
Definition mark_spawned (old new : list Z) (p : list wpc) : list wpc :=
  foldl (fun p i => <[Z.to_nat i := PSpawned]> p) p (drop (length old) new).

(** The worker a step of the main thread gives an event to: the one it pops.
    [submit_to_thread] and [dispatch_sqe] take the lock of that worker. *)
Definition given (old new : gwbot_state) : option Z :=
  match contents (thread_stk old) with
  | v :: st => if decide (contents (thread_stk new) = st) then Some v else None
  | [] => None
  end.

Definition lock_asserts (p : list wpc) (old new : gwbot_state) : bool :=
  match given old new ≫= (fun v => p !! Z.to_nat v) with
  | Some pc => lock_destroyed pc
  | None => false
  end.

Inductive label :=
| LEvent (ev : event)
| LDispatch (rc : Z)
| LMonitor (tod : Z + Z)
| LSignal (sig : Z)
| LWork (i : nat) (ret : Z).

Definition main_op (n : nat) (lb : label) : srv unit :=
  match lb with
  | LEvent ev => handle_event ev;; mret tt
  | LDispatch rc => dispatch_sqe rc
  | LMonitor tod => monitor_client_time tod (Z.of_nat n);; mret tt
  | LSignal sig => handle_interrupt sig
  | LWork _ _ => mret tt
  end.

Definition sys_step (n : nat) (lb : label) (s : sys) : out unit * sys :=
  match lb with
  | LWork i ret =>
      match pcs s !! i, threads (main s) !! i with
      | Some pc, Some t =>
          match handle_thread (Z.of_nat i) pc ret (main s) with
          | (Val pc', m) =>
              let h := held (sqes (main s)) pc t in
              (Val tt, Sys m (<[i := pc']> (pcs s)) (arrived s)
                 (if decide (pc = PBusy) then handled s ++ h else handled s)
                 (if decide (pc = PNoCond false) then lost s ++ h else lost s))
          | (Exit c, m) => (Exit c, s)
          | (Fault f, m) => (Fault f, s)
          end
      | _, _ => (Fault FBounds, s)
      end
  | _ =>
      match main_op n lb (main s) with
      | (Val _, m) =>
          if lock_asserts (pcs s) (main s) m then (Fault FAssert, s)
          else (Val tt, Sys m (mark_spawned (spawned (main s)) (spawned m) (pcs s))
             (match lb with LEvent ev => arrived s ++ arrivals (main s) ev | _ => arrived s end)
             (handled s) (lost s))
      | (Exit c, m) => (Exit c, s)
      | (Fault f, m) => (Fault f, s)
      end
  end.

(** What may happen: epoll reports descriptors of its set, a descriptor or a
    block that is new is not in use, the loop dispatches only when packets are
    queued, and a worker that is off takes no step.  Clients send what they
    like. *)
Definition enabled (lb : label) (s : sys) : Prop :=
  match lb with
  | LEvent ev =>
      ev_fd ev ∈ epl_set (main s) /\ acc_ok (main s) (ev_acc ev) /\ mem_ok (s_mem (c_sub (ev_cli ev))) (main s)
  | LDispatch _ => que_count (sqes (main s)) > 0
  | LMonitor _ | LSignal _ => True
  | LWork i _ => exists pc, pcs s !! i = Some pc /\ pc <> POff
  end.

Inductive reachable (n : nat) : sys -> sys -> Prop :=
| reach_refl s : reachable n s s
| reach_step s s1 lb s2 :
    reachable n s s1 -> enabled lb s1 -> sys_step n lb s1 = (Val tt, s2) -> reachable n s s2.

(** ** The invariant *)

(** The packets in the queue and with the workers. *)
Definition queue_texts (l : list (positive * list byte)) : list (list byte) :=
  (fun x => frame_text (snd x)) <$> l.
Definition held_all (q : qst) (p : list wpc) (ths : list gwbot_thread) : list (list byte) :=
  concat (zip_with (held q) p ths).

Record worker_ok (free : bool) (pc : wpc) (t : gwbot_thread) : Prop := {
  wo_node : has_event t = true -> ev_from_sqe t = true -> finished_leaving pc = false -> is_Some (sqe_node t);
  wo_direct : ev_from_sqe t = false -> sqe_node t = None;
  wo_off : pc = POff \/ pc = PSpawned -> th_online t = false;
  wo_on : pc <> POff -> pc <> PSpawned -> pc <> PAgain -> th_online t = true;
  wo_spawned : pc = PSpawned -> has_event t = true;
  wo_again : pc = PAgain -> th_online t = false -> has_event t = true;
  wo_busy : pc = PBusy -> has_event t = true;
  wo_done : finished_leaving pc = true -> free = false /\ sqe_node t = None;
}.

(** A field of [worker_ok] at a known position. *)
Ltac worker_field :=
  intros; repeat match goal with H : _ \/ _ |- _ => destruct H end; first [done | congruence | split; congruence | solve [eauto] | simpl in *; congruence | simpl in *; solve [eauto]].

Definition is_free (stk : tstack) (i : nat) : bool := bool_decide (Z.of_nat i ∈ contents stk).

Record sys_wf (n : nat) (s : sys) : Prop := {
  sw_state : exists l, srv_wf n l (main s) /\
    arrived s ≡ₚ handled s ++ lost s ++ queue_texts l ++ held_all (sqes (main s)) (pcs s) (threads (main s));
  sw_len : length (pcs s) = n;
  sw_worker i pc t : pcs s !! i = Some pc -> threads (main s) !! i = Some t ->
    worker_ok (is_free (thread_stk (main s)) i) pc t;
}.

(** ** The events of the workers, as a collection *)
Lemma held_upd q p ths i pc t pc' t' :
  p !! i = Some pc -> ths !! i = Some t ->
  held q pc' t' ++ held_all q p ths ≡ₚ held q pc t ++ held_all q (<[i := pc']> p) (<[i := t']> ths).
Proof.
  revert i ths. induction p as [|pc0 p IH]; intros [|i] [|t0 ths] Hp Ht; simplify_eq/=.
  - unfold held_all. simpl. rewrite !app_assoc, (Permutation_app_comm (held q pc' t')). done.
  - unfold held_all in *. simpl. rewrite !(Permutation_app_swap_app _ (held q pc0 t0)).
    f_equiv. by apply IH.
Qed.

Lemma held_ext q q' pc t :
  (forall a, sqe_node t = Some a -> nodes q !! a = nodes q' !! a) -> held q pc t = held q' pc t.
Proof.
  intros Hn. unfold held, text_of. destruct (sqe_node t) as [a|]; [|done]. simpl.
  by rewrite (Hn a).
Qed.

Lemma held_all_ext q q' p ths :
  (forall i t a, ths !! i = Some t -> sqe_node t = Some a -> nodes q !! a = nodes q' !! a) ->
  held_all q p ths = held_all q' p ths.
Proof.
  revert ths. induction p as [|pc p IH]; intros [|t ths] Hn; try done.
  unfold held_all in *. simpl. f_equal.
  - apply held_ext. intros a. apply (Hn 0%nat t a eq_refl).
  - apply IH. intros i u a Hu. by apply (Hn (S i) u a).
Qed.

(** A step of worker [i] alone. *)
Lemma sys_wf_worker n s l i pc t pc' t' m H L :
  sys_wf n s -> srv_wf n l m ->
  arrived s ≡ₚ handled s ++ lost s ++ queue_texts l ++ held_all (sqes (main s)) (pcs s) (threads (main s)) ->
  pcs s !! i = Some pc -> threads (main s) !! i = Some t ->
  threads m = <[i := t']> (threads (main s)) ->
  (forall j u a, j <> i -> threads (main s) !! j = Some u -> sqe_node u = Some a ->
     nodes (sqes (main s)) !! a = nodes (sqes m) !! a) ->
  (forall j, j <> i -> is_free (thread_stk m) j = is_free (thread_stk (main s)) j) ->
  worker_ok (is_free (thread_stk m) i) pc' t' ->
  H ++ L ++ held (sqes m) pc' t' ≡ₚ handled s ++ lost s ++ held (sqes (main s)) pc t ->
  sys_wf n (Sys m (<[i := pc']> (pcs s)) (arrived s) H L).
Proof.
  intros Hw Hm Hcons Hpc Ht Hths Hnodes Hfree Hok Hlog. destruct Hw as [_ Hlen Hwork].
  assert (Hi : (i < length (threads (main s)))%nat) by (by eapply lookup_lt_Some).
  assert (Hip : (i < length (pcs s))%nat) by (by eapply lookup_lt_Some).
  split; simpl; [exists l; split; [done|]|by rewrite length_insert|].
  - set (t0 := t <| has_event := false |> <| sqe_node := None |>).
    pose proof (held_upd (sqes (main s)) (pcs s) (threads (main s)) i pc t pc t0 Hpc Ht) as H0.
    pose proof (held_upd (sqes m) (<[i := pc]> (pcs s)) (<[i := t0]> (threads (main s))) i pc t0 pc' t') as H1.
    rewrite !list_lookup_insert_eq, !list_insert_insert_eq in H1 by done. specialize (H1 eq_refl eq_refl).
    assert (He : forall q, held q pc t0 = []) by done.
    rewrite He in H0, H1. simpl in H0, H1.
    assert (Hext : held_all (sqes (main s)) (<[i := pc]> (pcs s)) (<[i := t0]> (threads (main s))) =
      held_all (sqes m) (<[i := pc]> (pcs s)) (<[i := t0]> (threads (main s)))).
    { apply held_all_ext. intros j u a [[<- [<- _]]|[Hne Hj]]%list_lookup_insert_Some Ha; [done|].
      by eapply Hnodes. }
    rewrite Hths, <- H1, <- Hext. rewrite Hcons, H0.
    rewrite !(app_assoc H L), !(app_assoc (handled s) (lost s)) in *.
    rewrite (Permutation_app_swap_app (queue_texts l)), (Permutation_app_swap_app (queue_texts l)).
    rewrite !app_assoc in *. by rewrite Hlog.
  - intros j pcj u Hj Hu. rewrite Hths in Hu.
    destruct (decide (j = i)) as [->|Hne].
    + rewrite list_lookup_insert_eq in Hj by done. rewrite list_lookup_insert_eq in Hu by done. by simplify_eq.
    + rewrite list_lookup_insert_ne in Hj by done. rewrite list_lookup_insert_ne in Hu by done.
      rewrite Hfree by done. by apply Hwork.
Qed.

(** ** The invariant of Server state under the workers' steps *)
Section WorkerSteps.
Context (n : nat).

(** A worker changes its own record. *)
Lemma workers_set ths stk q l i t t' :
  workers_wf n ths stk q l -> ths !! i = Some t -> thread_ok i t' ->
  (sqe_node t' = sqe_node t \/ sqe_node t' = None) -> (has_event t' = has_event t \/ has_event t' = false) ->
  workers_wf n (<[i := t']> ths) stk q l.
Proof.
  intros Hw Ht Hok Hn Hh. destruct Hw.
  assert (Hil : (i < length ths)%nat) by (by eapply lookup_lt_Some).
  assert (Hnodes : forall j u a, <[i := t']> ths !! j = Some u -> sqe_node u = Some a ->
    exists u', ths !! j = Some u' /\ sqe_node u' = Some a).
  { intros j u a [[<- [<- _]]|[_ Hj]]%list_lookup_insert_Some Ha; [|by eauto].
    exists t. split; [done|]. destruct Hn as [Hn|Hn]; congruence. }
  split; try done; rewrite ?length_insert; try done.
  - intros j u [[<- [<- _]]|[_ Hj]]%list_lookup_insert_Some; auto.
  - intros v Hin. destruct (ww_free v Hin) as (H0 & u & Hu & Hue & Hun). split; [done|].
    destruct (decide (i = Z.to_nat v)) as [->|Hne].
    + exists t'. rewrite list_lookup_insert_eq by done. simplify_eq. split; [done|].
      split; [destruct Hh; congruence|destruct Hn; congruence].
    + exists u. by rewrite list_lookup_insert_ne by done.
  - intros j u a Hj Ha. destruct (Hnodes j u a Hj Ha) as (u' & ? & ?). eauto.
  - intros j k u u' a Hj Hk Ha Ha'. destruct (Hnodes j u a Hj Ha) as (? & ? & ?).
    destruct (Hnodes k u' a Hk Ha') as (? & ? & ?). eauto.
Qed.

(** A worker frees the node it owns. *)
Lemma workers_free ths stk q l i t t' a :
  workers_wf n ths stk q l -> ths !! i = Some t -> sqe_node t = Some a -> thread_ok i t' ->
  sqe_node t' = None -> has_event t' = has_event t ->
  workers_wf n (<[i := t']> ths) stk (q <| nodes := delete a (nodes q) |>) l.
Proof.
  intros Hw Ht Ha Hok Hn Hh.
  assert (Hother : forall j u b, j <> i -> ths !! j = Some u -> sqe_node u = Some b -> b <> a).
  { intros j u b Hj Hu Hb ->. by apply Hj, (ww_own _ _ _ _ _ Hw j i u t a). }
  destruct (ww_node _ _ _ _ _ Hw i t a Ht Ha) as [Hal _].
  pose proof (workers_set ths stk q l i t t' Hw Ht Hok (or_intror Hn) (or_introl Hh)) as Hw'.
  destruct Hw'. split; try done.
  - destruct ww_que. split; try done. by apply chain_delete_other.
  - intros j u b [[<- [<- _]]|[Hne Hj]]%list_lookup_insert_Some Hb; [congruence|].
    assert (b <> a) by (by eapply Hother). destruct (ServerInv.ww_node _ _ _ _ _ Hw j u b Hj Hb).
    split; [done|]. simpl. by rewrite lookup_delete_ne.
Qed.

(** A worker that is not on the stack finds room there. *)
Lemma workers_push ths stk q l i t :
  workers_wf n ths stk q l -> ths !! i = Some t -> has_event t = false -> sqe_node t = None ->
  Z.of_nat i ∉ contents stk ->
  exists stk', tss_push (Z.of_nat i) stk = (Val (Z.of_nat i), stk') /\ workers_wf n ths stk' q l /\
    contents stk' = Z.of_nat i :: contents stk.
Proof.
  intros Hw Ht Hev Hno Hni.
  assert (Hi : (i < n)%nat) by (rewrite <- (ww_len _ _ _ _ _ Hw); by eapply lookup_lt_Some).
  assert (Hle : (length (Z.of_nat i :: contents stk) <= length (Z.of_nat <$> seq 0 n))%nat).
  { apply submseteq_length, NoDup_submseteq.
    { apply NoDup_cons. split; [done|apply (ww_nodup _ _ _ _ _ Hw)]. }
    intros v [->|Hv]%elem_of_cons; apply list_elem_of_fmap.
    - exists i. rewrite elem_of_seq. split; [done|lia].
    - destruct (ww_free _ _ _ _ _ Hw v Hv) as (H0 & u & Hu & _). apply lookup_lt_Some in Hu.
      rewrite (ww_len _ _ _ _ _ Hw) in Hu. exists (Z.to_nat v). rewrite elem_of_seq. split; lia. }
  rewrite length_fmap, length_seq in Hle. simpl in Hle.
  destruct (tss_push_room stk (Z.of_nat i)) as (stk' & Hp & Hw' & Hs' & Hcap);
    [apply (ww_stk _ _ _ _ _ Hw)|rewrite (ww_cap _ _ _ _ _ Hw); lia|].
  exists stk'. split; [done|]. split; [|done]. destruct Hw. split; try done; try congruence.
  - rewrite Hs'. by apply NoDup_cons.
  - intros v. rewrite Hs'. intros [->|Hv]%elem_of_cons; [|by apply ww_free].
    split; [lia|]. exists t. by rewrite Nat2Z.id.
Qed.

Lemma busy_not_free ths stk q l i t :
  workers_wf n ths stk q l -> ths !! i = Some t -> has_event t = true -> Z.of_nat i ∉ contents stk.
Proof.
  intros Hw Ht Hev Hin. destruct (ww_free _ _ _ _ _ Hw _ Hin) as (_ & u & Hu & Hue & _).
  rewrite Nat2Z.id in Hu. congruence.
Qed.

(** *** A step of handle_thread *)
Definition awake (pc : wpc) : bool :=
  match pc with PWait _ | PBusy | PExit false => true | _ => false end.

Lemma awake_ok free pc pc' t :
  worker_ok free pc t -> awake pc = true -> awake pc' = true -> (pc' = PBusy -> has_event t = true) ->
  worker_ok free pc' t.
Proof.
  intros [Hn Hd _ Hon _ _ _ _] Ha Ha' Hb.
  assert (Ht : th_online t = true) by (destruct pc as [| | | | |[|]|[|]|[|]]; try done; by apply Hon).
  assert (Hs : has_event t = true -> ev_from_sqe t = true -> is_Some (sqe_node t))
    by (intros; destruct pc as [| | | | |[|]|[|]|[|]]; try done; by apply Hn).
  split; auto; destruct pc' as [| | | | |[|]|[|]|[|]]; try done; by intros [].
Qed.

Definition next_pc (pc : wpc) (ret : Z) (stop ev : bool) : wpc :=
  match pc with
  | POff => POff
  | PSpawned => PAgain
  | PAgain => if ev then PBusy else PWait 0
  | PWait c =>
      if decide ((ret <> 0 /\ c = 300) \/ stop = true) then PExit false
      else if ev then PBusy else PWait (if decide (ret = 0) then c else u32 (c + 1))
  | PBusy => if stop then PExit true else PAgain
  | PExit b => PNoLock b
  | PNoLock b => PNoCond b
  | PNoCond _ => POff
  end.

Definition next_event (pc : wpc) (stop ev : bool) : bool :=
  match pc with PBusy => stop | PNoCond _ => false | _ => ev end.

Record work_res (l : list (positive * list byte)) (i : nat) (pc : wpc) (t : gwbot_thread)
    (s : gwbot_state) (pc' : wpc) (t' : gwbot_thread) (m : gwbot_state) : Prop := {
  wr_stop : stop_el m = stop_el s;
  wr_event : has_event t' = next_event pc (stop_el s) (has_event t);
  wr_state : srv_wf n l m;
  wr_threads : threads m = <[i := t']> (threads s);
  wr_nodes j u a : j <> i -> threads s !! j = Some u -> sqe_node u = Some a ->
    nodes (sqes s) !! a = nodes (sqes m) !! a;
  wr_stk : contents (thread_stk m) =
    if decide (pc = PBusy /\ stop_el s = false) then Z.of_nat i :: contents (thread_stk s)
    else contents (thread_stk s);
  wr_ok : worker_ok (is_free (thread_stk m) i) pc' t';
  wr_held : held (sqes m) pc' t' =
    if decide (pc = PBusy \/ pc = PNoCond false) then [] else held (sqes s) pc t;
}.

Lemma work_free l i pc t s pc' t' m j :
  work_res l i pc t s pc' t' m -> j <> i -> is_free (thread_stk m) j = is_free (thread_stk s) j.
Proof.
  intros Hr Hj. apply bool_decide_ext. rewrite (wr_stk _ _ _ _ _ _ _ _ Hr). case_decide; [|done].
  rewrite elem_of_cons. split; [intros [?|?]; [lia|done]|by right].
Qed.

Section Step.
Context (l : list (positive * list byte)) (s : gwbot_state) (i : nat) (t : gwbot_thread).
Hypothesis Hw : srv_wf n l s.
Hypothesis Ht : threads s !! i = Some t.

Definition work_done (pc : wpc) (ret : Z) : Prop :=
  exists t' m, let pc' := next_pc pc ret (stop_el s) (has_event t) in
    handle_thread (Z.of_nat i) pc ret s = (Val pc', m) /\ work_res l i pc t s pc' t' m.

Local Lemma thread_at : 0 <= Z.of_nat i /\ threads s !! Z.to_nat (Z.of_nat i) = Some t.
Proof. rewrite Nat2Z.id. split; [lia|done]. Qed.

Lemma start_done ret :
  worker_ok (is_free (thread_stk s) i) PSpawned t -> work_done PSpawned ret.
Proof.
  intros []. eexists t, _. split; [reflexivity|].
  split; simpl; try done; [by rewrite list_insert_id|].
  split; try done; auto; naive_solver.
Qed.
Lemma set_self_wf t' :
  th_idx t' = th_idx t -> th_pkt t' = th_pkt t -> (sqe_node t' = sqe_node t \/ sqe_node t' = None) ->
  (has_event t' = has_event t \/ has_event t' = false) ->
  srv_wf n l (s <| threads := <[i := t']> (threads s) |>).
Proof.
  intros Hi Hp Hn Hh. destruct Hw as [Hpool Hwork]. split; [exact Hpool|]. simpl.
  eapply workers_set; try done. destruct (ww_thread _ _ _ _ _ Hwork _ _ Ht). split; congruence.
Qed.

Lemma lock_done ret :
  worker_ok (is_free (thread_stk s) i) PAgain t -> work_done PAgain ret.
Proof.
  intros Hok. destruct thread_at as [Hi Hti]. set (t' := t <| th_online := true |>).
  exists t', (s <| threads := <[i := t']> (threads s) |>). split.
  - unfold handle_thread, worker_lock. erewrite bind_val by (by apply set_thread_ok).
    rewrite Nat2Z.id. erewrite bind_val; [|apply get_thread_ok; [done|]; rewrite Nat2Z.id; simpl;
      apply list_lookup_insert_eq; by eapply lookup_lt_Some]. done.
  - split; simpl; try done; [by apply set_self_wf; auto|destruct Hok; split|];
      subst t'; try (destruct (has_event t) eqn:?; worker_field).
Qed.

Lemma wake_done c ret :
  worker_ok (is_free (thread_stk s) i) (PWait c) t -> work_done (PWait c) ret.
Proof.
  intros Hok. destruct thread_at as [Hi Hti].
  exists t, s. split.
  - unfold handle_thread, worker_wake. erewrite bind_val by (by apply get_thread_ok).
    erewrite bind_val by reflexivity. simpl. by case_decide.
  - set (pc' := next_pc _ _ _ _).
    assert (Hpc : pc' = PExit false \/ (pc' = PBusy /\ has_event t = true) \/ exists c', pc' = PWait c').
    { subst pc'. simpl. case_decide; [by left|]. destruct (has_event t); eauto. }
    split; try done; [by rewrite list_insert_id| |].
    + eapply awake_ok; [done..| |]; destruct Hpc as [->|[[-> ?]|[c' ->]]]; done.
    + rewrite decide_False by naive_solver. unfold held.
      destruct Hpc as [->|[[-> _]|[c' ->]]]; done.
Qed.
(** The event is handled: its node, if it is one of the queue, is freed. *)
Lemma free_event :
  is_Some (sqe_node t) \/ ev_from_sqe t = false -> (ev_from_sqe t = false -> sqe_node t = None) ->
  exists m, (if ev_from_sqe t then
       in_sqes (que_node_destroy (sqe_node t));;
       set_thread (Z.of_nat i) (fun t => t <| sqe_node := None |>)
     else mret tt) s = (Val tt, m) /\
    srv_wf n l m /\ threads m = <[i := t <| sqe_node := None |>]> (threads s) /\
    thread_stk m = thread_stk s /\ stop_el m = stop_el s /\
    (forall j u a, j <> i -> threads s !! j = Some u -> sqe_node u = Some a ->
       nodes (sqes s) !! a = nodes (sqes m) !! a).
Proof.
  intros Hnode Hdirect. destruct thread_at as [Hi Hti]. destruct (ev_from_sqe t) eqn:Hsqe.
  - destruct Hnode as [[a Ha]|]; [|done]. destruct Hw as [Hpool Hwork].
    destruct (ww_node _ _ _ _ _ Hwork i t a Ht Ha) as [_ Hlive]. rewrite Ha.
    erewrite bind_val by (by apply in_sqes_ok, node_free_live).
    eexists. split; [by apply set_thread_ok|]. rewrite Nat2Z.id. split; [split; [done|]|].
    + simpl. eapply workers_free; try done. by destruct (ww_thread _ _ _ _ _ Hwork _ _ Ht).
    + split; [done|]. split; [done|]. split; [done|]. intros j u b Hj Hu Hb. simpl.
      rewrite lookup_delete_ne; [done|]. intros ->.
      by apply Hj, (ww_own _ _ _ _ _ Hwork j i u t b).
  - exists s. split; [done|]. split; [done|]. split; [|done].
    rewrite list_insert_id; [done|]. rewrite Ht. f_equal. rewrite <- Hdirect by done. by destruct t.
Qed.

Lemma not_free_iff : has_event t = true -> is_free (thread_stk s) i = false.
Proof. intros Hev. apply bool_decide_eq_false. destruct Hw as [_ Hwork]. by eapply busy_not_free. Qed.
End Step.

Lemma busy_done l s i t ret :
  srv_wf n l s -> threads s !! i = Some t ->
  worker_ok (is_free (thread_stk s) i) PBusy t -> work_done l s i t PBusy ret.
Proof.
  intros Hw Ht Hok. pose proof Hok as [Hnode Hdir _ _ _ _ Hbusy _]. specialize (Hbusy eq_refl).
  destruct (free_event l s i t Hw Ht) as (m & Hrun & Hwm & Hth & Hstk & Hstop & Hnodes);
    [destruct (ev_from_sqe t); auto|done|].
  set (t1 := t <| sqe_node := None |>) in *.
  assert (Ht1 : threads m !! i = Some t1) by (rewrite Hth; apply list_lookup_insert_eq; by eapply lookup_lt_Some).
  assert (Hnf : is_free (thread_stk m) i = false) by (rewrite Hstk; by eapply not_free_iff).
  destruct (thread_at m i t1 Ht1) as [Hi Hti]. destruct (thread_at s i t Ht) as [_ Hti0].
  destruct (stop_el s) eqn:Hs.
  - exists t1, m. simpl. rewrite Hs. split.
    + unfold handle_thread, worker_done. erewrite bind_val by (by apply get_thread_ok).
      rewrite (bind_val _ _ _ _ _ Hrun). erewrite bind_val by reflexivity. by rewrite Hstop.
    + split; try done; [by rewrite Hs|by simpl; rewrite Hs|by rewrite Hstk, decide_False by (intros [_ ?]; congruence)|rewrite Hnf|unfold held; simpl; by rewrite Hbusy].
      pose proof (wo_on _ _ _ Hok ltac:(done) ltac:(done) ltac:(done)). clear Hok. split; simpl; worker_field.
  - set (t2 := t1 <| has_event := false |>). set (m2 := m <| threads := <[i := t2]> (threads m) |>).
    assert (Hw2 : srv_wf n l m2) by (eapply (set_self_wf l m i t1); auto).
    assert (Ht2 : threads m2 !! i = Some t2) by (apply list_lookup_insert_eq; by eapply lookup_lt_Some).
    destruct Hw2 as [Hp2 Hwk2].
    destruct (workers_push _ (thread_stk m2) _ l i t2 Hwk2 Ht2) as (stk' & Hpush & Hwk3 & Hc); [done|done| |].
    { by apply bool_decide_eq_false in Hnf. }
    exists t2, (m2 <| thread_stk := stk' |>). simpl. rewrite Hs. split.
    + unfold handle_thread, worker_done. erewrite bind_val by (by apply get_thread_ok).
      rewrite (bind_val _ _ _ _ _ Hrun). erewrite bind_val by reflexivity. rewrite Hstop.
      erewrite bind_val by (by apply set_thread_ok). rewrite Nat2Z.id.
      destruct (ww_thread _ _ _ _ _ Hwk2 _ _ Ht2) as [Hidx _]. simpl in Hidx. rewrite Hidx.
      erewrite bind_val by (apply in_thread_stk_ok; exact Hpush). done.
    + split; simpl; try done.
      * congruence.
      * by rewrite Hth, list_insert_insert_eq.
      * rewrite decide_True by done. by rewrite Hc, <- Hstk.
      * pose proof (wo_on _ _ _ Hok ltac:(done) ltac:(done) ltac:(done)). clear Hok. split; simpl; worker_field.
Qed.

(** The destructions change nothing else. *)
Lemma leave_done l s i t pc ret :
  srv_wf n l s -> threads s !! i = Some t -> worker_ok (is_free (thread_stk s) i) pc t ->
  (exists b, pc = PExit b \/ pc = PNoLock b) -> work_done l s i t pc ret.
Proof.
  intros Hw Ht Hok (b & Hpc). exists t, s. split; [by destruct Hpc as [-> | ->]|].
  destruct Hok as [Hn Hd _ Hon _ _ _ Hx].
  assert (Hont : th_online t = true) by (destruct Hpc as [-> | ->]; by apply Hon).
  split; try done; [by destruct Hpc as [-> | ->]|by rewrite list_insert_id|..].
  - by rewrite decide_False by (destruct Hpc as [-> | ->]; naive_solver).
  - destruct Hpc as [-> | ->]; split; worker_field.
  - rewrite decide_False by (destruct Hpc as [-> | ->]; naive_solver). by destruct Hpc as [-> | ->].
Qed.

Lemma exit_done l s i t b ret :
  srv_wf n l s -> threads s !! i = Some t ->
  worker_ok (is_free (thread_stk s) i) (PNoCond b) t -> work_done l s i t (PNoCond b) ret.
Proof.
  intros Hw Ht Hok. destruct (thread_at s i t Ht) as [Hi Hti].
  set (t' := snd (reset_thread (th_idx t) 0 0 t)).
  assert (Hidx : th_idx t' = th_idx t).
  { destruct (ww_thread _ _ _ _ _ (proj2 Hw) _ _ Ht) as [He _]. simpl. rewrite He. apply u16_small.
    pose proof (ww_n _ _ _ _ _ (proj2 Hw)) as Hn. unfold EPL_MAP_SIZE in Hn.
    apply lookup_lt_Some in Ht. rewrite (ww_len _ _ _ _ _ (proj2 Hw)) in Ht. lia. }
  eexists t', _. split.
  - unfold handle_thread, worker_exit. erewrite bind_val by (by apply set_thread_ok). reflexivity.
  - rewrite Nat2Z.id. split; simpl; try done.
    + eapply (set_self_wf l s i t); auto.
    + change (held (sqes s) POff t') with (@nil (list byte)). symmetry.
      destruct b; [|by rewrite decide_True by auto].
      rewrite decide_False by naive_solver. unfold held. by destruct (has_event t).
Qed.
End WorkerSteps.

(** Every step of a worker succeeds and keeps the invariant. *)
Lemma worker_step n s i pc t ret :
  sys_wf n s -> pcs s !! i = Some pc -> pc <> POff -> threads (main s) !! i = Some t ->
  let pc' := next_pc pc ret (stop_el (main s)) (has_event t) in
  let h := held (sqes (main s)) pc t in
  exists l t' m, work_res n l i pc t (main s) pc' t' m /\
    let s' := Sys m (<[i := pc']> (pcs s)) (arrived s)
      (if decide (pc = PBusy) then handled s ++ h else handled s)
      (if decide (pc = PNoCond false) then lost s ++ h else lost s) in
    sys_step n (LWork i ret) s = (Val tt, s') /\ sys_wf n s'.
Proof.
  intros Hsys Hpc Hoff Ht pc' h. pose proof Hsys as [(l & Hw & Hcons) Hlen Hwk].
  specialize (Hwk i pc t Hpc Ht).
  assert (Hdone : work_done n l (main s) i t pc ret).
  { destruct pc; [done|..]; [eapply start_done|eapply lock_done|eapply wake_done|eapply busy_done|
      eapply leave_done..|eapply exit_done]; eauto. }
  destruct Hdone as (t' & m & Hrun & Hres). exists l, t', m. split; [done|]. split.
  - simpl. by rewrite Hpc, Ht, Hrun.
  - eapply (sys_wf_worker n s l i pc t); try done; try apply Hres.
    { intros j Hj. by eapply work_free. }
    pose proof (wr_held _ _ _ _ _ _ _ _ _ Hres) as Hh. fold pc' in Hh. rewrite Hh. subst h. clear.
    destruct pc as [| | | | |[|]|[|]|[|]]; repeat case_decide; try naive_solver;
      rewrite ?app_nil_r, ?app_nil_l; solve_Permutation.
Qed.
