(* ===== verification/System.v ===== *)
(** * The server as a whole: main thread and workers

    The steps of the main thread and of the workers in any order: none of them
    faults, but for a frame that is too long and for the lock of a worker on
    its way out; no packet is made, doubled or forgotten silently; a worker that
    has an event handles it in at most three steps of its own, unless its last
    timed wait ends; and how a worker and a packet are lost. *)
From S2P Require Import Prelude Tstack Que Config CString Gwbot Server ServerInv ServerInit ServerClient ServerLoop ServerStop Worker.

(** ** Steps of the main thread

    What such a step does to the workers: nothing, or an idle one gets an
    event; [A] are the packets that arrive with it. *)
Inductive gives (s : gwbot_state) (l : list (positive * list byte)) (A : list (list byte))
    (m : gwbot_state) (l' : list (positive * list byte)) : Prop :=
| gives_none :
    threads m = threads s -> thread_stk m = thread_stk s -> spawned m = spawned s ->
    (forall i t a, threads s !! i = Some t -> sqe_node t = Some a ->
       nodes (sqes s) !! a = nodes (sqes m) !! a) ->
    (A = [] \/ contents (thread_stk s) = []) ->
    queue_texts l' = queue_texts l ++ A -> gives s l A m l'
| gives_event v st t t' rc :
    contents (thread_stk s) = v :: st -> contents (thread_stk m) = st -> 0 <= v ->
    threads s !! Z.to_nat v = Some t -> threads m = <[Z.to_nat v := t']> (threads s) ->
    has_event t = false -> sqe_node t = None -> has_event t' = true -> th_online t' = th_online t ->
    (if ev_from_sqe t' then is_Some (sqe_node t') else sqe_node t' = None) ->
    spawned m = spawn_log t v rc s -> nodes (sqes m) = nodes (sqes s) ->
    (A = [] \/ A = [text_of (sqes m) t']) ->
    queue_texts l ++ A ≡ₚ text_of (sqes m) t' :: queue_texts l' -> gives s l A m l'.

Lemma mark_spawned_log t v rc s p :
  mark_spawned (spawned s) (spawn_log t v rc s) p =
    if negb (th_online t) && bool_decide (rc = 0) then <[Z.to_nat v := PSpawned]> p else p.
Proof.
  unfold mark_spawned, spawn_log. destruct (th_online t); simpl; [by rewrite drop_all|].
  case_decide; [rewrite bool_decide_true, drop_app_length by done|rewrite bool_decide_false, drop_all by done]; done.
Qed.

Lemma idle_pc pc t :
  worker_ok true pc t -> has_event t = false ->
  pc <> PSpawned /\ pc <> PBusy /\ finished_leaving pc = false /\ (th_online t = false -> pc = POff).
Proof.
  intros [_ _ Hoff Hon Hsp Hag Hb Hd] Hev.
  split_and!; [intros ->; intuition congruence..| |].
  { destruct (finished_leaving pc); [by destruct (Hd eq_refl)|done]. }
  intros Ho. destruct pc; try done; intuition congruence.
Qed.

(** An idle worker that is given an event, and woken or created. *)
Lemma given_ok t t' pc rc :
  worker_ok true pc t -> has_event t = false -> has_event t' = true -> th_online t' = th_online t ->
  (if ev_from_sqe t' then is_Some (sqe_node t') else sqe_node t' = None) ->
  worker_ok false (if negb (th_online t) && bool_decide (rc = 0) then PSpawned else pc) t'.
Proof.
  intros Hok Hev Hev' Hon Hsqe. destruct (idle_pc pc t Hok Hev) as (H1 & H2 & H3 & H4).
  destruct Hok as [_ _ Ho Hn _ _ _ _].
  split; rewrite ?Hon; try done.
  - intros _ Hf _. by rewrite Hf in Hsqe.
  - intros Hf. by rewrite Hf in Hsqe.
  - destruct (th_online t); simpl; [intuition congruence|done].
  - destruct (th_online t); simpl; [done|]. rewrite (H4 eq_refl). by case_bool_decide.
  - destruct (negb _ && _); [done|]. by rewrite H3.
Qed.

Section MainSteps.
Context (n : nat) (s : sys).
Hypothesis Hsys : sys_wf n s.
Context (l : list (positive * list byte)).
Hypothesis Hw : srv_wf n l (main s).
Hypothesis Hcons :
  arrived s ≡ₚ handled s ++ lost s ++ queue_texts l ++ held_all (sqes (main s)) (pcs s) (threads (main s)).

Lemma sys_wf_main A m l' :
  srv_wf n l' m -> gives (main s) l A m l' ->
  sys_wf n (Sys m (mark_spawned (spawned (main s)) (spawned m) (pcs s)) (arrived s ++ A) (handled s) (lost s)).
Proof.
  intros Hw' Hg. destruct Hsys as [_ Hlen Hwk].
  destruct Hg as [Hth Hstk Hsp Hn _ Hq|v st t t' rc Hstk Hstk' Hv Ht Hth Hev Hno Hev' Hon Hsqe Hsp Hn _ Hq].
  { rewrite Hsp. unfold mark_spawned. rewrite drop_all. simpl. split; simpl; try done.
    - exists l'. split; [done|]. rewrite Hth, <- (held_all_ext (sqes (main s)) (sqes m)) by done.
      rewrite Hq, Hcons. solve_Permutation.
    - rewrite Hth, Hstk. exact Hwk. }
  destruct (lookup_lt_is_Some_2 (pcs s) (Z.to_nat v)) as [pc Hpc].
  { rewrite Hlen, <- (ww_len _ _ _ _ _ (proj2 Hw)). by eapply lookup_lt_Some. }
  set (pc' := if negb (th_online t) && bool_decide (rc = 0) then PSpawned else pc).
  assert (Hpcs : mark_spawned (spawned (main s)) (spawned m) (pcs s) = <[Z.to_nat v := pc']> (pcs s)).
  { rewrite Hsp, mark_spawned_log. unfold pc'. destruct (negb _ && _); [done|]. by rewrite list_insert_id. }
  pose proof (Hwk _ _ _ Hpc Ht) as Hok. rewrite Hpcs. clear Hpcs.
  assert (Hv0 : Z.of_nat (Z.to_nat v) = v) by lia.
  assert (Hfree : is_free (thread_stk (main s)) (Z.to_nat v) = true).
  { apply bool_decide_eq_true. rewrite Hv0, Hstk. by left. }
  assert (Hfree' : is_free (thread_stk m) (Z.to_nat v) = false).
  { apply bool_decide_eq_false. rewrite Hv0, Hstk'.
    pose proof (ww_nodup _ _ _ _ _ (proj2 Hw)) as Hnd. rewrite Hstk in Hnd. by apply NoDup_cons in Hnd as []. }
  rewrite Hfree in Hok.
  destruct (idle_pc pc t Hok Hev) as (_ & _ & Hnx & _).
  assert (Hpt : finished_leaving pc' = false) by (unfold pc'; by destruct (negb _ && _)).
  split; simpl.
  - exists l'. split; [done|].
    pose proof (held_upd (sqes (main s)) (pcs s) (threads (main s)) _ pc t pc' t' Hpc Ht) as Hu.
    assert (Hh : held (sqes (main s)) pc t = []) by (unfold held; by rewrite Hev).
    assert (Hh' : held (sqes (main s)) pc' t' = [text_of (sqes m) t']).
    { rewrite (held_ext _ (sqes m)) by (intros; by rewrite Hn).
      unfold held. by rewrite Hev', Hpt. }
    rewrite Hh, Hh' in Hu. simpl in Hu. rewrite Hth.
    rewrite <- (held_all_ext (sqes (main s)) (sqes m)) by (intros; by rewrite Hn).
    rewrite <- Hu, Hcons. transitivity (handled s ++ lost s ++ (queue_texts l ++ A) ++
      held_all (sqes (main s)) (pcs s) (threads (main s))); [solve_Permutation|].
    rewrite Hq. solve_Permutation.
  - by rewrite length_insert.
  - intros j pcj u Hj Hu. rewrite Hth in Hu. destruct (decide (j = Z.to_nat v)) as [->|Hne].
    + rewrite list_lookup_insert_eq in Hj by (by eapply lookup_lt_Some).
      rewrite list_lookup_insert_eq in Hu by (by eapply lookup_lt_Some). injection Hj as <-. injection Hu as <-. rewrite Hfree'.
      by apply (given_ok t).
    + rewrite list_lookup_insert_ne in Hj by done. rewrite list_lookup_insert_ne in Hu by done.
      replace (is_free (thread_stk m) j) with (is_free (thread_stk (main s)) j); [by apply Hwk|].
      apply bool_decide_ext. rewrite Hstk, Hstk', elem_of_cons. split; [intros [?|?]; [lia|done]|by right].
Qed.
End MainSteps.

Definition same_work (s s' : gwbot_state) : Prop :=
  threads s' = threads s /\ thread_stk s' = thread_stk s /\ sqes s' = sqes s /\ spawned s' = spawned s.

Lemma gives_same s s2 m m2 l A l' :
  same_work s s2 -> same_work m m2 -> gives s l A m l' -> gives s2 l A m2 l'.
Proof.
  intros (H1 & H2 & H3 & H4) (H5 & H6 & H7 & H8).
  destruct 1 as [|v st t t' rc]; [apply gives_none|apply (gives_event _ _ _ _ _ v st t t' rc)];
    unfold spawn_log in *; rewrite ?H1, ?H2, ?H3, ?H4, ?H5, ?H6, ?H7, ?H8; done.
Qed.

Lemma gives_nothing s l m : same_work s m -> gives s l [] m l.
Proof.
  intros (H1 & H2 & H3 & H4). apply gives_none; try done; [by rewrite H3|by left|by rewrite app_nil_r].
Qed.

Lemma dispatch_gives n rc s l s' l' :
  srv_wf n l s -> dispatch_res rc s l s' l' -> gives s l [] s' l'.
Proof.
  intros [_ Hw] Hres. destruct Hres as [|v st t stk' q' a d l Hs Hv Ht Hev Hno Hs' Hcap Hn (node & Ha & [_ Hd]) Hfresh Hq].
  { by apply gives_nothing. }
  apply (gives_event _ _ _ _ _ v st t (dispatched t a d) rc); try done; [by eexists|by left|].
  rewrite app_nil_r. simpl. f_equiv. unfold text_of, event_text. simpl. rewrite Ha. simpl. rewrite Hd.
  pose proof (ww_len_ok _ _ _ _ _ Hw a d ltac:(by left)).
  rewrite drop_app_le by lia. symmetry. apply c_str_app.
Qed.

Lemma submit_gives n e k c s l ret m l' raw r :
  workers_wf n (threads s) (thread_stk s) (sqes s) l ->
  submit_res e (CHPKT_LEN + k) c s l ret m l' ->
  pkt c = host_len k ++ drop 2 raw ++ Byte.x00 :: r -> Z.of_nat (length raw) = CHPKT_LEN + k -> 0 <= k ->
  gives s l (if room s e then [frame_text raw] else []) m l'.
Proof.
  intros Hw Hres Hpk Hlen Hk. unfold CHPKT_LEN in *.
  assert (Htake : take (Z.to_nat (2 + k)) (pkt c) = host_len k ++ drop 2 raw).
  { rewrite Hpk, app_assoc. apply take_app_length'. rewrite length_app, length_drop. simpl. lia. }
  unfold room. destruct Hres as [v st t stk' Hs Hv Ht Hev Hno Hs' Hcap|a q' Hs Hm Hlt Hcap Hfresh Hsame|err Hs Herr];
    rewrite Hs.
  - assert (Htext : text_of (sqes s) (submitted t c (2 + k)) = frame_text raw).
    { unfold text_of, event_text. simpl. rewrite Htake, <- app_assoc, drop_app_ge, drop_0 by done.
      by rewrite c_str_app. }
    apply (gives_event _ _ _ _ _ v st t (submitted t c (2 + k)) (s_spawn e)); try done; simpl; rewrite Htext.
    + by right.
    + by rewrite Permutation_app_comm.
  - rewrite Hm, bool_decide_true; [|unfold que_count; destruct (ww_que _ _ _ _ _ Hw); lia].
    apply gives_none; try done.
    + intros i t b Ht Hb. symmetry. destruct (ww_node _ _ _ _ _ Hw i t b Ht Hb) as [Hnb [x Hx]].
      apply Hsame; [done|]. intros ->. congruence.
    + by right.
    + unfold queue_texts. rewrite fmap_app. simpl. unfold frame_text. simpl. by rewrite Htake.
  - assert (Hr : match s_mem e with
        | Some _ => bool_decide (que_count (sqes s) < qcapacity (que (sqes s)))
        | None => false
        end = false).
    { destruct Herr as [[_ Hf]|[_ ->]]; [|done]. destruct (s_mem e); [|done].
      apply bool_decide_false. unfold que_count. destruct (ww_que _ _ _ _ _ Hw). lia. }
    rewrite Hr. apply gives_none; rewrite ?app_nil_r; auto.
Qed.

Lemma client_gives n l s i c ev m l' :
  srv_wf n l s -> chans s !! i = Some c -> is_online c = true -> chan_fd c = ev_fd ev -> ev_fd ev <> tcp_fd s ->
  client_out (ev_cli ev) i c s l (ev_err ev) m l' -> gives s l (arrivals s ev) m l'.
Proof.
  intros Hw Hc Hon Hfd Htcp Hout.
  destruct (pw_online _ _ _ _ _ _ _ (proj1 Hw) _ _ Hc Hon) as (_ & _ & Hm). rewrite Hfd in Hm.
  unfold arrivals. rewrite decide_False, Hm by done. simpl. rewrite Z.add_simpl_r, Nat2Z.id, Hc.
  destruct Hout as [Herr Hr|d Herr Hr Hne Hv|c' stk' Hfd' Hs Hwhy|d k ret s1 l1 stk' Herr Hr Hne Hv Hsub Hs].
  - rewrite Hr. by apply gives_nothing.
  - rewrite Hr, Herr, Hv, bool_decide_false by done. by apply gives_nothing.
  - match goal with |- gives _ _ ?A _ _ => assert (HA : A = []) end; [|rewrite HA; by apply gives_nothing].
    destruct Hwhy as [->|[(x & -> & _)|(d & -> & [He|[He|He]])]]; [by destruct (c_recv _)|done| | |];
      destruct (ev_err ev); try done; [by rewrite bool_decide_true|rewrite He; by case_match..].
  - rewrite Hr, Herr, Hv, bool_decide_false by done. simpl.
    destruct (complete_bounds _ _ Hv) as [Hlen Hk]. set (c2 := completed _ _ _) in *.
    apply (gives_same (with_chan i c2 s) s s1); [done|done|].
    change (room s) with (room (with_chan i c2 s)).
    eapply (submit_gives n _ _ c2); [apply Hw|exact Hsub|done|exact Hlen|lia].
Qed.

(** *** Events of the descriptors *)

(** A client completes a frame that is too long for the buffer. *)
Definition overlong_event (s : gwbot_state) (ev : event) : Prop :=
  ev_err ev = false /\ ev_fd ev <> tcp_fd s /\
  exists i c, chans s !! i = Some c /\ is_online c = true /\ chan_fd c = ev_fd ev /\ overlong c (ev_cli ev).

Lemma overlong_event_dec n l s ev :
  srv_wf n l s -> ev_fd ev ∈ epl_set s -> overlong_event s ev \/ ~ overlong_event s ev.
Proof.
  intros Hw Hin. unfold overlong_event. destruct (ev_err ev); [right; by intros [? _]|].
  destruct (decide (ev_fd ev = tcp_fd s)) as [He|Hne]; [right; tauto|].
  destruct (epl_registered n l s _ Hw Hin) as [?|(i & c & Hi & Hon & Hfd)]; [done|].
  destruct (overlong_dec c (ev_cli ev)) as [Ho|Ho]; [left; split_and!; eauto 10|right].
  intros (_ & _ & j & d & Hj & Hond & Hfdd & Hod).
  assert (j = i) as -> by (eapply pool_fd_inj; [apply Hw|exact Hj|exact Hi|done|done|congruence]).
  congruence.
Qed.

Lemma event_overruns n l s ev :
  srv_wf n l s -> overlong_event s ev -> fst (handle_event ev s) = Fault FBounds.
Proof.
  intros Hw (Herr & Hne & i & c & Hi & Hon & Hfd & Ho). unfold handle_event.
  erewrite bind_val by reflexivity. rewrite decide_False, Herr, <- Hfd by done.
  by apply (overlong_overruns n l s i c _ Hw Hi Hon).
Qed.

Lemma event_step n l s ev :
  srv_wf n l s -> ev_fd ev ∈ epl_set s -> acc_ok s (ev_acc ev) -> mem_ok (s_mem (c_sub (ev_cli ev))) s ->
  ~ overlong_event s ev ->
  exists ret m l', handle_event ev s = (Val ret, m) /\ srv_wf n l' m /\ gives s l (arrivals s ev) m l'.
Proof.
  intros Hw Hin Ha Hm Hno. unfold handle_event. erewrite bind_val by reflexivity. case_decide as Htcp.
  - assert (HA : arrivals s ev = []) by (unfold arrivals; by rewrite decide_True). rewrite HA.
    unfold handle_tcp_event. destruct (ev_err ev).
    { eexists _, s, l. split; [done|]. split; [done|]. by apply gives_nothing. }
    destruct (run_acceptor_spec n l s (ev_acc ev) Hw Ha) as (ret & m & Hrun & Hw' & Hout).
    exists ret, m, l. split; [done|]. split; [done|]. apply gives_nothing. by destruct Hout.
  - destruct (epl_registered n l s _ Hw Hin) as [?|(i & c & Hi & Hon & Hfd)]; [done|].
    destruct (client_event_run n l s i c (ev_cli ev) Hw Hi Hon Hm (ev_err ev)) as (m & l' & Hrun & Hw' & Hout).
    { intros Herr Ho. apply Hno. split_and!; eauto 10. }
    exists 0, m, l'. rewrite <- Hfd at 1. split; [done|]. split; [done|]. by eapply client_gives.
Qed.

Definition main_label (lb : label) : bool := match lb with LWork _ _ => false | _ => true end.

Definition arrivals_of (s : gwbot_state) (lb : label) : list (list byte) :=
  match lb with LEvent ev => arrivals s ev | _ => [] end.

(** The system after the main thread has gone on to [m]. *)
Definition sys_main (lb : label) (m : gwbot_state) (s : sys) : sys :=
  Sys m (mark_spawned (spawned (main s)) (spawned m) (pcs s)) (arrived s ++ arrivals_of (main s) lb) (handled s) (lost s).

(** A step of the main thread succeeds, or a frame is too long, or the worker
    it would give an event to has destroyed its lock. *)
Inductive main_out (n : nat) (lb : label) (s : sys) : Prop :=
| main_runs m l l' :
    sys_step n lb s = (Val tt, sys_main lb m s) -> sys_wf n (sys_main lb m s) ->
    gives (main s) l (arrivals_of (main s) lb) m l' -> lock_asserts (pcs s) (main s) m = false ->
    main_out n lb s
| main_overruns ev :
    lb = LEvent ev -> overlong_event (main s) ev -> sys_step n lb s = (Fault FBounds, s) -> main_out n lb s
| main_asserts v st pc :
    contents (thread_stk (main s)) = v :: st -> pcs s !! Z.to_nat v = Some pc -> lock_destroyed pc = true ->
    sys_step n lb s = (Fault FAssert, s) -> main_out n lb s.

Lemma lock_asserts_true p s m :
  lock_asserts p s m = true ->
  exists v st pc, contents (thread_stk s) = v :: st /\ p !! Z.to_nat v = Some pc /\ lock_destroyed pc = true.
Proof.
  unfold lock_asserts, given. destruct (contents (thread_stk s)) as [|v st]; [done|].
  case_decide; [|done]. simpl. destruct (p !! Z.to_nat v) as [pc|] eqn:Hp; [|done]. by exists v, st, pc.
Qed.

Lemma main_op_out n s lb l m l' :
  sys_wf n s -> main_label lb = true -> srv_wf n l (main s) ->
  arrived s ≡ₚ handled s ++ lost s ++ queue_texts l ++ held_all (sqes (main s)) (pcs s) (threads (main s)) ->
  main_op n lb (main s) = (Val tt, m) -> srv_wf n l' m ->
  gives (main s) l (arrivals_of (main s) lb) m l' -> main_out n lb s.
Proof.
  intros Hsys Hlb Hw Hcons Hrun Hm Hg.
  assert (Hstep : sys_step n lb s =
    if lock_asserts (pcs s) (main s) m then (Fault FAssert, s) else (Val tt, sys_main lb m s)).
  { destruct lb; try done; unfold sys_step, sys_main; rewrite Hrun; simpl; by rewrite ?app_nil_r. }
  destruct (lock_asserts (pcs s) (main s) m) eqn:Hl.
  - destruct (lock_asserts_true _ _ _ Hl) as (v & st & pc & ? & ? & ?). by eapply main_asserts.
  - eapply main_runs; [done| |done|done]. by eapply sys_wf_main.
Qed.

Lemma main_step n s lb : sys_wf n s -> enabled lb s -> main_label lb = true -> main_out n lb s.
Proof.
  intros Hsys Hen Hlb. pose proof Hsys as [(l & Hw & Hcons) _ _].
  destruct lb as [ev|rc|tod|sig|]; [| | | |done]; simpl in Hen.
  - destruct Hen as (Hin & Ha & Hm). destruct (overlong_event_dec n l (main s) ev Hw Hin) as [Ho|Ho].
    + eapply main_overruns; [done|done|]. pose proof (event_overruns n l (main s) ev Hw Ho) as Hf.
      unfold sys_step, main_op. destruct (handle_event ev (main s)) as [o m'] eqn:Hrun. simpl in Hf. subst o.
      by rewrite (bind_fault _ _ _ _ _ Hrun).
    + destruct (event_step n l (main s) ev Hw Hin Ha Hm Ho) as (ret & m & l' & Hrun & Hm' & Hg).
      eapply main_op_out; try done. simpl. by rewrite (bind_val _ _ _ _ _ Hrun).
  - apply (count_pos _ l) in Hen; [|apply (ww_que _ _ _ _ _ (proj2 Hw))].
    destruct (dispatch_sqe_run n rc (main s) l Hw Hen) as (m & l' & Hrun & Hm & Hres).
    eapply main_op_out; try done. by eapply dispatch_gives.
  - destruct tod as [now|err].
    + destruct (monitor_loop_run now n 0 (main s)) as (S & Hr & _).
      { rewrite (pw_len _ _ _ _ _ _ _ (proj1 Hw)). lia. }
      eapply (main_op_out _ _ _ _ (with_shut S (main s)) l); try done; [|by apply gives_nothing].
      simpl. rewrite Nat2Z.id. munfold. by rewrite Hr.
    + eapply (main_op_out _ _ _ _ (main s) l); try done. by apply gives_nothing.
  - eapply (main_op_out _ _ _ l _ l); [done..| |]; [|by apply gives_nothing]. done.
Qed.

Lemma enabled_thread n s i ret :
  sys_wf n s -> enabled (LWork i ret) s ->
  exists pc t, pcs s !! i = Some pc /\ pc <> POff /\ threads (main s) !! i = Some t.
Proof.
  intros [(l & Hw & _) Hlen _] (pc & Hpc & Hoff).
  destruct (lookup_lt_is_Some_2 (threads (main s)) i) as [t Ht]; [|by exists pc, t].
  rewrite (ww_len _ _ _ _ _ (proj2 Hw)), <- Hlen. by eapply lookup_lt_Some.
Qed.

Lemma step_wf n lb s s' :
  sys_wf n s -> enabled lb s -> sys_step n lb s = (Val tt, s') -> sys_wf n s'.
Proof.
  intros Hw Hen Hstep. destruct (main_label lb) eqn:Hlb.
  - destruct (main_step n s lb Hw Hen Hlb) as [m l l' Hrun Hw' _ _|ev _ _ Hrun|v st pc _ _ _ Hrun];
      rewrite Hrun in Hstep; [|done..]. by injection Hstep as <-.
  - destruct lb as [| | | |i ret]; try done.
    destruct (enabled_thread n s i ret Hw Hen) as (pc & t & Hpc & Hoff & Ht).
    destruct (worker_step n s i pc t ret Hw Hpc Hoff Ht) as (l & t' & m & _ & Hrun & Hw').
    rewrite Hrun in Hstep. by injection Hstep as <-.
Qed.

Lemma reachable_wf n s s' : sys_wf n s -> reachable n s s' -> sys_wf n s'.
Proof. intros Hw. induction 1 as [|s s1 lb s2 _ IH Hen Hstep]; [done|]. by eapply step_wf; [apply IH|..]. Qed.

(** ** The start *)
Definition sys_start (m : gwbot_state) : sys := Sys m (replicate (length (threads m)) POff) [] [] [].

Lemma start_wf n m :
  srv_wf n [] m ->
  (forall i t, threads m !! i = Some t -> th_online t = false /\ has_event t = false /\ sqe_node t = None) ->
  sys_wf n (sys_start m).
Proof.
  intros Hw Hfresh. split; simpl.
  - exists []. split; [done|]. simpl.
    assert (Hnone : forall q k ths, (forall i t, ths !! i = Some t -> has_event t = false) ->
      held_all q (replicate k POff) ths = []).
    { intros q k. induction k as [|k IH]; intros [|t ths] Ht; try done. unfold held_all in *. simpl.
      rewrite IH by (intros i u Hu; by apply (Ht (S i) u)). unfold held.
      by rewrite (Ht 0%nat t eq_refl). }
    rewrite Hnone; [done|]. intros i t Ht. by destruct (Hfresh i t Ht) as (_ & ? & _).
  - by rewrite length_replicate, (ww_len _ _ _ _ _ (proj2 Hw)).
  - intros i pc t Hpc Ht. apply lookup_replicate in Hpc as [-> _].
    destruct (Hfresh i t Ht) as (Hon & Hev & Hno). split; try done. by rewrite Hev.
Qed.

Lemma booted_wf n m : booted n m -> sys_wf n (sys_start m).
Proof.
  intros (Hw & _ & Hth). apply start_wf; [done|]. intros i t. rewrite Hth, list_lookup_fmap.
  by intros (j & _ & ->)%fmap_Some.
Qed.

Lemma started_wf e n m s :
  Z.of_nat n < EPL_MAP_SIZE -> env_ok (r_init e) n -> sys_ok e ->
  run_prefix e (Z.of_nat n) state_zero = (Val None, m) -> reachable n (sys_start m) s -> sys_wf n s.
Proof.
  intros Hn He Hs Hrun Hreach. destruct (run_prefix_run e n Hn He Hs) as (o & m' & Hrun' & Hb).
  rewrite Hrun in Hrun'. injection Hrun' as _ <-. by eapply reachable_wf, Hreach; apply booted_wf.
Qed.

(** ** Serving *)

(** Steps of worker [i], undisturbed; [rets]: what its timed wait returns, if
    the step is one. *)
Fixpoint worker_runs (n i : nat) (rets : list Z) (s : sys) : out unit * sys :=
  match rets with
  | [] => (Val tt, s)
  | ret :: rets' =>
      match sys_step n (LWork i ret) s with
      | (Val _, s1) => worker_runs n i rets' s1
      | r => r
      end
  end.

(** The steps to the end of gwbot_event_handler. *)
Definition steps_left (pc : wpc) : nat :=
  match pc with PSpawned => 3 | PAgain | PWait _ => 2 | PBusy => 1 | _ => 0 end.

(** A worker that takes no event from now on: off, and not on the stack. *)
Definition retired (i : nat) (s : sys) : Prop :=
  pcs s !! i = Some POff /\ is_free (thread_stk (main s)) i = false.

(** A step that neither handles the event of the worker nor wipes it. *)
Record quiet (i : nat) (s : sys) (pc : wpc) (t : gwbot_thread) (s' : sys) (pc' : wpc) (t' : gwbot_thread) : Prop := {
  qu_pc : pcs s' !! i = Some pc';
  qu_thread : threads (main s') !! i = Some t';
  qu_event : has_event t' = has_event t;
  qu_stop : stop_el (main s') = stop_el (main s);
  qu_held : held (sqes (main s')) pc' t' = held (sqes (main s)) pc t;
  qu_arrived : arrived s' = arrived s;
  qu_handled : handled s' = handled s;
  qu_lost : lost s' = lost s;
  qu_stk : contents (thread_stk (main s')) = contents (thread_stk (main s));
}.

Section WorkerRuns.
Context (n i : nat).

Lemma quiet_step s pc t ret :
  sys_wf n s -> pcs s !! i = Some pc -> threads (main s) !! i = Some t ->
  pc <> POff -> pc <> PBusy -> (forall b, pc <> PNoCond b) ->
  exists s' t', sys_step n (LWork i ret) s = (Val tt, s') /\ sys_wf n s' /\
    quiet i s pc t s' (next_pc pc ret (stop_el (main s)) (has_event t)) t'.
Proof.
  intros Hw Hpc Ht Hoff Hb Hx. destruct (worker_step n s i pc t ret Hw Hpc Hoff Ht) as (l & t' & m & Hres & Hrun & Hw').
  rewrite !(decide_False (P := pc = PNoCond false)) in * by done. rewrite !decide_False in * by done.
  destruct Hres as [Hst Hev _ Hth _ Hstk _ Hheld]. rewrite !decide_False in * by naive_solver.
  eexists _, t'. split; [exact Hrun|]. split; [exact Hw'|].
  split; simpl; try done; [apply list_lookup_insert_eq; by eapply lookup_lt_Some
    |rewrite Hth; apply list_lookup_insert_eq; by eapply lookup_lt_Some|].
  rewrite Hev. destruct pc; naive_solver.
Qed.

Lemma serve_steps rets s pc t :
  sys_wf n s -> pcs s !! i = Some pc -> threads (main s) !! i = Some t -> has_event t = true ->
  stop_el (main s) = false -> rets <> [] -> length rets = steps_left pc -> (pc = PWait 300 -> hd_error rets = Some 0) ->
  exists s', worker_runs n i rets s = (Val tt, s') /\ sys_wf n s' /\
    handled s' = handled s ++ [text_of (sqes (main s)) t] /\ lost s' = lost s /\
    pcs s' !! i = Some PAgain /\ contents (thread_stk (main s')) = Z.of_nat i :: contents (thread_stk (main s)).
Proof.
  revert s pc t. induction rets as [|ret rets IH]; intros s pc t Hw Hpc Ht Hev Hstop Hne Hk Hlast; [done|].
  assert (Hoff : pc <> POff) by (intros ->; done). cbn [worker_runs].
  destruct (decide (pc = PBusy)) as [->|Hb].
  - destruct (worker_step n s i PBusy t ret Hw Hpc Hoff Ht) as (l & t' & m & Hres & Hrun & Hw').
    destruct rets; [|done]. rewrite Hrun. rewrite Hstop, Hev in *. destruct Hres as [_ _ _ _ _ Hstk _ _].
    eexists. split; [done|]. split; [done|]. simpl. unfold held. rewrite Hev.
    split; [done|]. split; [done|]. rewrite list_lookup_insert_eq by (by eapply lookup_lt_Some). split; [done|].
    by rewrite Hstk, decide_True.
  - assert (Hx : forall b, pc <> PNoCond b) by (intros b ->; done).
    destruct (quiet_step s pc t ret Hw Hpc Ht Hoff Hb Hx) as (s1 & t1 & -> & Hw1 & []).
    rewrite Hstop, Hev in *. set (pc' := next_pc pc ret false true) in *.
    assert (Hk' : length rets = steps_left pc' /\ rets <> [] /\ finished_leaving pc = false /\
      finished_leaving pc' = false /\ pc' <> PWait 300).
    { subst pc'. destruct pc as [| | |c| | | |]; simpl in *; try done.
      - destruct rets; simpl in *; [lia|split_and!; try done; lia].
      - destruct rets; simpl in *; [lia|split_and!; try done; lia].
      - rewrite decide_False; [destruct rets; simpl in *; [lia|split_and!; try done; lia]|].
        intros [[? ->]|?]; [|done]. by injection (Hlast eq_refl). }
    destruct Hk' as (Hk' & Hne' & Hf & Hf' & Hn300).
    destruct (IH s1 pc' t1) as (s' & Hrun' & Hw2 & Hh & Hl & Hpc2 & Hstk2); try done.
    assert (Htext : text_of (sqes (main s1)) t1 = text_of (sqes (main s)) t).
    { unfold held in qu_held0. rewrite Hev, qu_event0, Hf, Hf' in qu_held0. by injection qu_held0. }
    exists s'. rewrite Hh, Htext, Hl, Hstk2, qu_handled0, qu_lost0, qu_stk0. done.
Qed.

(** The way out: what the worker holds is wiped with it. *)
Lemma leave_steps s t r1 r2 r3 :
  sys_wf n s -> pcs s !! i = Some (PExit false) -> threads (main s) !! i = Some t ->
  exists s', worker_runs n i [r1; r2; r3] s = (Val tt, s') /\ sys_wf n s' /\
    arrived s' = arrived s /\ handled s' = handled s /\
    lost s' = lost s ++ held (sqes (main s)) (PExit false) t /\
    pcs s' !! i = Some POff /\ contents (thread_stk (main s')) = contents (thread_stk (main s)).
Proof.
  intros Hw Hpc Ht. cbn [worker_runs].
  destruct (quiet_step s (PExit false) t r1 Hw Hpc Ht) as (s1 & t1 & -> & Hw1 & Hq1); [done..|]. simpl in Hq1.
  destruct (quiet_step s1 (PNoLock false) t1 r2 Hw1 (qu_pc _ _ _ _ _ _ _ Hq1) (qu_thread _ _ _ _ _ _ _ Hq1))
    as (s2 & t2 & -> & Hw2 & Hq2); [done..|]. simpl in Hq2.
  destruct (worker_step n s2 i (PNoCond false) t2 r3 Hw2 (qu_pc _ _ _ _ _ _ _ Hq2) ltac:(done) (qu_thread _ _ _ _ _ _ _ Hq2))
    as (l & t3 & m & Hres & -> & Hw3).
  eexists. split; [done|]. split; [done|]. destruct Hq1, Hq2. simpl.
  rewrite list_lookup_insert_eq by (by eapply lookup_lt_Some).
  split_and!; try congruence. rewrite (wr_stk _ _ _ _ _ _ _ _ _ Hres), decide_False by naive_solver. congruence.
Qed.
End WorkerRuns.

(** *** Theorems *)

(** C2: From a successful start, whatever the clients, the clock, the signals and
    the scheduler do: a step of the main thread or of a worker that may come
    next succeeds, with two exceptions, which do fault.  A client completes a
    frame of exactly 24576 bytes of data: its terminator is stored behind the
    buffer.  Or the main thread gives an event to a worker that has destroyed
    its lock on its way out and not made it again: the lock asserts.  So no
    other step accesses memory outside an array, frees or reads a dead node, or
    fails an assertion.  New descriptors are below 65535. *)
Theorem server_safe e n m s lb :
  Z.of_nat n < EPL_MAP_SIZE -> env_ok (r_init e) n -> sys_ok e ->
  run_prefix e (Z.of_nat n) state_zero = (Val None, m) ->
  reachable n (sys_start m) s -> enabled lb s ->
  (exists s', sys_step n lb s = (Val tt, s')) \/
  (exists ev, lb = LEvent ev /\ overlong_event (main s) ev /\ sys_step n lb s = (Fault FBounds, s)) \/
  (exists v st pc, main_label lb = true /\ contents (thread_stk (main s)) = v :: st /\
     pcs s !! Z.to_nat v = Some pc /\ lock_destroyed pc = true /\ sys_step n lb s = (Fault FAssert, s)).
Proof.
  intros Hn He Hs Hrun Hreach Hen. pose proof (started_wf e n m s Hn He Hs Hrun Hreach) as Hw.
  destruct (main_label lb) eqn:Hlb.
  - destruct (main_step n s lb Hw Hen Hlb); eauto 10.
  - left. destruct lb as [| | | |i ret]; try done.
    destruct (enabled_thread n s i ret Hw Hen) as (pc & t & Hpc & Hoff & Ht).
    destruct (worker_step n s i pc t ret Hw Hpc Hoff Ht) as (l & t' & m' & _ & Hrun' & _). eauto.
Qed.

(** C6: Every packet the server took is at every moment in exactly one place: given
    to the handler, lost with a worker that left, in the queue, or with one
    worker; and none is in two. *)
Theorem packets_conserved e n m s :
  Z.of_nat n < EPL_MAP_SIZE -> env_ok (r_init e) n -> sys_ok e ->
  run_prefix e (Z.of_nat n) state_zero = (Val None, m) -> reachable n (sys_start m) s ->
  exists l, que_rep (sqes (main s)) l /\
    arrived s ≡ₚ handled s ++ lost s ++ queue_texts l ++ held_all (sqes (main s)) (pcs s) (threads (main s)).
Proof.
  intros Hn He Hs Hrun Hreach.
  destruct (started_wf e n m s Hn He Hs Hrun Hreach) as [(l & Hw & Hcons) _ _].
  exists l. split; [apply (ww_que _ _ _ _ _ (proj2 Hw))|done].
Qed.

(** C25: As long as no signal stops the server, a worker that runs and has an
    event gives its text to the handler within three steps of its own, and is
    then idle again, on top of the stack; except that an event that comes when
    the last timed wait ends with a timeout is lost, with the worker, four
    steps later. *)
Theorem worker_serves n i s pc t :
  sys_wf n s -> pcs s !! i = Some pc -> threads (main s) !! i = Some t -> has_event t = true ->
  stop_el (main s) = false -> (0 < steps_left pc)%nat ->
  (steps_left pc <= 3)%nat /\
  (forall rets, length rets = steps_left pc -> (pc = PWait 300 -> hd_error rets = Some 0) ->
     exists s', worker_runs n i rets s = (Val tt, s') /\ sys_wf n s' /\
       handled s' = handled s ++ [text_of (sqes (main s)) t] /\ lost s' = lost s /\
       pcs s' !! i = Some PAgain /\ contents (thread_stk (main s')) = Z.of_nat i :: contents (thread_stk (main s))) /\
  (forall ret r1 r2 r3, pc = PWait 300 -> ret <> 0 ->
     exists s', worker_runs n i [ret; r1; r2; r3] s = (Val tt, s') /\ sys_wf n s' /\
       handled s' = handled s /\ lost s' = lost s ++ [text_of (sqes (main s)) t] /\ pcs s' !! i = Some POff /\
       contents (thread_stk (main s')) = contents (thread_stk (main s))).
Proof.
  intros Hw Hpc Ht Hev Hstop Hk. split; [by destruct pc; simpl; lia|]. split.
  - intros rets Hl Hlast. eapply serve_steps; try done. intros ->. simpl in Hl. lia.
  - intros ret r1 r2 r3 -> Hret.
    destruct (quiet_step n i s (PWait 300) t ret Hw Hpc Ht) as (s1 & t1 & Hrun & Hw1 & []); [done..|].
    cbn [next_pc] in *. rewrite decide_True in * by auto.
    assert (Hheld : held (sqes (main s1)) (PExit false) t1 = [text_of (sqes (main s)) t])
      by (rewrite qu_held0; unfold held; by rewrite Hev).
    destruct (leave_steps n i s1 t1 r1 r2 r3 Hw1 qu_pc0 qu_thread0) as (s' & Hrun' & Hw' & _ & Hh & Hl & Hp & Hs).
    exists s'. split; [|split; [done|split_and!; congruence]].
    change (worker_runs n i [ret; r1; r2; r3] s) with
      (match sys_step n (LWork i ret) s with
       | (Val _, s1) => worker_runs n i [r1; r2; r3] s1
       | r => r
       end). by rewrite Hrun.
Qed.

(** A worker that is off without being on the stack, because its creation
    failed or it left while it was given an event, never works again. *)
Theorem retired_forever n s s' i :
  sys_wf n s -> reachable n s s' -> retired i s -> retired i s'.
Proof.
  intros Hw Hreach Hret. induction Hreach as [|s s1 lb s2 Hreach IH Hen Hstep]; [done|].
  specialize (IH Hw Hret). destruct IH as [Hpc Hfree].
  pose proof (reachable_wf _ _ _ Hw Hreach) as Hw1. destruct (main_label lb) eqn:Hlb.
  - destruct (main_step n s1 lb Hw1 Hen Hlb) as [m l l' Hrun _ Hg _|ev _ _ Hrun|v st pc _ _ _ Hrun];
      rewrite Hrun in Hstep; [|done..].
    injection Hstep as <-. unfold retired. simpl.
    destruct Hg as [_ Hstk Hsp _ _ _|v st t t' rc Hstk Hstk' Hv _ _ _ _ _ _ _ Hsp _ _ _].
    + rewrite Hsp, Hstk. unfold mark_spawned. by rewrite drop_all.
    + apply bool_decide_eq_false in Hfree. rewrite Hstk, not_elem_of_cons in Hfree. destruct Hfree as [Hne Hni].
      rewrite Hsp, mark_spawned_log. split; [|by apply bool_decide_eq_false; rewrite Hstk'].
      destruct (negb _ && _); [|done]. by rewrite list_lookup_insert_ne by lia.
  - destruct lb as [| | | |j ret]; try done.
    destruct (enabled_thread n s1 j ret Hw1 Hen) as (pc & t & Hpcj & Hoff & Ht).
    destruct (worker_step n s1 j pc t ret Hw1 Hpcj Hoff Ht) as (l & t' & m & Hres & Hrun & _).
    rewrite Hrun in Hstep. injection Hstep as <-. unfold retired. simpl.
    assert (i <> j) by congruence. rewrite list_lookup_insert_ne by done.
    by rewrite (work_free _ _ _ _ _ _ _ _ _ i Hres).
Qed.

(** C39: A worker that has left its loop, and released its lock, still counts as
    idle.  A packet that comes before it destroys the lock goes to it and is
    lost with it when it resets itself, three steps later; a packet that comes
    between the destruction and the reset makes the main thread fail the
    assertion of the lock. *)
Theorem exit_race_loses n s i pc st ev p :
  sys_wf n s -> pcs s !! i = Some pc -> contents (thread_stk (main s)) = Z.of_nat i :: st ->
  enabled (LEvent ev) s -> ~ overlong_event (main s) ev -> arrivals (main s) ev = [p] ->
  (pc = PExit false ->
     exists s1 s2, sys_step n (LEvent ev) s = (Val tt, s1) /\ worker_runs n i [0; 0; 0] s1 = (Val tt, s2) /\
       arrived s2 = arrived s ++ [p] /\ handled s2 = handled s /\ lost s2 = lost s ++ [p] /\ retired i s2) /\
  (lock_destroyed pc = true -> sys_step n (LEvent ev) s = (Fault FAssert, s)).
Proof.
  intros Hw Hpc Hstk Hen Hno Harr.
  destruct (main_step n s (LEvent ev) Hw Hen eq_refl) as [m l l' Hrun Hw1 Hg Hl|ev' [= <-] Ho _|v st' pc' Hs Hp Hd Hrun].
  2:{ done. }
  2:{ rewrite Hstk in Hs. injection Hs as <- <-. rewrite Nat2Z.id, Hpc in Hp. injection Hp as <-.
      split; [by intros ->|done]. }
  simpl arrivals_of in *. rewrite Harr in *. destruct Hg as [_ _ _ _ [?|?] _|
    v st' t t' rc Hs Hs' Hv Ht Hth Hev Hon0 Hev' Hon Hsqe Hsp Hn [?|Htext] _]; [done|congruence| |].
  { done. }
  injection Htext as Htext. rewrite Hstk in Hs. injection Hs as <- <-. rewrite Nat2Z.id in *. split.
  - intros ->.
    assert (Hti : threads m !! i = Some t') by (rewrite Hth; apply list_lookup_insert_eq; by eapply lookup_lt_Some).
    assert (Hon' : th_online t = true).
    { destruct Hw as [_ _ Hwk]. by apply (wo_on _ _ _ (Hwk i _ t Hpc Ht)). }
    assert (Hpcs : mark_spawned (spawned (main s)) (spawned m) (pcs s) = pcs s)
      by (rewrite Hsp, mark_spawned_log, Hon'; done).
    set (s1 := sys_main (LEvent ev) m s) in *.
    destruct (leave_steps n i s1 t' 0 0 0 Hw1) as (s2 & Hrun2 & Hw2 & Ha & Hh & Hlo & Hp2 & Hs2);
      [simpl; by rewrite Hpcs|done|].
    exists s1, s2. split; [exact Hrun|]. split; [exact Hrun2|]. rewrite Ha, Hh, Hlo. simpl.
    rewrite Harr. unfold held. rewrite Hev'. simpl. rewrite Htext. split_and!; try done. split; [done|].
    apply bool_decide_eq_false. rewrite Hs2. simpl. rewrite Hs'. destruct Hw as [(l0 & [_ Hwork] & _) _ _].
    pose proof (ww_nodup _ _ _ _ _ Hwork) as Hnd. rewrite Hstk in Hnd. by apply NoDup_cons in Hnd as [].
  - intros Hd. unfold lock_asserts, given in Hl. rewrite Hstk, decide_True in Hl by done.
    simpl in Hl. rewrite Nat2Z.id, Hpc, Hd in Hl. done.
Qed.

(** *** Witnesses *)

(** The server of [demo_run], listening. *)
Definition demo_listening : gwbot_state := snd (run_prefix demo_run (Z.of_nat 2) state_zero).

Lemma pair_fst {A B} (p : A * B) a : fst p = a -> p = (a, snd p).
Proof. destruct p. simpl. by intros ->. Qed.

Lemma demo_listening_run : run_prefix demo_run (Z.of_nat 2) state_zero = (Val None, demo_listening).
Proof.
  unfold demo_listening. apply pair_fst. vm_compute. reflexivity.
Qed.

Lemma demo_run_ok : sys_ok demo_run.
Proof. split; vm_compute; intros H; discriminate H. Qed.

(** Nothing is given when the stack stays as it is. *)
Lemma lock_asserts_same p s m : contents (thread_stk m) = contents (thread_stk s) -> lock_asserts p s m = false.
Proof.
  intros He. unfold lock_asserts, given. rewrite He. destruct (contents (thread_stk s)) as [|v st]; [done|].
  rewrite decide_False; [done|]. intros H. apply (f_equal length) in H. simpl in H. lia.
Qed.

Lemma signalled n s : exists s', reachable n s s' /\ stop_el (main s') = true /\ pcs s' = pcs s.
Proof.
  eexists. split; [eapply (reach_step n _ _ (LSignal 2)); [apply reach_refl|exact I|]|].
  - unfold sys_step. simpl. by rewrite lock_asserts_same.
  - split; [reflexivity|]. simpl. unfold mark_spawned. by rewrite drop_all.
Qed.

Lemma server_safe_witness :
  exists s s', stop_el (main s) = true /\ sys_step 2 (LMonitor (inl 100)) s = (Val tt, s').
Proof.
  destruct (signalled 2 (sys_start demo_listening)) as (s & Hreach & Hstop & Hpcs).
  destruct (server_safe demo_run 2 demo_listening s (LMonitor (inl 100)))
    as [(s' & Hrun)|[(ev & He & _)|(v & st & pc & _ & _ & Hpc & Hd & _)]].
  - reflexivity.
  - apply demo_init_ok.
  - exact demo_run_ok.
  - exact demo_listening_run.
  - exact Hreach.
  - exact I.
  - exists s, s'. split; [exact Hstop|exact Hrun].
  - discriminate He.
  - exfalso. rewrite Hpcs in Hpc. apply lookup_replicate in Hpc as [-> _]. discriminate Hd.
Defined.

Lemma packets_conserved_witness :
  exists s l, stop_el (main s) = true /\ que_rep (sqes (main s)) l /\
    arrived s ≡ₚ handled s ++ lost s ++ queue_texts l ++ held_all (sqes (main s)) (pcs s) (threads (main s)).
Proof.
  destruct (signalled 2 (sys_start demo_listening)) as (s & Hreach & Hstop & Hpcs).
  destruct (packets_conserved demo_run 2 demo_listening s) as (l & Hq & Hcons).
  - reflexivity.
  - apply demo_init_ok.
  - exact demo_run_ok.
  - exact demo_listening_run.
  - exact Hreach.
  - exists s, l. split; [exact Hstop|split; [exact Hq|exact Hcons]].
Defined.

(** A server of two workers and one connection; worker 0 has just left its loop. *)
Lemma demo_exiting :
  exists s c, sys_wf 2 s /\ pcs s = [PExit false; POff] /\ contents (thread_stk (main s)) = [0; 1] /\
    arrived s = [] /\ chans (main s) !! 0%nat = Some c /\ is_online c = true /\ chan_fd c = 5 /\ recv_s c = 0 /\
    (5 ∈ epl_set (main s)) /\ tcp_fd (main s) = -1.
Proof.
  destruct demo_connected as (s & c & Hw & Hc & Hon & Hfd & Hr & _ & _ & Hts & _ & _ & Htcp & _ & He & Hth).
  set (t := fresh_thread 0 <| th_online := true |>).
  assert (Ht0 : threads s !! 0%nat = Some (fresh_thread 0)) by (by rewrite Hth).
  exists (Sys (s <| threads := <[0%nat := t]> (threads s) |>) [PExit false; POff] [] [] []), c.
  split; [|done]. split; simpl.
  - exists []. split; [|by rewrite Hth]. by eapply (set_self_wf 2 [] s 0 (fresh_thread 0)); auto.
  - done.
  - rewrite Hth. intros [|[|i]] pc u Hpc Hu; simplify_eq/=; split; try done; by intros [].
Qed.

(** "hi" arrives on descriptor 5. *)
Definition demo_hi : event :=
  Event 5 false (AccEnv (inr EAGAIN) true None 0 (inl 0) 0)
    (CliEnv (RecvData (frame (bs "hi"))) (SubEnv 0 None) 0).

Lemma exit_race_loses_witness :
  exists s s1 s2, sys_step 2 (LEvent demo_hi) s = (Val tt, s1) /\ worker_runs 2 0 [0; 0; 0] s1 = (Val tt, s2) /\
    arrived s2 = [bs "hi"] /\ handled s2 = handled s /\ lost s2 = lost s ++ [bs "hi"] /\ retired 0 s2.
Proof.
  destruct demo_exiting as (s & c & Hw & Hpc & Hts & Harr & Hc & Hon & Hfd & Hr & He & Htcp).
  assert (Hstr : stream c (frame (bs "hi")) = frame (bs "hi")) by (unfold stream, buffered; by rewrite Hr).
  pose proof Hw as [(l & [Hp Hwk] & _) _ _].
  destruct (exit_race_loses 2 s 0 (PExit false) [1] demo_hi (bs "hi")) as [Hlost _].
  - exact Hw.
  - rewrite Hpc. reflexivity.
  - exact Hts.
  - split; [exact He|]. split; exact I.
  - intros (_ & _ & i & d & Hd & Hdon & Hdfd & x & Hx & _ & Hv).
    assert (i = 0%nat) as -> by (eapply pool_fd_inj; [exact Hp|exact Hd|exact Hc|exact Hdon|exact Hon|rewrite Hfd; exact Hdfd]).
    rewrite Hc in Hd. injection Hd as <-. injection Hx as <-. rewrite Hstr in Hv. discriminate Hv.
  - destruct (pw_online _ _ _ _ _ _ _ Hp _ _ Hc Hon) as (_ & _ & Hm). rewrite Hfd in Hm.
    unfold arrivals. rewrite decide_False by (rewrite Htcp; discriminate).
    cbn [ev_fd demo_hi]. rewrite Hm.
    change (Some (Z.of_nat 0 + 1) ≫= _) with (chans (main s) !! 0%nat). rewrite Hc.
    cbn [demo_hi ev_cli c_recv ev_err c_sub orb]. rewrite Hstr. unfold buffered. rewrite Hr. simpl.
    unfold room. rewrite Hts. reflexivity.
  - destruct (Hlost eq_refl) as (s1 & s2 & Hrun1 & Hrun2 & Ha & Hh & Hl & Hret).
    exists s, s1, s2. rewrite Harr in Ha. split; [exact Hrun1|split; [exact Hrun2|split; [exact Ha|split; [exact Hh|split; [exact Hl|exact Hret]]]]].
Defined.

(** The creation of worker 0 failed. *)
Lemma demo_retired : exists s, sys_wf 2 s /\ retired 0 s.
Proof.
  destruct demo_waiting as (s & [Hp Hw] & _ & Hts & _ & _ & _ & _ & _ & _ & Hth).
  destruct (tss_pop_cons (thread_stk s) 0 [1]) as (stk & _ & Hk & Hc & Hcap); [apply (ww_stk _ _ _ _ _ Hw)|done|].
  exists (sys_start (s <| thread_stk := stk |>)). split.
  - apply start_wf.
    + split; [exact Hp|]. simpl.
      rewrite <- (list_insert_id (threads s) 0 (fresh_thread 0)) by (by rewrite Hth).
      assert (Ht0 : threads s !! 0%nat = Some (fresh_thread 0)) by (by rewrite Hth).
      eapply (workers_upd 2 (threads s) (thread_stk s) stk (sqes s) [] 0 (fresh_thread 0) (fresh_thread 0));
        [exact Hw|exact Ht0|exact (ww_thread _ _ _ _ _ Hw _ _ Ht0)|by left|exact Hk|exact Hcap| |].
      * rewrite Hc. apply NoDup_singleton.
      * intros v. rewrite Hc, Hts, list_elem_of_singleton. intros ->. split; [done|]. by right; left.
    + intros i t. simpl. rewrite Hth, list_lookup_fmap. by intros (j & _ & ->)%fmap_Some.
  - split; simpl; [by rewrite Hth|]. apply bool_decide_eq_false. rewrite Hc, list_elem_of_singleton. done.
Qed.

Lemma retired_forever_witness :
  exists s', stop_el (main s') = true /\ retired 0 s'.
Proof.
  destruct demo_retired as (s & Hw & Hret). destruct (signalled 2 s) as (s' & Hreach & Hstop & _).
  exists s'. split; [exact Hstop|]. apply (retired_forever 2 s s' 0).
  - exact Hw.
  - exact Hreach.
  - exact Hret.
Defined.

(** Worker 0 is woken with "hi". *)
Lemma demo_woken :
  exists s t, sys_wf 2 s /\ pcs s = [PWait 7; POff] /\ threads (main s) !! 0%nat = Some t /\
    has_event t = true /\ stop_el (main s) = false /\ text_of (sqes (main s)) t = bs "hi" /\ handled s = [].
Proof.
  destruct demo_waiting as (s & [Hp Hw] & _ & Hts & _ & _ & Hstop & _ & _ & _ & Hth).
  destruct (tss_pop_cons (thread_stk s) 0 [1]) as (stk & _ & Hk & Hc & Hcap); [apply (ww_stk _ _ _ _ _ Hw)|done|].
  set (c := chan_zero <| pkt := host_len 2 ++ bs "hi" ++ replicate (Z.to_nat 24574) Byte.x00 |>).
  set (t := submitted (fresh_thread 0 <| th_online := true |>) c 4).
  exists (Sys (s <| threads := <[0%nat := t]> (threads s) |> <| thread_stk := stk |>)
    [PWait 7; POff] [bs "hi"] [] []), t.
  assert (Ht0 : threads s !! 0%nat = Some (fresh_thread 0)) by (by rewrite Hth).
  assert (Htext : text_of (sqes s) t = bs "hi") by (vm_compute; reflexivity).
  split; [|by rewrite Hth]. split; simpl.
  - exists []. split; [|rewrite Hth; unfold held_all; simpl; unfold held; simpl; by rewrite Htext].
    split; [exact Hp|]. simpl.
    eapply (workers_upd 2 (threads s) (thread_stk s) stk (sqes s) [] 0 (fresh_thread 0)); [done..| | |done|done| |].
    + apply submitted_ok; [|done|vm_compute; reflexivity]. split; [done|vm_compute; reflexivity].
    + by left.
    + rewrite Hc. apply NoDup_singleton.
    + intros v. rewrite Hc, Hts, list_elem_of_singleton. intros ->. split; [done|]. by right; left.
  - done.
  - rewrite Hth. change (fresh_thread <$> seq 0 2) with [fresh_thread 0; fresh_thread 1].
    assert (Ht : th_online t = true /\ has_event t = true /\ sqe_node t = None) by done.
    assert (Hf : th_online (fresh_thread 1) = false /\ has_event (fresh_thread 1) = false /\ sqe_node (fresh_thread 1) = None) by done.
    assert (Hs : ev_from_sqe t = false /\ ev_from_sqe (fresh_thread 1) = false) by done.
    revert Ht Hf Hs. clear. generalize t as t0, (fresh_thread 1) as f. clear.
    intros t f (Ht1 & Ht2 & Ht3) (Hf1 & Hf2 & Hf3) (Hs1 & Hs2).
    intros [|[|i]] pc u Hpc Hu; simplify_eq/=; split; worker_field.
Qed.

Lemma worker_serves_witness :
  exists s s', worker_runs 2 0 [110; 0] s = (Val tt, s') /\ handled s' = [bs "hi"].
Proof.
  destruct demo_woken as (s & t & Hw & Hpc & Ht & Hev & Hstop & Htext & Hh).
  destruct (worker_serves 2 0 s (PWait 7) t) as (_ & Hserve & _).
  - exact Hw.
  - rewrite Hpc. reflexivity.
  - exact Ht.
  - exact Hev.
  - exact Hstop.
  - simpl. lia.
  - destruct (Hserve [110; 0] eq_refl ltac:(discriminate)) as (s' & Hrun & _ & Hh' & _).
    exists s, s'. split; [exact Hrun|]. rewrite Hh', Hh, Htext. reflexivity.
Defined.
