(* ===== verification/TgApi.v ===== *)
(** * The Telegram client: lib/tg_api.c, include/gwbot/lib/tg_api.h and
      lib/tg_api/

    The requests the program sends, byte by byte in the buffers it builds them
    in, and the collection of the answer in a growing buffer.  libcurl is the
    class [Net]: what a transfer delivers, after the requests sent before; the
    contents of fresh stack and heap memory are open as well. *)
From S2P Require Import Prelude CString Json.

Inductive content_type_t := APP_X_WWW_FORM_URLENCODED | APP_JSON.

(** What libcurl sends: the URL, the body, and its type. *)
Record request := Request {
  q_url : list byte;
  q_body : list byte;
  q_type : content_type_t;
}.

(** What the allocator and libcurl do for one request: [t_malloc] and
    [t_realloc] give a block of the asked size, for [realloc] the part behind
    the old block; [t_init] is whether curl_easy_init succeeds; [t_answer] are
    the pieces the write callback gets and the code of curl_easy_perform. *)
Record transfer := Transfer {
  t_malloc : Z -> option (list byte);
  t_realloc : Z -> option (list byte);
  t_init : bool;
  t_answer : request -> list (list byte) * Z;
}.

Class Net := {
  net : list request -> transfer;
  stack : nat -> list byte;       (** a local array, not initialised *)
  length_stack n : length (stack n) = n;
  strerror : Z -> list byte;
  calloc_ok : list request -> bool;   (** for the array of administrators *)
}.

(** ** snprintf

    The conversions the program uses: [%d] and its 64-bit forms, and [%s]. *)
Fixpoint udec (fuel : nat) (n : Z) (acc : list byte) : list byte :=
  match fuel with
  | O => acc
  | S f =>
      let acc := zb (48 + n mod 10) :: acc in
      if n <? 10 then acc else udec f (n / 10) acc
  end.

(** Twenty digits hold every 64-bit number. *)
Definition dec (z : Z) : list byte :=
  if z <? 0 then "-"%byte :: udec 20 (- z) [] else udec 20 z [].

(** The value is the length of the whole text. *)
Definition snprintf (pos size : Z) (s : list byte) : M (list byte) Z :=
  (if decide (size = 0) then mret tt
   else
     let n := Z.min (Z.of_nat (length s)) (size - 1) in
     pokes pos (take (Z.to_nat n) s);;
     poke (pos + n) Byte.x00);;
  mret (Z.of_nat (length s)).

(** [strncmp(k, s, strlen(k)) == 0], for a C string [s]. *)
Definition starts_with (k s : list byte) : bool := bool_decide (take (length k) s = k).

(** ** The handle *)
Record tga_res_t := Res {
  res_body : option (list byte);     (** a heap block *)
  res_len : Z;
  res_allocated : Z;
}.
#[export] Instance eta_res : Eta tga_res_t := fun r => Res (res_body r) (res_len r) (res_allocated r).

Record tga_handle_t := Handle {
  h_token : cstr;
  req_method : cstr;
  req_body : option (list byte);     (** the array [tga_set_body] points to *)
  res : tga_res_t;
  content_type : content_type_t;
}.
#[export] Instance eta_handle : Eta tga_handle_t := fun r =>
  Handle (h_token r) (req_method r) (req_body r) (res r) (content_type r).

(** A handle and the requests sent so far, by anyone. *)
Record conn := Conn { hnd : tga_handle_t; sent : list request }.
#[export] Instance eta_conn : Eta conn := fun r => Conn (hnd r) (sent r).

Definition tga_screate (token : cstr) : tga_handle_t :=
  Handle token None None (Res None 0 0) APP_X_WWW_FORM_URLENCODED.

(** [tga_screate], a use of the handle, and [tga_sdestroy]. *)
Definition with_handle {A} (token : cstr) (m : M conn A) : M (list request) A := fun w =>
  let '(r, c) := m (Conn (tga_screate token) w) in (r, sent c).

Definition on_hnd (f : tga_handle_t -> tga_handle_t) : M conn unit :=
  modify (fun c => c <| hnd := f (hnd c) |>).
Definition tga_set_body (body : list byte) : M conn unit := on_hnd (fun h => h <| req_body := Some body |>).
Definition tga_set_method (m : string) : M conn unit := on_hnd (fun h => h <| req_method := Some (bs m) |>).
Definition on_res {A} (m : M tga_res_t A) : M conn A :=
  zoom (fun c => res (hnd c)) (fun r c => c <| hnd := hnd c <| res := r |> |>) m.
Definition tge_get_res_body : M conn (option (list byte)) := c ← get; mret (res_body (res (hnd c))).

(** ** tg_api_post *)

(** One call of the callback; its value is the number of bytes it took. *)
Definition write_callback (realloc : Z -> option (list byte)) (data : list byte) : M tga_res_t Z := fun r =>
  match res_body r with
  | None => (Fault FNull, r)
  | Some body =>
      let add_len := Z.of_nat (length data) in
      let grown :=
        if decide (u64 (add_len + res_len r + 2) >= res_allocated r) then
          let allocated := u64 (res_allocated r * 2 + add_len) in
          match realloc allocated with
          | None => None
          | Some fresh => Some (body ++ drop (length body) fresh, allocated)
          end
        else Some (body, res_allocated r) in
      match grown with
      | None => (Val 0, r)
      | Some (body, allocated) =>
          let '(o, body) := (pokes (res_len r) data;; poke (res_len r + add_len) Byte.x00) body in
          let r := Res (Some body) (res_len r) allocated in
          match o with
          | Val _ => (Val add_len, r <| res_len := u64 (res_len r + add_len) |>)
          | Exit c => (Exit c, r)
          | Fault f => (Fault f, r)
          end
      end
  end.

(** libcurl's use of the callback: it stops when a piece is not taken. *)
Fixpoint deliver (realloc : Z -> option (list byte)) (chunks : list (list byte)) : M tga_res_t unit :=
  match chunks with
  | [] => mret tt
  | d :: chunks' =>
      n ← write_callback realloc d;
      if decide (n = Z.of_nat (length d)) then deliver realloc chunks' else mret tt
  end.

Definition tg_api_allocate_res (malloc : Z -> option (list byte)) : M tga_res_t Z :=
  r ← get;
  match res_body r with
  | None =>
      match malloc 0x1000 with
      | None => put (Res None 0 0);; mret (- ENOMEM)
      | Some body => put (Res (Some body) 0 0x1000);; mret 0
      end
  | Some _ =>
      if decide (res_allocated r = 0) then faulty FAbort
      else modify (fun r => r <| res_len := 0 |>);; mret 0
  end.

(** The loops that copy to [url], an array of [n] bytes: [None] when they end it
    early. *)
Fixpoint url_copy (n : Z) (cptr : list byte) (rcx : Z) : M (list byte) (option Z) :=
  match cptr with
  | [] => mret (Some rcx)
  | c :: cptr' =>
      poke rcx c;;
      let rcx := rcx + 1 in
      if decide (rcx >= n - 2) then poke rcx Byte.x00;; mret None else url_copy n cptr' rcx
  end.

Definition api_url : list byte := bs "https://api.telegram.org/bot".

Definition build_url (token method : list byte) : M (list byte) unit :=
  pokes 0 api_url;;
  o ← url_copy 512 token 28;
  match o with
  | None => mret tt
  | Some rcx =>
      poke rcx "/"%byte;;
      o ← url_copy 512 method (rcx + 1);
      match o with None => mret tt | Some rcx => poke rcx Byte.x00 end
  end.

(** Runs a computation on a local array. *)
Definition local {S A} (buf : list byte) (m : M (list byte) A) : M S (A * list byte) := fun s =>
  match m buf with
  | (Val a, buf') => (Val (a, buf'), s)
  | (Exit c, _) => (Exit c, s)
  | (Fault f, _) => (Fault f, s)
  end.

(** A callee that gets the pointer [buf + pos]. *)
Definition at_ptr {A} (pos : Z) (m : M (list byte) A) : M (list byte) A := fun buf =>
  let '(o, rest) := m (drop (Z.to_nat pos) buf) in (o, take (Z.to_nat pos) buf ++ rest).

(** The global state of the client: [global_init]. *)
Definition tg_api_global_init : M bool unit :=
  g ← get; if negb g then put true else mret tt.
Definition tg_api_global_destroy : M bool unit :=
  g ← get; if g : bool then put false else mret tt.

Section Api.
Context `{Net}.

Definition tg_api_post : M conn Z :=
  c ← get;
  match req_method (hnd c), h_token (hnd c) with
  | None, _ => mret (- EINVAL)
  | _, None | _, Some [] => mret (- EINVAL)
  | Some method, Some token =>
      let t := net (sent c) in
      ret ← on_res (tg_api_allocate_res (t_malloc t));
      if decide (ret <> 0) then mret ret
      else
        '(_, url) ← local (stack 512) (build_url token method);
        if negb (t_init t) then mret (- ENOMEM)
        else
          ulen ← lift FBounds (strlen url);
          body ← lift FNull (req_body (hnd c));
          blen ← lift FBounds (strlen body);
          let q := Request (take ulen url) (take blen body) (content_type (hnd c)) in
          let '(chunks, cres) := t_answer t q in
          modify (fun c => c <| sent := sent c ++ [q] |>);;
          on_res (deliver (t_realloc t) chunks);;
          if decide (cres <> 0) then mret (- EBADMSG) else mret ret
  end.

(** ** lib/tg_api: one function per method *)

(** [PRId64], [PRIu64], and the flag of [%hhu]. *)
Definition num (z : Z) : list byte := dec z.
Definition flag (b : bool) : list byte := dec (Z.b2z b).

Record tga_delete_msg_t := DeleteMsg { del_chat_id : Z; del_message_id : Z }.

Definition tga_delete_msg (ctx : tga_delete_msg_t) : M conn Z :=
  '(_, buf) ← local (stack 128) (snprintf 0 128
    (bs "chat_id=" ++ num (del_chat_id ctx) ++ bs "&message_id=" ++ num (del_message_id ctx)));
  tga_set_body buf;;
  tga_set_method "deleteMessage";;
  tg_api_post.

Record tga_kick_cm_t := KickCm { kick_chat_id : Z; kick_user_id : Z; kick_until_date : Z; revoke_msg : bool }.

Definition tga_kick_chat_member (ctx : tga_kick_cm_t) : M conn Z :=
  '(_, buf) ← local (stack 512) (
    pos ← snprintf 0 512 (bs "chat_id=" ++ num (kick_chat_id ctx) ++ bs "&user_id=" ++ num (kick_user_id ctx));
    pos ← (if decide (kick_until_date ctx <> 0) then
             n ← snprintf pos (u64 (512 - pos)) (bs "&until_date=" ++ num (u64 (kick_until_date ctx)));
             mret (pos + n)
           else mret pos);
    (if revoke_msg ctx then mret tt else pokes pos (bs "&revoke_messages=0" ++ [Byte.x00])));
  tga_set_body buf;;
  tga_set_method "kickChatMember";;
  tg_api_post.

Record tga_pin_cm_t := PinCm { pin_chat_id : Z; pin_message_id : Z; disable_notification : bool }.

Definition tga_pin_chat_msg (ctx : tga_pin_cm_t) : M conn Z :=
  '(_, buf) ← local (stack 256) (snprintf 0 256
    (bs "chat_id=" ++ num (pin_chat_id ctx) ++ bs "&message_id=" ++ num (pin_message_id ctx) ++
     bs "&disable_notification=" ++ flag (disable_notification ctx)));
  tga_set_body buf;;
  tga_set_method "pinChatMessage";;
  tg_api_post.

Record tga_unpin_cm_t := UnpinCm { unpin_chat_id : Z; unpin_message_id : Z }.

Definition tga_unpin_chat_msg (ctx : tga_unpin_cm_t) : M conn Z :=
  '(_, buf) ← local (stack 128) (snprintf 0 128
    (bs "chat_id=" ++ num (unpin_chat_id ctx) ++ bs "&message_id=" ++ num (unpin_message_id ctx)));
  tga_set_body buf;;
  tga_set_method "unpinChatMessage";;
  tg_api_post.

Record tga_unban_cm_t := UnbanCm { unban_chat_id : Z; unban_user_id : Z; only_if_banned : bool }.

Definition tga_unban_chat_member (ctx : tga_unban_cm_t) : M conn Z :=
  '(_, buf) ← local (stack 256) (snprintf 0 256
    (bs "chat_id=" ++ num (unban_chat_id ctx) ++ bs "&user_id=" ++ num (unban_user_id ctx) ++
     bs "&only_if_banned=" ++ flag (only_if_banned ctx)));
  tga_set_body buf;;
  tga_set_method "unbanChatMember";;
  tg_api_post.

Record tga_res_perm_t := Perm {
  can_send_messages : bool;
  can_send_media_messages : bool;
  can_send_polls : bool;
  can_send_other_messages : bool;
  can_add_web_page_previews : bool;
  can_change_info : bool;
  can_invite_users : bool;
  can_pin_messages : bool;
}.
Record tga_restrict_cm_t := RestrictCm {
  restrict_chat_id : Z;
  restrict_user_id : Z;
  restrict_until_date : Z;
  permissions : tga_res_perm_t;
}.

Definition dq : list byte := [Byte.x22].
Definition jkey (k : string) : list byte := dq ++ bs k ++ dq ++ bs ":".
Definition jbool (b : bool) : list byte := if b then bs "true" else bs "false".

(** The format of tga_restrict_chat_member, filled in. *)
Definition restrict_json (ctx : tga_restrict_cm_t) : list byte :=
  let perm := permissions ctx in
  bs "{" ++ jkey "user_id" ++ num (restrict_user_id ctx) ++ bs "," ++
  jkey "chat_id" ++ num (restrict_chat_id ctx) ++ bs "," ++
  jkey "until_date" ++ num (u64 (restrict_until_date ctx)) ++ bs "," ++
  jkey "permissions" ++ bs "{" ++
  jkey "can_send_messages" ++ jbool (can_send_messages perm) ++ bs "," ++
  jkey "can_send_media_messages" ++ jbool (can_send_media_messages perm) ++ bs "," ++
  jkey "can_send_polls" ++ jbool (can_send_polls perm) ++ bs "," ++
  jkey "can_send_other_messages" ++ jbool (can_send_other_messages perm) ++ bs "," ++
  jkey "can_add_web_page_previews" ++ jbool (can_add_web_page_previews perm) ++ bs "," ++
  jkey "can_change_info" ++ jbool (can_change_info perm) ++ bs "," ++
  jkey "can_invite_users" ++ jbool (can_invite_users perm) ++ bs "," ++
  jkey "can_pin_messages" ++ jbool (can_pin_messages perm) ++ bs "}}".

Definition tga_restrict_chat_member (ctx : tga_restrict_cm_t) : M conn Z :=
  '(_, buf) ← local (stack 512) (snprintf 0 512 (restrict_json ctx));
  on_hnd (fun h => h <| content_type := APP_JSON |>);;
  tga_set_body buf;;
  tga_set_method "restrictChatMember";;
  tg_api_post.

(** [parse_mode_t]; any other number is refused. *)
Definition PARSE_MODE_OFF : Z := 0.
Definition PARSE_MODE_HTML : Z := 1.
Definition PARSE_MODE_MARKDOWN : Z := 2.

(** [msg_text]: the string from the pointer to the end of its object. *)
Record tga_send_msg_t := SendMsg {
  send_chat_id : Z;
  reply_to_msg_id : Z;
  send_text : list byte;
  parse_mode : Z;
}.

Definition SEND_BUFSIZ : Z := 0x6500.

(** The body in [buf]; a parse mode that is refused ends it. *)
Definition build_send_msg (ctx : tga_send_msg_t) : M (list byte) unit :=
  pos ← snprintf 0 SEND_BUFSIZ (bs "chat_id=" ++ num (send_chat_id ctx));
  pos ← (if decide (reply_to_msg_id ctx <> 0) then
           n ← snprintf pos (u64 (SEND_BUFSIZ - pos)) (bs "&reply_to_message_id=" ++ num (reply_to_msg_id ctx));
           mret (pos + n)
         else mret pos);
  pos ← (if decide (parse_mode ctx = PARSE_MODE_OFF) then mret pos
         else if decide (parse_mode ctx = PARSE_MODE_HTML) then
           pokes pos (bs "&parse_mode=html");; mret (pos + 16)
         else if decide (parse_mode ctx = PARSE_MODE_MARKDOWN) then
           pokes pos (bs "&parse_mode=markdown");; mret (pos + 20)
         else exit (- EINVAL));
  pokes pos (bs "&text=" ++ [Byte.x00]);;
  let pos := pos + 6 in
  text_len ← lift FBounds (strnlen (send_text ctx) (Z.to_nat (u64 ((SEND_BUFSIZ - pos) / 3 - 1))));
  at_ptr pos (Url.urlencode_into (send_text ctx) text_len true).

Definition tga_send_msg (ctx : tga_send_msg_t) : M conn Z := fun c =>
  match build_send_msg ctx (stack (Z.to_nat SEND_BUFSIZ)) with
  | (Val _, buf) => (tga_set_body buf;; tga_set_method "sendMessage";; tg_api_post) c
  | (Exit code, _) => (Val code, c)
  | (Fault f, _) => (Fault f, c)
  end.

Definition tga_get_chat_admins (chat_id : Z) : M conn Z :=
  '(_, buf) ← local (stack 64) (snprintf 0 64 (bs "chat_id=" ++ num chat_id));
  tga_set_body buf;;
  tga_set_method "getChatAdministrators";;
  tg_api_post.
End Api.

(** ** getChatAdministrators *)
Definition NOP_STATUS : Z := 0.
Definition CREATOR : Z := 2.
Definition ADMINISTRATOR : Z := 4.
Definition MEMBER : Z := 8.
Definition RESTRICTED : Z := 16.
Definition KICKED : Z := 64.

Record tga_user := User {
  u_id : Z;
  u_first_name : cstr;
  u_last_name : cstr;
  u_username : cstr;
  u_is_bot : bool;
  u_lang : list byte;          (** char [4] *)
}.
#[export] Instance eta_user : Eta tga_user := fun r =>
  User (u_id r) (u_first_name r) (u_last_name r) (u_username r) (u_is_bot r) (u_lang r).

Record tga_chat_member := ChatMember { member_user : tga_user; member_status : Z }.
#[export] Instance eta_chat_member : Eta tga_chat_member := fun r => ChatMember (member_user r) (member_status r).

Definition member_zero : tga_chat_member := ChatMember (User 0 None None None false (replicate 4 Byte.x00)) 0.

Definition map_to_status (sta : cstr) : Z :=
  match sta with
  | None => NOP_STATUS
  | Some sta =>
      if starts_with (bs "creator") sta then CREATOR
      else if starts_with (bs "administrator") sta then ADMINISTRATOR
      else if starts_with (bs "member") sta then MEMBER
      else if starts_with (bs "restricted") sta then RESTRICTED
      else if starts_with (bs "left") sta then CREATOR
      else if starts_with (bs "kicked") sta then KICKED
      else NOP_STATUS
  end.

Section Admins.
Context `{JsonLib}.

(** [json_object_object_get_ex(j, k, &v) && v]. *)
Definition get_member (j : json) (k : string) : option json :=
  match json_object_object_get_ex j k with
  | Some JNull | None => None
  | Some v => Some v
  end.

(** [strncpy(user->lang, lang, 3)] and the terminator. *)
Definition copy_lang (lang : list byte) : list byte :=
  take 3 (take 3 lang ++ replicate 3 Byte.x00) ++ [Byte.x00].

Definition set_if {X} (j : json) (k : string) (f : json -> X -> X) (x : X) : X :=
  match get_member j k with Some tmp => f tmp x | None => x end.

(** One turn of the loop; [None] for [continue]. *)
Definition parse_admin (subres_obj : json) (a : tga_chat_member) : option tga_chat_member :=
  match subres_obj with
  | JNull => None
  | _ =>
      match get_member subres_obj "user" with
      | None => None
      | Some user_obj =>
          match get_member user_obj "id" with
          | None => None
          | Some tmp =>
              let user := member_user a <| u_id := json_object_get_uint64 tmp |> in
              let user := set_if user_obj "is_bot" (fun t u => u <| u_is_bot := json_object_get_boolean t |>) user in
              let user := set_if user_obj "first_name" (fun t u => u <| u_first_name := json_object_get_string t |>) user in
              let user := set_if user_obj "username" (fun t u => u <| u_username := json_object_get_string t |>) user in
              let user := set_if user_obj "lang" (fun t u =>
                match json_object_get_string t with
                | Some lang => u <| u_lang := copy_lang lang |>
                | None => u
                end) user in
              Some (set_if subres_obj "status"
                (fun t a => a <| member_status := map_to_status (json_object_get_string t) |>)
                (a <| member_user := user |>))
          end
      end
  end.

Fixpoint admins_loop {T} (l : list json) (arr : list tga_chat_member) (j : nat) : M T (list tga_chat_member) :=
  match l with
  | [] => mret arr
  | subres_obj :: l' =>
      a ← lift FBounds (arr !! j);
      match parse_admin subres_obj a with
      | None => admins_loop l' arr j
      | Some a => admins_loop l' (<[j := a]> arr) (S j)
      end
  end.

(** The code, the array and its count; the last two only when the code is 0. *)
Definition parse_tga_admins {T} (calloc_ok : bool) (obj : json) : M T (Z * list tga_chat_member * Z) :=
  match get_member obj "ok" with
  | None => mret (- EINVAL, [], 0)
  | Some res =>
      if negb (json_object_get_boolean res) then mret (- EBADMSG, [], 0)
      else
        match get_member obj "result" with
        | None => mret (- EINVAL, [], 0)
        | Some res =>
            admin_c ← json_object_array_length res;
            if negb calloc_ok then mret (- ENOMEM, [], 0)
            else
              l ← (match res with JArray l => mret l | _ => faulty FAssert end);
              arr ← admins_loop l (replicate (Z.to_nat admin_c + 1) member_zero) 0;
              mret (0, arr, admin_c)
        end
  end.

(** json_tokener_parse of json-c: one call of the parser on the whole string. *)
Definition json_tokener_parse (s : list byte) : json :=
  let '(_, err, obj) := json_tokener_parse_ex json_tokener_new (asz s) in
  if decide (err = json_tokener_success) then obj else JNull.
End Admins.
