(* ===== verification/TgApiSpec.v ===== *)
(** * What the Telegram client sends and receives

    Every request fits its buffer, whatever the numbers; a receiver that
    decodes the form gets the fields back; the answer is collected whole, in
    pieces of any sizes, as long as memory lasts. *)
From S2P Require Import Prelude CString Json TgApi.

(** ** Decimal numbers *)
Definition is_digit (c : byte) : bool := (48 <=? bz c) && (bz c <=? 57).

Lemma digit_of k : 0 <= k < 10 -> bz (zb (48 + k)) = 48 + k.
Proof. intros. apply bz_zb. lia. Qed.

Lemma udec_app f n acc : udec f n acc = udec f n [] ++ acc.
Proof.
  revert n acc. induction f as [|f IH]; intros n acc; [done|]. cbn [udec].
  case_match; [done|]. rewrite IH, (IH _ [_]). by rewrite <- app_assoc.
Qed.

Lemma udec_length f n : (length (udec f n []) <= f)%nat.
Proof.
  revert n. induction f as [|f IH]; intros n; [done|]. cbn [udec]. case_match; [simpl; lia|].
  rewrite udec_app, length_app. specialize (IH (n / 10)). simpl. lia.
Qed.

Lemma udec_digits f n : Forall (fun c => is_digit c = true) (udec f n []).
Proof.
  revert n. induction f as [|f IH]; intros n; [constructor|]. cbn [udec].
  assert (Hd : is_digit (zb (48 + n mod 10)) = true).
  { unfold is_digit. pose proof (Z.mod_pos_bound n 10). rewrite digit_of by lia. lia. }
  case_match; [by repeat constructor|]. rewrite udec_app. apply Forall_app. split; [done|by repeat constructor].
Qed.

Lemma digits_cons c s acc :
  is_digit c = true -> digits (c :: s) acc = digits s (acc * 10 + (bz c - 48)).
Proof. unfold is_digit. intros H. simpl. by rewrite H. Qed.

Lemma digits_udec f n s acc :
  0 <= n < 10 ^ Z.of_nat f ->
  exists k, 0 <= k /\ digits (udec f n [] ++ s) acc = digits s (acc * 10 ^ k + n).
Proof.
  revert n s acc. induction f as [|f IH]; intros n s acc Hn.
  { exists 0. simpl in *. split; [lia|]. f_equal. lia. }
  cbn [udec]. pose proof (Z.mod_pos_bound n 10 ltac:(lia)) as Hm.
  assert (Hd : is_digit (zb (48 + n mod 10)) = true) by (unfold is_digit; rewrite digit_of by lia; lia).
  destruct (n <? 10) eqn:Hlt.
  - exists 1. split; [lia|]. cbn [app]. rewrite digits_cons by done. rewrite digit_of by lia.
    rewrite (Z.mod_small n) by lia. f_equal. lia.
  - rewrite udec_app, <- app_assoc.
    destruct (IH (n / 10) ([zb (48 + n mod 10)] ++ s) acc) as (k & Hk & ->).
    { split; [apply Z.div_pos; lia|]. apply Z.div_lt_upper_bound; [lia|].
      rewrite Nat2Z.inj_succ, Z.pow_succ_r in Hn by lia. lia. }
    exists (k + 1). split; [lia|]. cbn [app]. rewrite digits_cons by done. rewrite digit_of by lia. f_equal.
    rewrite Z.pow_add_r, Z.pow_1_r, Z.mul_assoc by lia. pose proof (Z.div_mod n 10 ltac:(lia)). lia.
Qed.

Definition int64 (z : Z) : Prop := - 2 ^ 63 <= z < 2 ^ 63.
Definition uint64 (z : Z) : Prop := 0 <= z < 2 ^ 64.

Lemma dec_length z : (length (dec z) <= 21)%nat.
Proof. unfold dec. pose proof (udec_length 20 (- z)). pose proof (udec_length 20 z). case_match; cbn [length]; lia. Qed.

(** The text of a number is read back as the number. *)
Lemma udec_not_space f n c s : udec (S f) n [] = c :: s -> is_digit c = true.
Proof. intros He. pose proof (udec_digits (S f) n) as Hf. rewrite He in Hf. by apply Forall_cons in Hf as []. Qed.

Lemma udec_nonempty f n : udec (S f) n [] <> [].
Proof. cbn [udec]. case_match; [done|]. rewrite udec_app. by destruct (udec f _ _). Qed.

Lemma skip_space_digit c s : is_digit c = true -> skip_space (c :: s) = c :: s.
Proof.
  unfold is_digit, is_space. intros Hc. simpl. unfold is_space.
  replace (_ || _) with false; [done|]. lia.
Qed.

Lemma sign_digit c s : is_digit c = true -> sign (c :: s) = (false, c :: s).
Proof.
  intros Hc. simpl. rewrite !decide_False; [done|..]; intros ->; by vm_compute in Hc.
Qed.

Lemma digits_udec0 f n : 0 <= n < 10 ^ Z.of_nat f -> digits (udec f n []) 0 = n.
Proof.
  intros Hn. destruct (digits_udec f n [] 0 Hn) as (k & _ & Hd). rewrite app_nil_r in Hd. rewrite Hd. done.
Qed.

Lemma strtoull_dec z : uint64 z -> strtoull (dec z) = z.
Proof.
  intros Hz. unfold uint64 in Hz. unfold strtoull, dec. rewrite (proj2 (Z.ltb_ge z 0)) by lia.
  destruct (udec 20 z []) as [|c s] eqn:He; [by apply udec_nonempty in He|].
  pose proof (udec_not_space 19 z c s He) as Hc.
  rewrite skip_space_digit, sign_digit by done. rewrite <- He, digits_udec0 by lia.
  rewrite decide_False by lia. by apply u64_small.
Qed.

Lemma strtol_dec z : int64 z -> strtol (dec z) = z.
Proof.
  intros Hz. unfold int64 in Hz. unfold strtol, dec. destruct (z <? 0) eqn:Hneg.
  - change (skip_space ("-"%byte :: ?s)) with ("-"%byte :: s).
    change (sign ("-"%byte :: ?s)) with (true, s). cbv beta iota. rewrite digits_udec0 by lia. lia.
  - destruct (udec 20 z []) as [|c s] eqn:He; [by apply udec_nonempty in He|].
    pose proof (udec_not_space 19 z c s He) as Hc.
    rewrite skip_space_digit, sign_digit by done. rewrite <- He, digits_udec0 by lia. lia.
Qed.

(** ** Forms

    A body is a list of fields; a receiver splits it at the ampersands and the
    first equals sign of a piece, and decodes. *)
Fixpoint split_on (c : byte) (w : list byte) : list (list byte) :=
  match w with
  | [] => [[]]
  | b :: w' =>
      if decide (b = c) then [] :: split_on c w'
      else match split_on c w' with [] => [[b]] | p :: ps => (b :: p) :: ps end
  end.

Fixpoint cut_on (c : byte) (w : list byte) : option (list byte * list byte) :=
  match w with
  | [] => None
  | b :: w' => if decide (b = c) then Some ([], w') else (fun '(k, v) => (b :: k, v)) <$> cut_on c w'
  end.

Definition decode_field (w : list byte) : option (list byte * list byte) :=
  '(k, v) ← cut_on "="%byte w;
  k ← Url.url_decode true k;
  v ← Url.url_decode true v;
  Some (k, v).

Definition form_decode (w : list byte) : option (list (list byte * list byte)) :=
  mapM decode_field (split_on "&"%byte w).

Definition field_text (f : list byte * list byte) : list byte := fst f ++ "="%byte :: Url.enc true (snd f).

Fixpoint form (fs : list (list byte * list byte)) : list byte :=
  match fs with
  | [] => []
  | [f] => field_text f
  | f :: fs' => field_text f ++ "&"%byte :: form fs'
  end.

(** A key that stands for itself. *)
Definition plain (k : list byte) : Prop := Url.enc true k = k /\ "="%byte ∉ k.

Lemma split_on_app c a b : c ∉ a -> split_on c (a ++ c :: b) = a :: split_on c b.
Proof.
  induction a as [|x a IH]; simpl; intros Hc; [by rewrite decide_True|].
  rewrite not_elem_of_cons in Hc. destruct Hc as [Hne Hc]. rewrite decide_False by congruence. by rewrite IH.
Qed.

Lemma split_on_none c a : c ∉ a -> split_on c a = [a].
Proof.
  induction a as [|x a IH]; simpl; intros Hc; [done|].
  rewrite not_elem_of_cons in Hc. destruct Hc as [Hne Hc]. rewrite decide_False by congruence. by rewrite IH.
Qed.

Lemma cut_on_app c k v : c ∉ k -> cut_on c (k ++ c :: v) = Some (k, v).
Proof.
  induction k as [|x k IH]; simpl; intros Hc; [by rewrite decide_True|].
  rewrite not_elem_of_cons in Hc. destruct Hc as [Hne Hc]. rewrite decide_False by congruence. by rewrite IH.
Qed.

Lemma enc_not c s : Url.form_byte c = false -> c ∉ Url.enc true s.
Proof. intros Hc Hin. pose proof (Url.enc_form true s) as Hf. rewrite Forall_forall in Hf. apply Hf in Hin. congruence. Qed.

Lemma amp_not_in_field f : plain (fst f) -> "&"%byte ∉ field_text f.
Proof.
  intros [Hk _]. unfold field_text. rewrite not_elem_of_app, not_elem_of_cons. split; [|split; [done|]].
  - rewrite <- Hk. by apply enc_not.
  - by apply enc_not.
Qed.

Lemma decode_field_text f : plain (fst f) -> decode_field (field_text f) = Some f.
Proof.
  intros [Hk He]. unfold decode_field, field_text. rewrite cut_on_app by done. simpl.
  assert (Hd : Url.url_decode true (fst f) = Some (fst f)) by (rewrite <- Hk at 1; apply Url.url_decode_enc).
  rewrite Hd. simpl. rewrite Url.url_decode_enc. simpl. by destruct f.
Qed.

Lemma form_roundtrip fs : fs <> [] -> Forall (fun f => plain (fst f)) fs -> form_decode (form fs) = Some fs.
Proof.
  intros Hne Hall. unfold form_decode. induction Hall as [|f fs Hf Hall IH]; [done|].
  destruct fs as [|f' fs].
  - simpl. rewrite split_on_none by (by apply amp_not_in_field). simpl. by rewrite decode_field_text.
  - change (form (f :: f' :: fs)) with (field_text f ++ "&"%byte :: form (f' :: fs)).
    rewrite split_on_app by (by apply amp_not_in_field). simpl mapM. rewrite decode_field_text by done.
    simpl in IH |- *. by rewrite IH.
Qed.

Lemma enc_digits s : Forall (fun c => is_digit c = true) s -> Url.enc true s = s.
Proof.
  induction 1 as [|c s Hc Hs IH]; [done|]. change (Url.enc true (c :: s)) with (Url.enc1 true c ++ Url.enc true s).
  rewrite IH. assert (He : Url.enc1 true c = [c]); [|by rewrite He].
  clear -Hc. by destruct c.
Qed.

Lemma enc_dec z : Url.enc true (dec z) = dec z.
Proof.
  unfold dec. case_match; [|apply enc_digits, udec_digits].
  change (Url.enc true ("-"%byte :: ?s)) with ("-"%byte :: Url.enc true s). f_equal. apply enc_digits, udec_digits.
Qed.

Lemma dec_no_nul z : no_nul (dec z).
Proof. rewrite <- enc_dec. apply Url.enc_no_nul. Qed.

(** ** Arrays *)
Lemma snprintf_run pre rest s size :
  Z.of_nat (length s) < size -> (length s < length rest)%nat ->
  snprintf (Z.of_nat (length pre)) size s (pre ++ rest) =
    (Val (Z.of_nat (length s)), (pre ++ s) ++ Byte.x00 :: drop (S (length s)) rest).
Proof.
  intros Hs Hr. unfold snprintf. rewrite decide_False by lia. cbv zeta.
  rewrite Z.min_l, Nat2Z.id, take_ge by lia. munfold. rewrite pokes_app by lia.
  rewrite app_assoc, poke_app; [|rewrite length_app; lia|rewrite length_drop; lia].
  rewrite drop_drop, Nat.add_1_r. done.
Qed.

Lemma snprintf_stack `{Net} k size s :
  Z.of_nat (length s) < size -> (length s < k)%nat ->
  exists rest, snprintf 0 size s (stack k) = (Val (Z.of_nat (length s)), s ++ Byte.x00 :: rest).
Proof.
  intros Hs Hk. exists (drop (S (length s)) (stack k)).
  apply (snprintf_run [] (stack k)); [done|]. by rewrite length_stack.
Qed.

Lemma url_copy_run s pre rest :
  Z.of_nat (length pre) < 510 -> (length pre + length rest = 512)%nat ->
  exists rest',
    (url_copy 512 s (Z.of_nat (length pre)) (pre ++ rest) = (Val (Some (Z.of_nat (length (pre ++ s)))), (pre ++ s) ++ rest') /\
      Z.of_nat (length (pre ++ s)) < 510 /\ (length (pre ++ s) + length rest' = 512)%nat) \/
    (url_copy 512 s (Z.of_nat (length pre)) (pre ++ rest) = (Val None, take 510 (pre ++ s) ++ Byte.x00 :: rest') /\
      (510 <= length (pre ++ s))%nat).
Proof.
  revert pre rest. induction s as [|c s IH]; intros pre rest Hp Hl.
  { exists rest. left. rewrite app_nil_r. done. }
  destruct rest as [|b rest]; [simpl in Hl; lia|]. cbn [url_copy]. munfold. rewrite poke_mid.
  assert (Hp1 : pre ++ c :: rest = (pre ++ [c]) ++ rest) by (by rewrite <- app_assoc).
  assert (Hp2 : pre ++ c :: s = (pre ++ [c]) ++ s) by (by rewrite <- app_assoc).
  assert (Hlen : Z.of_nat (length pre) + 1 = Z.of_nat (length (pre ++ [c]))) by (rewrite length_app; simpl; lia).
  rewrite Hlen, Hp1, Hp2. simpl in Hl. case_decide as Hd.
  - assert (length (pre ++ [c]) = 510%nat) as H510 by (rewrite length_app in *; simpl in *; lia).
    exists (drop 1 rest). right. rewrite poke_app; [|done|rewrite length_app in H510; simpl in *; lia].
    split; [|rewrite (length_app _ s); lia]. rewrite take_app_length' by done. done.
  - apply IH; [lia|]. rewrite length_app. simpl. lia.
Qed.

Definition url_of (token method : list byte) : list byte := api_url ++ token ++ "/"%byte :: method.
#[local] Arguments url_of : simpl never.

Lemma build_url_run token method buf :
  length buf = 512%nat -> no_nul token -> no_nul method ->
  exists rest k, build_url token method buf = (Val tt, take k (url_of token method) ++ Byte.x00 :: rest) /\
    (510 <= k)%nat.
Proof.
  intros Hl Ht Hm. unfold build_url. set (full := url_of token method).
  pose proof (pokes_app [] buf 0 api_url eq_refl) as Hp. rewrite !app_nil_l in Hp.
  erewrite bind_val by (apply Hp; rewrite Hl; simpl; lia).
  destruct (url_copy_run token api_url (drop (length api_url) buf)) as (rest & [(Hrun & Hlt & Hlen)|(Hrun & Hge)]);
    [simpl; lia|rewrite length_drop, Hl; simpl; lia| |].
  - rewrite (bind_val _ _ _ _ _ Hrun). destruct rest as [|b rest]; [rewrite length_nil in Hlen; lia|].
    rewrite length_cons in Hlen. erewrite bind_val by apply poke_mid.
    assert (He : (api_url ++ token) ++ "/"%byte :: rest = ((api_url ++ token) ++ ["/"%byte]) ++ rest)
      by (by rewrite <- !app_assoc).
    assert (Hf : ((api_url ++ token) ++ ["/"%byte]) ++ method = full) by (unfold full, url_of; by rewrite <- !app_assoc).
    assert (Hn : Z.of_nat (length (api_url ++ token)) + 1 = Z.of_nat (length ((api_url ++ token) ++ ["/"%byte])))
      by (rewrite (length_app _ ["/"%byte]); simpl; lia).
    rewrite He, Hn.
    destruct (decide (Z.of_nat (length ((api_url ++ token) ++ ["/"%byte])) < 510)) as [H510|H510].
    + destruct (url_copy_run method ((api_url ++ token) ++ ["/"%byte]) rest) as (rest2 & [(Hrun2 & Hlt2 & Hlen2)|(Hrun2 & Hge2)]);
        [lia|lia| |]; rewrite (bind_val _ _ _ _ _ Hrun2), ?Hf in *.
      * exists (drop 1 rest2), (length full + 510)%nat. split; [|lia]. rewrite take_ge by lia.
        rewrite poke_app by lia. done.
      * exists rest2, 510%nat. done.
    + (* the slash is at 509 *)
      destruct method as [|c method].
      * cbn [url_copy]. erewrite bind_val by reflexivity. rewrite app_nil_r in Hf. rewrite Hf in *.
        exists (drop 1 rest), (length full + 510)%nat. split; [|lia]. rewrite take_ge by lia. rewrite poke_app by lia. done.
      * set (pre := (api_url ++ token) ++ ["/"%byte]) in *.
        assert (Hpre : length pre = 510%nat) by lia. assert (Hrest : length rest = 2%nat) by lia.
        destruct rest as [|b2 [|b3 rest]]; [done..|].
        cbn [url_copy]. munfold. rewrite poke_mid.
        replace (pre ++ c :: b3 :: rest) with ((pre ++ [c]) ++ b3 :: rest) by (by rewrite <- app_assoc).
        rewrite decide_True by lia. rewrite poke_app by (rewrite ?length_app, ?length_cons; simpl; lia).
        exists rest, 511%nat. split; [|lia]. rewrite <- Hf.
        replace (pre ++ c :: method) with ((pre ++ [c]) ++ method) by (by rewrite <- app_assoc).
        rewrite take_app_length'; [done|]. rewrite length_app, Hpre. done.
  - rewrite (bind_val _ _ _ _ _ Hrun). exists rest, 510%nat. split; [|done]. unfold full, url_of.
    rewrite (app_assoc api_url), (take_app_le (api_url ++ token)) by lia. done.
Qed.

(** ** The answer in its buffer *)
Record res_ok (l : list byte) (r : tga_res_t) : Prop := {
  rs_body : exists rest, res_body r = Some (l ++ rest) /\ Z.of_nat (length (l ++ rest)) = res_allocated r;
  rs_len : res_len r = Z.of_nat (length l);
  rs_room : res_len r < res_allocated r;
  rs_bound : res_allocated r <= 4096 + 3 * (res_len r + 2);
}.

(** The terminator is there. *)
Definition terminated (l : list byte) (r : tga_res_t) : Prop :=
  exists rest, res_body r = Some (l ++ Byte.x00 :: rest).

Definition sized (f : Z -> option (list byte)) : Prop :=
  forall n b, f n = Some b -> Z.of_nat (length b) = n.

Section Answer.
Context (realloc : Z -> option (list byte)).
Hypothesis Hsized : sized realloc.

Lemma append_run l d rest n a :
  Z.of_nat (length (l ++ rest)) = a -> Z.of_nat (length l) + Z.of_nat (length d) < a -> n = Z.of_nat (length l) ->
  (pokes n d;; poke (n + Z.of_nat (length d)) Byte.x00) (l ++ rest) =
    (Val tt, (l ++ d) ++ Byte.x00 :: drop (S (length d)) rest).
Proof.
  intros Ha Hlt ->. rewrite length_app in Ha.
  erewrite bind_val by (apply pokes_app; [done|lia]). rewrite app_assoc.
  rewrite poke_app; [|rewrite length_app; lia|rewrite length_drop; lia]. by rewrite drop_drop, Nat.add_1_r.
Qed.

Lemma write_callback_run l r d :
  res_ok l r -> Z.of_nat (length l) + Z.of_nat (length d) < 2 ^ 60 ->
  (exists r', write_callback realloc d r = (Val (Z.of_nat (length d)), r') /\ res_ok (l ++ d) r' /\ terminated (l ++ d) r') \/
  (write_callback realloc d r = (Val 0, r) /\ exists n, 0 <= n /\ realloc n = None).
Proof.
  intros [(rest & Hb & Ha) Hlen Hroom Hbound] Hsize.
  assert (Happ : Z.of_nat (length (l ++ d)) = Z.of_nat (length l) + Z.of_nat (length d)) by (rewrite length_app; lia).
  assert (Hfin : forall rest' a, Z.of_nat (length (l ++ rest')) = a -> Z.of_nat (length (l ++ d)) < a ->
    a <= 4096 + 3 * (Z.of_nat (length (l ++ d)) + 2) ->
    let r' := Res (Some ((l ++ d) ++ Byte.x00 :: drop (S (length d)) rest')) (Z.of_nat (length (l ++ d))) a in
    res_ok (l ++ d) r' /\ terminated (l ++ d) r').
  { intros rest' a Ha' Hlt Hbd. split; [|by eexists]. split; simpl; try done.
    eexists. split; [done|]. rewrite length_app in Ha'. rewrite length_app. cbn [length]. rewrite length_drop. lia. }
  assert (Hupd : forall b k a k', Res b k a <| res_len := k' |> = Res b k' a) by done.
  unfold write_callback. rewrite Hb. rewrite (u64_small (_ + _ + 2)) by lia.
  case_decide as Hgrow.
  - rewrite (u64_small (_ * 2 + _)) by lia.
    destruct (realloc _) as [fresh|] eqn:Hr; [left|right; split; [done|]; eexists; split; [|exact Hr]; lia].
    apply Hsized in Hr.
    rewrite <- app_assoc. set (rest' := rest ++ drop (length (l ++ rest)) fresh).
    assert (Hl' : Z.of_nat (length (l ++ rest')) = res_allocated r * 2 + Z.of_nat (length d)).
    { unfold rest'. rewrite app_assoc, length_app, length_drop. lia. }
    rewrite (append_run l d rest' _ _ Hl') by lia. eexists. split; [done|].
    rewrite Hupd. cbn [res_len]. rewrite Hlen. rewrite u64_small by lia. rewrite <- Happ. rewrite Hlen in *. apply Hfin; lia.
  - left. rewrite (append_run l d rest _ _ Ha) by lia. eexists. split; [done|].
    rewrite Hupd. cbn [res_len]. rewrite Hlen. rewrite u64_small by lia. rewrite <- Happ. rewrite Hlen in *. apply Hfin; lia.
Qed.

Lemma deliver_chunks chunks l r :
  res_ok l r -> Z.of_nat (length l) + Z.of_nat (length (concat chunks)) < 2 ^ 60 ->
  exists r' k, deliver realloc chunks r = (Val tt, r') /\ res_ok (l ++ concat (take k chunks)) r' /\
    ((forall n, 0 <= n -> realloc n <> None) -> k = length chunks /\
       (terminated l r \/ chunks <> [] -> terminated (l ++ concat chunks) r')).
Proof.
  revert l r. induction chunks as [|d chunks IH]; intros l r Hr Hsize.
  { exists r, 0%nat. simpl. rewrite app_nil_r. split; [done|]. split; [done|]. intros _. split; [done|].
    by intros [?|?]. }
  cbn [deliver concat] in *. rewrite length_app in Hsize.
  destruct (write_callback_run l r d Hr) as [(r1 & Hrun & Hr1 & Ht1)|[Hrun (n & Hpos & Hn)]]; [lia| |].
  - rewrite (bind_val _ _ _ _ _ Hrun), decide_True by done.
    destruct (IH (l ++ d) r1 Hr1) as (r' & k & Hrun' & Hr' & Hk); [rewrite length_app; lia|].
    exists r', (S k). split; [done|]. simpl. rewrite app_assoc. split; [done|].
    intros Hall. destruct (Hk Hall) as [-> Ht]. split; [done|]. intros _. rewrite app_assoc. auto.
  - rewrite (bind_val _ _ _ _ _ Hrun). case_decide as Hd.
    + assert (d = []) as -> by (by destruct d).
      destruct (IH l r Hr) as (r' & k & Hrun' & Hr' & Hk); [simpl in Hsize; lia|].
      exists r', (S k). split; [done|]. split; [done|]. intros Hall. by destruct (Hall n Hpos).
    + exists r, 0%nat. split; [done|]. simpl. rewrite app_nil_r. split; [done|]. intros Hall. by destruct (Hall n Hpos).
Qed.
End Answer.

(** ** tg_api_post *)

(** What the allocator and libcurl promise: blocks have the asked size, and the
    answer is not longer than any memory. *)
Record transfer_ok (t : transfer) : Prop := {
  tk_malloc : sized (t_malloc t);
  tk_realloc : sized (t_realloc t);
  tk_size q : Z.of_nat (length (concat (fst (t_answer t q)))) < 2 ^ 60;
}.

(** Memory and curl_easy_init do not fail. *)
Definition transfer_lucky (t : transfer) : Prop :=
  (forall n, 0 <= n -> t_malloc t n <> None) /\ (forall n, 0 <= n -> t_realloc t n <> None) /\ t_init t = true.

Section Post.
Context `{Net}.

(** A handle ready for its request. *)
Definition ready (token method body rest : list byte) (ct : content_type_t) : tga_handle_t :=
  Handle (Some token) (Some method) (Some (body ++ Byte.x00 :: rest)) (Res None 0 0) ct.

Inductive post_out (token method body : list byte) (ct : content_type_t) (w : list request) :
    Z -> conn -> Prop :=
| post_failed c' : ~ transfer_lucky (net w) -> sent c' = w -> post_out token method body ct w (- ENOMEM) c'
| post_sent c' k q :
    (510 <= k)%nat -> q = Request (take k (url_of token method)) body ct -> sent c' = w ++ [q] ->
    (exists n, res_ok (concat (take n (fst (t_answer (net w) q)))) (res (hnd c'))) ->
    (fst (t_answer (net w) q) = [] -> t_malloc (net w) 4096 = res_body (res (hnd c'))) ->
    (transfer_lucky (net w) -> fst (t_answer (net w) q) <> [] ->
       terminated (concat (fst (t_answer (net w) q))) (res (hnd c'))) ->
    post_out token method body ct w (if decide (snd (t_answer (net w) q) = 0) then 0 else - EBADMSG) c'.

Lemma take_url_no_nul k token method :
  no_nul token -> no_nul method -> no_nul (take k (url_of token method)).
Proof.
  intros Ht Hm. apply Forall_take. unfold url_of. apply Forall_app. split; [by repeat constructor|].
  apply Forall_app. split; [done|]. by constructor.
Qed.

Lemma tg_api_post_run token method body rest ct w :
  token <> [] -> no_nul token -> no_nul method -> no_nul body -> transfer_ok (net w) ->
  exists ret c', tg_api_post (Conn (ready token method body rest ct) w) = (Val ret, c') /\
    post_out token method body ct w ret c'.
Proof.
  intros Hne Ht Hm Hb [Hmal Hre Hsize]. destruct token as [|b token]; [done|].
  unfold tg_api_post. erewrite bind_val by reflexivity. cbn [ready hnd req_method h_token].
  unfold on_res at 1, zoom at 1, tg_api_allocate_res.
  munfold. simpl. destruct (t_malloc (net w) 4096) as [blk|] eqn:Hblk.
  2:{ eexists _, _. split; [reflexivity|]. apply post_failed; [|done]. intros (Hml & _). by apply (Hml 4096). }
  simpl. destruct (build_url_run (b :: token) method (stack 512)) as (urest & k & Hurl & Hk);
    [apply length_stack|done|done|]. unfold local. rewrite Hurl.
  destruct (t_init (net w)) eqn:Hinit; simpl.
  2:{ eexists _, _. split; [reflexivity|]. apply post_failed; [|done]. intros (_ & _ & ?). congruence. }
  rewrite strlen_asz by (by apply take_url_no_nul). unfold lift. munfold. rewrite strlen_asz by done.
  rewrite !take_app_length. set (q := Request _ _ _).
  destruct (t_answer (net w) q) as [chunks cres] eqn:Hans. unfold on_res, zoom. simpl.
  assert (Hfst : fst (t_answer (net w) q) = chunks) by (by rewrite Hans).
  destruct (deliver_chunks (t_realloc (net w)) Hre chunks [] (Res (Some blk) 0 4096)) as (r' & n & Hrun & Hr' & Hall).
  { split; simpl; try lia. exists blk. split; [done|]. by apply Hmal. }
  { specialize (Hsize q). rewrite Hfst in Hsize. simpl. lia. }
  rewrite Hrun. exists (if decide (snd (t_answer (net w) q) = 0) then 0 else - EBADMSG).
  eexists. split; [rewrite Hans; simpl; repeat case_decide; simplify_eq; reflexivity|].
  apply (post_sent _ _ _ _ _ _ k q); try done.
  - exists n. by rewrite Hfst.
  - rewrite Hfst. intros ->. simpl in Hrun. by injection Hrun as <-.
  - rewrite Hfst. intros (_ & Hre' & _) Hc. destruct (Hall Hre') as [_ Hterm]. apply Hterm. by right.
Qed.
End Post.

(** ** Filling an array from the left *)
Section Filled.
Context (n : nat).

(** The array [buf] of [n] bytes starts with [pre]. *)
Definition filled (pre buf : list byte) : Prop := pre `prefix_of` buf /\ length buf = n.

Lemma filled_weaken pre s buf : filled (pre ++ s) buf -> filled pre buf.
Proof. intros [Hp Hl]. split; [|done]. by eapply prefix_app_l. Qed.

Lemma filled_snprintf pre buf s size :
  filled pre buf -> (length pre + length s < n)%nat -> Z.of_nat (length s) < size ->
  exists buf', snprintf (Z.of_nat (length pre)) size s buf = (Val (Z.of_nat (length s)), buf') /\
    filled (pre ++ s ++ [Byte.x00]) buf'.
Proof.
  intros [[rest ->] Hl] Hlt Hs. rewrite length_app in Hl.
  rewrite snprintf_run by lia. eexists. split; [done|]. split.
  - exists (drop (S (length s)) rest). by rewrite <- !app_assoc.
  - rewrite !length_app. cbn [length]. rewrite length_drop. lia.
Qed.

Lemma filled_pokes pre buf s :
  filled pre buf -> (length pre + length s <= n)%nat ->
  exists buf', pokes (Z.of_nat (length pre)) s buf = (Val tt, buf') /\ filled (pre ++ s) buf'.
Proof.
  intros [[rest ->] Hl] Hlt. rewrite length_app in Hl.
  rewrite pokes_app by lia. eexists. split; [done|]. split.
  - exists (drop (length s) rest). by rewrite <- app_assoc.
  - rewrite !length_app, length_drop. lia.
Qed.
End Filled.

(** ** sendMessage *)
Section SendMsg.
Context `{Net}.

Definition mode_name (mode : Z) : option (list byte) :=
  if decide (mode = PARSE_MODE_OFF) then None
  else if decide (mode = PARSE_MODE_HTML) then Some (bs "html") else Some (bs "markdown").

Definition send_head (ctx : tga_send_msg_t) : list (list byte * list byte) :=
  (bs "chat_id", num (send_chat_id ctx)) ::
  (if decide (reply_to_msg_id ctx <> 0) then [(bs "reply_to_message_id", num (reply_to_msg_id ctx))] else []) ++
  match mode_name (parse_mode ctx) with Some m => [(bs "parse_mode", m)] | None => [] end.

Definition mode_ok (mode : Z) : Prop :=
  mode = PARSE_MODE_OFF \/ mode = PARSE_MODE_HTML \/ mode = PARSE_MODE_MARKDOWN.

(** The room sendMessage leaves for the text. *)
Definition send_room (ctx : tga_send_msg_t) : nat :=
  Z.to_nat ((SEND_BUFSIZ - (Z.of_nat (length (form (send_head ctx))) + 6)) / 3 - 1).

Lemma form_snoc fs f : fs <> [] -> form (fs ++ [f]) = form fs ++ "&"%byte :: field_text f.
Proof.
  induction fs as [|g fs IH]; [done|]. intros _. destruct fs as [|g' fs]; [done|].
  change (form ((g :: g' :: fs) ++ [f])) with (field_text g ++ "&"%byte :: form ((g' :: fs) ++ [f])).
  change (form (g :: g' :: fs)) with (field_text g ++ "&"%byte :: form (g' :: fs)).
  rewrite IH by done. by rewrite <- app_assoc.
Qed.

Lemma num_length z : (length (num z) <= 21)%nat.
Proof. apply dec_length. Qed.

Lemma send_head_length ctx : (length (form (send_head ctx)) <= 100)%nat.
Proof.
  unfold send_head, mode_name. pose proof (num_length (send_chat_id ctx)). pose proof (num_length (reply_to_msg_id ctx)).
  repeat case_decide; cbn [app form field_text fst snd]; rewrite ?enc_dec in *; unfold num in *; rewrite ?enc_dec;
    rewrite ?length_app; cbn [length]; rewrite ?length_app; cbn [length]; rewrite ?enc_dec; simpl; lia.
Qed.

Local Notation size := (Z.to_nat SEND_BUFSIZ).

Lemma field_num k z : plain k -> field_text (k, num z) = k ++ "="%byte :: num z.
Proof. intros _. unfold field_text. simpl. unfold num. by rewrite enc_dec. Qed.

(** A numeric field behind the first. *)
Lemma append_num fs k z buf :
  fs <> [] -> plain k -> (length (form fs) + length k <= 100)%nat -> filled size (form fs) buf ->
  exists n buf', snprintf (Z.of_nat (length (form fs))) (u64 (SEND_BUFSIZ - Z.of_nat (length (form fs))))
      ("&"%byte :: k ++ "="%byte :: num z) buf = (Val n, buf') /\
    Z.of_nat (length (form fs)) + n = Z.of_nat (length (form (fs ++ [(k, num z)]))) /\
    filled size (form (fs ++ [(k, num z)])) buf'.
Proof.
  intros Hne Hk Hlen Hf. rewrite form_snoc, field_num by done.
  pose proof (num_length z) as Hn. set (s := "&"%byte :: k ++ "="%byte :: num z).
  assert (Hs : length s = (length k + length (num z) + 2)%nat).
  { unfold s. cbn [length]. rewrite length_app. cbn [length]. lia. }
  assert (HN : SEND_BUFSIZ = 25856) by done. assert (HN' : Z.of_nat size = 25856) by done.
  destruct (filled_snprintf size (form fs) buf s (u64 (SEND_BUFSIZ - Z.of_nat (length (form fs))))) as (buf' & Hrun & Hf');
    [done|lia|rewrite u64_small by lia; lia|].
  eexists _, buf'. split; [exact Hrun|]. split; [rewrite length_app; lia|].
  eapply filled_weaken. rewrite <- app_assoc. exact Hf'.
Qed.

(** A literal field behind the first. *)
Lemma append_text fs k v buf :
  fs <> [] -> Url.enc true v = v -> (length (form fs) + length k + length v <= 130)%nat -> filled size (form fs) buf ->
  exists buf', pokes (Z.of_nat (length (form fs))) ("&"%byte :: k ++ "="%byte :: v) buf = (Val tt, buf') /\
    filled size (form (fs ++ [(k, v)])) buf'.
Proof.
  intros Hne Hv Hlen Hf. rewrite form_snoc by done. unfold field_text. simpl fst. simpl snd. rewrite Hv.
  assert (HN' : Z.of_nat size = 25856) by done.
  apply filled_pokes; [done|]. cbn [length]. rewrite length_app. cbn [length]. lia.
Qed.

Lemma plain_chat_id : plain (bs "chat_id").
Proof. split; [reflexivity|]. by apply (bool_decide_unpack _). Qed.
Lemma plain_reply_to : plain (bs "reply_to_message_id").
Proof. split; [reflexivity|]. by apply (bool_decide_unpack _). Qed.
Lemma plain_parse_mode : plain (bs "parse_mode").
Proof. split; [reflexivity|]. by apply (bool_decide_unpack _). Qed.
Lemma plain_text : plain (bs "text").
Proof. split; [reflexivity|]. by apply (bool_decide_unpack _). Qed.

Definition send_fields (ctx : tga_send_msg_t) (text : list byte) : list (list byte * list byte) :=
  send_head ctx ++ [(bs "text", text)].

Lemma send_fields_plain ctx text : Forall (fun f => plain (fst f)) (send_fields ctx text).
Proof.
  unfold send_fields, send_head. constructor; [apply plain_chat_id|]. rewrite !Forall_app. split; [split|].
  - case_decide; repeat constructor; apply plain_reply_to.
  - destruct (mode_name _); repeat constructor; apply plain_parse_mode.
  - repeat constructor; apply plain_text.
Qed.

Definition mode_fields (mode : Z) : list (list byte * list byte) :=
  match mode_name mode with Some m => [(bs "parse_mode", m)] | None => [] end.

Lemma mode_run mode fs buf :
  mode_ok mode -> fs <> [] -> (length (form fs) <= 80)%nat -> filled size (form fs) buf ->
  exists buf', (let pos := Z.of_nat (length (form fs)) in
    if decide (mode = PARSE_MODE_OFF) then mret pos
    else if decide (mode = PARSE_MODE_HTML) then pokes pos (bs "&parse_mode=html");; mret (pos + 16)
    else if decide (mode = PARSE_MODE_MARKDOWN) then pokes pos (bs "&parse_mode=markdown");; mret (pos + 20)
    else exit (- EINVAL)) buf = (Val (Z.of_nat (length (form (fs ++ mode_fields mode)))), buf') /\
    filled size (form (fs ++ mode_fields mode)) buf'.
Proof.
  intros Hm Hne Hlen Hf. cbv zeta.
  assert (Hlit : forall m, Url.enc true m = m -> (length m <= 8)%nat -> mode_fields mode = [(bs "parse_mode", m)] ->
    exists buf', (pokes (Z.of_nat (length (form fs))) ("&"%byte :: bs "parse_mode" ++ "="%byte :: m);;
        mret (Z.of_nat (length (form fs)) + (12 + Z.of_nat (length m)))) buf =
      (Val (Z.of_nat (length (form (fs ++ mode_fields mode)))), buf') /\ filled size (form (fs ++ mode_fields mode)) buf').
  { intros m He Hl ->. destruct (append_text fs (bs "parse_mode") m buf Hne He) as (buf' & Hrun & Hf'); [simpl; lia|done|].
    exists buf'. rewrite (bind_val _ _ _ _ _ Hrun). split; [|done]. rewrite form_snoc by done.
    unfold field_text. simpl fst. simpl snd. rewrite He, length_app. munfold. repeat f_equal. simpl. lia. }
  destruct Hm as [-> | [-> | ->]].
  - exists buf. unfold mode_fields. simpl. rewrite app_nil_r. done.
  - apply (Hlit (bs "html")); [reflexivity|simpl; lia|reflexivity].
  - apply (Hlit (bs "markdown")); [reflexivity|simpl; lia|reflexivity].
Qed.

Lemma reply_run r fs buf :
  fs <> [] -> (length (form fs) <= 40)%nat -> filled size (form fs) buf ->
  let fs' := fs ++ (if decide (r <> 0) then [(bs "reply_to_message_id", num r)] else []) in
  exists buf', (let pos := Z.of_nat (length (form fs)) in
    if decide (r <> 0) then
      n ← snprintf pos (u64 (SEND_BUFSIZ - pos)) (bs "&reply_to_message_id=" ++ num r); mret (pos + n)
    else mret pos) buf = (Val (Z.of_nat (length (form fs'))), buf') /\ filled size (form fs') buf'.
Proof.
  intros Hne Hlen Hf. cbv zeta. case_decide; [|exists buf; by rewrite app_nil_r].
  destruct (append_num fs (bs "reply_to_message_id") r buf Hne plain_reply_to) as (n & buf' & Hrun & Hn & Hf');
    [simpl; lia|done|].
  exists buf'. split; [|done]. etransitivity; [exact (bind_val _ _ _ _ _ Hrun)|]. by rewrite <- Hn.
Qed.

Lemma reply_fields_length (r : Z) fs :
  fs <> [] -> (length (form (fs ++ (if decide (r <> 0%Z) then [(bs "reply_to_message_id", num r)] else []))) <=
    length (form fs) + 42)%nat.
Proof.
  intros Hne. case_decide; [|rewrite app_nil_r; lia]. rewrite form_snoc, field_num by (done || apply plain_reply_to).
  rewrite length_app. cbn [length]. rewrite length_app. cbn [length]. pose proof (num_length r). simpl length. lia.
Qed.

(** The whole body, and what it makes of the text. *)
Lemma build_send_msg_run ctx s junk :
  mode_ok (parse_mode ctx) -> send_text ctx = s ++ Byte.x00 :: junk -> no_nul s ->
  exists rest, build_send_msg ctx (stack size) =
    (Val tt, form (send_fields ctx (take (send_room ctx) s)) ++ Byte.x00 :: rest).
Proof.
  intros Hm Htext Hs. unfold build_send_msg. set (fs1 := [(bs "chat_id", num (send_chat_id ctx))]).
  assert (Hf1 : bs "chat_id=" ++ num (send_chat_id ctx) = form fs1) by (simpl; rewrite field_num; [done|apply plain_chat_id]).
  assert (HN : SEND_BUFSIZ = 25856) by done. assert (HN' : Z.of_nat size = 25856) by done.
  assert (Hl1 : (length (form fs1) <= 30)%nat).
  { rewrite <- Hf1, length_app. pose proof (num_length (send_chat_id ctx)). simpl. lia. }
  rewrite Hf1. destruct (filled_snprintf size [] (stack size) (form fs1) SEND_BUFSIZ) as (buf1 & Hrun1 & Hb1);
    [split; [apply prefix_nil|apply length_stack]|cbn [length]; lia|lia|].
  rewrite app_nil_l in Hb1. apply filled_weaken in Hb1.
  rewrite (bind_val _ _ _ _ _ Hrun1).
  destruct (reply_run (reply_to_msg_id ctx) fs1 buf1) as (buf2 & Hrun2 & Hb2); [done|lia|done|].
  rewrite (bind_val _ _ _ _ _ Hrun2). set (fs2 := fs1 ++ _) in *.
  destruct (mode_run (parse_mode ctx) fs2 buf2) as (buf3 & Hrun3 & Hb3); [done|done| |done|].
  { pose proof (reply_fields_length (reply_to_msg_id ctx) fs1 ltac:(done)). unfold fs2. lia. }
  rewrite (bind_val _ _ _ _ _ Hrun3).
  assert (Hhead : fs2 ++ mode_fields (parse_mode ctx) = send_head ctx) by (unfold fs2, fs1, send_head; by rewrite <- app_assoc).
  rewrite Hhead in *. pose proof (send_head_length ctx) as Hhl. unfold send_room.
  set (head := form (send_head ctx)) in *.
  destruct (filled_pokes size head buf3 (bs "&text=" ++ [Byte.x00])) as (buf4 & Hrun4 & Hb4);
    [done|rewrite length_app; cbn [length bs]; simpl; lia|].
  rewrite (bind_val _ _ _ _ _ Hrun4). rewrite app_assoc in Hb4. apply filled_weaken in Hb4.
  assert (Hpos : Z.of_nat (length head) + 6 = Z.of_nat (length (head ++ bs "&text="))) by (rewrite length_app; simpl; lia).
  rewrite Hpos. destruct Hb4 as [[rest4 ->] Hl4]. rewrite Htext, strnlen_asz by done.
  unfold lift. erewrite bind_val by reflexivity. unfold at_ptr. rewrite Nat2Z.id, drop_app_length, take_app_length.
  rewrite length_app in Hl4. rewrite <- Hpos in *.
  set (room := Z.to_nat ((SEND_BUFSIZ - (Z.of_nat (length head) + 6)) / 3 - 1)).
  assert (Hroom : u64 ((SEND_BUFSIZ - (Z.of_nat (length head) + 6)) / 3 - 1) = (SEND_BUFSIZ - (Z.of_nat (length head) + 6)) / 3 - 1).
  { apply u64_small. split; [|].
    - apply Z.le_add_le_sub_r. apply Z.div_le_lower_bound; lia.
    - apply Z.lt_sub_lt_add_r. apply Z.div_lt_upper_bound; lia. }
  rewrite Hroom. fold room.
  set (k := Nat.min room (length s)).
  assert (Htk : take k (s ++ Byte.x00 :: junk) = take room s).
  { unfold k. rewrite take_app_le by lia. destruct (Nat.min_spec room (length s)) as [[? ->]|[? ->]]; [done|].
    by rewrite !take_ge by lia. }
  pose proof (Url.enc_length true (take room s)) as Henc. rewrite length_take in Henc.
  rewrite Url.urlencode_into_spec; rewrite ?Htk; [|rewrite length_app; lia|].
  2:{ assert (3 * Z.of_nat room + 3 <= SEND_BUFSIZ - (Z.of_nat (length head) + 6)); [|lia].
      unfold room. pose proof (Z.mul_div_le (SEND_BUFSIZ - (Z.of_nat (length head) + 6)) 3). lia. }
  eexists. unfold send_fields. rewrite form_snoc by done. fold head.
  unfold field_text, asz. simpl fst. simpl snd. rewrite <- !app_assoc. reflexivity.
Qed.
End SendMsg.
