(* ===== verification/TgApiRead.v ===== *)
(** * The receiver of the requests

    Readers of decimal numbers, of forms of numbers and of JSON objects, written
    without regard to how the client prints them, and what they make of what it
    prints. *)
From S2P Require Import Prelude CString Json TgEvent TgPrint TgApi TgApiSpec.

(** ** Numbers *)
Fixpoint span_digits (s : list byte) : list byte * list byte :=
  match s with
  | c :: s' => if is_digit c then (fun '(w, r) => (c :: w, r)) (span_digits s') else ([], s)
  | [] => ([], [])
  end.

Definition read_digits (s : list byte) : option (Z * list byte) :=
  match span_digits s with
  | ([], _) => None
  | (w, r) => Some (digits w 0, r)
  end.

Definition read_num (s : list byte) : option (Z * list byte) :=
  match s with
  | c :: s' => if decide (c = "-"%byte) then (fun '(z, r) => (- z, r)) <$> read_digits s' else read_digits s
  | [] => None
  end.

(** A number of 64 bits, with a sign or without. *)
Definition num64 (z : Z) : Prop := - 2 ^ 63 <= z < 2 ^ 64.

(** The text behind a number does not continue it. *)
Definition ends_number (r : list byte) : Prop := match r with c :: _ => is_digit c = false | [] => True end.

Lemma span_digits_app w r :
  Forall (fun c => is_digit c = true) w -> ends_number r -> span_digits (w ++ r) = (w, r).
Proof.
  intros Hw Hr. induction Hw as [|c w Hc Hw IH]; cbn [app span_digits].
  - destruct r as [|c r]; [done|]. simpl in Hr. cbn [span_digits]. by rewrite Hr.
  - by rewrite Hc, IH.
Qed.

Lemma read_digits_udec n r : 0 <= n < 10 ^ 20 -> ends_number r -> read_digits (udec 20 n [] ++ r) = Some (n, r).
Proof.
  intros Hn Hr. unfold read_digits. rewrite span_digits_app by (done || apply udec_digits).
  destruct (udec 20 n []) as [|c w] eqn:He; [by apply udec_nonempty in He|].
  by rewrite <- He, digits_udec0 by done.
Qed.

(** The first character of a number. *)
Lemma num_head z : exists c s, num z = c :: s /\ (c = "-"%byte \/ is_digit c = true).
Proof.
  unfold num, dec. case_match; [by eexists _, _; auto|].
  destruct (udec 20 z []) as [|c s] eqn:He; [by apply udec_nonempty in He|].
  exists c, s. split; [done|right]. by eapply udec_not_space.
Qed.

Lemma read_num_num z r : num64 z -> ends_number r -> read_num (num z ++ r) = Some (z, r).
Proof.
  intros Hz Hr. unfold num64 in Hz. destruct (num_head z) as (c & s & He & Hc). unfold num, dec in *.
  destruct (z <? 0) eqn:Hneg.
  - cbn [app read_num]. rewrite decide_True by done. rewrite read_digits_udec by (done || lia). simpl. by rewrite Z.opp_involutive.
  - rewrite <- (read_digits_udec z r) by (done || lia). rewrite He in *. cbn [app read_num].
    rewrite decide_False; [done|]. intros ->. pose proof (udec_not_space 19 z _ _ He) as Hd. by vm_compute in Hd.
Qed.

(** ** Forms of numbers *)
Definition read_field (f : list byte * list byte) : option (list byte * Z) :=
  match read_num (snd f) with Some (z, []) => Some (fst f, z) | _ => None end.

Definition form_numbers (w : list byte) : option (list (list byte * Z)) :=
  form_decode w ≫= mapM read_field.

(** Fields with decimal values. *)
Definition num_fields (fs : list (string * Z)) : list (list byte * list byte) :=
  (fun '(k, z) => (bs k, num z)) <$> fs.

Lemma num_fields_read fs :
  Forall (fun f => num64 (snd f)) fs ->
  mapM read_field (num_fields fs) = Some ((fun '(k, z) => (bs k, z)) <$> fs).
Proof.
  induction 1 as [|[k z] fs Hz Hfs IH]; [done|].
  assert (Hf : read_field (bs k, num z) = Some (bs k, z)).
  { unfold read_field. cbn [fst snd]. pose proof (read_num_num z [] Hz I) as Hr. rewrite app_nil_r in Hr. by rewrite Hr. }
  change (mapM read_field (num_fields ((k, z) :: fs))) with
    (y ← read_field (bs k, num z); l ← mapM read_field (num_fields fs); Some (y :: l)).
  by rewrite Hf, IH.
Qed.

(** ** JSON *)
Definition strip (p s : list byte) : option (list byte) :=
  if decide (take (length p) s = p) then Some (drop (length p) s) else None.

(** ["key":] *)
Definition read_key (s : list byte) : option (string * list byte) :=
  s ← strip [Byte.x22] s;
  '(k, s) ← cut_on Byte.x22 s;
  s ← strip (bs ":") s;
  Some (String.string_of_list_byte k, s).

(** A value, and what follows it: an object, a truth value or a number. *)
Fixpoint read_json (n : nat) (s : list byte) : option (json * list byte) :=
  match n, s with
  | S n', c :: s' =>
      if decide (c = "{"%byte) then (fun '(l, r) => (JObject l, r)) <$> read_members n' s'
      else
        match strip (bs "true") s, strip (bs "false") s with
        | Some r, _ => Some (JBool true, r)
        | _, Some r => Some (JBool false, r)
        | None, None => (fun '(z, r) => (JInt z, r)) <$> read_num s
        end
  | _, _ => None
  end
with read_members (n : nat) (s : list byte) : option (list (string * json) * list byte) :=
  match n with
  | O => None
  | S n' =>
      '(k, s) ← read_key s;
      '(v, s) ← read_json n' s;
      match s with
      | c :: s =>
          if decide (c = ","%byte) then '(l, r) ← read_members n' s; Some ((k, v) :: l, r)
          else if decide (c = "}"%byte) then Some ([(k, v)], s) else None
      | [] => None
      end
  end.

Lemma strip_app p s : strip p (p ++ s) = Some s.
Proof. unfold strip. by rewrite take_app_length, drop_app_length, decide_True. Qed.

Lemma read_key_run k s : Byte.x22 ∉ bs k -> read_key (jkey k ++ s) = Some (k, s).
Proof.
  intros Hk. unfold read_key, jkey, dq. rewrite <- !app_assoc, strip_app. cbn [mbind option_bind].
  cbn [app]. rewrite cut_on_app by done. cbn [mbind option_bind]. rewrite (strip_app (bs ":")).
  cbn. unfold bs. by rewrite String.string_of_list_byte_of_string.
Qed.

Section Read.
Context (n : nat).

Lemma read_json_num z r : num64 z -> ends_number r -> read_json (S n) (num z ++ r) = Some (JInt z, r).
Proof.
  intros Hz Hr. pose proof (read_num_num z r Hz Hr) as Hread. destruct (num_head z) as (c & s & He & Hc).
  rewrite He in *. cbn [app] in *. cbn [read_json].
  assert (Hne : c <> "{"%byte /\ c <> "t"%byte /\ c <> "f"%byte).
  { split_and!; intros ->; destruct Hc as [Hc|Hc]; try done; by vm_compute in Hc. }
  rewrite decide_False by tauto. unfold strip. rewrite !decide_False by (cbn; intros [=]; tauto). by rewrite Hread.
Qed.

Lemma read_json_bool b r : read_json (S n) (jbool b ++ r) = Some (JBool b, r).
Proof. by destruct b. Qed.

Lemma read_object s l r : read_members n s = Some (l, r) -> read_json (S n) (bs "{" ++ s) = Some (JObject l, r).
Proof. intros H. cbn. by rewrite H. Qed.

Lemma read_member k s v s' l r :
  Byte.x22 ∉ bs k -> read_json n s = Some (v, ","%byte :: s') -> read_members n s' = Some (l, r) ->
  read_members (S n) (jkey k ++ s) = Some ((k, v) :: l, r).
Proof.
  intros Hk Hv Hl. cbn [read_members]. rewrite read_key_run by done. cbn [mbind option_bind]. rewrite Hv.
  cbn. by rewrite Hl.
Qed.

Lemma read_last k s v r :
  Byte.x22 ∉ bs k -> read_json n s = Some (v, "}"%byte :: r) -> read_members (S n) (jkey k ++ s) = Some ([(k, v)], r).
Proof. intros Hk Hv. cbn [read_members]. rewrite read_key_run by done. cbn [mbind option_bind]. by rewrite Hv. Qed.
End Read.

(** *** A restriction *)
Definition restriction (ctx : tga_restrict_cm_t) : json :=
  let p := permissions ctx in
  JObject [("user_id", JInt (restrict_user_id ctx)); ("chat_id", JInt (restrict_chat_id ctx));
    ("until_date", JInt (u64 (restrict_until_date ctx)));
    ("permissions", JObject [
      ("can_send_messages", JBool (can_send_messages p));
      ("can_send_media_messages", JBool (can_send_media_messages p));
      ("can_send_polls", JBool (can_send_polls p));
      ("can_send_other_messages", JBool (can_send_other_messages p));
      ("can_add_web_page_previews", JBool (can_add_web_page_previews p));
      ("can_change_info", JBool (can_change_info p));
      ("can_invite_users", JBool (can_invite_users p));
      ("can_pin_messages", JBool (can_pin_messages p))])]%string.

Lemma num64_u64 z : num64 (u64 z).
Proof. unfold num64, u64. pose proof (Z.mod_pos_bound z (2 ^ 64)). lia. Qed.


Lemma restrict_json_read ctx :
  num64 (restrict_user_id ctx) -> num64 (restrict_chat_id ctx) ->
  read_json 20 (restrict_json ctx) = Some (restriction ctx, []).
Proof.
  intros Hu Hc. unfold restrict_json, restriction. pose proof (num64_u64 (restrict_until_date ctx)).
  apply read_object. do 3 (eapply read_member; [by apply (bool_decide_unpack _)|by apply read_json_num|]).
  eapply read_last; [by apply (bool_decide_unpack _)|]. apply read_object.
  do 7 (eapply read_member; [by apply (bool_decide_unpack _)|apply read_json_bool|]).
  eapply read_last; [by apply (bool_decide_unpack _)|apply read_json_bool].
Qed.
