(* ===== verification/Hexdump.v ===== *)
(** * The dump of a piece of memory: include/gwbot/vt_hexdump.h

    The text VT_HEXDUMP prints, and a reader of that text that gives back the
    memory. *)
From S2P Require Import Prelude CString Json TgApi TgApiSpec.

Definition CHDOT (c : byte) : byte := if (32 <=? bz c) && (bz c <=? 126) then c else "."%byte.

Definition hexdig (n : Z) : byte := nth (Z.to_nat n) (bs "0123456789abcdef") Byte.x00.

(** [%02x] of a byte and [%016lx] of an address. *)
Definition hex2 (b : byte) : list byte := [hexdig (bz b / 16); hexdig (bz b mod 16)].
Fixpoint hex_n (n : nat) (z : Z) : list byte :=
  match n with O => [] | S n => hex_n n (z / 16) ++ [hexdig (z mod 16)] end.

(** The two loops over the bytes of a line, [n] positions from its end; the
    bytes that are left are those from [__ptr + k] on. *)
Fixpoint dump_hex (n : nat) (p : list byte) : list byte :=
  match n, p with S n, b :: p => hex2 b ++ " "%byte :: dump_hex n p | _, _ => [] end.
Fixpoint dump_chars (n : nat) (p : list byte) : list byte :=
  match n, p with S n, b :: p => CHDOT b :: dump_chars n p | _, _ => [] end.

(** [%016" PRIxPTR "] of a pointer. *)
Definition addr_text (addr : Z) : list byte := bs "0x" ++ hex_n 16 addr.

Definition dump_line (addr : Z) (p : list byte) : list byte :=
  addr_text addr ++ bs "|  " ++ dump_hex 16 p ++ concat (replicate (16 - length p) (bs "   ")) ++
  bs " |" ++ dump_chars 16 p ++ bs "|" ++ [Byte.x0a].

Fixpoint dump_lines (n : nat) (addr : Z) (p : list byte) : list byte :=
  match n with O => [] | S n => dump_line addr p ++ dump_lines n (addr + 16) (drop 16 p) end.

(** [file], [line] and [func]: where the macro is used. *)
Definition dump_head (file : list byte) (line : Z) (func : list byte) (ptr size : Z) : list byte :=
  bs "================== VT_HEXDUMP ==================" ++ Byte.x0a ::
  bs "File" ++ Byte.x09 :: Byte.x09 :: bs ": " ++ file ++ bs ":" ++ dec line ++ Byte.x0a ::
  bs "Function" ++ Byte.x09 :: bs ": " ++ func ++ bs "()" ++ Byte.x0a ::
  bs "Address" ++ Byte.x09 :: Byte.x09 :: bs ": " ++ addr_text ptr ++ Byte.x0a ::
  bs "Dump size" ++ Byte.x09 :: bs ": " ++ dec size ++ bs " bytes" ++ Byte.x0a ::
  [Byte.x0a].

Definition dump_tail : list byte := bs "================================================" ++ [Byte.x0a].

(** The lines from the address on; one more than needed when the size is a
    multiple of 16. *)
Definition VT_HEXDUMP (file : list byte) (line : Z) (func : list byte) (ptr : Z) (mem : list byte) : list byte :=
  let __size := Z.of_nat (length mem) in
  dump_head file line func ptr __size ++ dump_lines (Z.to_nat (__size / 16) + 1) ptr mem ++ dump_tail.

(** ** A reader *)
Definition nib (c : byte) : option Z :=
  let n := bz c in
  if (bz "0" <=? n) && (n <=? bz "9") then Some (n - bz "0")
  else if (bz "a" <=? n) && (n <=? bz "f") then Some (n - bz "a" + 10)
  else None.

Fixpoint read_hex (n : nat) (l : list byte) : list byte :=
  match n, l with
  | S n, h :: t :: _ :: l => match nib h, nib t with Some a, Some b => zb (16 * a + b) :: read_hex n l | _, _ => [] end
  | _, _ => []
  end.

Fixpoint after_nl (l : list byte) : list byte :=
  match l with [] => [] | c :: l => if decide (c = Byte.x0a) then l else after_nl l end.

(** The bytes stand between columns 21 and 69. *)
Fixpoint read_lines (fuel : nat) (l : list byte) : list byte :=
  match fuel, l with
  | S fuel, "0"%byte :: _ => read_hex 16 (drop 21 l) ++ read_lines fuel (after_nl l)
  | _, _ => []
  end.

(** Six lines are in front of the dump. *)
Definition undump (t : list byte) : list byte := read_lines (length t) (Nat.iter 6 after_nl t).

(** ** Lines without a newline *)
Definition no_nl (l : list byte) : Prop := Forall (fun c => c <> Byte.x0a) l.

Lemma no_nl_app l r : no_nl l -> no_nl r -> no_nl (l ++ r).
Proof. intros. by apply Forall_app. Qed.

Lemma after_nl_app l r : no_nl l -> after_nl (l ++ Byte.x0a :: r) = r.
Proof. induction 1 as [|c l Hc _ IH]; [done|]. cbn [app after_nl]. by rewrite decide_False. Qed.

Lemma hexdig_cases n : In (hexdig n) (bs "0123456789abcdef") \/ hexdig n = Byte.x00.
Proof.
  destruct (decide (Z.to_nat n < 16)%nat); [left; by apply nth_In|right].
  apply nth_overflow. change (length (bs "0123456789abcdef")) with 16%nat. lia.
Qed.

Lemma hexdig_nl n : hexdig n <> Byte.x0a.
Proof. destruct (hexdig_cases n) as [H|H]; intros E; rewrite E in H; [repeat destruct H as [H|H]|]; done. Qed.

Lemma nib_hexdig n : 0 <= n < 16 -> nib (hexdig n) = Some n.
Proof.
  intros Hn. rewrite <- (Z2Nat.id n) by lia. assert (Hk : (Z.to_nat n < 16)%nat) by lia. revert Hk.
  generalize (Z.to_nat n). intros k Hk. do 16 (destruct k as [|k]; [reflexivity|]). lia.
Qed.

Lemma CHDOT_nl c : CHDOT c <> Byte.x0a.
Proof.
  unfold CHDOT. destruct (32 <=? bz c) eqn:H; cbn; [|done]. case_match; [|done]. intros ->. done.
Qed.

Lemma hex_n_nl n z : no_nl (hex_n n z).
Proof.
  revert z. induction n as [|n IH]; intros z; cbn [hex_n]; [constructor|].
  apply no_nl_app; [apply IH|]. constructor; [apply hexdig_nl|constructor].
Qed.

Lemma length_hex_n n z : length (hex_n n z) = n.
Proof. revert z. induction n as [|n IH]; intros z; cbn [hex_n]; [done|]. rewrite length_app, IH. cbn [length]. lia. Qed.

Lemma dump_hex_nl n p : no_nl (dump_hex n p).
Proof.
  revert p. induction n as [|n IH]; intros [|b p]; cbn [dump_hex hex2 app]; try constructor; [apply hexdig_nl|].
  constructor; [apply hexdig_nl|]. constructor; [done|apply IH].
Qed.

Lemma dump_chars_nl n p : no_nl (dump_chars n p).
Proof. revert p. induction n as [|n IH]; intros [|b p]; cbn [dump_chars]; constructor; [apply CHDOT_nl|apply IH]. Qed.

Lemma blanks_nl n : no_nl (concat (replicate n (bs "   "))).
Proof. induction n as [|n IH]; [constructor|]. cbn [replicate concat]. apply no_nl_app; [|done]. by apply (bool_decide_unpack _). Qed.

Lemma dec_nl z : no_nl (dec z).
Proof.
  assert (H : forall f n, no_nl (udec f n [])).
  { intros f n. eapply List.Forall_impl; [|apply udec_digits]. intros c Hc ->. done. }
  unfold dec. case_match; [constructor; [done|]|]; apply H.
Qed.

Lemma addr_text_nl a : no_nl (addr_text a).
Proof. apply no_nl_app; [by apply (bool_decide_unpack _)|apply hex_n_nl]. Qed.

Create HintDb nl.
#[export] Hint Resolve no_nl_app addr_text_nl dec_nl dump_hex_nl dump_chars_nl blanks_nl : nl.
#[export] Hint Extern 2 (no_nl (bs _)) => by apply (bool_decide_unpack _) : nl.

(** Lines that are skipped one after the other. *)
Lemma skip_part n l r : no_nl l -> Nat.iter (S n) after_nl (l ++ r) = Nat.iter (S n) after_nl r.
Proof. induction 1 as [|c l Hc _ IH]; [done|]. rewrite <- IH, !Nat.iter_succ_r. cbn [app after_nl]. by rewrite decide_False. Qed.

Lemma skip_char n c r : c <> Byte.x0a -> Nat.iter (S n) after_nl (c :: r) = Nat.iter (S n) after_nl r.
Proof. intros Hc. apply (skip_part n [c]). by constructor. Qed.

Lemma skip_nl n r : Nat.iter (S n) after_nl (Byte.x0a :: r) = Nat.iter n after_nl r.
Proof. by rewrite Nat.iter_succ_r. Qed.

(** ** What the reader gives back *)
Lemma read_hex_dump n p r : read_hex n (dump_hex n p ++ concat (replicate (n - length p) (bs "   ")) ++ bs " |" ++ r) = take n p.
Proof.
  revert p. induction n as [|n IH]; intros p; [done|]. destruct p as [|b p]; [done|].
  cbn [dump_hex length Nat.sub take read_hex app hex2]. pose proof (bz_range b) as Hb.
  pose proof (Z.div_mod (bz b) 16 ltac:(lia)) as Hdm. pose proof (Z.mod_pos_bound (bz b) 16 ltac:(lia)).
  rewrite !nib_hexdig by lia. rewrite <- Hdm, zb_bz. f_equal. apply IH.
Qed.

(** The part of a line in front of its newline. *)
Lemma dump_line_split addr p : exists l, dump_line addr p = l ++ [Byte.x0a] /\ no_nl l.
Proof.
  eexists. split; [unfold dump_line; rewrite !app_assoc; reflexivity|].
  auto 12 with nl.
Qed.

Lemma read_line addr p r : read_hex 16 (drop 21 (dump_line addr p ++ r)) = take 16 p.
Proof.
  unfold dump_line. rewrite <- !app_assoc.
  rewrite (app_assoc (addr_text addr)), drop_app_length'; [apply read_hex_dump|].
  unfold addr_text. rewrite !length_app, length_hex_n. reflexivity.
Qed.

Lemma read_dump_lines n fuel addr p :
  (n <= fuel)%nat -> read_lines fuel (dump_lines n addr p ++ dump_tail) = take (16 * n) p.
Proof.
  revert fuel addr p. induction n as [|n IH]; intros fuel addr p Hf; [by destruct fuel|].
  destruct fuel as [|fuel]; [lia|]. cbn [dump_lines]. rewrite <- app_assoc. set (r := dump_lines n _ _ ++ _).
  assert (Hz : exists t, dump_line addr p ++ r = "0"%byte :: t) by (eexists; reflexivity).
  pose proof (read_line addr p r) as Hl. destruct (dump_line_split addr p) as (l & Hsp & Hnl).
  assert (Ha : after_nl (dump_line addr p ++ r) = r) by (rewrite Hsp, <- app_assoc; by apply after_nl_app).
  destruct Hz as [t Ht]. rewrite Ht in Hl, Ha |- *. cbn [read_lines]. rewrite Hl, Ha. subst r. rewrite IH by lia.
  replace (16 * S n)%nat with (16 + 16 * n)%nat by lia. apply take_take_drop.
Qed.

Lemma skip_head file line func ptr size r :
  no_nl file -> no_nl func -> Nat.iter 6 after_nl (dump_head file line func ptr size ++ r) = r.
Proof.
  intros Hf Hg. unfold dump_head. rewrite <- !app_assoc.
  repeat first [rewrite skip_nl | rewrite skip_char by done | rewrite skip_part by auto with nl | rewrite <- app_comm_cons | rewrite <- app_assoc].
  done.
Qed.

Lemma dump_lines_length n addr p : (n <= length (dump_lines n addr p))%nat.
Proof.
  revert addr p. induction n as [|n IH]; intros addr p; [lia|]. cbn [dump_lines]. rewrite length_app.
  specialize (IH (addr + 16) (drop 16 p)). change (length (dump_line addr p)) with (S (length (tail (dump_line addr p)))). lia.
Qed.

(** C36: The text VT_HEXDUMP prints tells the memory it was given: a reader that
    skips the six lines of the head and reads two digits and a blank in the
    columns of the bytes, line by line up to the ruler, gives back every byte
    and no other, for every size (a size of nothing and a multiple of 16, where
    the last line is empty, included). *)
Theorem hexdump_roundtrip file line func ptr mem :
  no_nl file -> no_nl func -> undump (VT_HEXDUMP file line func ptr mem) = mem.
Proof.
  intros Hf Hg. unfold undump, VT_HEXDUMP. cbv zeta. rewrite skip_head by done.
  rewrite read_dump_lines.
  - apply take_ge. pose proof (Z.div_mod (Z.of_nat (length mem)) 16 ltac:(lia)).
    pose proof (Z.mod_pos_bound (Z.of_nat (length mem)) 16 ltac:(lia)). lia.
  - rewrite !length_app. pose proof (dump_lines_length (Z.to_nat (Z.of_nat (length mem) / 16) + 1) ptr mem). lia.
Qed.

Lemma hexdump_roundtrip_witness :
  undump (VT_HEXDUMP (bs "gwbot.c") 12 (bs "main") 65536 (bs "a|b" ++ [Byte.x00; Byte.x0a; Byte.xff])) =
  bs "a|b" ++ [Byte.x00; Byte.x0a; Byte.xff].
Proof. apply hexdump_roundtrip; by apply (bool_decide_unpack _). Defined.
