(* ===== verification/TgRequests.v ===== *)
(** * The methods of the Telegram client

    What each function of lib/tg_api/ sends, for all its arguments, and what
    the caller finds in the handle afterwards; the list of administrators. *)
From S2P Require Import Prelude CString Json TgEvent TgPrint TgApi TgApiSpec TgApiRead.

Lemma length_bs s : length (bs s) = String.length s.
Proof. induction s as [|a s IH]; [done|]. simpl. by f_equal. Qed.

Section Requests.
Context `{Net} (token : list byte).

(** A token as the configuration has it, and no promise of luck. *)
Record net_ok : Prop := {
  no_token : token <> [] /\ no_nul token /\ (length token <= 400)%nat;
  no_transfer w : transfer_ok (net w);
}.

(** How a call of [tg_api_post] ends: out of memory with nothing sent, or with
    the request sent, the code of libcurl, and with luck the whole answer. *)
Definition outcome (q : request) (w : list request) (ret : Z) (c' : conn) : Prop :=
  let '(chunks, cres) := t_answer (net w) q in
  (~ transfer_lucky (net w) /\ ret = - ENOMEM /\ sent c' = w) \/
  (sent c' = w ++ [q] /\ ret = (if decide (cres = 0) then 0 else - EBADMSG) /\
   (transfer_lucky (net w) -> chunks <> [] -> terminated (concat chunks) (res (hnd c')))).

(** A function that sends one request with a new handle. *)
Definition sends (m : M conn Z) (q : request) : Prop :=
  forall w, exists ret c', m (Conn (tga_screate (Some token)) w) = (Val ret, c') /\ outcome q w ret c'.

Definition form_request (method : string) (fs : list (list byte * list byte)) : request :=
  Request (url_of token (bs method)) (form fs) APP_X_WWW_FORM_URLENCODED.

Hypothesis Hnet : net_ok.

Lemma post_sends method body ct w rest :
  (String.length method <= 40)%nat -> no_nul (bs method) -> no_nul body ->
  exists ret c', tg_api_post (Conn (ready token (bs method) body rest ct) w) = (Val ret, c') /\
    outcome (Request (url_of token (bs method)) body ct) w ret c'.
Proof.
  intros Hlen Hm Hb. destruct Hnet as [(Hne & Ht & Hs) Htr].
  destruct (tg_api_post_run token (bs method) body rest ct w Hne Ht Hm Hb (Htr w)) as (ret & c' & Hrun & Hout).
  exists ret, c'. split; [done|]. unfold outcome.
  assert (Hurl : (length (url_of token (bs method)) <= 480)%nat).
  { unfold url_of. rewrite length_app. rewrite length_app. cbn [length]. rewrite length_bs. simpl. lia. }
  destruct Hout as [c' Hun Hsent|c' k q Hk -> Hsent _ _ Hterm].
  - destruct (t_answer _ _). left. auto.
  - rewrite take_ge in * by lia. destruct (t_answer _ _) as [chunks cres]. right. simpl in *. auto.
Qed.

Lemma build_sends {A} n (f : M (list byte) A) method body :
  (exists a rest, f (stack n) = (Val a, body ++ Byte.x00 :: rest)) ->
  (String.length method <= 40)%nat -> no_nul (bs method) -> no_nul body ->
  sends ('(_, buf) ← local (stack n) f; tga_set_body buf;; tga_set_method method;; tg_api_post)
    (Request (url_of token (bs method)) body APP_X_WWW_FORM_URLENCODED).
Proof.
  intros (a & rest & Hf) Hlen Hm Hb w. unfold local. munfold. rewrite Hf.
  exact (post_sends method body APP_X_WWW_FORM_URLENCODED w rest Hlen Hm Hb).
Qed.

Lemma form_no_nul fs : Forall (fun f => plain (fst f)) fs -> no_nul (form fs).
Proof.
  intros Hall. assert (Hfield : forall f, plain (fst f) -> no_nul (field_text f)).
  { intros f [Hk _]. unfold field_text. apply Forall_app. split.
    - rewrite <- Hk. apply Url.enc_no_nul.
    - constructor; [done|]. apply Url.enc_no_nul. }
  induction Hall as [|f fs Hf Hall IH]; [constructor|]. destruct fs as [|g fs]; [by apply Hfield|].
  change (form (f :: g :: fs)) with (field_text f ++ "&"%byte :: form (g :: fs)).
  apply Forall_app. split; [by apply Hfield|]. by constructor.
Qed.

(** One snprintf that writes a form. *)
Lemma form_sends n size fs method :
  Forall (fun f => plain (fst f)) fs -> Z.of_nat (length (form fs)) < size -> (length (form fs) < n)%nat ->
  (String.length method <= 40)%nat -> no_nul (bs method) ->
  sends ('(_, buf) ← local (stack n) (snprintf 0 size (form fs)); tga_set_body buf;; tga_set_method method;; tg_api_post)
    (form_request method fs).
Proof.
  intros Hfs Hs Hn Hlen Hm. apply build_sends; [|done..|by apply form_no_nul].
  destruct (snprintf_stack n size (form fs) Hs Hn) as [rest Hrun]. eauto.
Qed.

Ltac solve_plain := split; [reflexivity|by apply (bool_decide_unpack _)].
Ltac solve_no_nul := by apply (bool_decide_unpack _).

(** One request of a form, from which the receiver reads the fields [fs]. *)
Definition sends_form (m : M conn Z) (method : string) (fs : list (list byte * list byte)) : Prop :=
  sends m (form_request method fs) /\ form_decode (form fs) = Some fs.

Lemma num_form_sends n size ks method text :
  ks <> [] -> Forall (fun f => plain (bs (fst f)) /\ (String.length (fst f) <= 30)%nat) ks ->
  text = form (num_fields ks) ->
  53 * Z.of_nat (length ks) < size -> (53 * length ks < n)%nat ->
  (String.length method <= 40)%nat -> no_nul (bs method) ->
  sends_form ('(_, buf) ← local (stack n) (snprintf 0 size text);
    tga_set_body buf;; tga_set_method method;; tg_api_post) method (num_fields ks).
Proof.
  intros Hne Hks -> Hs Hn Hlen Hm.
  assert (Hplain : Forall (fun f => plain (fst f)) (num_fields ks)).
  { apply Forall_fmap. eapply Forall_impl; [exact Hks|]. intros [k z] [Hk _]. exact Hk. }
  assert (Hl : (length (form (num_fields ks)) <= 53 * length ks)%nat).
  { clear -Hks. induction Hks as [|[k z] ks [Hp Hk] Hks IH]; [done|].
    simpl in Hk, Hp. assert (Hf : (length (field_text (bs k, num z)) <= 52)%nat).
    { rewrite field_num, length_app, length_bs by done. cbn [length]. pose proof (num_length z). lia. }
    destruct ks as [|[k' z'] ks]; [simpl num_fields; cbn [form length]; lia|].
    change (form (num_fields ((k, z) :: (k', z') :: ks))) with
      (field_text (bs k, num z) ++ "&"%byte :: form (num_fields ((k', z') :: ks))).
    rewrite length_app. cbn [length] in *. lia. }
  split; [apply form_sends; try done; lia|]. apply form_roundtrip; [|done]. by destruct ks.
Qed.

Ltac num_form := apply num_form_sends;
  [done|repeat (apply Forall_cons; split; [split; [solve_plain|cbn; lia]|]); by apply Forall_nil|
   cbn [num_fields fmap list_fmap form]; unfold field_text, num, flag; cbn [fst snd];
   rewrite ?enc_dec, <- ?app_assoc; reflexivity|
   cbn [length]; lia|cbn [length]; lia|cbn; lia|solve_no_nul].

Lemma delete_sends chat id :
  sends_form (tga_delete_msg (DeleteMsg chat id)) "deleteMessage" (num_fields [("chat_id", chat); ("message_id", id)]).
Proof. num_form. Qed.

Lemma pin_sends chat id quiet :
  sends_form (tga_pin_chat_msg (PinCm chat id quiet)) "pinChatMessage"
    (num_fields [("chat_id", chat); ("message_id", id); ("disable_notification", Z.b2z quiet)]).
Proof. num_form. Qed.

Lemma unpin_sends chat id :
  sends_form (tga_unpin_chat_msg (UnpinCm chat id)) "unpinChatMessage"
    (num_fields [("chat_id", chat); ("message_id", id)]).
Proof. num_form. Qed.

Lemma unban_sends chat user only :
  sends_form (tga_unban_chat_member (UnbanCm chat user only)) "unbanChatMember"
    (num_fields [("chat_id", chat); ("user_id", user); ("only_if_banned", Z.b2z only)]).
Proof. num_form. Qed.

Lemma admins_sends chat :
  sends_form (tga_get_chat_admins chat) "getChatAdministrators" (num_fields [("chat_id", chat)]).
Proof. num_form. Qed.

Definition kick_numbers (ctx : tga_kick_cm_t) : list (string * Z) :=
  [("chat_id", kick_chat_id ctx); ("user_id", kick_user_id ctx)] ++
  (if decide (kick_until_date ctx <> 0) then [("until_date", u64 (kick_until_date ctx))] else []) ++
  (if revoke_msg ctx then [] else [("revoke_messages", 0)]).

Definition kick_fields (ctx : tga_kick_cm_t) : list (list byte * list byte) :=
  num_fields [("chat_id", kick_chat_id ctx); ("user_id", kick_user_id ctx)] ++
  (if decide (kick_until_date ctx <> 0) then num_fields [("until_date", u64 (kick_until_date ctx))] else []) ++
  (if revoke_msg ctx then [] else [(bs "revoke_messages", bs "0")]).

Lemma kick_fields_num ctx : kick_fields ctx = num_fields (kick_numbers ctx).
Proof. unfold kick_fields, kick_numbers, num_fields. by case_decide; destruct (revoke_msg ctx). Qed.

Lemma kick_sends ctx : sends_form (tga_kick_chat_member ctx) "kickChatMember" (kick_fields ctx).
Proof.
  destruct ctx as [chat user until revoke].
  set (fs0 := num_fields [("chat_id", chat); ("user_id", user)]).
  assert (Hplain : Forall (fun f => plain (fst f)) (kick_fields (KickCm chat user until revoke))).
  { unfold kick_fields; cbn [kick_chat_id kick_user_id kick_until_date revoke_msg num_fields fmap list_fmap].
    case_decide; destruct revoke; repeat (apply Forall_cons; split; [cbn [fst]; solve_plain|]); by apply Forall_nil. }
  split; [|by apply form_roundtrip]. apply build_sends; [|cbn; lia|solve_no_nul|by apply form_no_nul].
  cbn [kick_chat_id kick_user_id kick_until_date revoke_msg].
  assert (Hf0 : bs "chat_id=" ++ num chat ++ bs "&user_id=" ++ num user = form fs0).
  { unfold fs0. cbn [num_fields fmap list_fmap form]; unfold field_text, num; cbn [fst snd].
    rewrite ?enc_dec, <- ?app_assoc; reflexivity. }
  assert (Hl0 : (length (form fs0) <= 60)%nat).
  { rewrite <- Hf0, !length_app, !length_bs. pose proof (num_length chat). pose proof (num_length user). cbn [String.length]. lia. }
  rewrite Hf0. destruct (filled_snprintf 512 [] (stack 512) (form fs0) 512) as (buf1 & Hrun1 & Hb1);
    [split; [apply prefix_nil|apply length_stack]|cbn [length]; lia|lia|].
  rewrite app_nil_l in Hb1. rewrite (bind_val _ _ _ _ _ Hrun1).
  set (fs1 := fs0 ++ (if decide (until <> 0) then num_fields [("until_date", u64 until)] else [])).
  assert (exists buf2, (if decide (until <> 0) then
      n ← snprintf (Z.of_nat (length (form fs0))) (u64 (512 - Z.of_nat (length (form fs0)))) (bs "&until_date=" ++ num (u64 until));
      mret (Z.of_nat (length (form fs0)) + n)
      else mret (Z.of_nat (length (form fs0)))) buf1 = (Val (Z.of_nat (length (form fs1))), buf2) /\
    filled 512 (form fs1 ++ [Byte.x00]) buf2 /\ (length (form fs1) <= 100)%nat) as (buf2 & Hrun2 & Hb2 & Hl1).
  { unfold fs1. case_decide; [|exists buf1; rewrite app_nil_r; split; [done|split; [done|lia]]].
    apply filled_weaken in Hb1. pose proof (num_length (u64 until)) as Hn.
    destruct (filled_snprintf 512 (form fs0) buf1 (bs "&until_date=" ++ num (u64 until)) (u64 (512 - Z.of_nat (length (form fs0)))))
      as (buf2 & Hrun2 & Hb2); [done| | |].
    { rewrite length_app, length_bs. cbn [String.length]. lia. }
    { rewrite (u64_small (512 - _)) by lia. rewrite length_app, length_bs. cbn [String.length]. lia. }
    assert (He : form (fs0 ++ num_fields [("until_date", u64 until)]) = form fs0 ++ bs "&until_date=" ++ num (u64 until)).
    { cbn [num_fields fmap list_fmap]. rewrite form_snoc, field_num by (done || solve_plain). done. }
    exists buf2. rewrite (bind_val _ _ _ _ _ Hrun2), He. split; [rewrite (length_app (form fs0)), Nat2Z.inj_add; reflexivity|].
    rewrite <- app_assoc. split; [exact Hb2|]. rewrite !length_app, ?length_bs. cbn [String.length]. lia. }
  rewrite (bind_val _ _ _ _ _ Hrun2). unfold kick_fields. cbn [kick_chat_id kick_user_id kick_until_date revoke_msg].
  fold fs0. rewrite app_assoc. fold fs1. destruct revoke.
  - exists tt. destruct Hb2 as [[rest ->] _]. rewrite app_nil_r, <- app_assoc. by exists rest.
  - apply filled_weaken in Hb2.
    destruct (filled_pokes 512 (form fs1) buf2 (bs "&revoke_messages=0" ++ [Byte.x00])) as (buf3 & Hrun3 & Hb3);
      [done|rewrite length_app, length_bs; cbn [String.length length]; lia|].
    exists tt. destruct Hb3 as [[rest ->] _]. exists rest. rewrite Hrun3, form_snoc by done. by rewrite <- !app_assoc.
Qed.

Lemma no_nul_num z : no_nul (num z).
Proof. apply dec_no_nul. Qed.

Lemma restrict_json_text ctx :
  no_nul (restrict_json ctx) /\ (length (restrict_json ctx) <= 370)%nat.
Proof.
  destruct ctx as [chat user until [p1 p2 p3 p4 p5 p6 p7 p8]]. unfold restrict_json.
  cbn [permissions restrict_user_id restrict_chat_id restrict_until_date can_send_messages can_send_media_messages
    can_send_polls can_send_other_messages can_add_web_page_previews can_change_info can_invite_users can_pin_messages].
  assert (Hb : forall b, no_nul (jbool b) /\ (length (jbool b) <= 5)%nat).
  { intros []; (split; [solve_no_nul|cbn; lia]). }
  assert (Hn : forall z, no_nul (num z) /\ (length (num z) <= 21)%nat) by (split; [apply no_nul_num|apply num_length]).
  split.
  - unfold no_nul in *. rewrite !Forall_app. repeat split; try apply Hb; try apply Hn; solve_no_nul.
  - rewrite !length_app.
    pose proof (fun b => proj2 (Hb b)) as Hb'. pose proof (fun z => proj2 (Hn z)) as Hn'.
    pose proof (Hn' chat). pose proof (Hn' user). pose proof (Hn' (u64 until)).
    pose proof (Hb' p1). pose proof (Hb' p2). pose proof (Hb' p3). pose proof (Hb' p4).
    pose proof (Hb' p5). pose proof (Hb' p6). pose proof (Hb' p7). pose proof (Hb' p8).
    repeat match goal with |- context [length (jkey ?k)] => change (length (jkey k)) with (ltac:(let x := eval vm_compute in (length (jkey k)) in exact x)) end.
    repeat match goal with |- context [length (bs ?k)] => change (length (bs k)) with (ltac:(let x := eval vm_compute in (length (bs k)) in exact x)) end.
    lia.
Qed.

Lemma restrict_sends ctx :
  sends (tga_restrict_chat_member ctx) (Request (url_of token (bs "restrictChatMember")) (restrict_json ctx) APP_JSON).
Proof.
  intros w. destruct (restrict_json_text ctx) as [Hn Hl].
  destruct (snprintf_stack 512 512 (restrict_json ctx)) as [rest Hrun]; [lia..|].
  unfold tga_restrict_chat_member, local. munfold. rewrite Hrun.
  apply (post_sends "restrictChatMember" (restrict_json ctx) APP_JSON w rest); [cbn; lia|solve_no_nul|done].
Qed.

Lemma send_sends ctx s junk :
  mode_ok (parse_mode ctx) -> send_text ctx = s ++ Byte.x00 :: junk -> no_nul s ->
  sends_form (tga_send_msg ctx) "sendMessage" (send_fields ctx (take (send_room ctx) s)).
Proof.
  intros Hm Htext Hs. split; [|by apply form_roundtrip, send_fields_plain].
  intros w. destruct (build_send_msg_run ctx s junk Hm Htext Hs) as [rest Hrun].
  unfold tga_send_msg. rewrite Hrun.
  apply (post_sends "sendMessage" _ APP_X_WWW_FORM_URLENCODED w rest); [cbn; lia|solve_no_nul|].
  apply form_no_nul, send_fields_plain.
Qed.

(** With memory, the message is sent, whatever becomes of it. *)
Lemma message_run ctx s junk w :
  transfer_lucky (net w) -> mode_ok (parse_mode ctx) -> send_text ctx = s ++ Byte.x00 :: junk -> no_nul s ->
  exists ret, with_handle (Some token) (tga_send_msg ctx) w =
    (Val ret, w ++ [form_request "sendMessage" (send_fields ctx (take (send_room ctx) s))]).
Proof.
  intros Hluck Hm Htext Hs. destruct (send_sends ctx s junk Hm Htext Hs) as [Hsend _].
  destruct (Hsend w) as (ret & c' & Hrun & Hout). unfold outcome in Hout.
  destruct (t_answer (net w) _) as [chunks cres]. destruct Hout as [[? _]|(Hsent & _ & _)]; [done|].
  exists ret. unfold with_handle. by rewrite Hrun, Hsent.
Qed.
End Requests.

(** ** The administrators *)
Section AdminList.
Context `{JsonLib}.

(** The identity an entry of the answer gives, if it gives one. *)
Definition admin_id (j : json) : option Z :=
  match get_member j "user" with
  | Some u => match get_member u "id" with Some t => Some (json_object_get_uint64 t) | None => None end
  | None => None
  end.

Definition id_of (a : tga_chat_member) : Z := u_id (member_user a).

Lemma set_if_id j k (f : json -> tga_user -> tga_user) u :
  (forall t u, u_id (f t u) = u_id u) -> u_id (set_if j k f u) = u_id u.
Proof. intros Hf. unfold set_if. case_match; auto. Qed.

Lemma parse_admin_id j a : id_of <$> parse_admin j a = admin_id j.
Proof.
  unfold parse_admin, admin_id. destruct j; try reflexivity.
  destruct (get_member _ "user") as [u|]; [|done]. destruct (get_member u "id") as [t|]; [|done].
  cbn [fmap option_fmap option_map]. f_equal. unfold id_of, set_if at 1.
  assert (Hs : forall o b, u_id (member_user (match o with Some t => b <| member_status := map_to_status (json_object_get_string t) |> | None => b end)) = u_id (member_user b)).
  { intros [?|] ?; reflexivity. }
  rewrite Hs. cbn; rewrite !set_if_id; [done|..]; intros; try done. by case_match.
Qed.

Lemma admins_loop_run {T} l arr j (s : T) :
  (j + length l <= length arr)%nat ->
  exists arr', admins_loop l arr j s = (Val arr', s) /\ length arr' = length arr /\
    take j arr' = take j arr /\
    id_of <$> drop j arr' = omap admin_id l ++ (id_of <$> drop (j + length (omap admin_id l)) arr).
Proof.
  revert arr j. induction l as [|e l IH]; intros arr j Hlen.
  { exists arr. cbn. by rewrite Nat.add_0_r. }
  cbn [length] in Hlen. cbn [admins_loop]. destruct (lookup_lt_is_Some_2 arr j) as [a Ha]; [lia|].
  rewrite Ha. rewrite (bind_val (lift FBounds (Some a)) _ s a s eq_refl). pose proof (parse_admin_id e a) as Hid.
  destruct (parse_admin e a) as [a'|]; cbn [omap list_omap fmap option_fmap option_map] in *; rewrite <- Hid.
  - destruct (IH (<[j := a']> arr) (S j)) as (arr' & Hrun & Hl & Ht & Hd); [rewrite length_insert; lia|].
    exists arr'. rewrite length_insert in Hl. split; [done|]. split; [done|].
    assert (Htake : take (S j) arr' = take j arr ++ [a']).
    { rewrite Ht. erewrite take_S_r by (apply list_lookup_insert_eq; lia). by rewrite take_insert_ge by lia. }
    split.
    { transitivity (take j (take (S j) arr')); [rewrite take_take; f_equal; lia|].
      rewrite Htake, take_app_le by (rewrite length_take; lia). by rewrite take_take, Nat.min_id. }
    assert (Hj : arr' !! j = Some a').
    { rewrite <- (lookup_take_lt arr' (S j)) by lia. rewrite Htake.
      rewrite lookup_app_r, length_take by (rewrite length_take; lia).
      by replace (j - (j `min` length arr))%nat with 0%nat by lia. }
    rewrite (drop_S _ _ _ Hj), fmap_cons, Hd. cbn [app length]. f_equal. f_equal. f_equal.
    rewrite drop_insert_lt by lia. f_equal. lia.
  - destruct (IH arr j) as (arr' & Hrun & Hl & Ht & Hd); [lia|]. exists arr'. done.
Qed.

Definition says_ok (obj : json) : Prop :=
  exists b, get_member obj "ok" = Some b /\ json_object_get_boolean b = true.

(** The identities in the array of [parse_tga_admins]: those of the entries
    that have one, and zeros up to the length of the answer. *)
Definition admin_ids (l : list json) : list Z :=
  omap admin_id l ++ replicate (length l - length (omap admin_id l)) 0.

Lemma omap_length {A B} (f : A -> option B) l : (length (omap f l) <= length l)%nat.
Proof.
  induction l as [|x l IH]; [done|].
  change (omap f (x :: l)) with (match f x with Some y => y :: omap f l | None => omap f l end).
  destruct (f x); cbn [length]; lia.
Qed.

Lemma admins_loop_ids {T} l (s : T) :
  exists arr, admins_loop l (replicate (length l + 1) member_zero) 0 s = (Val arr, s) /\
    id_of <$> take (length l) arr = admin_ids l.
Proof.
  destruct (admins_loop_run l (replicate (length l + 1) member_zero) 0 s) as (arr & Hrun & Hl & _ & Hids);
    [rewrite length_replicate; lia|].
  exists arr. split; [done|]. rewrite fmap_take. change (drop 0 arr) with arr in Hids. rewrite Hids.
  cbn [Nat.add]. rewrite drop_replicate, fmap_replicate. unfold admin_ids. pose proof (omap_length admin_id l).
  rewrite take_app_ge by lia. f_equal. rewrite take_replicate. by f_equal; lia.
Qed.

Lemma parse_tga_admins_run {T} obj l (s : T) :
  says_ok obj -> get_member obj "result" = Some (JArray l) ->
  exists arr, parse_tga_admins true obj s = (Val (0, arr, Z.of_nat (length l)), s) /\
    id_of <$> take (length l) arr = admin_ids l.
Proof.
  intros (b & Hb & Hok) Hres. destruct (admins_loop_ids l s) as (arr & Hrun & Hids).
  exists arr. split; [|done]. unfold parse_tga_admins. rewrite Hb, Hok, Hres. cbn [negb].
  unfold json_object_array_length. rewrite (bind_val (mret _) _ s _ s eq_refl).
  rewrite (bind_val (mret _) _ s _ s eq_refl), Nat2Z.id. by rewrite (bind_val _ _ _ _ _ Hrun).
Qed.

Lemma parse_tga_admins_inv {T} c obj (s : T) arr n s' :
  parse_tga_admins c obj s = (Val (0, arr, n), s') ->
  s' = s /\ says_ok obj /\ exists l, get_member obj "result" = Some (JArray l) /\ n = Z.of_nat (length l) /\
    id_of <$> take (length l) arr = admin_ids l.
Proof.
  unfold parse_tga_admins. destruct (get_member obj "ok") as [b|] eqn:Hb; [|done].
  destruct (json_object_get_boolean b) eqn:Hok; [|done].
  destruct (get_member obj "result") as [r|] eqn:Hres; [|done]. cbn [negb].
  destruct r as [| | | | | |l|]; try done. unfold json_object_array_length. cbn [negb].
  rewrite (bind_val (mret _) _ s _ s eq_refl). destruct c; cbn [negb]; [|done].
  rewrite (bind_val (mret _) _ s _ s eq_refl), Nat2Z.id.
  destruct (admins_loop_ids l s) as (arr' & Hrun & Hids). rewrite (bind_val _ _ _ _ _ Hrun).
  intros [= <- <- <-]. split; [done|]. split; [by exists b|]. eauto.
Qed.
End AdminList.

Lemma in_admin_ids `{JsonLib} l id :
  id ∈ admin_ids l <-> (exists e, e ∈ l /\ admin_id e = Some id) \/ (id = 0 /\ exists e, e ∈ l /\ admin_id e = None).
Proof.
  unfold admin_ids. rewrite elem_of_app, list_elem_of_omap, elem_of_replicate.
  assert (length l - length (omap admin_id l) <> 0 <-> exists e, e ∈ l /\ admin_id e = None)%nat as Hz; [|tauto].
  clear. induction l as [|e l IH]; [split; [done|set_solver]|].
  change (omap admin_id (e :: l)) with (match admin_id e with Some y => y :: omap admin_id l | None => omap admin_id l end).
  pose proof (omap_length admin_id l). destruct (admin_id e) eqn:He; cbn [length].
  + rewrite Nat.sub_succ, IH. set_solver.
  + split; [intros _; exists e; set_solver|intros _; lia].
Qed.

(** ** The client's promises *)

(** One request, a form from which the receiver reads the numbers [ks]. *)
Definition sends_numbers `{Net} (token : list byte) (m : M conn Z) (method : string) (ks : list (string * Z)) : Prop :=
  exists body, sends token m (Request (url_of token (bs method)) body APP_X_WWW_FORM_URLENCODED) /\
    form_numbers body = Some ((fun '(k, z) => (bs k, z)) <$> ks).

Lemma form_sends_numbers `{Net} token m method ks :
  sends_form token m method (num_fields ks) -> Forall (fun f => num64 (snd f)) ks -> sends_numbers token m method ks.
Proof.
  intros [Hs Hd] Hks. eexists. split; [exact Hs|]. unfold form_numbers. rewrite Hd. by apply num_fields_read.
Qed.

Lemma num64_flag b : num64 (Z.b2z b).
Proof. unfold num64. destruct b; simpl; lia. Qed.

Ltac read_numbers lem := intros; apply form_sends_numbers;
  [by apply lem|repeat (apply Forall_cons; split; [cbn [snd]; auto using num64_flag|]); by apply Forall_nil].

(** C17: The requests about members and messages are each sent once, when memory
    allows it, and the receiver reads the 64-bit numbers they were made from:
    in the forms as decimal numbers, in the JSON of a restriction as the user,
    the chat, the date and the eight permissions.  No byte is stored outside of
    the arrays. *)
Theorem member_requests `{Net} token :
  net_ok token ->
  (forall chat id, num64 chat -> num64 id ->
     sends_numbers token (tga_delete_msg (DeleteMsg chat id)) "deleteMessage" [("chat_id", chat); ("message_id", id)]) /\
  (forall ctx, num64 (kick_chat_id ctx) -> num64 (kick_user_id ctx) ->
     sends_numbers token (tga_kick_chat_member ctx) "kickChatMember" (kick_numbers ctx)) /\
  (forall chat id quiet, num64 chat -> num64 id ->
     sends_numbers token (tga_pin_chat_msg (PinCm chat id quiet)) "pinChatMessage"
       [("chat_id", chat); ("message_id", id); ("disable_notification", Z.b2z quiet)]) /\
  (forall chat id, num64 chat -> num64 id ->
     sends_numbers token (tga_unpin_chat_msg (UnpinCm chat id)) "unpinChatMessage" [("chat_id", chat); ("message_id", id)]) /\
  (forall chat user only, num64 chat -> num64 user ->
     sends_numbers token (tga_unban_chat_member (UnbanCm chat user only)) "unbanChatMember"
       [("chat_id", chat); ("user_id", user); ("only_if_banned", Z.b2z only)]) /\
  (forall chat, num64 chat ->
     sends_numbers token (tga_get_chat_admins chat) "getChatAdministrators" [("chat_id", chat)]) /\
  (forall ctx, num64 (restrict_chat_id ctx) -> num64 (restrict_user_id ctx) ->
     exists body, sends token (tga_restrict_chat_member ctx) (Request (url_of token (bs "restrictChatMember")) body APP_JSON) /\
       read_json 20 body = Some (restriction ctx, [])).
Proof.
  intros Hnet. split; [|split; [|split; [|split; [|split; [|split]]]]].
  - read_numbers delete_sends.
  - intros ctx Hc Hu. apply form_sends_numbers; [rewrite <- kick_fields_num; by apply kick_sends|].
    unfold kick_numbers. assert (num64 0) by by split.
    case_decide; destruct (revoke_msg ctx); cbn [app]; repeat apply Forall_cons_2; try apply Forall_nil_2; try done; apply num64_u64.
  - read_numbers pin_sends.
  - read_numbers unpin_sends.
  - read_numbers unban_sends.
  - read_numbers admins_sends.
  - intros ctx Hc Hu. eexists. split; [by apply restrict_sends|by apply restrict_json_read].
Qed.

Lemma send_room_large `{Net} ctx : 8500 <= Z.of_nat (send_room ctx).
Proof.
  unfold send_room. pose proof (send_head_length ctx). assert (SEND_BUFSIZ = 25856) by done.
  assert (8501 <= (SEND_BUFSIZ - (Z.of_nat (length (form (send_head ctx))) + 6)) / 3) by (apply Z.div_le_lower_bound; lia).
  rewrite Z2Nat.id; lia.
Qed.

(** C13: A message is sent as a form from which the receiver reads the chat, the
    message it answers, the parse mode and the text, cut to what its buffer
    holds in the worst case; no byte is stored outside. *)
Theorem send_msg_roundtrip `{Net} token ctx s junk :
  net_ok token -> mode_ok (parse_mode ctx) -> send_text ctx = s ++ Byte.x00 :: junk -> no_nul s ->
  sends_form token (tga_send_msg ctx) "sendMessage" (send_fields ctx (take (send_room ctx) s)) /\
  8500 <= Z.of_nat (send_room ctx).
Proof.
  intros Hnet Hm Htext Hs. split; [by eapply send_sends|apply send_room_large].
Qed.

(** C14: With memory for it, the answer stands in the handle as it was received, in
    however many pieces of whatever lengths, with a terminator, as long as it
    has a piece at all; without one, the body is the block as [malloc] gave it,
    not written and not terminated. *)
Theorem post_collects `{Net} token method body rest ct w chunks :
  net_ok token -> (String.length method <= 40)%nat -> no_nul (bs method) -> no_nul body ->
  let q := Request (url_of token (bs method)) body ct in
  transfer_lucky (net w) -> t_answer (net w) q = (chunks, 0) ->
  exists c', tg_api_post (Conn (ready token (bs method) body rest ct) w) = (Val 0, c') /\ sent c' = w ++ [q] /\
    match chunks with
    | [] => exists blk, t_malloc (net w) 4096 = Some blk /\ res_body (res (hnd c')) = Some blk
    | _ => exists r, res_body (res (hnd c')) = Some (concat chunks ++ Byte.x00 :: r)
    end.
Proof.
  intros [(Hne & Ht & Hs) Htr] Hlen Hm Hb q Hluck Hans.
  destruct (tg_api_post_run token (bs method) body rest ct w Hne Ht Hm Hb (Htr w)) as (ret & c' & Hrun & Hout).
  assert (Hurl : (length (url_of token (bs method)) <= 480)%nat).
  { unfold url_of. rewrite length_app. rewrite length_app. cbn [length]. rewrite length_bs. simpl. lia. }
  destruct Hout as [c' Hun _|c' k q' Hk -> Hsent _ Hempty Hterm]; [done|].
  rewrite take_ge in * by lia. fold q in Hsent, Hempty, Hterm, Hrun. rewrite Hans in *. cbn [fst snd] in *.
  exists c'. split; [exact Hrun|]. split; [exact Hsent|]. destruct chunks as [|d chunks].
  - rewrite <- (Hempty eq_refl). destruct (t_malloc (net w) 4096) as [blk|] eqn:Hblk; [by exists blk|].
    by destruct (proj1 Hluck 4096).
  - by apply Hterm.
Qed.

(** C18: The array of administrators holds, in order, the entries of the answer that
    have an identity; the rest of its count are entries of zeros. *)
Theorem parse_admins_spec `{JsonLib} {T} obj l (s : T) :
  says_ok obj -> get_member obj "result" = Some (JArray l) ->
  exists arr, parse_tga_admins true obj s = (Val (0, arr, Z.of_nat (length l)), s) /\
    (forall i id, admin_ids l !! i = Some id <-> exists a, take (length l) arr !! i = Some a /\ id_of a = id) /\
    (forall id, id ∈ admin_ids l <-> (exists e, e ∈ l /\ admin_id e = Some id) \/
                                    (id = 0 /\ exists e, e ∈ l /\ admin_id e = None)).
Proof.
  intros Hok Hres. destruct (parse_tga_admins_run obj l s Hok Hres) as (arr & Hrun & Hids).
  exists arr. split; [done|]. split.
  - intros i id. rewrite <- Hids, list_lookup_fmap_Some. split; intros (a & H1 & H2); exists a; auto.
  - apply in_admin_ids.
Qed.

(** ** Concrete transfers *)
Definition demo_alloc (n : Z) : option (list byte) :=
  if decide (0 <= n) then Some (replicate (Z.to_nat n) Byte.x00) else None.

(** A network that has memory and gives the answer [ans]. *)
Definition demo_net (ans : request -> list (list byte) * Z) : Net := {|
  net := fun _ => Transfer demo_alloc demo_alloc true ans;
  stack := fun n => replicate n "?"%byte;
  length_stack := fun n => length_replicate n _;
  strerror := fun _ => bs "error";
  calloc_ok := fun _ => true;
|}.

Definition small (ans : request -> list (list byte) * Z) : Prop :=
  forall q, Z.of_nat (length (concat (fst (ans q)))) < 2 ^ 60.

Lemma demo_transfer_ok ans w : small ans -> transfer_ok (@net (demo_net ans) w).
Proof.
  assert (sized demo_alloc).
  { intros n b. unfold demo_alloc. case_decide; [|done]. intros [= <-]. rewrite length_replicate. lia. }
  intros Hs. by split.
Qed.

Lemma demo_lucky ans w : transfer_lucky (@net (demo_net ans) w).
Proof.
  assert (forall n, 0 <= n -> demo_alloc n <> None); [|done].
  intros n Hn. unfold demo_alloc. by rewrite decide_True.
Qed.

Definition demo_token : list byte := bs "123:abc".

Lemma demo_net_ok ans : small ans -> @net_ok (demo_net ans) demo_token.
Proof.
  intros Hs. split; [|intros w; by apply demo_transfer_ok].
  split; [discriminate|]. split; [by apply (bool_decide_unpack _)|]. cbn. lia.
Qed.

Definition demo_ans (_ : request) : list (list byte) * Z := ([bs "{"; bs "}"], 0).
Lemma demo_ans_small : small demo_ans.
Proof. intros q. cbn. lia. Qed.

Lemma member_requests_witness :
  @sends_numbers (demo_net demo_ans) demo_token (@tga_kick_chat_member (demo_net demo_ans) (KickCm (-100) 42 0 true))
    "kickChatMember" [("chat_id", -100); ("user_id", 42)].
Proof.
  destruct (@member_requests (demo_net demo_ans) demo_token (demo_net_ok _ demo_ans_small)) as (_ & Hkick & _).
  apply (Hkick (KickCm (-100) 42 0 true)); unfold num64; simpl; lia.
Defined.

Lemma send_msg_roundtrip_witness :
  @sends_form (demo_net demo_ans) demo_token (@tga_send_msg (demo_net demo_ans) (SendMsg (-100) 7 (asz (bs "a & b")) PARSE_MODE_HTML))
    "sendMessage"
    [(bs "chat_id", bs "-100"); (bs "reply_to_message_id", bs "7"); (bs "parse_mode", bs "html"); (bs "text", bs "a & b")].
Proof.
  destruct (@send_msg_roundtrip (demo_net demo_ans) demo_token (SendMsg (-100) 7 (asz (bs "a & b")) PARSE_MODE_HTML) (bs "a & b") [])
    as [Hs Hroom]; [apply demo_net_ok, demo_ans_small|right; left; reflexivity|reflexivity|by apply (bool_decide_unpack _)|].
  rewrite take_ge in Hs by (cbn [length bs]; simpl length; lia). exact Hs.
Defined.

Lemma post_collects_witness :
  exists c' r, @tg_api_post (demo_net demo_ans) (Conn (ready demo_token (bs "getMe") (bs "x=1") [] APP_JSON) []) = (Val 0, c') /\
    res_body (res (hnd c')) = Some (bs "{}" ++ Byte.x00 :: r).
Proof.
  destruct (@post_collects (demo_net demo_ans) demo_token "getMe" (bs "x=1") [] APP_JSON [] [bs "{"; bs "}"])
    as (c' & Hrun & _ & r & Hr);
    [apply demo_net_ok, demo_ans_small|cbn; lia|by apply (bool_decide_unpack _)..|apply demo_lucky|reflexivity|].
  exists c', r. split; [exact Hrun|exact Hr].
Defined.

Definition demo_admin (id : Z) : json := JObject [("user", JObject [("id", JInt id)]); ("status", JString (bs "administrator"))].
Definition demo_admins : list json := [demo_admin 42; JNull; demo_admin 43].
Definition demo_admins_obj : json := JObject [("ok", JBool true); ("result", JArray demo_admins)].

(** The entry without an identity makes the array list user 0. *)
Lemma parse_admins_spec_witness :
  let lib := demo_lib [] JNull in
  exists arr, @parse_tga_admins lib unit true demo_admins_obj tt = (Val (0, arr, 3), tt) /\
    (exists a, take 3 arr !! 1%nat = Some a /\ id_of a = 43) /\ 0 ∈ @admin_ids lib demo_admins.
Proof.
  destruct (@parse_admins_spec (demo_lib [] JNull) unit demo_admins_obj demo_admins tt) as (arr & Hrun & Hids & Hin).
  - exists (JBool true). split; reflexivity.
  - reflexivity.
  - exists arr. split; [exact Hrun|]. split; [by apply Hids|]. apply Hin. right. split; [done|].
    exists JNull. split; [|reflexivity]. right. left.
Defined.
