(* ===== verification/ModCommon.v ===== *)
(** * What the modules share

    White space and small letters, which every module defines for itself, and
    the pointer to the replied-to event. *)
From S2P Require Import Prelude Json TgEvent.

Definition is_ws (c : byte) : bool :=
  bool_decide (c = " "%byte) || bool_decide (c = Byte.x0a) || bool_decide (c = Byte.x09) || bool_decide (c = Byte.x0d).

Definition is_prefix_char (c : byte) : bool := bool_decide (c ∈ ["!"; "/"; "."; "~"]%byte).

Fixpoint skip_ws (tx : list byte) : list byte :=
  match tx with
  | c :: tx' => if is_ws c then skip_ws tx' else tx
  | [] => []
  end.

(** [('A' <= c && c <= 'Z') ? c + 32 : c] *)
Definition lower (c : byte) : byte := if (65 <=? bz c) && (bz c <=? 90) then zb (bz c + 32) else c.

(** A pointer to an event: NULL, an event, or a number that is no address. *)
Definition is_null (p : wptr) : bool :=
  match p with PEvt a => bool_decide (a = 0) | PInt z => bool_decide (z = 0) | PChars s => bool_decide (s = None) end.

Definition deref {S} (h : heap) (p : wptr) : M S tgev :=
  match p with
  | PEvt a =>
      match blocks h !! a with
      | Some (BEvent e) => mret e
      | _ => faulty (if decide (a = 0) then FNull else FWild)
      end
  | _ => faulty (if is_null p then FNull else FWild)
  end.

(** ** Words *)
Fixpoint word (tx : list byte) : list byte :=
  match tx with
  | [] => []
  | c :: tx' => if is_ws c then [] else c :: word tx'
  end.

Lemma word_no_nul tx : no_nul tx -> no_nul (word tx).
Proof.
  induction 1 as [|c tx Hc Htx IH]; [constructor|]. simpl. destruct (is_ws c); [constructor|by constructor].
Qed.

Lemma word_rest tx : match drop (length (word tx)) tx with [] => True | c :: _ => is_ws c = true end.
Proof. induction tx as [|c tx IH]; [done|]. simpl. destruct (is_ws c) eqn:Hc; [done|]. exact IH. Qed.

Lemma word_prefix tx : exists rest, tx = word tx ++ rest.
Proof.
  induction tx as [|c tx [rest IH]]; [by exists []|]. simpl. destruct (is_ws c); [by exists (c :: tx)|].
  exists rest. simpl. by f_equal.
Qed.

Lemma word_not_ws tx : Forall (fun c => is_ws c = false) (word tx).
Proof. induction tx as [|c tx IH]; [constructor|]. simpl. destruct (is_ws c) eqn:?; by constructor. Qed.

Lemma take_word tx : take (length (word tx)) tx = word tx.
Proof. destruct (word_prefix tx) as [rest He]. rewrite He at 2. apply take_app_length. Qed.

Lemma length_word tx : (length (word tx) <= length tx)%nat.
Proof. rewrite <- take_word at 1. rewrite length_take. lia. Qed.

Lemma length_skip_ws tx : (length (skip_ws tx) <= length tx)%nat.
Proof. induction tx as [|c tx IH]; [done|]. simpl. destruct (is_ws c); simpl in *; lia. Qed.

Lemma bind_inv {S A B} (m : M S A) (k : A -> M S B) s b s2 :
  (m ≫= k) s = (Val b, s2) -> exists a s1, m s = (Val a, s1) /\ k a s1 = (Val b, s2).
Proof. munfold. destruct (m s) as [[a|c|f] s1]; [|done..]. eauto. Qed.

(** ** Concrete messages

    A text of user [who] in group -100, and a heap with one event. *)
Definition demo_msg (s : list byte) (who id reply : Z) : tgev :=
  Tgev JP_null 0 TGEV_TEXT false (MsgText (Text
    (Head id (From who (Some (bs "Ada")) None None (replicate 4 Byte.x00) false) from_zero None
       (Chat (-100) None None None None 0 false) chat_zero 0 0 false false)
    (Some s) 0 0 reply)).
Definition demo_store (e : tgev) : heap := Heap {[100 := BEvent e]} 101 [].
