(* ===== verification/Admin.v ===== *)
(** * The admin module: modules/003_admin/admin.c

    The commands of a group's administrators: what a message is read as, who
    may run it, which requests it sends and what it answers.  The state of the
    module is the list of requests sent so far. *)
From S2P Require Import Prelude CString Json TgEvent TgApi ModCommon.

Definition RTB_SIZE : Z := 0x400.

Definition CMD_NOP : Z := 0.
Definition ADM_CMD_BAN : Z := 1.
Definition ADM_CMD_SBAN : Z := 2.
Definition ADM_CMD_UNBAN : Z := 4.
Definition ADM_CMD_KICK : Z := 8.
Definition ADM_CMD_SKICK : Z := 16.
Definition ADM_CMD_WARN : Z := 32.
Definition ADM_CMD_MUTE : Z := 64.
Definition ADM_CMD_TMUTE : Z := 128.
Definition ADM_CMD_UNMUTE : Z := 256.
Definition ADM_CMD_PIN : Z := 512.
Definition ADM_CMD_UNPIN : Z := 1024.
Definition ADM_CMD_DELETE : Z := 2048.
Definition USR_CMD_REPORT : Z := 4096.
Definition USR_CMD_DELVOTE : Z := 8192.

Definition ADMIN_CMD_BITS : Z :=
  foldr Z.lor 0 [ADM_CMD_BAN; ADM_CMD_SBAN; ADM_CMD_UNBAN; ADM_CMD_KICK; ADM_CMD_SKICK; ADM_CMD_WARN;
    ADM_CMD_MUTE; ADM_CMD_TMUTE; ADM_CMD_UNMUTE; ADM_CMD_PIN; ADM_CMD_UNPIN; ADM_CMD_DELETE].

Definition sudoers : list Z := [133862899; 243692601; 701123895; 1213668471].
Definition check_is_sudoer (user_id : Z) : bool := bool_decide (user_id ∈ sudoers).

(** ** Reading a command *)
(** [src]: the characters of the C string from [src + i] on. *)
Fixpoint strtolower_cp (src : list byte) (i dst_len : Z) : M (list byte) bool :=
  match src with
  | [] => poke i Byte.x00;; mret true
  | c :: src' =>
      if is_ws c then poke i Byte.x00;; mret true
      else
        poke i (lower c);;
        if decide (i + 1 >= dst_len) then mret false else strtolower_cp src' (i + 1) dst_len
  end.

Section Commands.
Context `{Net}.

Definition is_an_admin_mention {S} (tx : list byte) : M S bool :=
  match tx with
  | c :: tx =>
      if decide (c <> "@"%byte) then mret false
      else
        '(ok, yx) ← local (stack 10) (strtolower_cp tx 0 9);
        if negb ok then mret false
        else if negb (starts_with (bs "admin") (c_str yx)) then mret false
        else
          let tx := drop 5 tx in
          let tx := match tx with c :: tx' => if decide (c = "s"%byte) then tx' else tx | [] => tx end in
          mret (match tx with [] => true | c :: _ => is_ws c end)
  | [] => mret false
  end.

(** The chain of comparisons, in its order. *)
Definition cmd_table : list (list byte * Z) :=
  [(bs "ban", ADM_CMD_BAN); (bs "sban", ADM_CMD_SBAN); (bs "unban", ADM_CMD_UNBAN);
   (bs "kick", ADM_CMD_KICK); (bs "skick", ADM_CMD_SKICK); (bs "warn", ADM_CMD_WARN);
   (bs "mute", ADM_CMD_MUTE); (bs "tmute", ADM_CMD_TMUTE); (bs "unmute", ADM_CMD_UNMUTE);
   (bs "pin", ADM_CMD_PIN); (bs "unpin", ADM_CMD_UNPIN); (bs "delete", ADM_CMD_DELETE);
   (bs "del", ADM_CMD_DELETE); (bs "report", USR_CMD_REPORT); (bs "admin", USR_CMD_REPORT);
   (bs "delvote", USR_CMD_DELVOTE)].

Fixpoint match_cmd (table : list (list byte * Z)) (yx : list byte) : option (Z * nat) :=
  match table with
  | [] => None
  | (k, cmd) :: table' => if starts_with k yx then Some (cmd, length k) else match_cmd table' yx
  end.

(** What the text of a message is: no command, a mention of the admins, or a
    command with the rest of the text as its reason. *)
Inductive reading := NoCommand | Mention | Command (cmd : Z) (reason : option (list byte)).

(** Up to the label [out_run]. *)
Definition read_command {S} (text : list byte) : M S reading :=
  match text with
  | [] => mret NoCommand
  | c :: tx =>
      if negb (is_prefix_char c) then
        b ← is_an_admin_mention text;
        mret (if b : bool then Mention else NoCommand)
      else
        '(ok, yx) ← local (stack 10) (strtolower_cp tx 0 9);
        if negb ok then mret NoCommand
        else
          match match_cmd cmd_table (c_str yx) with
          | None => mret NoCommand
          | Some (cmd, n) =>
              match drop n tx with
              | [] => mret (Command cmd None)
              | c :: _ => mret (if is_ws c then Command cmd (Some (skip_ws (drop n tx))) else NoCommand)
              end
          end
  end.
End Commands.

(** ** Names in HTML *)

(** [strnlen(s, 0xff)] of a C string that may be NULL, with the string. *)
Definition name_arg {S} (s : cstr) : M S (list byte * nat) :=
  s ← lift FNull s; mret (asz s, Nat.min 255 (length s)).

Definition user_link (id : Z) : list byte := bs "<a href=" ++ dq ++ bs "tg://user?id=" ++ num id ++ dq ++ bs ">".

Definition gen_name_link (sps id : Z) (fisrt last : cstr) : M (list byte) Z :=
  if decide (sps < 32) then mret 0
  else
    let sps := u64 (sps - 5) in
    tmp ← snprintf 0 sps (user_link id);
    let ret := tmp in
    let sps := u64 (sps - tmp) in
    '(s, n) ← name_arg fisrt;
    tmp ← at_ptr ret (Html.htmlspecialchars sps s n);
    let ret := u64 (ret + (tmp - 1)) in
    let sps := u64 (sps + tmp) in
    ret ← (match last with
           | None => mret ret
           | Some _ =>
               poke ret " "%byte;;
               let ret := u64 (ret + 1) in
               '(s, n) ← name_arg last;
               tmp ← at_ptr ret (Html.htmlspecialchars sps s n);
               mret (u64 (ret + (tmp - 1)))
           end);
    pokes ret (bs "</a>" ++ [Byte.x00]);;
    mret (u64 (ret + 4)).

(** ** Requests *)

(** The state of a command: the requests sent, and its [reply_text]. *)
Record frame := Frame { fr_sent : list request; fr_reply : list byte }.
#[export] Instance eta_frame : Eta frame := fun r => Frame (fr_sent r) (fr_reply r).

Definition on_sent {A} (m : M (list request) A) : M frame A := zoom fr_sent (fun w s => s <| fr_sent := w |>) m.
Definition on_reply {A} (m : M (list byte) A) : M frame A := zoom fr_reply (fun b s => s <| fr_reply := b |>) m.

Section Module003.
Context `{Net} `{JsonLib} (token : cstr) (h : heap).

(** [PRERF] with the arguments [PREAR(n)]. *)
Definition prerf (n : Z) : list byte := bs "(errno=" ++ num n ++ bs ") " ++ strerror n.

(** [reply_text]: the string from the pointer on. *)
Definition send_reply (evt : tgev) (reply_text : list byte) (msg_id : Z) : M (list request) Z :=
  with_handle token (tga_send_msg (SendMsg (tge_get_chat_id evt) msg_id reply_text PARSE_MODE_HTML));;
  mret 0.

Definition send_eperm (evt : tgev) : M (list request) Z :=
  send_reply evt (asz (bs "Error: Operation not permitted (errno=EPERM) (code=1)")) (tge_get_msg_id evt).

(** The search for [user_id] among the administrators, up to the label [out]:
    the code, and [reply_text]. *)
Definition search_admins (user_id chat_id : Z) : M (list request) (Z * list byte) :=
  let error (ret : Z) (where_ : string) := 
    '(_, buf) ← local (stack 128) (snprintf 0 128 (bs "Error: " ++ bs where_ ++ bs "(): " ++ prerf (- ret)));
    mret (ret, buf) in
  '(ret, body) ← with_handle token (
    ret ← tga_get_chat_admins chat_id; body ← tge_get_res_body; mret (ret, body));
  if decide (ret <> 0) then error ret "tga_get_chat_admins"
  else
    match body with
    | None => error (- EINVAL) "tge_get_res_body"
    | Some json_plain =>
        len ← lift FBounds (strlen json_plain);
        match json_tokener_parse (take len json_plain) with
        | JNull => error (- EINVAL) "json_tokener_parse"
        | json_obj =>
            w ← get;
            '(ret, admins, admin_c) ← parse_tga_admins (calloc_ok w) json_obj;
            if decide (ret <> 0) then error ret "parse_tga_admins"
            else
              mret (if existsb (fun a => u_id (member_user a) =? user_id) (take (Z.to_nat admin_c) admins)
                    then 0 else - EPERM, stack 128)
        end
    end.

Definition lookup_tg_privilege (evt : tgev) (user_id chat_id : Z) : M (list request) Z :=
  '(ret, reply_text) ← search_admins user_id chat_id;
  (if decide (ret <> 0 /\ ret <> - EPERM) then send_reply evt reply_text (tge_get_msg_id evt);; mret tt
   else mret tt);;
  mret ret.

Definition is_privileged_user (evt : tgev) (user_id : Z) : M (list request) bool :=
  if check_is_sudoer user_id then mret true
  else
    ret ← lookup_tg_privilege evt user_id (tge_get_chat_id evt);
    if decide (ret = 0) then mret true
    else (if decide (ret = - EPERM) then send_eperm evt;; mret tt else mret tt);; mret false.

Definition err_parse : list byte := asz (bs "Error: Cannot parse JSON response from API").
Definition err_ok_key : list byte := asz (bs "Cannot find " ++ dq ++ bs "ok" ++ dq ++ bs " key from JSON API").

(** [body] is the answer that the handle holds. *)
Definition process_json_msg (body : option (list byte)) : M frame bool :=
  json_plain ← lift FNull body;
  len ← lift FBounds (strlen json_plain);
  match json_tokener_parse (take len json_plain) with
  | JNull => on_reply (pokes 0 err_parse);; mret false
  | json_obj =>
      match get_member json_obj "ok" with
      | None => on_reply (pokes 0 err_ok_key);; mret false
      | Some res =>
          if json_object_get_boolean res then mret true
          else
            match json_object_object_get_ex json_obj "description" ≫= json_object_get_string with
            | None => on_reply (pokes 0 err_parse);; mret false
            | Some str_desc => on_reply (snprintf 0 RTB_SIZE (bs "Error: " ++ str_desc));; mret false
            end
      end
  end.

(** The shape of the functions that send one request for a command. *)
Definition api_call (name : string) (m : M conn Z) : M frame bool :=
  '(ret, body) ← on_sent (with_handle token (ret ← m; body ← tge_get_res_body; mret (ret, body)));
  if decide (ret <> 0) then
    on_reply (snprintf 0 RTB_SIZE (bs "Error: " ++ bs name ++ bs "(): " ++ prerf (- ret)));; mret true
  else process_json_msg body.

Definition do_kick (arg : tga_kick_cm_t) : M frame bool := api_call "tga_kick_chat_member" (tga_kick_chat_member arg).
Definition do_unban (arg : tga_unban_cm_t) : M frame bool := api_call "tga_unban_chat_member" (tga_unban_chat_member arg).
Definition do_mute (arg : tga_restrict_cm_t) : M frame bool :=
  api_call "tga_restrict_chat_member" (tga_restrict_chat_member arg).
Definition do_pin (arg : tga_pin_cm_t) : M frame bool := api_call "tga_pin_chat_msg" (tga_pin_chat_msg arg).
Definition do_unpin (arg : tga_unpin_cm_t) : M frame bool := api_call "tga_unpin_chat_msg" (tga_unpin_chat_msg arg).
Definition do_del_msg (arg : tga_delete_msg_t) : M frame bool := api_call "tga_delete_msg" (tga_delete_msg arg).

(** ** Running a command *)
Definition with_reply {A} (m : M frame A) : M (list request) A := fun w =>
  let '(r, s) := m (Frame w (stack (Z.to_nat RTB_SIZE))) in (r, fr_sent s).

Definition reply_with (evt : tgev) (msg_id : Z) : M frame Z :=
  s ← get; on_sent (send_reply evt (fr_reply s) msg_id).

(** The last lines of an answer: the reason, behind [pos]. *)
Definition append_reason (reason : option (list byte)) (pos sps : Z) : M frame unit :=
  match reason with
  | None => mret tt
  | Some reason =>
      on_reply (pokes pos (Byte.x0a :: bs "<b>Message:</b> " ++ [Byte.x00]));;
      let pos := u64 (pos + 17) in
      let sps := u64 (sps - 18) in
      n ← lift FBounds (strnlen (asz reason) (Z.to_nat sps));
      tmp ← on_reply (at_ptr pos (Html.htmlspecialchars sps (asz reason) n));
      let pos := u64 (pos + tmp) in
      on_reply (poke (u64 (pos - 1)) Byte.x00)
  end.

(** What kick_or_unban and mute_or_unmute answer when the request succeeded. *)
Definition say_done (reply_to : tgev) (word : string) (reason : option (list byte)) : M frame unit :=
  '(pos, sps) ←
    (match tge_get_from reply_to with
     | Some fr =>
         let sps := RTB_SIZE - 18 in
         pos ← on_reply (gen_name_link sps (from_id fr) (first_name fr) (last_name fr));
         on_reply (pokes pos (bs " has been "));;
         mret (u64 (pos + 10), u64 (sps - pos))
     | None => on_reply (pokes 0 (bs "(unknown) has been "));; mret (19, RTB_SIZE)
     end);
  on_reply (pokes pos (bs word ++ [Byte.x00]));;
  append_reason reason (u64 (pos + Z.of_nat (String.length word))) sps.

Definition kick_or_unban (evt : tgev) (target_uid : Z) (reason : option (list byte)) (is_unban silent : bool) :
    M (list request) Z := with_reply (
  tmp ← do_unban (UnbanCm (tge_get_chat_id evt) target_uid is_unban);
  let reply_to_msg_id := tge_get_msg_id evt in
  if negb tmp then reply_with evt reply_to_msg_id
  else if silent then mret 0
  else
    let reply_to := tge_get_reply_to evt in
    (if is_null reply_to then mret tt
     else
       reply_to ← deref h reply_to;
       say_done reply_to (if is_unban then "unbanned!" else "kicked!") reason);;
    reply_with evt reply_to_msg_id).

Definition mute_or_unmute (evt : tgev) (target_uid : Z) (reason : option (list byte)) (is_unmute : bool) :
    M (list request) Z := with_reply (
  tmp ← do_mute (RestrictCm (tge_get_chat_id evt) target_uid 0
    (Perm is_unmute is_unmute is_unmute is_unmute is_unmute is_unmute is_unmute is_unmute));
  let reply_to_msg_id := tge_get_msg_id evt in
  if negb tmp then reply_with evt reply_to_msg_id
  else
    let reply_to := tge_get_reply_to evt in
    (if is_null reply_to then mret tt
     else
       reply_to ← deref h reply_to;
       say_done reply_to (if is_unmute then "unmuted!" else "muted!") reason);;
    reply_with evt reply_to_msg_id).

Definition exec_adm_cmd_ban (evt : tgev) (target_uid : Z) (reason : option (list byte)) (silent : bool) :
    M (list request) Z := with_reply (
  let chat_id := tge_get_chat_id evt in
  tmp ← do_kick (KickCm chat_id target_uid 0 true);
  let reply_to_msg_id := tge_get_msg_id evt in
  if negb tmp then reply_with evt reply_to_msg_id
  else if silent then
    tmp ← do_del_msg (DeleteMsg chat_id reply_to_msg_id);
    if negb tmp then reply_with evt reply_to_msg_id
    else
      let reply_to := tge_get_reply_to evt in
      if is_null reply_to then mret 0
      else
        reply_to ← deref h reply_to;
        tmp ← do_del_msg (DeleteMsg chat_id (tge_get_msg_id reply_to));
        if negb tmp then reply_with evt reply_to_msg_id else mret 0
  else
    let reply_to := tge_get_reply_to evt in
    (if is_null reply_to then mret tt
     else
       reply_to ← deref h reply_to;
       '(pos, sps) ←
         (match tge_get_from reply_to with
          | Some fr =>
              let sps := RTB_SIZE - 18 in
              pos ← on_reply (gen_name_link sps (from_id fr) (first_name fr) (last_name fr));
              on_reply (pokes pos (bs " has been banned!" ++ [Byte.x00]));;
              mret (u64 (pos + 17), u64 (sps - pos))
          | None => on_reply (pokes 0 (bs "Banned success!" ++ [Byte.x00]));; mret (15, RTB_SIZE - 15)
          end);
       append_reason reason pos sps);;
    reply_with evt reply_to_msg_id).

Definition exec_adm_cmd_unban (evt : tgev) (target_uid : Z) (reason : option (list byte)) : M (list request) Z :=
  kick_or_unban evt target_uid reason true false.

Definition exec_adm_cmd_kick (evt : tgev) (target_uid : Z) (reason : option (list byte)) (silent : bool) :
    M (list request) Z :=
  ret ← kick_or_unban evt target_uid reason false silent;
  if bool_decide (ret = 0) && silent then with_reply (
    let chat_id := tge_get_chat_id evt in
    let msg_id := tge_get_msg_id evt in
    let reply_to := tge_get_reply_to evt in
    tmp ← do_del_msg (DeleteMsg chat_id msg_id);
    if negb tmp then reply_with evt msg_id
    else if is_null reply_to then mret 0
    else
      reply_to ← deref h reply_to;
      tmp ← do_del_msg (DeleteMsg chat_id (tge_get_msg_id reply_to));
      if negb tmp then reply_with evt msg_id else mret ret)
  else mret ret.

Definition exec_adm_cmd_mute (evt : tgev) (target_uid : Z) (reason : option (list byte)) : M (list request) Z :=
  mute_or_unmute evt target_uid reason false.
Definition exec_adm_cmd_unmute (evt : tgev) (target_uid : Z) (reason : option (list byte)) : M (list request) Z :=
  mute_or_unmute evt target_uid reason true.

Definition say_message (msg_id : Z) (word : string) : M frame unit :=
  on_reply (snprintf 0 RTB_SIZE (bs "Message " ++ num msg_id ++ bs " has been " ++ bs word ++ bs "!"));; mret tt.

Definition exec_adm_cmd_pin (evt : tgev) : M (list request) Z := with_reply (
  reply_to ← deref h (tge_get_reply_to evt);
  let reply_to_msg_id := tge_get_msg_id reply_to in
  if decide (reply_to_msg_id = 0) then
    on_sent (send_reply evt (asz (bs "Please reply to message to be pinned!")) (tge_get_msg_id evt))
  else
    tmp ← do_pin (PinCm (tge_get_chat_id evt) reply_to_msg_id false);
    (if tmp : bool then say_message reply_to_msg_id "pinned" else mret tt);;
    reply_with evt (tge_get_msg_id evt)).

Definition exec_adm_cmd_unpin (evt : tgev) : M (list request) Z := with_reply (
  reply_to ← deref h (tge_get_reply_to evt);
  let reply_to_msg_id := tge_get_msg_id reply_to in
  if decide (reply_to_msg_id = 0) then
    on_sent (send_reply evt (asz (bs "Please reply to message to be unpinned!")) (tge_get_msg_id evt))
  else
    tmp ← do_unpin (UnpinCm (tge_get_chat_id evt) reply_to_msg_id);
    (if tmp : bool then say_message reply_to_msg_id "unpinned" else mret tt);;
    reply_with evt (tge_get_msg_id evt)).

Definition exec_adm_cmd_delete (evt : tgev) : M (list request) Z := with_reply (
  reply_to ← deref h (tge_get_reply_to evt);
  let reply_to_msg_id := tge_get_msg_id reply_to in
  if decide (reply_to_msg_id = 0) then
    on_sent (send_reply evt (asz (bs "Please reply to message to be unpinned!")) (tge_get_msg_id evt))
  else
    tmp ← do_del_msg (DeleteMsg (tge_get_chat_id evt) reply_to_msg_id);
    if negb tmp then reply_with evt (tge_get_msg_id evt)
    else
      tmp ← do_del_msg (DeleteMsg (tge_get_chat_id evt) (tge_get_msg_id evt));
      (if tmp : bool then say_message reply_to_msg_id "deleted" else mret tt);;
      reply_with evt (tge_get_msg_id evt)).
(** ** Reports *)
Fixpoint report_loop (rep_p sps : Z) (admins : list tga_chat_member) : M (list byte) unit :=
  match admins with
  | [] => mret tt
  | a :: admins' =>
      let user := member_user a in
      if u_is_bot user then report_loop rep_p sps admins'
      else
        let sps := u64 (sps - 6) in
        tmp ← snprintf rep_p sps (bs "Cc: " ++ user_link (u_id user));
        let rep_p := u64 (rep_p + tmp) in
        let sps := u64 (sps - tmp) in
        '(fn, n) ← name_arg (u_first_name user);
        tmp ← at_ptr rep_p (Html.htmlspecialchars sps fn n);
        let tmp := if decide (tmp > 0) then tmp - 1 else tmp in
        let rep_p := u64 (rep_p + tmp) in
        let sps := u64 (sps - tmp) in
        pokes rep_p (bs "</a>" ++ [Byte.x0a; Byte.x00]);;
        report_loop (u64 (rep_p + 5)) sps admins'
  end.

Definition construct_report_reply (sps : Z) (admins : list tga_chat_member) : M (list byte) unit :=
  pokes 0 (bs "Reported to admins!" ++ [Byte.x0a; Byte.x00]);;
  report_loop 20 (u64 (sps - 20)) admins.

Definition exec_usr_cmd_report (evt : tgev) (reply_to : wptr) : M (list request) Z :=
  let error (ret : Z) (where_ : string) :=
    '(_, buf) ← local (stack (Z.to_nat 4096)) (snprintf 0 4096 (bs "Error: " ++ bs where_ ++ bs "(): " ++ prerf (- ret)));
    mret buf in
  '(ret, body) ← with_handle token (
    ret ← tga_get_chat_admins (tge_get_chat_id evt); body ← tge_get_res_body; mret (ret, body));
  reply_text ← (
    if decide (ret <> 0) then error ret "tga_get_chat_admins"
    else
      match body with
      | None => error (- EINVAL) "tge_get_res_body"
      | Some json_plain =>
          len ← lift FBounds (strlen json_plain);
          match json_tokener_parse (take len json_plain) with
          | JNull => error (- EINVAL) "json_tokener_parse"
          | json_obj =>
              w ← get;
              '(ret, admins, admin_c) ← parse_tga_admins (calloc_ok w) json_obj;
              if decide (ret <> 0) then error ret "parse_tga_admins"
              else
                '(_, buf) ← local (stack (Z.to_nat 4096)) (construct_report_reply 4096 (take (Z.to_nat admin_c) admins));
                mret buf
          end
      end);
  evt ← (if is_null reply_to then mret evt else deref h reply_to);
  send_reply evt reply_text (tge_get_msg_id evt).

(** ** The entry of the module *)

(** The switch. *)
Definition run_cmd (evt : tgev) (reply_to : wptr) (cmd target_uid : Z) (reason : option (list byte)) :
    M (list request) Z :=
  if decide (cmd = CMD_NOP) then faulty FAbort
  else if decide (cmd = ADM_CMD_BAN \/ cmd = ADM_CMD_SBAN) then
    exec_adm_cmd_ban evt target_uid reason (bool_decide (cmd = ADM_CMD_SBAN))
  else if decide (cmd = ADM_CMD_UNBAN) then exec_adm_cmd_unban evt target_uid reason
  else if decide (cmd = ADM_CMD_KICK \/ cmd = ADM_CMD_SKICK) then
    exec_adm_cmd_kick evt target_uid reason (bool_decide (cmd = ADM_CMD_SKICK))
  else if decide (cmd = ADM_CMD_MUTE) then exec_adm_cmd_mute evt target_uid reason
  else if decide (cmd = ADM_CMD_UNMUTE) then exec_adm_cmd_unmute evt target_uid reason
  else if decide (cmd = ADM_CMD_PIN) then exec_adm_cmd_pin evt
  else if decide (cmd = ADM_CMD_DELETE) then exec_adm_cmd_delete evt
  else if decide (cmd = ADM_CMD_UNPIN) then exec_adm_cmd_unpin evt
  else if decide (cmd = USR_CMD_REPORT) then exec_usr_cmd_report evt reply_to
  else mret (- ECANCELED).

(** From the label [out_run_priv_chk] on. *)
Definition run_priv_chk (evt : tgev) (reply_to : wptr) (cmd target_uid : Z) (reason : option (list byte)) :
    M (list request) Z :=
  if decide (Z.land cmd ADMIN_CMD_BITS = 0) then run_cmd evt reply_to cmd target_uid reason
  else
    ok ← is_privileged_user evt (tge_get_user_id evt);
    if negb ok then mret 0 else run_cmd evt reply_to cmd target_uid reason.

Definition admin_entry (evt : tgev) : M (list request) Z :=
  match tge_get_text evt with
  | None => mret (- ECANCELED)
  | Some text =>
      r ← read_command text;
      let reply_to := tge_get_reply_to evt in
      match r with
      | NoCommand => mret (- ECANCELED)
      | Mention => run_priv_chk evt reply_to USR_CMD_REPORT 0 None
      | Command cmd reason =>
          if is_null reply_to then
            if bool_decide (reason = None) && bool_decide (cmd = USR_CMD_REPORT) then
              run_priv_chk evt reply_to cmd 0 reason
            else mret (- ECANCELED)
          else
            target ← deref h reply_to;
            run_priv_chk evt reply_to cmd (tge_get_user_id target) reason
      end
  end.
End Module003.
