(* ===== verification/AdminRead.v ===== *)
(** * What the admin module reads a message as

    The buffers and the chain of prefix comparisons amount to a lookup of the
    first word, whatever its case, in a table of names. *)
From S2P Require Import Prelude CString Json TgEvent TgApi TgApiSpec ModCommon Admin.

(** ** The reference *)
Definition cmd_names : list (list byte * Z) :=
  [(bs "ban", ADM_CMD_BAN); (bs "sban", ADM_CMD_SBAN); (bs "unban", ADM_CMD_UNBAN);
   (bs "kick", ADM_CMD_KICK); (bs "skick", ADM_CMD_SKICK); (bs "warn", ADM_CMD_WARN);
   (bs "mute", ADM_CMD_MUTE); (bs "tmute", ADM_CMD_TMUTE); (bs "unmute", ADM_CMD_UNMUTE);
   (bs "pin", ADM_CMD_PIN); (bs "unpin", ADM_CMD_UNPIN); (bs "delete", ADM_CMD_DELETE);
   (bs "del", ADM_CMD_DELETE); (bs "report", USR_CMD_REPORT); (bs "admin", USR_CMD_REPORT)].

Fixpoint named (names : list (list byte * Z)) (w : list byte) : option Z :=
  match names with
  | [] => None
  | (k, cmd) :: names' => if decide (w = k) then Some cmd else named names' w
  end.

(** The words [@admin] in any case, and with a small [s]. *)
Definition mentions (w : list byte) : bool :=
  bool_decide (lower <$> w = bs "admin" \/ (lower <$> take 5 w = bs "admin" /\ drop 5 w = bs "s")).

Definition reading_of (text : list byte) : reading :=
  match text with
  | [] => NoCommand
  | c :: tx =>
      let w := word tx in
      if is_prefix_char c then
        match named cmd_names (lower <$> w) with
        | None => NoCommand
        | Some cmd => Command cmd (match drop (length w) tx with [] => None | rest => Some (skip_ws rest) end)
        end
      else if decide (c = "@"%byte) then (if mentions w then Mention else NoCommand)
      else NoCommand
  end.

(** ** strtolower_cp *)
Lemma lower_nul c : c <> Byte.x00 -> lower c <> Byte.x00.
Proof. by destruct c. Qed.

Lemma lower_no_nul w : no_nul w -> no_nul (lower <$> w).
Proof. intros Hw. apply Forall_fmap. eapply Forall_impl; [exact Hw|]. intros c. apply lower_nul. Qed.

Lemma strtolower_run tx pre rest n :
  (length pre + length rest = S n)%nat -> (length pre < n)%nat ->
  exists rest', strtolower_cp tx (Z.of_nat (length pre)) (Z.of_nat n) (pre ++ rest) =
    if decide (length pre + length (word tx) < n)%nat
    then (Val true, (pre ++ (lower <$> word tx)) ++ Byte.x00 :: rest')
    else (Val false, rest').
Proof.
  revert pre rest. induction tx as [|c tx IH]; intros pre rest Hlen Hlt.
  { destruct rest as [|b rest]; [simpl in *; lia|]. exists rest. cbn [strtolower_cp word length].
    rewrite decide_True by lia. erewrite bind_val by apply poke_mid. by rewrite app_nil_r. }
  destruct rest as [|b rest]; [simpl in *; lia|]. cbn [strtolower_cp word]. destruct (is_ws c).
  { exists rest. cbn [length]. rewrite decide_True by lia. erewrite bind_val by apply poke_mid. by rewrite app_nil_r. }
  erewrite bind_val by apply poke_mid.
  assert (He : pre ++ lower c :: rest = (pre ++ [lower c]) ++ rest) by (by rewrite <- app_assoc).
  assert (Hl : Z.of_nat (length pre) + 1 = Z.of_nat (length (pre ++ [lower c]))) by (rewrite length_app; simpl; lia).
  cbn [length]. case_decide as Hge.
  - exists (pre ++ lower c :: rest). by rewrite decide_False by lia.
  - rewrite He, Hl. destruct (IH (pre ++ [lower c]) rest) as [rest' ->].
    { rewrite length_app. simpl in *. lia. }
    { rewrite length_app. simpl. lia. }
    exists rest'. rewrite length_app. cbn [length]. rewrite fmap_cons, <- !app_assoc.
    replace (length pre + 1 + length (word tx))%nat with (length pre + S (length (word tx)))%nat by lia. done.
Qed.

Section Reading.
Context `{Net}.

Lemma lower_word {S} tx (s : S) :
  no_nul tx ->
  exists buf, local (stack 10) (strtolower_cp tx 0 9) s =
    (Val (bool_decide (length (word tx) < 9)%nat, buf), s) /\
    ((length (word tx) < 9)%nat -> c_str buf = lower <$> word tx).
Proof.
  intros Htx. unfold local.
  destruct (strtolower_run tx [] (stack 10) 9) as [rest Hrun]; [by rewrite length_stack|simpl; lia|].
  change (strtolower_cp tx 0 9 (stack 10)) with (strtolower_cp tx (Z.of_nat (length ([] : list byte))) (Z.of_nat 9) ([] ++ stack 10)).
  rewrite Hrun; clear Hrun. cbn [length Nat.add]. case_decide as Hd.
  - eexists. rewrite bool_decide_true by done. split; [done|]. intros _.
    rewrite app_nil_l, c_str_asz; [done|]. by apply lower_no_nul, word_no_nul.
  - eexists. rewrite bool_decide_false by done. split; [done|]. intros. lia.
Qed.
End Reading.

(** ** The chain of comparisons *)
Lemma starts_with_prefix k s : starts_with k s = true <-> k `prefix_of` s.
Proof.
  unfold starts_with. rewrite bool_decide_eq_true. split.
  - intros He. exists (drop (length k) s). rewrite <- He at 1. by rewrite take_drop.
  - intros [r ->]. apply take_app_length.
Qed.

(** No name is hidden by an earlier one that is a prefix of it. *)
Fixpoint separated (names : list (list byte * Z)) : bool :=
  match names with
  | [] => true
  | (k, _) :: names' => forallb (fun kc => negb (starts_with k (fst kc))) names' && separated names'
  end.

Lemma named_key names w cmd : named names w = Some cmd -> (w, cmd) ∈ names.
Proof.
  induction names as [|[k c] names IH]; [done|]. simpl. case_decide as Hk; [|intros ?; right; auto].
  intros [= <-]. subst. left.
Qed.

Lemma named_short w : (9 <= length w)%nat -> named cmd_names w = None.
Proof.
  intros Hw. destruct (named cmd_names w) as [cmd|] eqn:He; [|done]. apply named_key in He.
  assert (Forall (fun kc : list byte * Z => length (fst kc) < 9)%nat cmd_names) as Hall
    by (apply (bool_decide_unpack _); reflexivity).
  rewrite Forall_forall in Hall. apply Hall in He. simpl in He. lia.
Qed.

(** What follows a name in the text. *)
Definition after_name (cmd : Z) (n : nat) (tx : list byte) : reading :=
  match drop n tx with
  | [] => Command cmd None
  | c :: _ => if is_ws c then Command cmd (Some (skip_ws (drop n tx))) else NoCommand
  end.

Lemma after_word cmd tx :
  after_name cmd (length (word tx)) tx =
    Command cmd (match drop (length (word tx)) tx with [] => None | rest => Some (skip_ws rest) end).
Proof. unfold after_name. pose proof (word_rest tx) as Hr. destruct (drop _ tx); [done|]. by rewrite Hr. Qed.

Lemma inside_word cmd n tx : (n < length (word tx))%nat -> after_name cmd n tx = NoCommand.
Proof.
  intros Hn. destruct (word_prefix tx) as [rest He]. unfold after_name. rewrite He, drop_app_le by lia.
  destruct (lookup_lt_is_Some_2 (word tx) n Hn) as [c Hc]. rewrite (drop_S _ _ _ Hc). cbn [app].
  pose proof (word_not_ws tx) as Hf. rewrite Forall_forall in Hf.
  by rewrite (Hf c) by (by eapply list_elem_of_lookup_2).
Qed.

Lemma match_named names tx :
  separated names = true ->
  match match_cmd names (lower <$> word tx) with None => NoCommand | Some (cmd, n) => after_name cmd n tx end =
  match named names (lower <$> word tx) with
  | None => NoCommand
  | Some cmd => Command cmd (match drop (length (word tx)) tx with [] => None | rest => Some (skip_ws rest) end)
  end.
Proof.
  set (w := lower <$> word tx). assert (Hlen : length w = length (word tx)) by apply length_fmap.
  induction names as [|[k cmd] names IH]; [done|]. simpl. intros [Hsep Hrest]%andb_prop.
  case_decide as Hk.
  - subst k. rewrite (proj2 (starts_with_prefix _ _)) by done. rewrite Hlen. apply after_word.
  - destruct (starts_with k w) eqn:Hpre; [|by apply IH]. apply starts_with_prefix in Hpre as [r Hr].
    rewrite inside_word.
    2:{ rewrite <- Hlen, Hr, length_app. destruct r; [by rewrite app_nil_r in Hr|simpl; lia]. }
    destruct (named names w) as [cmd'|] eqn:Hn; [|done]. apply named_key in Hn.
    rewrite forallb_forall in Hsep. apply list_elem_of_In in Hn. apply Hsep in Hn. simpl in Hn.
    rewrite (proj2 (starts_with_prefix k w)) in Hn by (by exists r). done.
Qed.

Lemma match_cmd_some names w k c : (k, c) ∈ names -> starts_with k w = true -> match_cmd names w <> None.
Proof.
  intros Hin Hk. induction names as [|[k' c'] names IH]; [by apply not_elem_of_nil in Hin|]. simpl.
  apply elem_of_cons in Hin as [[= <- <-]|Hin]; [by rewrite Hk|]. case_match; [done|auto].
Qed.

(** The last comparison of the chain is never reached with success. *)
Lemma match_cmd_names w : match_cmd cmd_table w = match_cmd cmd_names w.
Proof.
  assert (Happ : forall t1 t2, match_cmd (t1 ++ t2) w = match match_cmd t1 w with Some r => Some r | None => match_cmd t2 w end).
  { intros t1 t2. induction t1 as [|[k c] t1 IH]; [done|]. simpl. by destruct (starts_with k w). }
  change cmd_table with (cmd_names ++ [(bs "delvote", USR_CMD_DELVOTE)]). rewrite Happ.
  destruct (match_cmd cmd_names w) eqn:He; [done|]. cbn [match_cmd].
  destruct (starts_with (bs "delvote") w) eqn:Hd; [|done]. exfalso.
  assert (Hdel : starts_with (bs "del") w = true).
  { apply starts_with_prefix. apply starts_with_prefix in Hd. etransitivity; [|exact Hd]. by exists (bs "vote"). }
  revert He. apply (match_cmd_some _ _ (bs "del") ADM_CMD_DELETE); [|done]. by apply (bool_decide_unpack _).
Qed.

(** ** The mention of the admins *)
Lemma mentions_long w : (7 <= length w)%nat -> mentions w = false.
Proof.
  intros Hw. apply bool_decide_eq_false. intros [He|[_ He]]; apply (f_equal length) in He.
  - rewrite length_fmap in He. simpl in He. lia.
  - rewrite length_drop in He. simpl in He. lia.
Qed.

Lemma mentions_prefix w : mentions w = true -> starts_with (bs "admin") (lower <$> w) = true.
Proof.
  intros Hm%bool_decide_eq_true. apply starts_with_prefix. destruct Hm as [->|[Ht _]]; [done|].
  exists (lower <$> drop 5 w). rewrite <- Ht, <- fmap_app, take_drop. done.
Qed.

Lemma mention_tail w rest :
  starts_with (bs "admin") (lower <$> w) = true -> Forall (fun c => is_ws c = false) w ->
  match rest with [] => True | c :: _ => is_ws c = true end ->
  (let tx := drop 5 (w ++ rest) in
   match (match tx with c :: tx' => if decide (c = "s"%byte) then tx' else tx | [] => tx end) with
   | [] => true
   | c :: _ => is_ws c
   end) = mentions w.
Proof.
  intros Hpre Hws Hrest. apply bool_decide_eq_true in Hpre.
  assert (Hl : (5 <= length w)%nat).
  { apply (f_equal length) in Hpre. rewrite length_take, length_fmap in Hpre. change (length (bs "admin")) with 5%nat in Hpre. lia. }
  cbv zeta. rewrite drop_app_le by lia. rewrite <- fmap_take in Hpre. change (length (bs "admin")) with 5%nat in Hpre.
  assert (Hm : mentions w = bool_decide (drop 5 w = [] \/ drop 5 w = bs "s")).
  { apply bool_decide_ext. split.
    - intros [He|[_ He]]; [left|by right]. apply (f_equal length) in He. rewrite length_fmap in He. simpl in He.
      apply nil_length_inv. rewrite length_drop. lia.
    - intros [He|He]; [left|by right]. rewrite <- (take_drop 5 w), He, app_nil_r. exact Hpre. }
  rewrite Hm. clear Hm Hpre. apply (Forall_drop _ 5) in Hws. destruct (drop 5 w) as [|c d]; [|].
  - cbn [app]. rewrite bool_decide_true by tauto. destruct rest as [|c rest]; [done|].
    rewrite decide_False; [done|]. by intros ->.
  - apply Forall_cons in Hws as [Hc Hd]. cbn [app]. case_decide as Hs.
    + subst c. destruct d as [|c' d]; cbn [app].
      * rewrite bool_decide_true by (by right). by destruct rest.
      * apply Forall_cons in Hd as [Hc' _]. by rewrite Hc', bool_decide_false by (intros [|]; done).
    + rewrite Hc, bool_decide_false; [done|]. intros [|[=]]; congruence.
Qed.

Section CmdRead.
Context `{Net}.

Lemma mention_spec {S} tx (s : S) :
  no_nul tx -> is_an_admin_mention ("@"%byte :: tx) s = (Val (mentions (word tx)), s).
Proof.
  intros Htx. unfold is_an_admin_mention. rewrite decide_False by tauto.
  destruct (lower_word tx s Htx) as (buf & Hrun & Hbuf). rewrite (bind_val _ _ _ _ _ Hrun). cbv beta iota.
  case_bool_decide as Hlen; cbn [negb].
  2:{ by rewrite mentions_long by lia. }
  rewrite Hbuf by done. destruct (starts_with (bs "admin") (lower <$> word tx)) eqn:Hpre; cbn [negb].
  - destruct (word_prefix tx) as [rest He]. pose proof (word_rest tx) as Hr. pose proof (word_not_ws tx) as Hws.
    assert (drop (length (word tx)) tx = rest) as Hd by (rewrite He at 2; apply drop_app_length).
    rewrite Hd in Hr. pose proof (mention_tail (word tx) rest Hpre Hws Hr) as Hm. rewrite <- He in Hm.
    cbv zeta in Hm |- *. rewrite <- Hm. reflexivity.
  - destruct (mentions (word tx)) eqn:Hm; [|done]. apply mentions_prefix in Hm. congruence.
Qed.

Lemma read_command_run {S} text (s : S) :
  no_nul text -> read_command text s = (Val (reading_of text), s).
Proof.
  intros Htext. destruct text as [|c tx]; [done|]. apply Forall_cons in Htext as [_ Htx].
  unfold read_command, reading_of. destruct (is_prefix_char c) eqn:Hc; cbn [negb].
  - destruct (lower_word tx s Htx) as (buf & Hrun & Hbuf). rewrite (bind_val _ _ _ _ _ Hrun). cbv beta iota.
    case_bool_decide as Hlen; cbn [negb].
    2:{ by rewrite named_short by (rewrite length_fmap; lia). }
    rewrite Hbuf by done. rewrite <- (match_named cmd_names tx eq_refl), match_cmd_names.
    destruct (match_cmd cmd_names _) as [[cmd n]|]; [|done]. unfold after_name.
    destruct (drop n tx) as [|c' rest]; [done|]. by destruct (is_ws c').
  - destruct (decide (c = "@"%byte)) as [->|Hat].
    + erewrite bind_val by (by apply mention_spec). by destruct (mentions (word tx)).
    + unfold is_an_admin_mention. rewrite decide_True by done. done.
Qed.
(** C15: Reading a command is a lookup of the first word, in any case, in the table
    of names; [delvote] is not among them, [del] comes before it. *)
Theorem cmd_read {S} text (s : S) :
  no_nul text -> read_command text s = (Val (reading_of text), s).
Proof. apply read_command_run. Qed.
End CmdRead.

Lemma cmd_read_witness :
  let net := {| net := fun _ => Transfer (fun _ => None) (fun _ => None) false (fun _ => ([], 0));
                stack := fun n => replicate n Byte.x00; length_stack := fun n => length_replicate n _;
                strerror := fun _ => []; calloc_ok := fun _ => false |} in
  @read_command net unit (bs "/BAN  spam links") tt = (Val (Command ADM_CMD_BAN (Some (bs "spam links"))), tt) /\
  @read_command net unit (bs "!delvote") tt = (Val NoCommand, tt).
Proof.
  intros net. split; apply (@cmd_read net unit); by apply (bool_decide_unpack _).
Defined.
