(* ===== verification/AdminPriv.v ===== *)
(** * Who may run the commands of the admin module

    A predicate over the requests a computation adds to the log, closed under
    the monad; with it, that the commands of the administrators are reached by
    administrators only. *)
From S2P Require Import Prelude CString Json TgEvent TgPrint TgApi TgApiSpec TgApiRead TgRequests ModCommon Admin AdminRead.

(** ** Requests a computation sends *)
Class Logged (S : Type) := {
  log : S -> list request;
  steady : S -> Prop;       (** what the computations keep of the rest *)
}.

Definition emits {S A} `{Logged S} (P : request -> Prop) (m : M S A) : Prop :=
  forall s, steady s -> steady (snd (m s)) /\ exists qs, log (snd (m s)) = log s ++ qs /\ Forall P qs.

Section Emits.
Context {S : Type} `{!Logged S} (P : request -> Prop).

(** A computation that leaves the state alone. *)
Definition pure {A} (m : M S A) : Prop := forall s, snd (m s) = s.

Lemma emits_same s : steady s -> steady s /\ exists qs, log s = log s ++ qs /\ Forall P qs.
Proof. intros Hs. split; [done|]. exists []. by rewrite app_nil_r. Qed.

Lemma emits_pure {A} (m : M S A) : pure m -> emits P m.
Proof. intros Hm s Hs. rewrite (Hm s). by apply emits_same. Qed.

Lemma emits_ret {A} (a : A) : emits P (mret a : M S A).
Proof. by apply emits_pure. Qed.
Lemma emits_exit {A} c : emits P (exit c : M S A).
Proof. by apply emits_pure. Qed.
Lemma emits_faulty {A} f : emits P (faulty f : M S A).
Proof. by apply emits_pure. Qed.
Lemma emits_get : emits P (get : M S S).
Proof. by apply emits_pure. Qed.
Lemma emits_lift {A} f (o : option A) : emits P (lift f o : M S A).
Proof. apply emits_pure. by destruct o. Qed.
Lemma emits_local {A} buf (m : M (list byte) A) : emits P (local buf m : M S _).
Proof. apply emits_pure. intros s. unfold local. by destruct (m buf) as [[] ?]. Qed.

Lemma emits_bind {A B} (m : M S A) (k : A -> M S B) :
  emits P m -> (forall a, emits P (k a)) -> emits P (m ≫= k).
Proof.
  intros Hm Hk s Hs. destruct (Hm s Hs) as [Hs1 (qs1 & Hl1 & Hq1)]. munfold.
  destruct (m s) as [[a|c|f] s1] eqn:E; simpl in *; [|by eauto..].
  destruct (Hk a s1 Hs1) as [Hs2 (qs2 & Hl2 & Hq2)]. split; [done|].
  exists (qs1 ++ qs2). rewrite Hl2, Hl1, app_assoc. split; [done|]. by apply Forall_app.
Qed.

Lemma emits_value {A B} (m : M S A) (k : A -> M S B) a :
  (forall s, m s = (Val a, s)) -> emits P (k a) -> emits P (m ≫= k).
Proof.
  intros Hm Hk s Hs. assert ((m ≫= k) s = k a s) as -> by exact (bind_val m k s a s (Hm s)). by apply Hk.
Qed.
End Emits.

Lemma emits_weaken {S A} `{Logged S} (P Q : request -> Prop) (m : M S A) :
  (forall q, P q -> Q q) -> emits P m -> emits Q m.
Proof.
  intros HPQ Hm s Hs. destruct (Hm s Hs) as [Hs' (qs & Hl & Hq)]. split; [done|]. exists qs. split; [done|].
  by eapply Forall_impl.
Qed.

#[export] Instance logged_requests : Logged (list request) := {| log := fun w => w; steady := fun _ => True |}.
#[export] Instance logged_frame : Logged frame := {| log := fr_sent; steady := fun _ => True |}.

Lemma emits_on_sent {A} P (m : M (list request) A) : emits P m -> emits P (on_sent m).
Proof.
  intros Hm s _. destruct (Hm (fr_sent s) I) as [_ (qs & Hl & Hq)]. split; [done|]. exists qs. split; [|done].
  unfold on_sent, zoom. by destruct (m (fr_sent s)).
Qed.

Lemma emits_on_reply {A} P (m : M (list byte) A) : emits P (on_reply m).
Proof.
  intros s _. split; [done|]. exists []. rewrite app_nil_r. split; [|done].
  unfold on_reply, zoom. by destruct (m (fr_reply s)).
Qed.

Lemma emits_with_reply {A} `{Net} P (m : M frame A) : emits P m -> emits P (with_reply m).
Proof.
  intros Hm w _. destruct (Hm (Frame w (stack (Z.to_nat RTB_SIZE))) I) as [_ (qs & Hl & Hq)].
  split; [done|]. exists qs. split; [|done]. unfold with_reply. by destruct (m _).
Qed.

Create HintDb emits.
#[export] Hint Resolve emits_ret emits_exit emits_faulty emits_get emits_lift emits_local emits_on_sent
  emits_on_reply emits_with_reply : emits.

(** Follows the shape of a computation. *)
Ltac emits_step :=
  match goal with
  | |- emits _ (_ ≫= _) => apply emits_bind
  | |- forall _, emits _ _ => intros ?
  | |- emits _ (match ?x with _ => _ end) => destruct x
  | |- emits _ (if ?x then _ else _) => destruct x
  | |- emits _ _ => solve [auto with emits]
  end.
Ltac emits := repeat emits_step; auto with emits.

(** ** One request of a handle *)
Section Calls.
Context `{Net} (token : list byte).

(** A token that fits the URL. *)
Definition token_ok : Prop := token <> [] /\ no_nul token /\ (length token <= 400)%nat.
Hypothesis Htoken : token_ok.

#[local] Instance logged_conn : Logged conn := {| log := sent; steady := fun c => h_token (hnd c) = Some token |}.

Definition to_method (method : string) (q : request) : Prop := q_url q = url_of token (bs method).

Lemma emits_on_res {A} P (m : M tga_res_t A) : emits P (on_res m).
Proof.
  intros c Hc. unfold on_res, zoom. destruct (m _) as [o r]. split; [exact Hc|].
  exists []. by rewrite app_nil_r.
Qed.
#[local] Hint Resolve emits_on_res : emits.

Lemma post_emits method c :
  (String.length method <= 40)%nat -> no_nul (bs method) -> steady c -> req_method (hnd c) = Some (bs method) ->
  steady (snd (tg_api_post c)) /\
  exists qs, log (snd (tg_api_post c)) = log c ++ qs /\ Forall (to_method method) qs.
Proof.
  intros Hlen Hm Hc Hmeth. destruct Htoken as (Hne & Ht & Hs). unfold tg_api_post.
  rewrite (bind_val get _ c c c eq_refl), Hmeth, Hc. destruct token as [|b tok] eqn:Etok; [done|]. rewrite <- Etok in *.
  revert c Hc Hmeth. intros c Hc _. set (t := net (sent c)). clearbody t. set (hd := hnd c). clearbody hd.
  revert c Hc. change (emits (to_method method) (
    ret ← on_res (tg_api_allocate_res (t_malloc t));
    if decide (ret <> 0) then mret ret
    else
      '(_, url) ← local (stack 512) (build_url token (bs method));
      if negb (t_init t) then mret (- ENOMEM)
      else
        ulen ← lift FBounds (strlen url);
        body ← lift FNull (req_body hd);
        blen ← lift FBounds (strlen body);
        let q := Request (take ulen url) (take blen body) (content_type hd) in
        let '(chunks, cres) := t_answer t q in
        modify (fun c => c <| sent := sent c ++ [q] |>);;
        on_res (deliver (t_realloc t) chunks);;
        if decide (cres <> 0) then mret (- EBADMSG) else mret ret)).
  apply emits_bind; [auto with emits|]. intros ret. case_decide; [apply emits_ret|].
  destruct (build_url_run token (bs method) (stack 512)) as (urest & k & Hurl & Hk); [apply length_stack|done|done|].
  eapply emits_value; [intros s; unfold local; by rewrite Hurl|]. cbv beta iota.
  destruct (t_init t); cbn [negb]; [|apply emits_ret].
  rewrite take_ge.
  2:{ unfold url_of. rewrite !length_app. cbn [length]. rewrite length_bs. simpl. lia. }
  rewrite strlen_asz.
  2:{ unfold url_of. apply Forall_app. split; [by apply (bool_decide_unpack _)|]. apply Forall_app. split; [done|by constructor]. }
  eapply emits_value; [intros s; reflexivity|]. rewrite take_app_length.
  apply emits_bind; [auto with emits|]. intros body. apply emits_bind; [auto with emits|]. intros blen.
  cbv zeta. destruct (t_answer t _) as [chunks cres].
  apply emits_bind; [|intros _; emits].
  intros c Hc. split; [exact Hc|]. eexists. split; [reflexivity|]. by repeat constructor.
Qed.

(** The functions of lib/tg_api/ end with the body, the method and the post. *)
Lemma emits_post method body :
  (String.length method <= 40)%nat -> no_nul (bs method) ->
  emits (to_method method) (tga_set_body body;; tga_set_method method;; tg_api_post).
Proof.
  intros Hlen Hm c Hc. unfold tga_set_body, tga_set_method, on_hnd.
  erewrite bind_val by reflexivity. erewrite bind_val by reflexivity.
  destruct c as [[tok meth b r ct] w].
  by apply (post_emits method (Conn (Handle tok (Some (bs method)) (Some body) r ct) w)).
Qed.

Lemma send_msg_emits ctx : emits (to_method "sendMessage") (tga_send_msg ctx).
Proof.
  intros c Hc. unfold tga_send_msg. destruct (build_send_msg ctx _) as [[u|code|f] buf]; [|by apply emits_same..].
  apply (emits_post "sendMessage" buf); [cbn; lia|by apply (bool_decide_unpack _)|done].
Qed.

Lemma get_admins_emits chat : emits (to_method "getChatAdministrators") (tga_get_chat_admins chat).
Proof.
  apply emits_bind; [apply emits_local|]. intros [n buf].
  apply emits_post; [cbn; lia|by apply (bool_decide_unpack _)].
Qed.

Lemma with_handle_emits {A} P (m : M conn A) : emits P m -> emits P (with_handle (Some token) m).
Proof.
  intros Hm w _. destruct (Hm (Conn (tga_screate (Some token)) w) eq_refl) as [_ (qs & Hl & Hq)].
  split; [done|]. exists qs. split; [|done]. unfold with_handle. by destruct (m _).
Qed.
End Calls.

(** ** What the members of a group can make the module send *)
Section Privilege.
Context `{Net} `{JsonLib} (token : list byte) (h : heap).
Hypothesis Htoken : token_ok token.

(** An answer to the group, or the question who administers it. *)
Definition harmless (q : request) : Prop :=
  to_method token "sendMessage" q \/ to_method token "getChatAdministrators" q.

Lemma send_reply_emits evt text id : emits harmless (send_reply (Some token) evt text id).
Proof.
  unfold send_reply. apply emits_bind; [|intros; apply emits_ret]. apply with_handle_emits.
  eapply emits_weaken; [|by apply send_msg_emits]. intros q. by left.
Qed.
#[local] Hint Resolve send_reply_emits : emits.

Lemma ask_admins_emits chat :
  emits harmless (with_handle (Some token) (ret ← tga_get_chat_admins chat; body ← tge_get_res_body; mret (ret, body))).
Proof.
  apply with_handle_emits. apply emits_bind.
  - eapply emits_weaken; [|by apply get_admins_emits]. intros q. by right.
  - intros ret. unfold tge_get_res_body. apply emits_bind; [|intros; apply emits_ret].
    apply emits_bind; [apply emits_get|intros; apply emits_ret].
Qed.
#[local] Hint Resolve ask_admins_emits : emits.

Lemma parse_admins_emits P c obj : emits P (parse_tga_admins c obj : M (list request) _).
Proof.
  unfold parse_tga_admins. destruct (get_member obj "ok") as [b|]; [|emits]. destruct (negb (json_object_get_boolean b)); [emits|].
  destruct (get_member obj "result") as [r|]; [|emits]. apply emits_bind; [apply emits_pure; by destruct r|]. intros n.
  destruct (negb c); [emits|]. apply emits_bind; [emits|]. intros l.
  apply emits_bind; [|intros; apply emits_ret]. generalize (replicate (Z.to_nat n + 1) member_zero) as arr.
  generalize 0%nat as j. induction l as [|e l IH]; intros j arr; cbn [admins_loop]; [emits|].
  apply emits_bind; [emits|]. intros a. destruct (parse_admin e a); apply IH.
Qed.
#[local] Hint Resolve parse_admins_emits : emits.

Lemma search_emits uid chat : emits harmless (search_admins (Some token) uid chat).
Proof.
  unfold search_admins. apply emits_bind; [auto with emits|]. intros [ret body]. emits.
Qed.
#[local] Hint Resolve search_emits : emits.

Lemma privileged_emits evt uid : emits harmless (is_privileged_user (Some token) evt uid).
Proof. unfold is_privileged_user, lookup_tg_privilege, send_eperm. emits. Qed.
#[local] Hint Resolve privileged_emits : emits.

Lemma report_emits evt reply_to : emits harmless (exec_usr_cmd_report (Some token) h evt reply_to).
Proof.
  unfold exec_usr_cmd_report, deref. generalize (Z.to_nat 4096) as n. intros n. apply emits_bind; [auto with emits|]. intros [ret body].
  apply emits_bind; [emits|]. intros reply_text. apply emits_bind; [emits|]. emits.
Qed.

(** The commands that are not for administrators. *)
Lemma run_cmd_emits evt reply_to cmd uid reason :
  Z.land cmd ADMIN_CMD_BITS = 0 -> emits harmless (run_cmd (Some token) h evt reply_to cmd uid reason).
Proof.
  intros Hcmd. unfold run_cmd. destruct (decide (cmd = CMD_NOP)); [emits|].
  repeat match goal with
  | |- emits _ (if decide (cmd = ?k) then exec_usr_cmd_report _ _ _ _ else _) => destruct (decide (cmd = k)); [apply report_emits|apply emits_ret]
  | |- emits _ (if decide (?P) then _ else _) => destruct (decide P) as [Hk|_]; [exfalso|]
  end; try (destruct Hk as [-> | ->]; vm_compute in Hcmd; discriminate); subst cmd; vm_compute in Hcmd; discriminate.
Qed.

(** ** The list of administrators *)

(** The answer that [getChatAdministrators] gets after the requests [w] lists
    [uid]; an entry without identity counts as user 0. *)
Definition listed (w : list request) (chat uid : Z) : Prop :=
  exists obj l, json_tokener_parse (c_str (concat (fst (t_answer (net w)
      (form_request token "getChatAdministrators" (num_fields [("chat_id", chat)])))))) = obj /\
    says_ok obj /\ get_member obj "result" = Some (JArray l) /\
    ((exists e, e ∈ l /\ admin_id e = Some uid) \/ (uid = 0 /\ exists e, e ∈ l /\ admin_id e = None)).

(** Memory suffices and no answer is empty. *)
Definition answered (w : list request) : Prop :=
  transfer_lucky (net w) /\ forall q, fst (t_answer (net w) q) <> [].

Hypothesis Hnet : net_ok token.

Lemma ask_run chat w :
  exists ret c', with_handle (Some token) (ret ← tga_get_chat_admins chat; body ← tge_get_res_body; mret (ret, body)) w =
      (Val (ret, res_body (res (hnd c'))), sent c') /\
    outcome (form_request token "getChatAdministrators" (num_fields [("chat_id", chat)])) w ret c'.
Proof.
  destruct (admins_sends token Hnet chat) as [Hs _]. destruct (Hs w) as (ret & c' & Hrun & Hout).
  exists ret, c'. split; [|done]. unfold with_handle. by rewrite (bind_val _ _ _ _ _ Hrun).
Qed.

Lemma search_zero uid chat w buf w1 :
  answered w -> search_admins (Some token) uid chat w = (Val (0, buf), w1) -> listed w chat uid.
Proof.
  intros [Hluck Hne]. unfold search_admins. destruct (ask_run chat w) as (ret & c' & Hrun & Hout).
  rewrite (bind_val _ _ _ _ _ Hrun). cbv beta iota zeta.
  set (q := form_request _ _ _) in *. unfold outcome in Hout. specialize (Hne q).
  assert (Herr : forall r s b (w2 w3 : list request), r <> 0 ->
    ('(_, buf) ← local (stack 128) (snprintf 0 128 s); mret (r, buf)) w2 <> (Val (0, b), w3)).
  { intros r s b w2 w3 Hr. munfold. unfold local. destruct (snprintf 0 128 s (stack 128)) as [[] ?]; congruence. }
  destruct (decide (ret <> 0)) as [Hret|Hret]; [intros He; by apply Herr in He|].
  destruct (t_answer (net w) q) as [chunks cres] eqn:Hans.
  destruct Hout as [[? _]|(_ & _ & Hterm)]; [done|]. destruct (Hterm Hluck Hne) as [r Hbody]. rewrite Hbody.
  destruct (strlen_app_nul (concat chunks) r) as (n & Hn & Htake). rewrite Hn.
  erewrite bind_val by reflexivity. rewrite Htake.
  remember (json_tokener_parse (c_str (concat chunks))) as obj eqn:Hparsed.
  assert (obj = JNull \/ obj <> JNull) as [->|Hobj] by (clear; destruct obj; [by left|by right..]); [intros He; by apply Herr in He|].
  intros He. exists obj.
  assert (He' : (w ← get;
     '(ret, admins, admin_c) ← parse_tga_admins (calloc_ok w) obj;
     if decide (ret <> 0) then '(_, buf) ← local (stack 128) (snprintf 0 128 (bs "Error: " ++ bs "parse_tga_admins" ++ bs "(): " ++ prerf (- ret))); mret (ret, buf)
     else mret (if existsb (fun a => u_id (member_user a) =? uid) (take (Z.to_nat admin_c) admins) then 0 else - EPERM, stack 128))
     (sent c') = (Val (0, buf), w1)) by (clear -He Hobj; by destruct obj).
  clear He. rewrite (bind_val get _ _ _ _ eq_refl) in He'. munfold_in He'.
  destruct (parse_tga_admins (calloc_ok (sent c')) obj (sent c')) as [[[[ret2 arr] cnt]|?|?] w2] eqn:Hparse; try done.
  destruct (decide (ret2 <> 0)) as [Hr2|Hr2]; [by apply Herr in He'|].
  assert (ret2 = 0) as -> by lia. apply parse_tga_admins_inv in Hparse as (-> & Hok & l & Hres & -> & Hids).
  exists l. fold q. rewrite Hans. cbn [fst]. split; [done|]. split; [done|]. split; [done|]. apply in_admin_ids.
  rewrite <- Hids, Nat2Z.id in *. destruct (existsb _ _) eqn:Hex; [|done].
  apply existsb_exists in Hex as (a & Ha & Hid). apply list_elem_of_fmap. exists a.
  split; [unfold id_of; lia|]. by apply list_elem_of_In.
Qed.

Lemma privileged_listed evt uid w w1 :
  answered w -> is_privileged_user (Some token) evt uid w = (Val true, w1) ->
  check_is_sudoer uid = true \/ listed w (tge_get_chat_id evt) uid.
Proof.
  intros Hans. unfold is_privileged_user. destruct (check_is_sudoer uid); [by left|]. intros Hrun. right.
  apply bind_inv in Hrun as (ret & w2 & Hlook & Hrest).
  assert (ret = 0) as ->.
  { destruct (decide (ret = 0)) as [|Hret]; [done|]. apply bind_inv in Hrest as (? & ? & _ & Hf). done. }
  apply bind_inv in Hlook as ([ret buf] & w3 & Hsearch & Hsent).
  apply bind_inv in Hsent as (? & ? & _ & Hret). munfold_in Hret. simplify_eq.
  by eapply search_zero.
Qed.

Lemma priv_chk_privileged evt reply_to cmd target reason w :
  answered w ->
  let uid := tge_get_user_id evt in
  check_is_sudoer uid = true \/ listed w (tge_get_chat_id evt) uid \/
  exists qs, snd (run_priv_chk (Some token) h evt reply_to cmd target reason w) = w ++ qs /\ Forall harmless qs.
Proof.
  intros Hans uid. unfold run_priv_chk. case_decide as Hbits.
  { right; right. destruct (run_cmd_emits evt reply_to cmd target reason Hbits w I) as [_ Hq]. exact Hq. }
  destruct (is_privileged_user (Some token) evt uid w) as [[[|]|c|f] w1] eqn:Hpriv.
  - destruct (privileged_listed evt uid w w1 Hans Hpriv); auto.
  - right; right. rewrite (bind_val _ _ _ _ _ Hpriv). destruct (privileged_emits evt uid w I) as [_ Hq].
    rewrite Hpriv in Hq. exact Hq.
  - right; right. rewrite (bind_exit _ _ _ _ _ Hpriv). destruct (privileged_emits evt uid w I) as [_ Hq].
    rewrite Hpriv in Hq. exact Hq.
  - right; right. rewrite (bind_fault _ _ _ _ _ Hpriv). destruct (privileged_emits evt uid w I) as [_ Hq].
    rewrite Hpriv in Hq. exact Hq.
Qed.

Lemma read_command_pure (text : list byte) : pure (read_command text : M (list request) reading).
Proof.
  assert (emits (fun _ => False) (read_command text : M (list request) reading)) as Hr.
  { unfold read_command, is_an_admin_mention. emits. }
  intros w. destruct (Hr w I) as [_ ([|q qs] & Hl & Hq)]; [by rewrite app_nil_r in Hl|].
  by apply Forall_cons in Hq as [[] _].
Qed.

(** ** The administrators pass *)
Definition ask (chat : Z) : request := form_request token "getChatAdministrators" (num_fields [("chat_id", chat)]).

Lemma search_listed uid chat w :
  answered w -> snd (t_answer (net w) (ask chat)) = 0 -> calloc_ok (w ++ [ask chat]) = true ->
  listed w chat uid -> exists buf, search_admins (Some token) uid chat w = (Val (0, buf), w ++ [ask chat]).
Proof.
  intros [Hluck Hne] Hcode Hcalloc (obj & l & Hparsed & Hok & Hres & Hin). apply in_admin_ids in Hin.
  unfold search_admins. destruct (ask_run chat w) as (ret & c' & Hrun & Hout).
  rewrite (bind_val _ _ _ _ _ Hrun). cbv beta iota zeta. fold (ask chat) in *. specialize (Hne (ask chat)).
  unfold outcome in Hout. destruct (t_answer (net w) (ask chat)) as [chunks cres]. cbn [fst snd] in *. subst cres.
  destruct Hout as [[? _]|(Hsent & -> & Hterm)]; [done|]. rewrite Hsent.
  destruct (Hterm Hluck Hne) as [r Hbody]. rewrite Hbody. cbn [decide].
  destruct (strlen_app_nul (concat chunks) r) as (n & Hn & Htake). rewrite Hn.
  destruct (parse_tga_admins_run obj l (w ++ [ask chat]) Hok Hres) as (arr & Hparse & Hids).
  assert (Hex : existsb (fun a => u_id (member_user a) =? uid) (take (Z.to_nat (Z.of_nat (length l))) arr) = true).
  { rewrite Nat2Z.id. rewrite <- Hids in Hin. apply list_elem_of_fmap in Hin as (a & Hid & Ha).
    apply existsb_exists. exists a. split; [by apply list_elem_of_In|]. unfold id_of in Hid. lia. }
  exists (stack 128). rewrite decide_False by tauto. erewrite bind_val by reflexivity. rewrite Htake, Hparsed.
  assert (obj <> JNull) as Hobj by (intros ->; done).
  destruct obj; try done; rewrite (bind_val get _ _ _ _ eq_refl), Hcalloc, (bind_val _ _ _ _ _ Hparse); cbv beta iota;
    rewrite decide_False by tauto; by rewrite Hex.
Qed.

(** The conditions under which the question is answered. *)
Definition admitted (w : list request) (chat uid : Z) : Prop :=
  check_is_sudoer uid = true \/
  (answered w /\ snd (t_answer (net w) (ask chat)) = 0 /\ calloc_ok (w ++ [ask chat]) = true /\ listed w chat uid).

Lemma privileged_run evt uid w :
  admitted w (tge_get_chat_id evt) uid ->
  exists pre, is_privileged_user (Some token) evt uid w = (Val true, w ++ pre) /\ Forall harmless pre.
Proof.
  unfold is_privileged_user. intros [->|(Hans & Hcode & Hcal & Hl)]; [exists []; by rewrite app_nil_r|].
  destruct (check_is_sudoer uid); [exists []; by rewrite app_nil_r|].
  destruct (search_listed _ _ _ Hans Hcode Hcal Hl) as [buf Hs].
  exists [ask (tge_get_chat_id evt)]. split; [|repeat constructor; by right].
  assert (lookup_tg_privilege (Some token) evt uid (tge_get_chat_id evt) w = (Val 0, w ++ [ask (tge_get_chat_id evt)])) as Hlook.
  { unfold lookup_tg_privilege. rewrite (bind_val _ _ _ _ _ Hs). cbv beta iota. by rewrite decide_False by tauto. }
  by rewrite (bind_val _ _ _ _ _ Hlook), decide_True.
Qed.

(** ** What a command does first *)
Lemma process_emits P body : emits P (process_json_msg body).
Proof. unfold process_json_msg. emits. Qed.

Lemma append_reason_emits P reason pos sps : emits P (append_reason reason pos sps).
Proof. unfold append_reason. emits. Qed.

Lemma reply_with_emits evt id : emits harmless (reply_with (Some token) evt id).
Proof. unfold reply_with. emits. Qed.

Lemma deref_emits {S} `{Logged S} P p : emits P (deref h p : M S tgev).
Proof. unfold deref. emits. Qed.
End Privilege.

(** C4: Without being a sudoer or listed as an administrator of the group, a member
    can make the module send only answers to the group and the question who
    its administrators are: no ban, no kick, no restriction, no pin, no
    deletion.  Memory suffices and no answer is empty ([answered]); where an
    entry has no identity, user 0 counts as listed. *)
Theorem admin_privileged `{Net} `{JsonLib} token h evt w :
  net_ok token -> answered w ->
  let uid := tge_get_user_id evt in
  check_is_sudoer uid = true \/ listed token w (tge_get_chat_id evt) uid \/
  exists qs, snd (admin_entry (Some token) h evt w) = w ++ qs /\ Forall (harmless token) qs.
Proof.
  intros Hnet Hans uid. pose proof (no_token _ Hnet) as Htok.
  assert (Hnone : forall m : M (list request) Z, m w = (fst (m w), w) -> exists qs, snd (m w) = w ++ qs /\ Forall (harmless token) qs).
  { intros m ->. exists []. by rewrite app_nil_r. }
  unfold admin_entry. destruct (tge_get_text evt) as [text|]; [|right; right; by apply Hnone].
  pose proof (read_command_pure text w) as Hpure.
  destruct (read_command text w) as [[r|c|f] w1] eqn:Hread; simpl in Hpure; subst w1;
    [rewrite (bind_val _ _ _ _ _ Hread)|rewrite (bind_exit _ _ _ _ _ Hread)|rewrite (bind_fault _ _ _ _ _ Hread)];
    [|right; right; exists []; by rewrite app_nil_r..].
  destruct r as [| |cmd reason]; [right; right; exists []; by rewrite app_nil_r|by apply priv_chk_privileged|].
  cbv zeta. destruct (is_null (tge_get_reply_to evt)).
  { case_match; [by apply priv_chk_privileged|]. right; right. exists []. by rewrite app_nil_r. }
  assert (pure (deref h (tge_get_reply_to evt) : M (list request) tgev)) as Hd.
  { intros s. unfold deref. by repeat case_match. }
  specialize (Hd w). destruct (deref h _ w) as [[target|c|f] w1] eqn:Hderef; simpl in Hd; subst w1;
    [rewrite (bind_val _ _ _ _ _ Hderef)|rewrite (bind_exit _ _ _ _ _ Hderef)|rewrite (bind_fault _ _ _ _ _ Hderef)];
    [by apply priv_chk_privileged|right; right; exists []; by rewrite app_nil_r..].
Qed.

(** User 41 is not listed: the ban is refused. *)
Definition demo_admins_net : Net := demo_net (fun _ => ([bs "A"], 0)).
Definition demo_admins_lib : JsonLib := demo_lib (asz (bs "A")) demo_admins_obj.

Lemma demo_admins_answered w : @answered demo_admins_net w.
Proof. split; [apply demo_lucky|]. intros q. discriminate. Qed.

Lemma demo_admins_ok : @net_ok demo_admins_net demo_token.
Proof. apply demo_net_ok. intros q. cbn. lia. Qed.

Lemma admin_privileged_witness :
  let evt := demo_msg (bs "/ban") 41 9 100 in
  let w' := snd (@admin_entry demo_admins_net demo_admins_lib (Some demo_token) (demo_store (demo_msg (bs "hi") 50 8 0)) evt []) in
  exists qs, w' = qs /\ Forall (harmless demo_token) qs.
Proof.
  intros evt w'.
  destruct (@admin_privileged demo_admins_net demo_admins_lib demo_token (demo_store (demo_msg (bs "hi") 50 8 0)) evt [])
    as [Hsudo|[(obj & l & <- & _ & Hres & Hin)|Hqs]]; [apply demo_admins_ok|apply demo_admins_answered| | |exact Hqs].
  - vm_compute in Hsudo. discriminate.
  - vm_compute in Hres. injection Hres as <-. exfalso. destruct Hin as [(e & He & Hid)|[H0 _]]; [|vm_compute in H0; discriminate].
    repeat (apply elem_of_cons in He as [->|He]; [vm_compute in Hid; discriminate|]). by apply elem_of_nil in He.
Defined.
