(* ===== verification/AdminSpec.v ===== *)
(** * What the commands of the admin module do

    The request each command sends, and to whom it answers; the cases the code
    does not have under control. *)
From S2P Require Import Prelude CString Json TgEvent TgSpec TgMem TgPrint TgLoad Gwbot EventHandler TgApi TgApiSpec TgApiRead TgRequests ModCommon Admin AdminRead AdminPriv.

Section Commands.
Context `{Net} `{JsonLib} (token : list byte) (h : heap).
Hypothesis Hnet : net_ok token.

Let Htoken : token_ok token := no_token _ Hnet.

Lemma send_reply_harmless evt text id : emits (harmless token) (send_reply (Some token) evt text id).
Proof. by apply send_reply_emits. Qed.
Lemma reply_with_harmless evt id : emits (harmless token) (reply_with (Some token) evt id).
Proof. by apply reply_with_emits. Qed.
#[local] Hint Resolve send_reply_harmless reply_with_harmless process_emits append_reason_emits deref_emits : emits.

Lemma say_done_emits P r wd reason : emits P (say_done r wd reason).
Proof. unfold say_done. emits. Qed.
#[local] Hint Resolve say_done_emits : emits.

(** A computation that starts with one request and then only answers. *)
Lemma api_first {A} name m q (k : bool -> M frame A) w buf :
  sends token m q -> (forall b, emits (harmless token) (k b)) -> transfer_lucky (net w) ->
  exists post, fr_sent (snd ((api_call (Some token) name m ≫= k) (Frame w buf))) = w ++ q :: post /\
    Forall (harmless token) post.
Proof.
  intros Hs Hk Hluck. destruct (Hs w) as (ret & c' & Hrun & Hout). unfold outcome in Hout.
  destruct (t_answer (net w) q) as [chunks cres]. destruct Hout as [[? _]|(Hsent & _ & _)]; [done|].
  set (rest := fun rb : Z * option (list byte) => let '(ret, body) := rb in
    b ← (if decide (ret <> 0) then
           on_reply (snprintf 0 RTB_SIZE (bs "Error: " ++ bs name ++ bs "(): " ++ prerf (- ret)));; mret true
         else process_json_msg body); k b).
  assert (Hstep : (api_call (Some token) name m ≫= k) (Frame w buf) =
    rest (ret, res_body (res (hnd c'))) (Frame (w ++ [q]) buf)).
  { assert (Hcall : on_sent (with_handle (Some token) (ret ← m; body ← tge_get_res_body; mret (ret, body))) (Frame w buf) =
      (Val (ret, res_body (res (hnd c'))), Frame (w ++ [q]) buf)).
    { unfold on_sent, zoom, with_handle. cbn [fr_sent]. rewrite (bind_val _ _ _ _ _ Hrun), <- Hsent. reflexivity. }
    unfold api_call. unfold mbind at 1, M_bind at 1. rewrite (bind_val _ _ _ _ _ Hcall). reflexivity. }
  rewrite Hstep. assert (emits (harmless token) (rest (ret, res_body (res (hnd c'))))) as He.
  { unfold rest. apply emits_bind; [|apply Hk]. emits. }
  destruct (He (Frame (w ++ [q]) buf) I) as [_ (qs & Hl & Hq)]. exists qs. split; [|done].
  cbn [log logged_frame fr_sent] in Hl. by rewrite Hl, <- app_assoc.
Qed.

Lemma with_reply_first {A} (m : M frame A) w q :
  (forall buf, exists post, fr_sent (snd (m (Frame w buf))) = w ++ q :: post /\ Forall (harmless token) post) ->
  exists post, snd (with_reply m w) = w ++ q :: post /\ Forall (harmless token) post.
Proof.
  intros Hm. unfold with_reply. destruct (Hm (stack (Z.to_nat RTB_SIZE))) as (post & Hl & Hq).
  exists post. split; [|done]. by destruct (m _).
Qed.

(** The request of a command about the message [id] of [user] in the group
    [chat]. *)
Definition first_request (cmd chat user id : Z) : option request :=
  let perm b := Perm b b b b b b b b in
  let form m fs := Some (form_request token m (num_fields fs)) in
  let json b := Some (Request (url_of token (bs "restrictChatMember")) (restrict_json (RestrictCm chat user 0 (perm b))) APP_JSON) in
  if decide (cmd = ADM_CMD_BAN) then form "kickChatMember" [("chat_id", chat); ("user_id", user)]
  else if decide (cmd = ADM_CMD_UNBAN) then form "unbanChatMember" [("chat_id", chat); ("user_id", user); ("only_if_banned", 1)]
  else if decide (cmd = ADM_CMD_KICK) then form "unbanChatMember" [("chat_id", chat); ("user_id", user); ("only_if_banned", 0)]
  else if decide (cmd = ADM_CMD_MUTE) then json false
  else if decide (cmd = ADM_CMD_UNMUTE) then json true
  else if decide (cmd = ADM_CMD_PIN) then
    form "pinChatMessage" [("chat_id", chat); ("message_id", id); ("disable_notification", 0)]
  else if decide (cmd = ADM_CMD_UNPIN) then form "unpinChatMessage" [("chat_id", chat); ("message_id", id)]
  else None.

Lemma kick_or_unban_first evt target reason b w :
  transfer_lucky (net w) ->
  exists post, snd (kick_or_unban (Some token) h evt target reason b false w) =
    w ++ form_request token "unbanChatMember" (num_fields
      [("chat_id", tge_get_chat_id evt); ("user_id", target); ("only_if_banned", Z.b2z b)]) :: post /\
    Forall (harmless token) post.
Proof.
  intros Hluck. apply with_reply_first. intros buf. apply api_first; [by apply unban_sends| |done].
  intros ok. cbv zeta. emits.
Qed.

Lemma kick_first evt target reason w :
  transfer_lucky (net w) ->
  exists post, snd (exec_adm_cmd_kick (Some token) h evt target reason false w) =
    w ++ form_request token "unbanChatMember" (num_fields
      [("chat_id", tge_get_chat_id evt); ("user_id", target); ("only_if_banned", 0)]) :: post /\
    Forall (harmless token) post.
Proof.
  intros Hluck. destruct (kick_or_unban_first evt target reason false w Hluck) as (post & Hl & Hq).
  exists post. split; [|done]. etransitivity; [|exact Hl]. unfold exec_adm_cmd_kick. munfold.
  destruct (kick_or_unban _ _ _ _ _ _ _ w) as [[ret|c|f] w']; [|done..]. by rewrite andb_false_r.
Qed.

Lemma mute_or_unmute_first evt target reason b w :
  transfer_lucky (net w) ->
  exists post, snd (mute_or_unmute (Some token) h evt target reason b w) =
    w ++ Request (url_of token (bs "restrictChatMember"))
      (restrict_json (RestrictCm (tge_get_chat_id evt) target 0 (Perm b b b b b b b b))) APP_JSON :: post /\
    Forall (harmless token) post.
Proof.
  intros Hluck. apply with_reply_first. intros buf. apply api_first; [by apply restrict_sends| |done].
  intros ok. cbv zeta. emits.
Qed.

Lemma ban_first evt target reason w :
  transfer_lucky (net w) ->
  exists post, snd (exec_adm_cmd_ban (Some token) h evt target reason false w) =
    w ++ form_request token "kickChatMember" (num_fields [("chat_id", tge_get_chat_id evt); ("user_id", target)]) :: post /\
    Forall (harmless token) post.
Proof.
  intros Hluck. apply with_reply_first. intros buf.
  apply (api_first _ _ _ _ w buf (proj1 (kick_sends token Hnet (KickCm (tge_get_chat_id evt) target 0 true)))); [|done].
  intros ok. cbv zeta. emits.
Qed.

Context (evt r : tgev) (a : Z).
Hypothesis Hreply : tge_get_reply_to evt = PEvt a.
Hypothesis Hr : blocks h !! a = Some (BEvent r).

Lemma deref_reply {S} (s : S) : deref h (tge_get_reply_to evt) s = (Val r, s).
Proof. unfold deref. by rewrite Hreply, Hr. Qed.

Lemma pin_first w :
  transfer_lucky (net w) -> tge_get_msg_id r <> 0 ->
  exists post, snd (exec_adm_cmd_pin (Some token) h evt w) =
    w ++ form_request token "pinChatMessage" (num_fields
      [("chat_id", tge_get_chat_id evt); ("message_id", tge_get_msg_id r); ("disable_notification", 0)]) :: post /\
    Forall (harmless token) post.
Proof.
  intros Hluck Hid. apply with_reply_first. intros buf. rewrite (bind_val _ _ _ _ _ (deref_reply _)), decide_False by done.
  apply api_first; [apply (proj1 (pin_sends token Hnet _ _ false))| |done]. intros ok. unfold say_message. emits.
Qed.

Lemma unpin_first w :
  transfer_lucky (net w) -> tge_get_msg_id r <> 0 ->
  exists post, snd (exec_adm_cmd_unpin (Some token) h evt w) =
    w ++ form_request token "unpinChatMessage" (num_fields
      [("chat_id", tge_get_chat_id evt); ("message_id", tge_get_msg_id r)]) :: post /\
    Forall (harmless token) post.
Proof.
  intros Hluck Hid. apply with_reply_first. intros buf. rewrite (bind_val _ _ _ _ _ (deref_reply _)), decide_False by done.
  apply api_first; [apply (proj1 (unpin_sends token Hnet _ _))| |done]. intros ok. unfold say_message. emits.
Qed.

Lemma run_cmd_first cmd reason w q :
  transfer_lucky (net w) -> tge_get_msg_id r <> 0 -> first_request cmd (tge_get_chat_id evt) (tge_get_user_id r) (tge_get_msg_id r) = Some q ->
  Z.land cmd ADMIN_CMD_BITS <> 0 /\
  exists post, snd (run_cmd (Some token) h evt (tge_get_reply_to evt) cmd (tge_get_user_id r) reason w) = w ++ q :: post /\
    Forall (harmless token) post.
Proof.
  intros Hluck Hid. unfold first_request. cbv zeta.
  repeat (case_decide; [subst cmd; intros [= <-]; split; [by vm_compute|]|]); [| | | | | | |done].
  - by apply ban_first.
  - by apply kick_or_unban_first.
  - by apply kick_first.
  - by apply mute_or_unmute_first.
  - by apply mute_or_unmute_first.
  - by apply pin_first.
  - by apply unpin_first.
Qed.
End Commands.

Lemma command_first `{Net} `{JsonLib} token h evt w text cmd reason a r q :
  net_ok token -> (forall w, answered w) ->
  tge_get_text evt = Some text -> no_nul text -> reading_of text = Command cmd reason ->
  tge_get_reply_to evt = PEvt a -> a <> 0 -> blocks h !! a = Some (BEvent r) -> tge_get_msg_id r <> 0 ->
  admitted token w (tge_get_chat_id evt) (tge_get_user_id evt) ->
  first_request token cmd (tge_get_chat_id evt) (tge_get_user_id r) (tge_get_msg_id r) = Some q ->
  exists pre post, snd (admin_entry (Some token) h evt w) = w ++ pre ++ q :: post /\
    Forall (harmless token) pre /\ Forall (harmless token) post.
Proof.
  intros Hnet Hans Htext Hnul Hread Hreply Ha Hr Hid Hadm Hq.
  destruct (privileged_run token Hnet evt _ w Hadm) as (pre & Hpriv & Hpre).
  destruct (run_cmd_first token h Hnet evt r a Hreply Hr cmd reason (w ++ pre) q) as [Hbits (post & Hpost & Hharm)];
    [by destruct (Hans (w ++ pre))|done..|].
  exists pre, post. split; [|done]. unfold admin_entry. rewrite Htext.
  rewrite (bind_val _ _ _ _ _ (read_command_run text w Hnul)), Hread. cbv zeta.
  assert (is_null (tge_get_reply_to evt) = false) as -> by (rewrite Hreply; by apply bool_decide_eq_false).
  rewrite (bind_val _ _ _ _ _ (deref_reply h evt r a Hreply Hr w)). unfold run_priv_chk.
  rewrite decide_False by done. rewrite (bind_val _ _ _ _ _ Hpriv). cbn [negb].
  rewrite Hpost. by rewrite <- app_assoc.
Qed.

(** A command of an administrator, in reply to a message, sends its request
    about the author of that message, or about the message, in the group it was
    given in; before and after it only answers and the question about the
    administrators. *)
Theorem command_sends `{Net} `{JsonLib} token h evt w text cmd reason a r q :
  net_ok token -> (forall w, answered w) ->
  tge_get_text evt = Some text -> no_nul text -> reading_of text = Command cmd reason ->
  tge_get_reply_to evt = PEvt a -> a <> 0 -> blocks h !! a = Some (BEvent r) -> tge_get_msg_id r <> 0 ->
  admitted token w (tge_get_chat_id evt) (tge_get_user_id evt) ->
  first_request token cmd (tge_get_chat_id evt) (tge_get_user_id r) (tge_get_msg_id r) = Some q ->
  exists pre post, snd (admin_entry (Some token) h evt w) = w ++ pre ++ q :: post /\
    Forall (harmless token) pre /\ Forall (harmless token) post.
Proof. apply command_first. Qed.

(** User 42 is listed: the author of the replied-to message, 50, is banned. *)
Lemma command_sends_witness :
  let evt := demo_msg (bs "/ban spam") 42 9 100 in
  let w' := snd (@admin_entry demo_admins_net demo_admins_lib (Some demo_token) (demo_store (demo_msg (bs "hi") 50 8 0)) evt []) in
  exists pre post, w' = pre ++ Request (url_of demo_token (bs "kickChatMember")) (bs "chat_id=-100&user_id=50") APP_X_WWW_FORM_URLENCODED :: post /\
    Forall (harmless demo_token) pre /\ Forall (harmless demo_token) post.
Proof.
  intros evt w'.
  apply (@command_sends demo_admins_net demo_admins_lib demo_token (demo_store (demo_msg (bs "hi") 50 8 0)) evt []
    (bs "/ban spam") ADM_CMD_BAN (Some (bs "spam")) 100 (demo_msg (bs "hi") 50 8 0)).
  - apply demo_admins_ok.
  - apply demo_admins_answered.
  - reflexivity.
  - by apply (bool_decide_unpack _).
  - vm_compute. reflexivity.
  - reflexivity.
  - discriminate.
  - reflexivity.
  - discriminate.
  - right. split; [apply demo_admins_answered|]. split; [reflexivity|]. split; [reflexivity|].
    exists demo_admins_obj, demo_admins. split; [reflexivity|]. split; [by exists (JBool true)|]. split; [reflexivity|].
    left. exists (demo_admin 42). split; [left|reflexivity].
  - vm_compute. reflexivity.
Defined.
