(* ===== verification/AdminAnswer.v ===== *)
(** * What the admin module answers

    The texts of its answers in their arrays: the link to a member, the
    sentence about what was done, the list of administrators called. *)
From S2P Require Import Prelude CString Json TgEvent TgPrint TgApi TgApiSpec TgApiRead TgRequests ModCommon Admin AdminRead AdminPriv AdminSpec.

(** ** Escaping into enough room *)
Lemma hsc_all s outlen pre rest len :
  0 <= len <= 6 -> Z.of_nat (length pre) + Z.of_nat (length (Html.esc s)) <= outlen < 2 ^ 63 ->
  (length (Html.esc s) <= length rest)%nat ->
  exists len', 0 <= len' <= 6 /\
    Html.hsc_loop s outlen (Z.of_nat (length pre)) len (pre ++ rest) =
      (Val (Z.of_nat (length (pre ++ Html.esc s)), len'), (pre ++ Html.esc s) ++ drop (length (Html.esc s)) rest).
Proof.
  revert pre rest len. induction s as [|c s IH]; intros pre rest len Hl Ho Hr.
  { exists len. split; [done|]. cbn [Html.hsc_loop]. rewrite app_nil_r. done. }
  rewrite Html.esc_cons, length_app in Ho, Hr. pose proof (Html.esc1_length c) as Hc. cbn [Html.hsc_loop]. cbv zeta.
  rewrite u64_small, decide_False by lia.
  erewrite bind_val by (apply pokes_app; [done|lia]).
  assert (Hlen : Z.of_nat (length pre) + Z.of_nat (length (Html.esc1 c)) = Z.of_nat (length (pre ++ Html.esc1 c)))
    by (rewrite length_app; lia).
  rewrite Hlen, app_assoc.
  destruct (IH (pre ++ Html.esc1 c) (drop (length (Html.esc1 c)) rest) (Z.of_nat (length (Html.esc1 c)))) as (len' & Hl' & ->);
    [lia|rewrite length_app; lia|rewrite length_drop; lia|].
  exists len'. split; [done|]. rewrite Html.esc_cons, drop_drop, (length_app (Html.esc1 c)).
  by rewrite !app_assoc.
Qed.

(** The whole escape, one byte that is not written, and the terminator. *)
Lemma html_whole outlen s junk blk :
  let e := Html.esc s in
  Z.of_nat (length e) + 2 <= outlen < 2 ^ 63 -> (length e + 2 <= length blk)%nat ->
  exists stale, Html.htmlspecialchars outlen (s ++ junk) (length s) blk =
    (Val (Z.of_nat (length e) + 1), e ++ stale :: Byte.x00 :: drop (length e + 2) blk).
Proof.
  intros e Ho Hb. unfold Html.htmlspecialchars. rewrite decide_False by (rewrite length_app; lia).
  rewrite take_app_length.
  destruct (hsc_all s outlen [] blk 0) as (len' & Hl' & Hrun); [lia|cbn [length]; fold e; lia|fold e; lia|].
  cbn [length] in Hrun. change (Z.of_nat 0) with 0 in Hrun. rewrite !app_nil_l in Hrun.
  rewrite (bind_val _ _ _ _ _ Hrun). cbv beta iota zeta. fold e.
  rewrite decide_True, decide_False by lia. rewrite u64_small by lia.
  destruct (drop (length e) blk) as [|stale rest] eqn:Hd.
  { apply (f_equal length) in Hd. rewrite length_drop in Hd. simpl in Hd. lia. }
  assert (Hrest : (1 <= length rest)%nat).
  { apply (f_equal length) in Hd. rewrite length_drop in Hd. simpl in Hd. lia. }
  exists stale. replace (e ++ stale :: rest) with ((e ++ [stale]) ++ rest) by (by rewrite <- app_assoc).
  erewrite bind_val by (apply poke_app; [rewrite length_app; simpl; lia|lia]).
  rewrite <- app_assoc. cbn [app]. replace (drop (length e + 2) blk) with (drop 1 rest); [done|].
  change (drop 1 rest) with (drop 2 (stale :: rest)). rewrite <- Hd, drop_drop. done.
Qed.

(** ** The pieces of an answer *)
Definition cut (s : list byte) : list byte := take 255 s.

Lemma html_at n pre buf s junk outlen :
  filled n pre buf -> (length pre + length (Html.esc s) + 2 <= n)%nat ->
  Z.of_nat (length (Html.esc s)) + 2 <= outlen < 2 ^ 63 ->
  exists buf', at_ptr (Z.of_nat (length pre)) (Html.htmlspecialchars outlen (s ++ junk) (length s)) buf =
      (Val (Z.of_nat (length (Html.esc s)) + 1), buf') /\
    filled n (pre ++ Html.esc s) buf'.
Proof.
  intros [[rest ->] Hl] Hn Ho. rewrite length_app in Hl.
  destruct (html_whole outlen s junk rest) as [stale Hrun]; [done|lia|].
  unfold at_ptr. rewrite Nat2Z.id, drop_app_length, take_app_length, Hrun.
  eexists. split; [reflexivity|]. split; [eexists; rewrite <- app_assoc; reflexivity|].
  rewrite !length_app. cbn [length]. rewrite length_drop. lia.
Qed.

Lemma html_step n pre buf s outlen :
  filled n pre buf -> (length pre + length (Html.esc (cut s)) + 2 <= n)%nat ->
  Z.of_nat (length (Html.esc (cut s))) + 2 <= outlen < 2 ^ 63 ->
  exists buf', at_ptr (Z.of_nat (length pre)) (Html.htmlspecialchars outlen (asz s) (Nat.min 255 (length s))) buf =
      (Val (Z.of_nat (length (Html.esc (cut s))) + 1), buf') /\
    filled n (pre ++ Html.esc (cut s)) buf'.
Proof.
  assert (Hs : asz s = cut s ++ drop 255 s ++ [Byte.x00]) by (unfold cut, asz; by rewrite app_assoc, take_drop).
  assert (Hc : Nat.min 255 (length s) = length (cut s)) by (unfold cut; by rewrite length_take).
  rewrite Hs, Hc. apply html_at.
Qed.

Definition link_text (id : Z) (first : list byte) (last : cstr) : list byte :=
  user_link id ++ Html.esc (cut first) ++
  match last with Some l => " "%byte :: Html.esc (cut l) | None => [] end ++ bs "</a>".

Lemma user_link_length id : (length (user_link id) <= 45)%nat.
Proof.
  unfold user_link. rewrite !length_app, !length_bs. cbn [length dq String.length]. pose proof (num_length id). lia.
Qed.

Lemma gen_name_link_run n sps id f l buf :
  filled n [] buf -> 100 <= sps < 2 ^ 62 ->
  (length (link_text id f l) + 8 <= n)%nat -> Z.of_nat (length (link_text id f l)) + 3 <= sps ->
  exists buf', gen_name_link sps id (Some f) l buf = (Val (Z.of_nat (length (link_text id f l))), buf') /\
    filled n (link_text id f l ++ [Byte.x00]) buf'.
Proof.
  intros Hf Hsps Hn Hroom. pose proof (user_link_length id) as Hlink. unfold link_text in Hn, Hroom.
  assert (Hlen : forall a b c d : list byte, length (a ++ b ++ c ++ d) = (length a + length b + length c + length d)%nat)
    by (intros; rewrite !length_app; lia).
  rewrite Hlen in Hn, Hroom. change (length (bs "</a>")) with 4%nat in *.
  unfold gen_name_link. rewrite decide_False by lia. rewrite (u64_small (sps - 5)) by lia. cbv zeta.
  destruct (filled_snprintf n [] buf (user_link id) (sps - 5)) as (buf1 & Hrun1 & Hf1); [done|cbn [length]; lia|lia|].
  change (Z.of_nat (length [])) with 0 in Hrun1. rewrite (bind_val _ _ _ _ _ Hrun1).
  rewrite app_nil_l in Hf1. apply filled_weaken in Hf1. rewrite (u64_small (sps - 5 - _)) by lia.
  unfold name_arg at 1. erewrite bind_val by reflexivity. cbv beta iota.
  destruct (html_step n (user_link id) buf1 f (sps - 5 - Z.of_nat (length (user_link id)))) as (buf2 & Hrun2 & Hf2);
    [done|lia|lia|].
  rewrite (bind_val _ _ _ _ _ Hrun2). set (e := Html.esc (cut f)) in *. set (pre := user_link id ++ e) in *.
  assert (Hpre : length pre = (length (user_link id) + length e)%nat) by apply length_app.
  rewrite (u64_small (sps - 5 - _ + _)) by lia.
  replace (Z.of_nat (length (user_link id)) + (Z.of_nat (length e) + 1 - 1)) with (Z.of_nat (length pre)) by lia.
  rewrite (u64_small (Z.of_nat (length pre))) by lia.
  set (tail := match l with Some l => " "%byte :: Html.esc (cut l) | None => [] end) in *.
  assert (exists buf3, (match l with
      | None => mret (Z.of_nat (length pre))
      | Some _ =>
          poke (Z.of_nat (length pre)) " "%byte;;
          '(s, n) ← name_arg l;
          tmp ← at_ptr (u64 (Z.of_nat (length pre) + 1))
                  (Html.htmlspecialchars (sps - 5 - Z.of_nat (length (user_link id)) + (Z.of_nat (length e) + 1)) s n);
          mret (u64 (u64 (Z.of_nat (length pre) + 1) + (tmp - 1)))
      end) buf2 = (Val (Z.of_nat (length (pre ++ tail))), buf3) /\ filled n (pre ++ tail) buf3) as (buf3 & Hrun3 & Hf3).
  { unfold tail in *. destruct l as [l|]; [|exists buf2; by rewrite app_nil_r].
    cbn [length] in Hn, Hroom.
    destruct (filled_pokes n pre buf2 [" "%byte]) as (buf3 & Hp & Hf3); [done|cbn [length]; lia|].
    assert (Hp' : poke (Z.of_nat (length pre)) " "%byte buf2 = (Val tt, buf3)).
    { cbn [pokes] in Hp. apply bind_inv in Hp as ([] & b & Hpk & Hret). munfold_in Hret. by simplify_eq. }
    rewrite (bind_val _ _ _ _ _ Hp'). unfold name_arg. erewrite bind_val by reflexivity. cbv beta iota.
    rewrite (u64_small (_ + 1)) by lia.
    assert (Hpos : Z.of_nat (length pre) + 1 = Z.of_nat (length (pre ++ [" "%byte]))) by (rewrite length_app; cbn [length]; lia).
    rewrite Hpos. destruct (html_step n (pre ++ [" "%byte]) buf3 l
      (sps - 5 - Z.of_nat (length (user_link id)) + (Z.of_nat (length e) + 1))) as (buf4 & Hrun4 & Hf4);
      [done|rewrite length_app; cbn [length]; lia|lia|].
    rewrite (bind_val _ _ _ _ _ Hrun4). exists buf4. rewrite <- app_assoc in Hf4. split; [|exact Hf4].
    rewrite length_app. cbn [length]. rewrite u64_small by (rewrite ?length_app; cbn [length]; lia).
    munfold. do 2 f_equal. rewrite length_app. cbn [length String.length]. lia. }
  rewrite (bind_val _ _ _ _ _ Hrun3).
  assert (Htail : length (pre ++ tail) = (length pre + length tail)%nat) by apply length_app.
  destruct (filled_pokes n (pre ++ tail) buf3 (bs "</a>" ++ [Byte.x00])) as (buf4 & Hrun4 & Hf4);
    [done|rewrite Htail, length_app, length_bs; cbn [length String.length]; lia|].
  rewrite (bind_val _ _ _ _ _ Hrun4). exists buf4.
  assert (Hall : pre ++ tail ++ bs "</a>" = link_text id f l) by (unfold pre, link_text; fold tail; by rewrite <- app_assoc).
  split.
  - rewrite <- Hall, app_assoc, (length_app (pre ++ tail)), length_bs. munfold. do 2 f_equal.
    rewrite u64_small by lia. cbn [length String.length]. lia.
  - rewrite <- Hall. rewrite <- !app_assoc in *. exact Hf4.
Qed.

(** snprintf to a whole array never leaves it, whatever the text. *)
Lemma snprintf_cut s size buf :
  0 < size -> Z.of_nat (length buf) = size ->
  exists rest, snprintf 0 size s buf = (Val (Z.of_nat (length s)), take (Z.to_nat (size - 1)) s ++ Byte.x00 :: rest) /\
    length (take (Z.to_nat (size - 1)) s ++ Byte.x00 :: rest) = length buf.
Proof.
  intros Hs Hb. unfold snprintf. rewrite decide_False by lia. cbv zeta.
  set (t := take (Z.to_nat (size - 1)) s).
  assert (Ht : take (Z.to_nat (Z.min (Z.of_nat (length s)) (size - 1))) s = t).
  { unfold t. destruct (Z.min_spec (Z.of_nat (length s)) (size - 1)) as [[? ->]|[? ->]]; [|done].
    rewrite Nat2Z.id, !take_ge by lia. done. }
  assert (Hn : Z.min (Z.of_nat (length s)) (size - 1) = Z.of_nat (length t)) by (unfold t; rewrite length_take; lia).
  rewrite Ht, Hn. assert (Hlt : (length t < length buf)%nat) by (unfold t; rewrite length_take; lia).
  pose proof (pokes_app [] buf 0 t eq_refl) as Hp. rewrite !app_nil_l in Hp.
  assert (Hbuf : (pokes 0 t;; poke (0 + Z.of_nat (length t)) Byte.x00) buf = (Val tt, t ++ Byte.x00 :: drop (S (length t)) buf)).
  { erewrite bind_val by (apply Hp; lia). rewrite poke_app by (rewrite ?length_drop; lia). by rewrite drop_drop, Nat.add_1_r. }
  rewrite (bind_val _ _ _ _ _ Hbuf). eexists. split; [reflexivity|].
  rewrite length_app. cbn [length]. rewrite length_drop. lia.
Qed.

Lemma esc_no_nul s : no_nul s -> no_nul (Html.esc s).
Proof.
  induction 1 as [|c s Hc Hs IH]; [constructor|]. rewrite Html.esc_cons. apply Forall_app. split; [|done].
  clear -Hc. unfold Html.esc1, Html.html_map. repeat case_match; simplify_eq; repeat constructor; done.
Qed.

Section Answers.
Context `{Net} `{JsonLib} (token : list byte) (h : heap).
Hypothesis Hnet : net_ok token.
Hypothesis Hans : forall w, answered w.

(** An answer of the module in the group [chat], to the message [id]. *)
Definition answer_request (chat id : Z) (s : list byte) : request :=
  form_request token "sendMessage" (send_fields (SendMsg chat id [] PARSE_MODE_HTML) s).

Lemma send_reply_run evt s junk id w :
  no_nul s -> Z.of_nat (length s) <= 8500 ->
  send_reply (Some token) evt (s ++ Byte.x00 :: junk) id w = (Val 0, w ++ [answer_request (tge_get_chat_id evt) id s]).
Proof.
  intros Hs Hl. set (ctx := SendMsg (tge_get_chat_id evt) id (s ++ Byte.x00 :: junk) PARSE_MODE_HTML).
  destruct (message_run token Hnet ctx s junk w) as [ret Hrun]; [by destruct (Hans w)|right; by left|done|done|].
  pose proof (send_room_large ctx) as Hroom. rewrite take_ge in Hrun by lia.
  unfold send_reply. by rewrite (bind_val _ _ _ _ _ Hrun).
Qed.

(** What the API says to [q] after the requests [w]: the answer as JSON, unless
    the transfer failed. *)
Definition api_json (w : list request) (q : request) : option json :=
  let '(chunks, cres) := t_answer (net w) q in
  if decide (cres = 0) then Some (json_tokener_parse (c_str (concat chunks))) else None.

(** The commands take a transfer that failed for a success. *)
Definition yes (w : list request) (q : request) : Prop :=
  match api_json w q with None => True | Some obj => says_ok obj end.

Definition refused (w : list request) (q : request) (d : list byte) : Prop :=
  exists obj res, api_json w q = Some obj /\ get_member obj "ok" = Some res /\ json_object_get_boolean res = false /\
    json_object_object_get_ex obj "description" ≫= json_object_get_string = Some d.

(** The answer in the handle, and what follows it. *)
Lemma api_call_start name m q w buf :
  sends token m q ->
  exists ret body, api_call (Some token) name m (Frame w buf) =
      (if decide (ret <> 0) then
         on_reply (snprintf 0 RTB_SIZE (bs "Error: " ++ bs name ++ bs "(): " ++ prerf (- ret)));; mret true
       else process_json_msg body) (Frame (w ++ [q]) buf) /\
    match api_json w q with
    | None => ret <> 0
    | Some obj => ret = 0 /\ exists pl r n, body = Some (pl ++ Byte.x00 :: r) /\
        strlen (pl ++ Byte.x00 :: r) = Some n /\ json_tokener_parse (take n (pl ++ Byte.x00 :: r)) = obj
    end.
Proof.
  intros Hs. destruct (Hs w) as (ret & c' & Hrun & Hout). exists ret, (res_body (res (hnd c'))).
  destruct (Hans w) as [Hluck Hne]. specialize (Hne q). unfold outcome, api_json in *.
  destruct (t_answer (net w) q) as [chunks cres]. cbn [fst] in Hne.
  destruct Hout as [[? _]|(Hsent & Hret & Hterm)]; [done|]. split.
  - assert (Hcall : on_sent (with_handle (Some token) (ret ← m; body ← tge_get_res_body; mret (ret, body))) (Frame w buf) =
      (Val (ret, res_body (res (hnd c'))), Frame (w ++ [q]) buf)).
    { unfold on_sent, zoom, with_handle. cbn [fr_sent]. rewrite (bind_val _ _ _ _ _ Hrun), <- Hsent. reflexivity. }
    unfold api_call. rewrite (bind_val _ _ _ _ _ Hcall). reflexivity.
  - destruct (decide (cres = 0)); [|by subst ret]. split; [done|].
    destruct (Hterm Hluck Hne) as [r Hbody]. destruct (strlen_app_nul (concat chunks) r) as (n & Hn & Htake).
    exists (concat chunks), r, n. split; [done|]. split; [done|]. by rewrite Htake.
Qed.

Lemma api_call_yes name m q w buf :
  sends token m q -> yes w q -> Z.of_nat (length buf) = RTB_SIZE ->
  exists buf', api_call (Some token) name m (Frame w buf) = (Val true, Frame (w ++ [q]) buf') /\ length buf' = length buf.
Proof.
  intros Hs Hyes Hbuf. destruct (api_call_start name m q w buf Hs) as (ret & body & -> & Hres). unfold yes in Hyes.
  destruct (api_json w q) as [obj|].
  - destruct Hres as (-> & pl & r & n & -> & Hn & Hobj). rewrite decide_False by tauto. exists buf. split; [|done].
    unfold process_json_msg. erewrite bind_val by reflexivity. rewrite Hn. erewrite bind_val by reflexivity. rewrite Hobj.
    destruct Hyes as (b & Hb & Hok). destruct obj; try done; by rewrite Hb, Hok.
  - rewrite decide_True by done.
    destruct (snprintf_cut (bs "Error: " ++ bs name ++ bs "(): " ++ prerf (- ret)) RTB_SIZE buf) as (rest & Hrun & Hl); [done|done|].
    eexists. split; [|exact Hl]. unfold on_reply, zoom. munfold. cbn [fr_reply]. rewrite Hrun. reflexivity.
Qed.

Lemma api_call_refused name m q w buf d :
  sends token m q -> refused w q d -> Z.of_nat (length buf) = RTB_SIZE ->
  exists rest, api_call (Some token) name m (Frame w buf) =
    (Val false, Frame (w ++ [q]) (take (Z.to_nat (RTB_SIZE - 1)) (bs "Error: " ++ d) ++ Byte.x00 :: rest)).
Proof.
  intros Hs (obj & b & Hjson & Hok & Hfalse & Hdesc) Hbuf.
  destruct (api_call_start name m q w buf Hs) as (ret & body & -> & Hres). rewrite Hjson in Hres.
  destruct Hres as (-> & pl & r & n & -> & Hn & Hobj). rewrite decide_False by tauto.
  destruct (snprintf_cut (bs "Error: " ++ d) RTB_SIZE buf) as (rest & Hrun & _); [done|done|]. exists rest.
  unfold process_json_msg. erewrite bind_val by reflexivity. rewrite Hn. erewrite bind_val by reflexivity. rewrite Hobj.
  destruct obj; try done. rewrite Hok, Hfalse, Hdesc.
  unfold on_reply, zoom. munfold. cbn [fr_reply]. rewrite Hrun. reflexivity.
Qed.

(** ** What was done *)
Notation rtb := (Z.to_nat RTB_SIZE).

Lemma on_reply_run {A} (m : M (list byte) A) w buf a buf' :
  m buf = (Val a, buf') -> on_reply m (Frame w buf) = (Val a, Frame w buf').
Proof. intros Hm. unfold on_reply, zoom. cbn [fr_reply]. by rewrite Hm. Qed.

(** The lines under the sentence. *)
Definition reason_text (reason : option (list byte)) : list byte :=
  match reason with Some t => Byte.x0a :: bs "<b>Message:</b> " ++ Html.esc t | None => [] end.

Definition done_text (fr : tgevi_from) (f : list byte) (word : string) (reason : option (list byte)) : list byte :=
  link_text (from_id fr) f (last_name fr) ++ bs " has been " ++ bs word ++ reason_text reason.

(** A reason that fits behind the link [link]. *)
Definition reason_fits (link : list byte) (reason : option (list byte)) : Prop :=
  forall t, reason = Some t -> no_nul t /\ (length link + length (Html.esc t) <= 986)%nat.

Lemma esc_longer s : (length s <= length (Html.esc s))%nat.
Proof.
  induction s as [|c s IH]; [done|]. rewrite Html.esc_cons, length_app. pose proof (Html.esc1_length c). cbn [length]. lia.
Qed.

Lemma filled_poke n pre buf b :
  filled n pre buf -> (length pre < n)%nat ->
  exists buf', poke (Z.of_nat (length pre)) b buf = (Val tt, buf') /\ filled n (pre ++ [b]) buf'.
Proof.
  intros [[rest ->] Hl] Hlt. rewrite length_app in Hl.
  eexists. split; [apply poke_app; [done|lia]|]. split; [exists (drop 1 rest); by rewrite <- app_assoc|].
  rewrite !length_app. cbn [length]. rewrite length_drop. lia.
Qed.

(** The reason, escaped, behind what stands in the array. *)
Lemma append_reason_run pre buf w reason sps :
  filled rtb (pre ++ [Byte.x00]) buf ->
  (forall t, reason = Some t -> no_nul t /\ (length pre + length (reason_text (Some t)) + 2 <= rtb)%nat /\
     Z.of_nat (length (Html.esc t)) + 20 <= sps < 2 ^ 62) ->
  exists buf', append_reason reason (Z.of_nat (length pre)) sps (Frame w buf) = (Val tt, Frame w buf') /\
    filled rtb (pre ++ reason_text reason ++ [Byte.x00]) buf'.
Proof.
  assert (Hrtb : Z.of_nat rtb = 1024) by reflexivity.
  intros Hf Hfit. destruct reason as [t|]; [|by exists buf].
  destruct (Hfit t eq_refl) as (Ht & Hn & Hs). clear Hfit. pose proof (esc_longer t) as Hesc.
  set (tag := Byte.x0a :: bs "<b>Message:</b> ") in *.
  assert (Hrt : reason_text (Some t) = tag ++ Html.esc t) by done. rewrite Hrt, length_app in *.
  assert (Htag : length tag = 17%nat) by reflexivity.
  destruct (filled_pokes rtb pre buf (tag ++ [Byte.x00])) as (buf1 & Hrun1 & Hf1);
    [by apply filled_weaken in Hf|rewrite length_app; cbn [length]; lia|].
  cbn [append_reason]. cbv zeta. change (Byte.x0a :: bs "<b>Message:</b> " ++ [Byte.x00]) with (tag ++ [Byte.x00]).
  erewrite bind_val by (apply on_reply_run; exact Hrun1).
  rewrite !(u64_small (_ - 18)), !(u64_small (_ + 17)) by lia.
  assert (Hlen : strnlen (asz t) (Z.to_nat (sps - 18)) = Some (length t)).
  { unfold asz. rewrite strnlen_asz by done. f_equal. lia. }
  rewrite Hlen. erewrite bind_val by reflexivity.
  replace (Z.of_nat (length pre) + 17) with (Z.of_nat (length (pre ++ tag))) by (rewrite length_app; lia).
  destruct (html_at rtb (pre ++ tag) buf1 t [Byte.x00] (sps - 18)) as (buf2 & Hrun2 & Hf2);
    [rewrite app_assoc in Hf1; by apply filled_weaken in Hf1|rewrite length_app; lia|lia|].
  erewrite bind_val by (apply on_reply_run; exact Hrun2).
  replace (u64 (u64 (Z.of_nat (length (pre ++ tag)) + (Z.of_nat (length (Html.esc t)) + 1)) - 1))
    with (Z.of_nat (length ((pre ++ tag) ++ Html.esc t)))
    by (rewrite !u64_small by (rewrite ?length_app, ?u64_small; rewrite ?length_app; lia); rewrite (length_app (pre ++ tag)); lia).
  destruct (filled_poke rtb _ buf2 Byte.x00 Hf2) as (buf3 & Hrun3 & Hf3); [rewrite !length_app; lia|].
  exists buf3. split; [by apply on_reply_run|]. by rewrite <- !app_assoc in *.
Qed.

Context (r : tgev) (fr : tgevi_from) (f : list byte).
Hypothesis Hfrom : tge_get_from r = Some fr.
Hypothesis Hfirst : first_name fr = Some f.
Hypothesis Hshort : (length (link_text (from_id fr) f (last_name fr)) <= 980)%nat.
Lemma link_run w buf :
  length buf = rtb ->
  exists buf', on_reply (gen_name_link (RTB_SIZE - 18) (from_id fr) (first_name fr) (last_name fr)) (Frame w buf) =
      (Val (Z.of_nat (length (link_text (from_id fr) f (last_name fr)))), Frame w buf') /\
    filled rtb (link_text (from_id fr) f (last_name fr)) buf'.
Proof.
  intros Hbuf. assert (Hrtb : Z.of_nat rtb = 1024) by reflexivity. change (RTB_SIZE - 18) with 1006.
  destruct (gen_name_link_run rtb 1006 (from_id fr) f (last_name fr) buf) as (buf' & Hrun & Hf');
    [split; [apply prefix_nil|done]|lia|lia|lia|].
  exists buf'. rewrite Hfirst. split; [by apply on_reply_run|]. by apply filled_weaken in Hf'.
Qed.

Notation link := (link_text (from_id fr) f (last_name fr)).
Notation sentence word := (done_text fr f word None).

Lemma sentence_length word : length (sentence word) = (length link + 10 + String.length word)%nat.
Proof. unfold done_text. cbn [reason_text]. rewrite app_nil_r, !length_app, !length_bs. cbn [String.length]. lia. Qed.

Lemma done_text_reason word reason : done_text fr f word reason = sentence word ++ reason_text reason.
Proof. unfold done_text. cbn [reason_text]. by rewrite app_nil_r, <- !app_assoc. Qed.

(** Both ways to write the sentence: what is left is the reason. *)
Definition continues (reason : option (list byte)) (m : M frame unit) (word : string) : Prop :=
  forall w buf, length buf = rtb ->
  exists buf', m (Frame w buf) = append_reason reason (Z.of_nat (length (sentence word))) (1006 - Z.of_nat (length link)) (Frame w buf') /\
    filled rtb (sentence word ++ [Byte.x00]) buf'.

Lemma say_done_head word reason : (String.length word <= 9)%nat -> continues reason (say_done r word reason) word.
Proof.
  intros Hw w buf Hbuf. assert (Hrtb : Z.of_nat rtb = 1024) by reflexivity. unfold say_done. rewrite Hfrom, sentence_length.
  destruct (link_run w buf Hbuf) as (buf1 & Hrun1 & Hf1). unfold done_text. set (link := link_text _ _ _) in *.
  destruct (filled_pokes rtb link buf1 (bs " has been ")) as (buf2 & Hrun2 & Hf2); [done|rewrite length_bs; cbn [String.length]; lia|].
  assert (Hhead : (pos ← on_reply (gen_name_link (RTB_SIZE - 18) (from_id fr) (first_name fr) (last_name fr));
      on_reply (pokes pos (bs " has been "));; mret (u64 (pos + 10), u64 (RTB_SIZE - 18 - pos))) (Frame w buf) =
    (Val (Z.of_nat (length link + 10), 1006 - Z.of_nat (length link)), Frame w buf2)).
  { rewrite (bind_val _ _ _ _ _ Hrun1). erewrite bind_val by (apply on_reply_run; exact Hrun2).
    change (RTB_SIZE - 18) with 1006. rewrite !u64_small by lia. rewrite Nat2Z.inj_add. reflexivity. }
  cbv zeta. rewrite (bind_val _ _ _ _ _ Hhead).
  destruct (filled_pokes rtb (link ++ bs " has been ") buf2 (bs word ++ [Byte.x00])) as (buf3 & Hrun3 & Hf3);
    [done|rewrite !length_app, !length_bs; cbn [length String.length]; lia|].
  replace (length (link ++ bs " has been ")) with (length link + 10)%nat in Hrun3 by (rewrite length_app, length_bs; done).
  erewrite bind_val by (apply on_reply_run; exact Hrun3). rewrite u64_small by lia.
  exists buf3. rewrite <- Nat2Z.inj_add. cbn [reason_text]. rewrite app_nil_r, <- !app_assoc in *. done.
Qed.

(** exec_adm_cmd_ban writes the sentence in one piece. *)
Definition say_banned (reason : option (list byte)) : M frame unit :=
  '(pos, sps) ← (
    let sps := RTB_SIZE - 18 in
    pos ← on_reply (gen_name_link sps (from_id fr) (first_name fr) (last_name fr));
    on_reply (pokes pos (bs " has been banned!" ++ [Byte.x00]));;
    mret (u64 (pos + 17), u64 (sps - pos)));
  append_reason reason pos sps.

Lemma say_banned_head reason : continues reason (say_banned reason) "banned!".
Proof.
  intros w buf Hbuf. assert (Hrtb : Z.of_nat rtb = 1024) by reflexivity. unfold say_banned. rewrite sentence_length.
  destruct (link_run w buf Hbuf) as (buf1 & Hrun1 & Hf1). unfold done_text. set (link := link_text _ _ _) in *.
  destruct (filled_pokes rtb link buf1 (bs " has been banned!" ++ [Byte.x00])) as (buf2 & Hrun2 & Hf2);
    [done|rewrite length_app, length_bs; cbn [length String.length]; lia|].
  erewrite bind_val; [|cbv zeta; rewrite (bind_val _ _ _ _ _ Hrun1); erewrite bind_val by (apply on_reply_run; exact Hrun2); reflexivity].
  exists buf2. change (RTB_SIZE - 18) with 1006. rewrite !u64_small by lia. cbn [String.length reason_text].
  rewrite app_nil_r, <- !app_assoc in *. split; [|done]. f_equal. lia.
Qed.

(** [e] is what [room] bytes keep of the escape of [t]: the whole of it, if it
    is shorter than the room, and else a prefix that ends within six bytes of
    its end. *)
Definition cut_to (room : Z) (t e : list byte) : Prop :=
  e `prefix_of` Html.esc t /\ Z.of_nat (length e) < room /\
  (if decide (Z.of_nat (length (Html.esc t)) < room) then e = Html.esc t else room - 6 <= Z.of_nat (length e)).

Lemma cut_no_nul room t e : no_nul t -> cut_to room t e -> no_nul e.
Proof. intros Ht [[k Hk] _]. pose proof (esc_no_nul t Ht) as He. rewrite Hk in He. by apply Forall_app in He as []. Qed.

(** A reason of any length, when the array goes on behind the room that is
    counted: it is cut, and the answer ends in the array. *)
Lemma append_reason_any pre buf w t sps :
  filled rtb (pre ++ [Byte.x00]) buf -> no_nul t -> 24 <= sps < 2 ^ 62 ->
  Z.of_nat (length pre) + sps < 1025 ->
  exists e buf', cut_to (sps - 18) t e /\
    append_reason (Some t) (Z.of_nat (length pre)) sps (Frame w buf) = (Val tt, Frame w buf') /\
    filled rtb (pre ++ Byte.x0a :: bs "<b>Message:</b> " ++ e ++ [Byte.x00]) buf'.
Proof.
  assert (Hrtb : Z.of_nat rtb = 1024) by reflexivity. intros Hf Ht Hs Hroom.
  set (tag := Byte.x0a :: bs "<b>Message:</b> "). assert (Htag : length tag = 17%nat) by reflexivity.
  destruct (filled_pokes rtb pre buf (tag ++ [Byte.x00])) as (buf1 & Hrun1 & Hf1);
    [by apply filled_weaken in Hf|rewrite length_app; cbn [length]; lia|].
  cbn [append_reason]. cbv zeta. change (Byte.x0a :: bs "<b>Message:</b> " ++ [Byte.x00]) with (tag ++ [Byte.x00]).
  erewrite bind_val by (apply on_reply_run; exact Hrun1).
  rewrite !(u64_small (_ - 18)), !(u64_small (_ + 17)) by lia.
  unfold asz. rewrite strnlen_asz by done. erewrite bind_val by reflexivity.
  rewrite app_assoc in Hf1. apply filled_weaken in Hf1 as [[rest ->] Hl1]. rewrite length_app, (length_app pre) in Hl1.
  replace (Z.of_nat (length pre) + 17) with (Z.of_nat (length (pre ++ tag))) by (rewrite length_app; lia).
  set (inlen := Nat.min _ _). set (room := sps - 18) in *.
  pose proof (Html.htmlspecialchars_end room (t ++ [Byte.x00]) inlen rest) as Hrun2. cbv zeta in Hrun2.
  specialize (Hrun2 ltac:(rewrite length_app; cbn [length]; lia) ltac:(lia) ltac:(lia)).
  assert (Hin : take inlen (t ++ [Byte.x00]) = take (Z.to_nat room) t).
  { unfold inlen. rewrite take_app_le by lia. destruct (decide (Z.to_nat room <= length t)%nat).
    - by rewrite Nat.min_l by lia.
    - rewrite Nat.min_r by lia. by rewrite !take_ge by lia. }
  rewrite Hin in Hrun2. set (s := take (Z.to_nat room) t) in *. set (p := Html.greedy room s) in *.
  set (e := Html.kept room s) in *. set (k := length e) in *.
  destruct (Html.kept_cut room s ltac:(lia)) as (Hpre & Hko & _). fold e p k in Hpre, Hko.
  pose proof (prefix_length _ _ Hpre) as Hk. fold k in Hk.
  pose proof (Html.greedy_fits s room ltac:(lia)) as Hg. fold p in Hg.
  set (blk := Html.esc p ++ drop (length (Html.esc p)) rest) in *.
  assert (Hblk : length blk = length rest) by (unfold blk; rewrite length_app, length_drop; lia).
  assert (Hsplit : exists a b more, blk = (e ++ [a]) ++ b :: more).
  { destruct Hpre as [z Hz]. unfold blk. rewrite Hz. rewrite <- app_assoc. rewrite <- Hz.
    destruct (z ++ drop (length (Html.esc p)) rest) as [|a [|b more]] eqn:Hd; [..|exists a, b, more; by rewrite <- app_assoc];
      apply (f_equal length) in Hd; rewrite length_app, length_drop in Hd; apply (f_equal length) in Hz; rewrite length_app in Hz;
      fold k in Hz; cbn [length] in Hd; lia. }
  destruct Hsplit as (a & b & more & Hsplit). rewrite Hsplit in Hrun2. assert (Hek : length e = k) by done.
  erewrite (bind_val (poke _ _)) in Hrun2 by (apply poke_app; [rewrite length_app; cbn [length]; lia|cbn [length]; lia]).
  erewrite bind_val by (apply on_reply_run; unfold at_ptr; rewrite Nat2Z.id, drop_app_length, take_app_length, Hrun2; reflexivity).
  assert (HN : length (pre ++ tag) = (length pre + 17)%nat) by (rewrite length_app; lia).
  assert (HM : length ((pre ++ tag) ++ e) = (length (pre ++ tag) + k)%nat) by (rewrite (length_app (pre ++ tag)); lia).
  rewrite (u64_small (_ + (Z.of_nat k + 1))), (u64_small (_ - 1)) by lia.
  replace (_ + (Z.of_nat k + 1) - 1) with (Z.of_nat (length ((pre ++ tag) ++ e))) by lia.
  assert (Hf2 : filled rtb ((pre ++ tag) ++ e) ((pre ++ tag) ++ (e ++ [a]) ++ Byte.x00 :: drop 1 (b :: more))).
  { split; [eexists; rewrite <- !app_assoc; reflexivity|].
    rewrite (length_app (pre ++ tag)), HN.
    assert (length ((e ++ [a]) ++ Byte.x00 :: drop 1 (b :: more)) = length rest); [|lia].
    rewrite <- Hblk, Hsplit. by rewrite (length_app _ (b :: more)), length_app. }
  destruct (filled_poke rtb _ _ Byte.x00 Hf2) as (buf3 & Hrun3 & Hf3); [rewrite HM, HN; lia|].
  exists e, buf3. split; [apply Html.kept_cases; lia|split; [by apply on_reply_run|by rewrite <- !app_assoc in *]].
Qed.

(** The answer with a reason of any length, where the word leaves a spare byte. *)
Lemma continues_any m word w t buf :
  continues (Some t) m word -> (String.length word <= 8)%nat -> no_nul t -> length buf = rtb ->
  exists e buf', cut_to (988 - Z.of_nat (length link)) t e /\ m (Frame w buf) = (Val tt, Frame w buf') /\
    filled rtb (sentence word ++ Byte.x0a :: bs "<b>Message:</b> " ++ e ++ [Byte.x00]) buf'.
Proof.
  intros Hm Hw Ht Hbuf. pose proof (sentence_length word) as Hlen.
  destruct (Hm w buf Hbuf) as (buf1 & -> & Hf1).
  replace (988 - _) with (1006 - Z.of_nat (length link) - 18) by lia. apply append_reason_any; [done|done|lia|lia].
Qed.

(** The word of nine characters leaves none. *)
Lemma continues_overruns m word w t buf :
  continues (Some t) m word -> String.length word = 9%nat -> no_nul t -> length buf = rtb ->
  (length link + length (Html.esc t) = 987)%nat -> fst (m (Frame w buf)) = Fault FBounds.
Proof.
  intros Hm Hw Ht Hbuf Hlong. assert (Hrtb : Z.of_nat rtb = 1024) by reflexivity. pose proof (esc_longer t) as Hesc.
  destruct (Hm w buf Hbuf) as (buf1 & -> & Hf).
  pose proof (sentence_length word) as Hlen. set (pre := sentence _) in *.
  set (tag := Byte.x0a :: bs "<b>Message:</b> "). assert (Htag : length tag = 17%nat) by reflexivity.
  destruct (filled_pokes rtb pre buf1 (tag ++ [Byte.x00])) as (buf2 & Hrun2 & Hf2);
    [by apply filled_weaken in Hf|rewrite length_app; cbn [length]; lia|].
  cbn [append_reason]. cbv zeta. change (Byte.x0a :: bs "<b>Message:</b> " ++ [Byte.x00]) with (tag ++ [Byte.x00]).
  erewrite bind_val by (apply on_reply_run; exact Hrun2).
  rewrite !(u64_small (_ - 18)), !(u64_small (_ + 17)) by lia.
  unfold asz. rewrite strnlen_asz by done. erewrite bind_val by reflexivity. rewrite Nat.min_r by lia.
  rewrite app_assoc in Hf2. apply filled_weaken in Hf2 as [[rest ->] Hl]. rewrite length_app, (length_app pre) in Hl.
  replace (Z.of_nat (length pre) + 17) with (Z.of_nat (length (pre ++ tag))) by (rewrite length_app; lia).
  match goal with |- fst ((on_reply ?m ≫= ?k) ?s) = _ => assert (Hfault : fst (on_reply m s) = Fault FBounds) end.
  { unfold on_reply, zoom, at_ptr. cbn [fr_reply]. rewrite Nat2Z.id, drop_app_length.
    pose proof (Html.htmlspecialchars_overrun (1006 - Z.of_nat (length link) - 18) (t ++ [Byte.x00]) (length t) rest) as Ho.
    destruct (Html.htmlspecialchars _ _ _ _) as [o rest'] eqn:Hrun. cbn [fst] in Ho.
    rewrite Ho; [done|rewrite length_app; lia|lia|lia|rewrite take_app_length; lia]. }
  unfold mbind, M_bind. destruct (on_reply _ _) as [o s']. cbn in Hfault. by rewrite Hfault.
Qed.

(** ** The two answers to a command *)
Context (evt : tgev).
Notation answer := (answer_request (tge_get_chat_id evt) (tge_get_msg_id evt)).

Lemma reply_with_run s junk w :
  no_nul s -> Z.of_nat (length s) <= 8500 ->
  reply_with (Some token) evt (tge_get_msg_id evt) (Frame w (s ++ Byte.x00 :: junk)) =
    (Val 0, Frame (w ++ [answer s]) (s ++ Byte.x00 :: junk)).
Proof.
  intros Hs Hl. unfold reply_with. rewrite (bind_val get _ _ _ _ eq_refl). unfold on_sent, zoom. cbn [fr_reply fr_sent].
  by rewrite (send_reply_run evt s junk _ w Hs Hl).
Qed.

(** A command: its request, and what is said when it is agreed to. *)
Definition command_of (name : string) (m : M conn Z) (say : M frame unit) : M (list request) Z :=
  with_reply (tmp ← api_call (Some token) name m;
    if negb tmp then reply_with (Some token) evt (tge_get_msg_id evt)
    else say;; reply_with (Some token) evt (tge_get_msg_id evt)).

Lemma command_yes name m say (P : list byte -> Prop) q w :
  sends token m q -> yes w q ->
  (forall w buf, length buf = rtb -> exists text buf', P text /\ no_nul text /\
     say (Frame w buf) = (Val tt, Frame w buf') /\ filled rtb (text ++ [Byte.x00]) buf') ->
  exists text, P text /\ command_of name m say w = (Val 0, w ++ [q; answer text]).
Proof.
  intros Hsend Hyes Hsay. assert (Hstack : length (stack rtb) = rtb) by apply length_stack.
  assert (Hrtb : Z.of_nat rtb = 1024) by reflexivity. unfold command_of, with_reply.
  destruct (api_call_yes name m q w (stack rtb) Hsend Hyes) as (buf & Hrun & Hbuf); [by rewrite Hstack|].
  rewrite (bind_val _ _ _ _ _ Hrun). cbn [negb].
  destruct (Hsay (w ++ [q]) buf) as (text & buf' & HP & Htext & Hrun' & [[junk ->] Hlen]); [congruence|].
  exists text. split; [done|]. rewrite (bind_val _ _ _ _ _ Hrun'), <- app_assoc. cbn [app]. rewrite reply_with_run; [|done|].
  - cbn [fr_sent]. by rewrite <- app_assoc.
  - rewrite !length_app in Hlen. lia.
Qed.

Lemma command_refused name m say q w d :
  sends token m q -> refused w q d ->
  command_of name m say w = (Val 0, w ++ [q; answer (take (Z.to_nat (RTB_SIZE - 1)) (bs "Error: " ++ d))]).
Proof.
  intros Hsend Hno. assert (Hstack : length (stack rtb) = rtb) by apply length_stack. unfold command_of, with_reply.
  destruct (api_call_refused name m q w (stack rtb) d Hsend Hno) as (junk & Hrun); [by rewrite Hstack|].
  rewrite (bind_val _ _ _ _ _ Hrun). cbn [negb]. rewrite reply_with_run.
  - cbn [fr_sent]. by rewrite <- app_assoc.
  - apply Forall_take, Forall_app. split; [by apply (bool_decide_unpack _)|].
    destruct Hno as (? & ? & _ & _ & _ & Hdesc). apply bind_Some in Hdesc as (j & _ & Hj). by apply (get_string_no_nul j).
  - rewrite length_take. change (Z.to_nat (RTB_SIZE - 1)) with 1023%nat. lia.
Qed.

(** A fault in what is said is one of the command. *)
Lemma command_fault name m say q w flt :
  sends token m q -> yes w q -> (forall w buf, length buf = rtb -> fst (say (Frame w buf)) = Fault flt) ->
  fst (command_of name m say w) = Fault flt.
Proof.
  intros Hsend Hyes Hsay. assert (Hstack : length (stack rtb) = rtb) by apply length_stack.
  assert (Hrtb : Z.of_nat rtb = 1024) by reflexivity. unfold command_of, with_reply.
  destruct (api_call_yes name m q w (stack rtb) Hsend Hyes) as (buf & Hrun & Hbuf); [by rewrite Hstack|].
  rewrite (bind_val _ _ _ _ _ Hrun). cbn [negb]. specialize (Hsay (w ++ [q]) buf ltac:(congruence)).
  unfold mbind, M_bind. destruct (say _) as [o s']. cbn in Hsay. by rewrite Hsay.
Qed.

Context (a : Z).
Hypothesis Hreply : tge_get_reply_to evt = PEvt a.
Hypothesis Ha : a <> 0.
Hypothesis Hr : blocks h !! a = Some (BEvent r).
Hypothesis Hnames : no_nul f /\ (forall l, last_name fr = Some l -> no_nul l).

Lemma sentence_plain word : no_nul (bs word) -> no_nul (sentence word).
Proof.
  intros Hw. destruct Hnames as [Hf Hl]. unfold done_text, link_text, user_link.
  repeat (apply Forall_app; split); try (by apply (bool_decide_unpack _)); [|by apply esc_no_nul, Forall_take| |done].
  - unfold num. rewrite <- enc_dec. apply Url.enc_no_nul.
  - destruct (last_name fr); [|constructor]. constructor; [done|]. by apply esc_no_nul, Forall_take, Hl.
Qed.

Lemma reply_not_null : is_null (tge_get_reply_to evt) = false.
Proof. rewrite Hreply. by apply bool_decide_eq_false. Qed.

(** What is said of the member after each command. *)
Definition verb (cmd : Z) : option string :=
  if decide (cmd = ADM_CMD_BAN) then Some "banned!"%string
  else if decide (cmd = ADM_CMD_UNBAN) then Some "unbanned!"%string
  else if decide (cmd = ADM_CMD_KICK) then Some "kicked!"%string
  else if decide (cmd = ADM_CMD_MUTE) then Some "muted!"%string
  else if decide (cmd = ADM_CMD_UNMUTE) then Some "unmuted!"%string
  else None.

Notation chat := (tge_get_chat_id evt).

(** Every command that is announced has this form. *)
Lemma run_cmd_shape cmd word q reason w :
  verb cmd = Some word -> first_request token cmd chat (tge_get_user_id r) (tge_get_msg_id r) = Some q ->
  Z.land cmd ADMIN_CMD_BITS <> 0 /\ (String.length word <= 9)%nat /\ no_nul (bs word) /\
  exists name m say, sends token m q /\ continues reason say word /\
    run_cmd (Some token) h evt (tge_get_reply_to evt) cmd (tge_get_user_id r) reason w = command_of name m say w.
Proof.
  assert (Hsay : forall word, (String.length word <= 9)%nat -> continues reason
    (if is_null (tge_get_reply_to evt) then mret tt
     else reply_to ← deref h (tge_get_reply_to evt); say_done reply_to word reason) word).
  { intros word' Hw w' buf Hbuf. rewrite reply_not_null, (bind_val _ _ _ _ _ (deref_reply h evt r a Hreply Hr _)).
    by apply say_done_head. }
  assert (Hku : forall b w, kick_or_unban (Some token) h evt (tge_get_user_id r) reason b false w =
    command_of "tga_unban_chat_member" (tga_unban_chat_member (UnbanCm chat (tge_get_user_id r) b))
      (if is_null (tge_get_reply_to evt) then mret tt
       else reply_to ← deref h (tge_get_reply_to evt); say_done reply_to (if b then "unbanned!" else "kicked!") reason) w) by done.
  assert (Hmu : forall b w, mute_or_unmute (Some token) h evt (tge_get_user_id r) reason b w =
    command_of "tga_restrict_chat_member" (tga_restrict_chat_member (RestrictCm chat (tge_get_user_id r) 0 (Perm b b b b b b b b)))
      (if is_null (tge_get_reply_to evt) then mret tt
       else reply_to ← deref h (tge_get_reply_to evt); say_done reply_to (if b then "unmuted!" else "muted!") reason) w) by done.
  unfold verb, first_request. cbv zeta.
  repeat (case_decide; [subst cmd; intros [= <-] [= <-]; split; [by vm_compute|]; split; [cbn; lia|]; split; [by apply (bool_decide_unpack _)|]|]);
    [| | | | |done].
  - eexists _, _, _. split; [by apply (proj1 (kick_sends token Hnet (KickCm chat (tge_get_user_id r) 0 true)))|].
    split; [|reflexivity].
    intros w' buf Hbuf. rewrite reply_not_null, (bind_val _ _ _ _ _ (deref_reply h evt r a Hreply Hr _)), Hfrom.
    by apply say_banned_head.
  - eexists _, _, _. split; [by apply (unban_sends token Hnet chat _ true)|]. split; [apply Hsay; cbn; lia|apply (Hku true)].
  - eexists _, _, _. split; [by apply (unban_sends token Hnet chat _ false)|]. split; [apply (Hsay "kicked!"); cbn; lia|].
    rewrite <- (Hku false). change (run_cmd _ _ _ _ _ _ _ w) with (exec_adm_cmd_kick (Some token) h evt (tge_get_user_id r) reason false w).
    unfold exec_adm_cmd_kick. unfold mbind, M_bind. destruct (kick_or_unban _ _ _ _ _ _ _ _) as [[v|c|flt] w']; [|done..].
    by rewrite andb_false_r.
  - eexists _, _, _. split; [by apply restrict_sends|]. split; [apply (Hsay "muted!"); cbn; lia|apply (Hmu false)].
  - eexists _, _, _. split; [by apply restrict_sends|]. split; [apply (Hsay "unmuted!"); cbn; lia|apply (Hmu true)].
Qed.

Context (cmd : Z) (word : string) (q : request) (reason : option (list byte)) (w : list request).
Hypothesis Hverb : verb cmd = Some word.
Hypothesis Hq : first_request token cmd chat (tge_get_user_id r) (tge_get_msg_id r) = Some q.
Notation run := (run_cmd (Some token) h evt (tge_get_reply_to evt) cmd (tge_get_user_id r) reason w).

(** The reason fits. *)
Lemma run_cmd_fits :
  reason_fits link reason ->
  (yes w q -> run = (Val 0, w ++ [q; answer (done_text fr f word reason)])) /\
  (forall d, refused w q d -> run = (Val 0, w ++ [q; answer (take (Z.to_nat (RTB_SIZE - 1)) (bs "Error: " ++ d))])).
Proof.
  intros Hfits. destruct (run_cmd_shape cmd word q reason w Hverb Hq) as (_ & Hw & Hplain & name & m & say & Hsend & Hsay & ->).
  split; [|intros d; by apply command_refused]. intros Hyes.
  destruct (command_yes name m say (eq (done_text fr f word reason)) q w Hsend Hyes) as (text & <- & Hrun); [|done].
  intros w' buf Hbuf. assert (Hrtb : Z.of_nat rtb = 1024) by reflexivity. pose proof (sentence_length word) as Hlen.
  destruct (Hsay w' buf Hbuf) as (buf1 & -> & Hf1).
  destruct (append_reason_run (sentence word) buf1 w' reason (1006 - Z.of_nat (length link)) Hf1) as (buf2 & Hrun & Hf2).
  { intros t Ht. destruct (Hfits t Ht) as [Hno Hfit]. split; [done|].
    cbn [reason_text length]. rewrite length_app. change (length (bs "<b>Message:</b> ")) with 16%nat. lia. }
  eexists _, buf2. split; [reflexivity|]. rewrite done_text_reason, <- app_assoc. split; [|done].
  apply Forall_app. split; [by apply sentence_plain|]. destruct reason as [t|]; [|constructor].
  destruct (Hfits t eq_refl) as [Hno _]. constructor; [done|].
  apply Forall_app. split; [by apply (bool_decide_unpack _)|by apply esc_no_nul].
Qed.

(** The reason is of any length, and the word leaves a spare byte. *)
Lemma run_cmd_any t :
  reason = Some t -> no_nul t -> (String.length word <= 8)%nat -> yes w q ->
  exists s, cut_to (988 - Z.of_nat (length link)) t s /\
    run = (Val 0, w ++ [q; answer (sentence word ++ Byte.x0a :: bs "<b>Message:</b> " ++ s)]).
Proof.
  intros Ht Hno Hw8 Hyes. destruct (run_cmd_shape cmd word q reason w Hverb Hq) as (_ & Hw & Hplain & name & m & say & Hsend & Hsay & ->).
  destruct (command_yes name m say (fun text => exists s, cut_to (988 - Z.of_nat (length link)) t s /\
    text = sentence word ++ Byte.x0a :: bs "<b>Message:</b> " ++ s) q w Hsend Hyes)
    as (text & (s & Hp & ->) & Hrun); [|by exists s].
  intros w' buf Hbuf. rewrite Ht in Hsay. destruct (continues_any say word w' t buf Hsay Hw8 Hno Hbuf) as (s & buf' & Hp & Hrun & Hf).
  eexists _, buf'. split; [by exists s|]. split; [|split; [done|by rewrite <- app_assoc]].
  apply Forall_app. split; [by apply sentence_plain|]. constructor; [done|].
  apply Forall_app. split; [by apply (bool_decide_unpack _)|]. exact (cut_no_nul _ t s Hno Hp).
Qed.

Lemma run_cmd_overruns t :
  reason = Some t -> no_nul t -> String.length word = 9%nat -> (length link + length (Html.esc t) = 987)%nat -> yes w q ->
  fst run = Fault FBounds.
Proof.
  intros Ht Hno Hw9 Hlong Hyes. destruct (run_cmd_shape cmd word q reason w Hverb Hq) as (_ & _ & _ & name & m & say & Hsend & Hsay & ->).
  rewrite Ht in Hsay. apply (command_fault name m say q w FBounds Hsend Hyes). intros w' buf Hbuf. by apply (continues_overruns say word w' t).
Qed.
End Answers.

Lemma skip_ws_no_nul tx : no_nul tx -> no_nul (skip_ws tx).
Proof. induction 1 as [|c tx Hc Htx IH]; cbn [skip_ws]; [constructor|]. destruct (is_ws c); [done|by constructor]. Qed.

Lemma reading_no_nul text cmd t : no_nul text -> reading_of text = Command cmd (Some t) -> no_nul t.
Proof.
  intros Hno Hr. destruct text as [|c tx]; [done|]. apply Forall_cons in Hno as [_ Htx]. unfold reading_of in Hr. cbv zeta in Hr.
  destruct (is_prefix_char c); [|repeat case_match; done]. destruct (named cmd_names _); [|done].
  pose proof (Forall_drop _ (length (word tx)) _ Htx) as Hd.
  destruct (drop (length (word tx)) tx) as [|c' rest]; [done|]. injection Hr as _ <-. exact (skip_ws_no_nul (c' :: rest) Hd).
Qed.

(** A command about the author of the message replied to, as all of the
    theorems below suppose it: who gives it, what it reads as, and a member whose
    link leaves room for the sentence. *)
Section Announced.
Context `{Net} `{JsonLib} (token : list byte) (h : heap) (evt : tgev) (w : list request) (text : list byte).
Context (cmd : Z) (reason : option (list byte)) (word : string) (a : Z) (r : tgev) (fr : tgevi_from) (f : list byte) (q : request).

Record announced : Prop := {
  an_text : tge_get_text evt = Some text;
  an_plain : no_nul text;
  an_read : reading_of text = Command cmd reason;
  an_verb : verb cmd = Some word;
  an_reply : tge_get_reply_to evt = PEvt a;
  an_addr : a <> 0;
  an_block : blocks h !! a = Some (BEvent r);
  an_from : tge_get_from r = Some fr;
  an_first : first_name fr = Some f;
  an_names : no_nul f /\ (forall l, last_name fr = Some l -> no_nul l);
  an_short : (length (link_text (from_id fr) f (last_name fr)) <= 980)%nat;
  an_admin : admitted token w (tge_get_chat_id evt) (tge_get_user_id evt);
  an_request : first_request token cmd (tge_get_chat_id evt) (tge_get_user_id r) (tge_get_msg_id r) = Some q;
}.

Lemma announced_entry :
  net_ok token -> announced ->
  exists pre, Forall (harmless token) pre /\
    admin_entry (Some token) h evt w =
      run_cmd (Some token) h evt (tge_get_reply_to evt) cmd (tge_get_user_id r) reason (w ++ pre).
Proof.
  intros Hnet [Htext Hnul Hread Hverb Hreply Ha Hr Hfrom Hfirst _ Hshort Hadm Hq].
  destruct (privileged_run token Hnet evt _ w Hadm) as (pre & Hpriv & Hpre). exists pre. split; [done|].
  destruct (run_cmd_shape token h Hnet r fr f Hfrom Hfirst Hshort evt a Hreply Ha Hr cmd word q reason w Hverb Hq) as [Hbits _].
  unfold admin_entry. rewrite Htext, (bind_val _ _ _ _ _ (read_command_run text w Hnul)), Hread. cbv zeta.
  rewrite (reply_not_null evt a Hreply Ha), (bind_val _ _ _ _ _ (deref_reply h evt r a Hreply Hr w)).
  unfold run_priv_chk. by rewrite decide_False, (bind_val _ _ _ _ _ Hpriv) by done.
Qed.

Lemma announced_reason t : announced -> reason = Some t -> no_nul t.
Proof. intros [_ Hno Hread _ _ _ _ _ _ _ _ _ _] Ht. apply (reading_no_nul text cmd); [done|by rewrite <- Ht]. Qed.

Notation answer := (answer_request token (tge_get_chat_id evt) (tge_get_msg_id evt)).
Notation link := (link_text (from_id fr) f (last_name fr)).

(** C19: A command of an administrator about the author of the message replied to
    is announced with a link to the member, and with the reason given, escaped,
    when the API agrees, and also when the transfer failed; when the API
    refuses, its description is the answer, cut to the array.  The link has no
    more than 980 characters, and the link and the escape of the reason together
    no more than 986: with 987 the answer to an unban leaves the array
    ([unban_overruns]), and a longer reason is cut ([reason_cut]).  Memory
    suffices and no answer of Telegram is empty ([answered]). *)
Theorem command_announced :
  net_ok token -> (forall w, answered w) -> announced ->
  (forall t, reason = Some t -> (length link + length (Html.esc t) <= 986)%nat) ->
  exists pre, Forall (harmless token) pre /\
    (yes (w ++ pre) q ->
      admin_entry (Some token) h evt w = (Val 0, w ++ pre ++ [q; answer (link ++ bs " has been " ++ bs word ++ reason_text reason)])) /\
    (forall d, refused (w ++ pre) q d ->
      admin_entry (Some token) h evt w = (Val 0, w ++ pre ++ [q; answer (take 1023 (bs "Error: " ++ d))])).
Proof.
  intros Hnet Hans Han Hfit. destruct (announced_entry Hnet Han) as (pre & Hpre & ->).
  assert (Hreason : reason_fits link reason) by (intros t Ht; split; [by apply announced_reason|by apply Hfit]).
  destruct Han as [_ _ _ Hverb Hreply Ha Hr Hfrom Hfirst Hnames Hshort _ Hq].
  destruct (run_cmd_fits token h Hnet Hans r fr f Hfrom Hfirst Hshort evt a Hreply Ha Hr Hnames cmd word q reason (w ++ pre) Hverb Hq Hreason)
    as [Hyes Hno].
  exists pre. split; [done|]. split; [intros Hok; rewrite (Hyes Hok)|intros d Hok; rewrite (Hno d Hok)]; by rewrite <- app_assoc.
Qed.


(** The answer to an unban writes its terminator behind the array when the
    reason has just the wrong length. *)
Theorem unban_overruns t :
  net_ok token -> (forall w, answered w) -> announced -> cmd = ADM_CMD_UNBAN -> reason = Some t ->
  (length link + length (Html.esc t) = 987)%nat ->
  exists pre, Forall (harmless token) pre /\
    (yes (w ++ pre) q -> fst (admin_entry (Some token) h evt w) = Fault FBounds).
Proof.
  intros Hnet Hans Han Hcmd Ht Hlong. destruct (announced_entry Hnet Han) as (pre & Hpre & ->).
  pose proof (announced_reason t Han Ht) as Hno. exists pre. split; [done|].
  destruct Han as [_ _ _ Hverb Hreply Ha Hr Hfrom Hfirst Hnames Hshort _ Hq]. subst cmd. injection Hverb as <-.
  by apply (run_cmd_overruns token h Hnet Hans r fr f Hfrom Hfirst Hshort evt a Hreply Ha Hr ADM_CMD_UNBAN "unbanned!"%string q reason (w ++ pre) eq_refl Hq t).
Qed.
End Announced.

(** A sudoer commands about the author of the message, 50, and says why. *)
Definition demo_offender : tgevi_from := From 50 (Some (bs "Ada")) None None (replicate 4 Byte.x00) false.
Definition demo_mute : request :=
  Request (url_of demo_token (bs "restrictChatMember"))
    (restrict_json (RestrictCm (-100) 50 0 (Perm false false false false false false false false))) APP_JSON.
Definition demo_unban : request :=
  Request (url_of demo_token (bs "unbanChatMember")) (bs "chat_id=-100&user_id=50&only_if_banned=1") APP_X_WWW_FORM_URLENCODED.

Lemma demo_announced text cmd reason word q :
  no_nul text -> reading_of text = Command cmd reason -> verb cmd = Some word ->
  first_request demo_token cmd (-100) 50 8 = Some q ->
  @announced demo_admins_net demo_admins_lib demo_token (demo_store (demo_msg (bs "hi") 50 8 0)) (demo_msg text 243692601 9 100) []
    text cmd reason word 100 (demo_msg (bs "hi") 50 8 0) demo_offender (bs "Ada") q.
Proof.
  intros Htext Hread Hverb Hq. split; try done.
  - split; [by apply (bool_decide_unpack _)|intros l [=]].
  - apply (Nat.leb_le _ 980). vm_compute. reflexivity.
  - by left.
Qed.

(** A reason of [n] letters. *)
Definition demo_reason (n : Z) : list byte := replicate (Z.to_nat n) "a"%byte.
Definition demo_link : list byte := user_link 50 ++ bs "Ada</a>".

Lemma command_announced_witness :
  let evt := demo_msg (bs "/mute a&b") 243692601 9 100 in
  exists pre, @admin_entry demo_admins_net demo_admins_lib (Some demo_token) (demo_store (demo_msg (bs "hi") 50 8 0)) evt [] =
    (Val 0, pre ++ [demo_mute; answer_request demo_token (-100) 9 (demo_link ++ bs " has been muted!" ++ Byte.x0a :: bs "<b>Message:</b> a&amp;b")]).
Proof.
  intros evt.
  destruct (@command_announced demo_admins_net demo_admins_lib demo_token (demo_store (demo_msg (bs "hi") 50 8 0)) evt []
    (bs "/mute a&b") ADM_CMD_MUTE (Some (bs "a&b")) "muted!" 100 (demo_msg (bs "hi") 50 8 0) demo_offender (bs "Ada") demo_mute)
    as (pre & _ & Hyes & _).
  - apply demo_admins_ok.
  - apply demo_admins_answered.
  - apply demo_announced; [by apply (bool_decide_unpack _)|vm_compute; reflexivity..].
  - intros t [= <-]. apply (Nat.leb_le _ 986). vm_compute. reflexivity.
  - exists pre. rewrite Hyes; [reflexivity|]. exists (JBool true). split; reflexivity.
Defined.


Lemma unban_overruns_witness :
  let evt := demo_msg (bs "/unban " ++ demo_reason 954) 243692601 9 100 in
  fst (@admin_entry demo_admins_net demo_admins_lib (Some demo_token) (demo_store (demo_msg (bs "hi") 50 8 0)) evt []) = Fault FBounds.
Proof.
  intros evt.
  destruct (@unban_overruns demo_admins_net demo_admins_lib demo_token (demo_store (demo_msg (bs "hi") 50 8 0)) evt []
    (bs "/unban " ++ demo_reason 954) ADM_CMD_UNBAN (Some (demo_reason 954)) "unbanned!" 100 (demo_msg (bs "hi") 50 8 0) demo_offender (bs "Ada")
    demo_unban (demo_reason 954))
    as (pre & _ & Hyes).
  - apply demo_admins_ok.
  - apply demo_admins_answered.
  - apply demo_announced; [by apply (bool_decide_unpack _)|vm_compute; reflexivity|reflexivity|reflexivity].
  - reflexivity.
  - reflexivity.
  - apply Nat.eqb_eq. vm_compute. reflexivity.
  - apply Hyes. exists (JBool true). split; reflexivity.
Defined.
