(* ===== verification/AdminReport.v ===== *)
(** * What a report says

    exec_usr_cmd_report and construct_report_reply of modules/003_admin/admin.c:
    the list of the administrators called, and the lists that leave the array. *)
From S2P Require Import Prelude CString Json TgEvent TgPrint TgApi TgApiSpec TgRequests ModCommon Admin AdminRead AdminPriv AdminSpec AdminAnswer.

(** ** The text *)
Definition report_line (a : tga_chat_member) : list byte :=
  let u := member_user a in
  (bs "Cc: " ++ user_link (u_id u)) ++ Html.esc (cut (default [] (u_first_name u))) ++ bs "</a>" ++ [Byte.x0a].

(** Bots are not called. *)
Definition humans (admins : list tga_chat_member) : list tga_chat_member :=
  List.filter (fun a => negb (u_is_bot (member_user a))) admins.

Definition report_lines (admins : list tga_chat_member) : list byte := concat (report_line <$> humans admins).

Definition report_text (admins : list tga_chat_member) : list byte :=
  (bs "Reported to admins!" ++ [Byte.x0a]) ++ report_lines admins.

Definition has_name (a : tga_chat_member) : Prop := exists f, u_first_name (member_user a) = Some f /\ no_nul f.

(** One byte per line is set aside and not used. *)
Definition lines_room (admins : list tga_chat_member) : nat := length (report_lines admins) + length (humans admins).

Lemma report_line_named a f :
  u_first_name (member_user a) = Some f ->
  report_line a = (bs "Cc: " ++ user_link (u_id (member_user a))) ++ Html.esc (cut f) ++ bs "</a>" ++ [Byte.x0a].
Proof. unfold report_line. by intros ->. Qed.

Lemma report_loop_run n admins pre buf sps :
  filled n (pre ++ [Byte.x00]) buf -> Forall has_name (humans admins) ->
  (length pre + length (report_lines admins) < n)%nat -> Z.of_nat n < 2 ^ 62 ->
  Z.of_nat (lines_room admins) + 2 <= sps < 2 ^ 62 ->
  exists buf', report_loop (Z.of_nat (length pre)) sps admins buf = (Val tt, buf') /\
    filled n (pre ++ report_lines admins ++ [Byte.x00]) buf'.
Proof.
  revert pre buf sps. induction admins as [|a admins IH]; intros pre buf sps Hf Hnames Hn Hn62 Hsps; [by exists buf|].
  cbn [report_loop]. cbv zeta. unfold lines_room, report_lines, humans in *. cbn [List.filter] in *.
  destruct (u_is_bot (member_user a)); cbn [negb] in *; [by apply IH|].
  cbn [fmap list_fmap concat] in *. apply Forall_cons in Hnames as [(f & Hname & _) Hnames].
  pose proof (report_line_named a f Hname) as Hline. set (rest := concat (report_line <$> _)) in *.
  set (head := bs "Cc: " ++ user_link _) in *. set (e := Html.esc (cut f)) in *. set (line := report_line a) in *.
  rewrite (length_app line) in Hn, Hsps. cbn [length] in Hsps.
  assert (Hl : length line = (length head + length e + 5)%nat).
  { rewrite Hline, (length_app head), (length_app e), (length_app (bs "</a>")), length_bs. cbn [length String.length]. lia. }
  rewrite (u64_small (sps - 6)) by lia. apply filled_weaken in Hf.
  destruct (filled_snprintf n pre buf head (sps - 6)) as (buf1 & Hrun1 & Hf1); [done|lia|lia|].
  rewrite (bind_val _ _ _ _ _ Hrun1). rewrite app_assoc in Hf1. apply filled_weaken in Hf1.
  unfold name_arg. rewrite Hname. erewrite bind_val by reflexivity. cbv beta iota.
  rewrite (u64_small (Z.of_nat (length pre) + _)), (u64_small (sps - 6 - _)) by lia.
  rewrite <- Nat2Z.inj_add, <- (length_app pre head).
  destruct (html_step n (pre ++ head) buf1 f (sps - 6 - Z.of_nat (length head))) as (buf2 & Hrun2 & Hf2);
    [done|rewrite length_app; fold e; lia|fold e; lia|]. fold e in Hrun2, Hf2.
  rewrite (bind_val _ _ _ _ _ Hrun2). rewrite decide_True by lia. rewrite Z.add_simpl_r.
  rewrite (u64_small (sps - 6 - _ - _)), (u64_small (Z.of_nat (length (pre ++ head)) + _)) by (rewrite ?(length_app pre); lia).
  rewrite <- Nat2Z.inj_add, <- (length_app (pre ++ head) e).
  destruct (filled_pokes n ((pre ++ head) ++ e) buf2 (bs "</a>" ++ [Byte.x0a; Byte.x00])) as (buf3 & Hrun3 & Hf3);
    [done|rewrite !length_app, !length_bs; cbn [length String.length]; lia|].
  rewrite (bind_val _ _ _ _ _ Hrun3).
  set (pre' := (((pre ++ head) ++ e) ++ bs "</a>" ++ [Byte.x0a])).
  assert (Hpre' : length pre' = (length pre + length head + length e + 5)%nat).
  { unfold pre'. rewrite (length_app ((pre ++ head) ++ e)), (length_app (pre ++ head)), (length_app pre), length_app, length_bs.
    cbn [length String.length]. lia. }
  assert (Hpre0 : pre' ++ [Byte.x00] = ((pre ++ head) ++ e) ++ bs "</a>" ++ [Byte.x0a; Byte.x00])
    by (unfold pre'; by rewrite <- !app_assoc).
  assert (Hpos : u64 (Z.of_nat (length ((pre ++ head) ++ e)) + 5) = Z.of_nat (length pre')).
  { rewrite Hpre', (length_app (pre ++ head)), (length_app pre), u64_small; lia. }
  rewrite Hpos. destruct (IH pre' buf3 (sps - 6 - Z.of_nat (length head) - Z.of_nat (length e))) as (buf4 & Hrun4 & Hf4);
    [by rewrite Hpre0|done|lia|done|lia|].
  exists buf4. split; [exact Hrun4|]. unfold pre' in Hf4. rewrite Hline. by rewrite <- !app_assoc in *.
Qed.

Lemma report_reply_run admins buf :
  length buf = Z.to_nat 4096 -> Forall has_name (humans admins) -> (length (report_text admins) + length (humans admins) <= 4094)%nat ->
  exists junk, construct_report_reply 4096 admins buf = (Val tt, report_text admins ++ Byte.x00 :: junk).
Proof.
  intros Hbuf Hnames Hroom. unfold construct_report_reply, report_text in *. set (title := bs "Reported to admins!" ++ [Byte.x0a]) in *.
  assert (Ht : length title = 20%nat) by reflexivity. rewrite (length_app title) in Hroom.
  destruct (filled_pokes (Z.to_nat 4096) [] buf (bs "Reported to admins!" ++ [Byte.x0a; Byte.x00])) as (buf1 & Hrun1 & Hf1);
    [split; [apply prefix_nil|done]|cbn [length]; rewrite length_app, length_bs; cbn [length String.length]; lia|].
  change (Z.of_nat (length [])) with 0 in Hrun1. rewrite (bind_val _ _ _ _ _ Hrun1).
  rewrite (u64_small (4096 - 20)) by lia. change 20 with (Z.of_nat (length title)) at 1.
  destruct (report_loop_run (Z.to_nat 4096) admins title buf1 (4096 - 20)) as (buf2 & Hrun2 & [[junk Hb] _]);
    [exact Hf1|done|lia|lia|unfold lines_room; lia|].
  exists junk. rewrite Hrun2, Hb. by rewrite <- !app_assoc.
Qed.

Lemma report_text_plain admins : Forall has_name (humans admins) -> no_nul (report_text admins).
Proof.
  intros Hn. unfold report_text. apply Forall_app. split; [by apply (bool_decide_unpack _)|].
  unfold report_lines. induction Hn as [|a l (f & Hf & Hp) _ IH]; [constructor|]. cbn [fmap list_fmap concat].
  apply Forall_app. split; [|exact IH]. rewrite (report_line_named a f Hf). unfold user_link.
  repeat (apply Forall_app; split); try (by apply (bool_decide_unpack _)); [|by apply esc_no_nul, Forall_take].
  unfold num. rewrite <- enc_dec. apply Url.enc_no_nul.
Qed.

Section Report.
Context `{Net} `{JsonLib} (token : list byte) (h : heap).
Hypothesis Hnet : net_ok token.
Hypothesis Hans : forall w, answered w.

(** The administrators of the group [chat] as the module has them. *)
Definition admins_of (w : list request) (chat : Z) (admins : list tga_chat_member) : Prop :=
  exists chunks obj arr c, t_answer (net w) (ask token chat) = (chunks, 0) /\ calloc_ok (w ++ [ask token chat]) = true /\
    json_tokener_parse (c_str (concat chunks)) = obj /\ obj <> JNull /\
    parse_tga_admins true obj (w ++ [ask token chat]) = (Val (0, arr, c), w ++ [ask token chat]) /\
    take (Z.to_nat c) arr = admins.

Lemma report_run evt reply_to target w admins :
  admins_of w (tge_get_chat_id evt) admins -> Forall has_name (humans admins) ->
  (length (report_text admins) + length (humans admins) <= 4094)%nat ->
  (if is_null reply_to then target = evt else forall s : list request, deref h reply_to s = (Val target, s)) ->
  exec_usr_cmd_report (Some token) h evt reply_to w =
    (Val 0, w ++ [ask token (tge_get_chat_id evt);
                  answer_request token (tge_get_chat_id target) (tge_get_msg_id target) (report_text admins)]).
Proof.
  intros (chunks & obj & arr & c & Hq & Hcal & Hobj & Hnull & Hparse & Hadm) Hnames Hroom Htarget.
  unfold exec_usr_cmd_report. cbv zeta. destruct (ask_run token Hnet (tge_get_chat_id evt) w) as (ret & c' & Hrun & Hout).
  rewrite (bind_val _ _ _ _ _ Hrun). cbv beta iota. fold (ask token (tge_get_chat_id evt)) in *.
  set (q := ask _ _) in *. destruct (Hans w) as [Hluck Hne]. specialize (Hne q).
  unfold outcome in Hout. rewrite Hq in *. cbn [fst] in Hne.
  destruct Hout as [[? _]|(Hsent & -> & Hterm)]; [done|]. rewrite Hsent.
  destruct (Hterm Hluck Hne) as [r Hbody]. rewrite Hbody. rewrite decide_False by tauto.
  destruct (strlen_app_nul (concat chunks) r) as (n & Hn & Htake). rewrite Hn.
  destruct (report_reply_run admins (stack (Z.to_nat 4096))) as [junk Hreply]; [apply length_stack|done|done|].
  assert (Hlocal : forall w' : list request, ('(_, buf) ← local (stack (Z.to_nat 4096)) (construct_report_reply 4096 admins); mret buf) w' =
    (Val (report_text admins ++ Byte.x00 :: junk), w')).
  { intros w'. unfold local. erewrite bind_val by (rewrite Hreply; reflexivity). reflexivity. }
  erewrite bind_val; [|erewrite bind_val by reflexivity; rewrite Htake, Hobj; destruct obj; try done;
    rewrite (bind_val get _ _ _ _ eq_refl), Hcal, (bind_val _ _ _ _ _ Hparse); cbv beta iota;
    rewrite decide_False by tauto; rewrite Hadm; apply Hlocal].
  assert (Hevt : (if is_null reply_to then mret evt else deref h reply_to) (w ++ [q]) = (Val target, w ++ [q])).
  { destruct (is_null reply_to); [by rewrite Htarget|apply Htarget]. }
  rewrite (bind_val _ _ _ _ _ Hevt), send_reply_run; [by rewrite <- app_assoc|done|done|by apply report_text_plain|lia].
Qed.
End Report.

(** C21: A mention of the admins, or the command report, by anybody, asks who they are
    and answers with the list of them: bots are left out, names are escaped and
    cut to 255 bytes, and the message replied to is answered, if there is one.
    The list must fit the array with a byte per line to spare, and each of them
    has a first name. *)
Theorem report_answered `{Net} `{JsonLib} token h evt w text target admins :
  net_ok token -> (forall w, answered w) ->
  tge_get_text evt = Some text -> no_nul text -> reading_of text = Mention \/ reading_of text = Command USR_CMD_REPORT None ->
  (if is_null (tge_get_reply_to evt) then target = evt
   else exists a, tge_get_reply_to evt = PEvt a /\ blocks h !! a = Some (BEvent target)) ->
  admins_of token w (tge_get_chat_id evt) admins -> Forall has_name (humans admins) ->
  (length (report_text admins) + length (humans admins) <= 4094)%nat ->
  admin_entry (Some token) h evt w =
    (Val 0, w ++ [ask token (tge_get_chat_id evt);
                  answer_request token (tge_get_chat_id target) (tge_get_msg_id target) (report_text admins)]).
Proof.
  intros Hnet Hans Htext Hnul Hread Htarget Hadm Hnames Hroom.
  assert (Hrun : forall t, run_priv_chk (Some token) h evt (tge_get_reply_to evt) USR_CMD_REPORT t None w =
    exec_usr_cmd_report (Some token) h evt (tge_get_reply_to evt) w) by done.
  assert (Hderef : is_null (tge_get_reply_to evt) = false ->
    forall s : list request, deref h (tge_get_reply_to evt) s = (Val target, s)).
  { intros Hn. rewrite Hn in Htarget. destruct Htarget as (a & -> & Ha). intros s. unfold deref. by rewrite Ha. }
  unfold admin_entry. rewrite Htext, (bind_val _ _ _ _ _ (read_command_run text w Hnul)). cbv zeta.
  transitivity (exec_usr_cmd_report (Some token) h evt (tge_get_reply_to evt) w).
  - destruct Hread as [-> | ->]; [apply Hrun|]. destruct (is_null (tge_get_reply_to evt)) eqn:Hn; [apply Hrun|].
    rewrite (bind_val _ _ _ _ _ (Hderef eq_refl w)). apply Hrun.
  - apply (report_run token h Hnet Hans); [done..|]. destruct (is_null (tge_get_reply_to evt)) eqn:Hn; [done|by apply Hderef].
Qed.

(** ** Lists that leave the array

    Once fewer than six bytes are left, the space wraps around and no longer
    stops the next line. *)
Lemma snprintf_overrun pos size s buf :
  0 <= pos <= Z.of_nat (length buf) -> Z.of_nat (length s) < size -> s <> [] ->
  Z.of_nat (length buf) <= pos + Z.of_nat (length s) -> fst (snprintf pos size s buf) = Fault FBounds.
Proof.
  intros Hp Hs Hne Hl. unfold snprintf. rewrite decide_False by lia. rewrite Z.min_l, Nat2Z.id, take_ge by lia.
  assert (Hfirst : fst ((pokes pos s;; poke (pos + Z.of_nat (length s)) Byte.x00) buf) = Fault FBounds).
  { destruct (decide (Z.of_nat (length buf) = pos + Z.of_nat (length s))) as [Heq|Hgt].
    - pose proof (pokes_app (take (Z.to_nat pos) buf) (drop (Z.to_nat pos) buf) pos s) as Hrun.
      rewrite take_drop in Hrun. rewrite (bind_val _ _ _ _ _ (Hrun ltac:(rewrite length_take; lia) ltac:(rewrite length_drop; lia))).
      rewrite poke_oob; [done|]. rewrite !length_app, length_take, !length_drop. lia.
    - pose proof (pokes_oob pos s buf ltac:(lia) ltac:(lia) Hne) as Hf.
      destruct (pokes pos s buf) as [r b] eqn:Hrun. cbn [fst] in Hf. subst r. by rewrite (bind_fault _ _ _ _ _ Hrun). }
  destruct ((pokes pos s;; poke (pos + Z.of_nat (length s)) Byte.x00) buf) as [r b] eqn:Hrun. cbn [fst] in Hfirst.
  subst r. by rewrite (bind_fault _ _ _ _ _ Hrun).
Qed.

Lemma user_link_bound id : (25 <= length (user_link id))%nat.
Proof.
  unfold user_link. rewrite !length_app, !length_bs. cbn [length dq String.length].
  assert (num id <> []) as Hn. { unfold num, dec. destruct (id <? 0); [done|apply udec_nonempty]. }
  destruct (num id); [done|]. cbn [length]. lia.
Qed.

(** The line of an administrator for whom no space is left is written behind
    the array. *)
Theorem report_wraps a admins pos sps buf :
  u_is_bot (member_user a) = false -> 0 <= sps < 6 -> 0 <= pos <= Z.of_nat (length buf) ->
  Z.of_nat (length buf) <= pos + 29 ->
  fst (report_loop pos sps (a :: admins) buf) = Fault FBounds.
Proof.
  intros Hbot Hsps Hpos Hbuf. cbn [report_loop]. rewrite Hbot. cbv zeta.
  pose proof (user_link_bound (u_id (member_user a))) as Hmin. pose proof (user_link_length (u_id (member_user a))) as Hmax.
  set (head := bs "Cc: " ++ user_link _).
  assert (Hh : length head = (4 + length (user_link (u_id (member_user a))))%nat) by (unfold head; by rewrite length_app).
  assert (Hwrap : u64 (sps - 6) = sps - 6 + 2 ^ 64).
  { unfold u64. rewrite <- (Z.mod_add _ 1) by lia. apply Z.mod_small. lia. }
  pose proof (snprintf_overrun pos (u64 (sps - 6)) head buf ltac:(lia) ltac:(lia) ltac:(by destruct head) ltac:(lia)) as Hf.
  destruct (snprintf pos (u64 (sps - 6)) head buf) as [r b] eqn:Hrun. cbn [fst] in Hf. subst r. by rewrite (bind_fault _ _ _ _ _ Hrun).
Qed.

(** Five bytes are left of an array of 40. *)
Lemma report_wraps_witness :
  fst (report_loop 35 5 [ChatMember (User 7 (Some (bs "A")) None None false (replicate 4 Byte.x00)) ADMINISTRATOR] (replicate 40 "?"%byte)) = Fault FBounds.
Proof. apply report_wraps; [reflexivity|lia|vm_compute; split; discriminate|vm_compute; discriminate]. Defined.

(** An entry without a name, as parse_tga_admins leaves it for one it skipped. *)
Theorem report_nameless buf :
  length buf = Z.to_nat 4096 -> fst (construct_report_reply 4096 [member_zero] buf) = Fault FNull.
Proof.
  intros Hb. assert (Hn : Z.of_nat (Z.to_nat 4096) = 4096) by reflexivity. unfold construct_report_reply.
  set (title := bs "Reported to admins!" ++ [Byte.x0a; Byte.x00]). assert (Ht : length title = 21%nat) by reflexivity.
  destruct (filled_pokes (Z.to_nat 4096) [] buf title) as (buf1 & Hrun1 & Hf1); [split; [apply prefix_nil|done]|cbn [length]; lia|].
  change (Z.of_nat (length [])) with 0 in Hrun1. rewrite (bind_val _ _ _ _ _ Hrun1). cbn [report_loop member_zero member_user u_is_bot u_id].
  cbv zeta. rewrite (u64_small (4096 - 20)), (u64_small (4096 - 20 - 6)) by lia. set (head := bs "Cc: " ++ _). assert (Hh : length head = 29%nat) by reflexivity.
  destruct (filled_snprintf (Z.to_nat 4096) (take 20 title) buf1 head (4096 - 20 - 6)) as (buf2 & Hrun2 & _);
    [by apply (filled_weaken _ (take 20 title) (drop 20 title)); rewrite take_drop|rewrite length_take; lia|lia|].
  change (Z.of_nat (length (take 20 title))) with 20 in Hrun2. by rewrite (bind_val _ _ _ _ _ Hrun2).
Qed.

(** Two administrators, one of them a bot. *)
Definition demo_member (id : Z) (name : string) (bot : bool) : json :=
  JObject [("user", JObject [("id", JInt id); ("is_bot", JBool bot); ("first_name", JString (bs name))]);
           ("status", JString (bs "administrator"))].
Definition demo_named : json :=
  JObject [("ok", JBool true); ("result", JArray [demo_member 42 "A<b>" false; demo_member 43 "Bot" true])].
Definition demo_report_lib : JsonLib := demo_lib (asz (bs "A")) demo_named.

Lemma report_answered_witness :
  let evt := demo_msg (bs "@admin look") 7 9 100 in
  @admin_entry demo_admins_net demo_report_lib (Some demo_token) (demo_store (demo_msg (bs "hi") 50 8 0)) evt [] =
    (Val 0, [ask demo_token (-100);
             answer_request demo_token (-100) 8
               (bs "Reported to admins!" ++ [Byte.x0a] ++ bs "Cc: " ++ user_link 42 ++ bs "A&lt;b&gt;</a>" ++ [Byte.x0a])]).
Proof.
  intros evt.
  pose proof (@report_answered demo_admins_net demo_report_lib demo_token (demo_store (demo_msg (bs "hi") 50 8 0)) evt []
    (bs "@admin look") (demo_msg (bs "hi") 50 8 0)
    [ChatMember (User 42 (Some (bs "A<b>")) None None false (replicate 4 Byte.x00)) ADMINISTRATOR;
     ChatMember (User 43 (Some (bs "Bot")) None None true (replicate 4 Byte.x00)) ADMINISTRATOR]) as H.
  etransitivity; [apply H|reflexivity].
  - apply demo_admins_ok.
  - apply demo_admins_answered.
  - reflexivity.
  - by apply (bool_decide_unpack _).
  - left. vm_compute. reflexivity.
  - exists 100. split; reflexivity.
  - eexists _, _, _, _. split; [reflexivity|]. split; [reflexivity|]. split; [reflexivity|]. split; [discriminate|].
    split; reflexivity.
  - repeat constructor. exists (bs "A<b>"). split; [reflexivity|]. by apply (bool_decide_unpack _).
  - apply (Nat.leb_le _ 4094). vm_compute. reflexivity.
Defined.
