(* ===== verification/Translate.v ===== *)
(** * The translate module: modules/002_translate/translate.c

    A command is turned into a form in a local array; a web service answers it
    with JSON, whose text is sent back to the group. *)
From S2P Require Import Prelude CString Json TgEvent TgApi ModCommon.

Definition CODE_BUFFER_SIZE : Z := 0x20.
Definition TEXT_BUFFER_SIZE : Z := 0x8000.
Definition CURL_BUFFER_SIZE : Z := TEXT_BUFFER_SIZE + 0x1000.
Definition TEXT_MAX : Z := TEXT_BUFFER_SIZE / 4 - 1.

(** [strnlen(text, TEXT_BUFFER_SIZE / 4u)] of a C string. *)
Definition text_strnlen (text : list byte) : nat := Nat.min (Z.to_nat (TEXT_BUFFER_SIZE / 4)) (length text).

(** The loops over a language code: its length and the text behind it, unless
    it is too long.  A pointer into the text is the characters from it on. *)
Fixpoint code_loop (text : list byte) (rcx : nat) : option (nat * list byte) :=
  match text with
  | [] => Some (rcx, [])
  | c :: text' =>
      if is_ws c then Some (rcx, text)
      else
        let rcx := S rcx in
        if decide (Z.of_nat rcx >= CODE_BUFFER_SIZE) then None else code_loop text' rcx
  end.

(** urlencode to [payload_ptr], and [payload_ptr += strlen(payload_ptr)]. *)
Definition put_text (payload_ptr : Z) (s : list byte) (len : nat) : M (list byte) Z :=
  at_ptr payload_ptr (Url.urlencode_into (asz s) len true);;
  buf ← get;
  n ← lift FBounds (strlen (drop (Z.to_nat payload_ptr) buf));
  mret (payload_ptr + Z.of_nat n).

Definition cancel {A} : M (list byte) A := exit (- ECANCELED).

(** From the labels [out_replied_2_arg], [out_replied_1_arg] and
    [out_replied_0_arg] on; [rt] is the replied-to event with its text. *)
Definition out_replied_2_arg (rt : option (tgev * cstr)) (payload_ptr : Z) : M (list byte) (Z * tgev) :=
  match rt with
  | Some (reply_to, Some rt_text) =>
      let rt_text_len := text_strnlen rt_text in
      if decide (Z.of_nat rt_text_len > TEXT_MAX) then cancel
      else
        pokes payload_ptr (bs "&text=" ++ [Byte.x00; Byte.x00]);;
        payload_len ← put_text (payload_ptr + 6) rt_text rt_text_len;
        mret (payload_len, reply_to)
  | _ => cancel
  end.

Definition out_replied_1_arg (rt : option (tgev * cstr)) (payload_ptr : Z) : M (list byte) (Z * tgev) :=
  pokes payload_ptr (bs "&fr=auto");;
  out_replied_2_arg rt (payload_ptr + 8).

Definition out_replied_0_arg (rt : option (tgev * cstr)) : M (list byte) (Z * tgev) :=
  pokes 0 (bs "to=en" ++ [Byte.x00; Byte.x00; Byte.x00]);;
  out_replied_1_arg rt 5.

(** The arguments, from the first language code on. *)
Definition parse_args (text : list byte) (text_len : nat) (start : list byte) (rt : option (tgev * cstr)) (evt : tgev) :
    M (list byte) (Z * tgev) :=
  match code_loop text 0 with
  | None => cancel
  | Some (rcx, rest) =>
      pokes 0 (bs "fr=" ++ [Byte.x00]);;
      payload_ptr ← put_text 3 text rcx;
      match skip_ws rest with
      | [] => pokes 0 (bs "to");; out_replied_1_arg rt payload_ptr
      | text =>
          match code_loop text 0 with
          | None => cancel
          | Some (rcx, rest) =>
              pokes payload_ptr (bs "&to=");;
              payload_ptr ← put_text (payload_ptr + 4) text rcx;
              match skip_ws rest with
              | [] => out_replied_2_arg rt payload_ptr
              | text =>
                  pokes payload_ptr (bs "&text=" ++ [Byte.x00; Byte.x00]);;
                  let payload_len := (text_len - (length start - length text))%nat in
                  payload_len ← put_text (payload_ptr + 6) text payload_len;
                  mret (payload_len, evt)
              end
          end
      end
  end.

(** The payload is in the array; the value is its length and the event that is
    answered. *)
Definition parse_command (h : heap) (text : list byte) (evt : tgev) : M (list byte) (Z * tgev) :=
  let start := text in
  let reply_to := tge_get_reply_to evt in
  let text_len := text_strnlen text in
  if decide (Z.of_nat text_len > TEXT_MAX) then cancel
  else
    let text := match text with c :: text' => if is_prefix_char c then text' else text | [] => text end in
    match text with
    | c1 :: c2 :: text =>
        if decide (lower c1 <> "t"%byte) then cancel
        else if decide (lower c2 <> "r"%byte /\ lower c2 <> "l"%byte) then cancel
        else
          rt ← (if is_null reply_to then mret None
                else reply_to ← deref h reply_to; mret (Some (reply_to, tge_get_text reply_to)));
          match text with
          | [] => out_replied_0_arg rt
          | c :: text =>
              if negb (is_ws c) then cancel
              else
                match skip_ws text with
                | [] => out_replied_0_arg rt
                | text => parse_args text text_len start rt evt
                end
          end
    | _ => cancel
    end.

(** ** The web service *)
Record tr_wr := TrWr { tr_len : Z; res_text : list byte }.
#[export] Instance eta_tr_wr : Eta tr_wr := fun r => TrWr (tr_len r) (res_text r).

Definition on_res_text {A} (m : M (list byte) A) : M tr_wr A :=
  zoom res_text (fun b s => s <| res_text := b |>) m.

Definition translate_write_callback (data : list byte) : M tr_wr Z :=
  mem ← get;
  let add_len := Z.of_nat (length data) in
  let len := tr_len mem in
  if decide (u64 (add_len + len) >= CURL_BUFFER_SIZE - 1) then mret 0
  else
    on_res_text (pokes len data);;
    modify (fun mem => mem <| tr_len := u64 (len + add_len) |>);;
    mret add_len.

(** libcurl's use of the callback. *)
Fixpoint tr_deliver (chunks : list (list byte)) : M tr_wr unit :=
  match chunks with
  | [] => mret tt
  | d :: chunks' =>
      n ← translate_write_callback d;
      if decide (n = Z.of_nat (length d)) then tr_deliver chunks' else mret tt
  end.

Definition tr_url : list byte := bs "https://api.gnuweeb.org/google_translate.php".

Section Translate.
Context `{Net} `{JsonLib} (token : cstr) (h : heap).

(** The code, and [res_text]. *)
Definition fetch_api (payload : list byte) (payload_len : Z) : M (list request) (Z * list byte) :=
  w ← get;
  let t := net w in
  let mem := TrWr 0 (stack (Z.to_nat CURL_BUFFER_SIZE)) in
  if negb (t_init t) then mret (- ENOMEM, res_text mem)
  else if decide (Z.of_nat (length payload) < payload_len) then faulty FBounds
  else
    let q := Request tr_url (take (Z.to_nat payload_len) payload) APP_X_WWW_FORM_URLENCODED in
    let '(chunks, cres) := t_answer t q in
    modify (fun w => w ++ [q]);;
    match tr_deliver chunks mem with
    | (Val _, mem) =>
        if decide (cres <> 0) then mret (- EBADMSG, res_text mem)
        else
          '(_, buf) ← local (res_text mem) (poke (tr_len mem) Byte.x00);
          mret (0, buf)
    | (Exit c, _) => exit c
    | (Fault f, _) => faulty f
    end.

Definition send_reply_text (reply_text : list byte) (evt : tgev) : M (list request) Z :=
  with_handle token (tga_send_msg (SendMsg (tge_get_chat_id evt) (tge_get_msg_id evt) reply_text PARSE_MODE_OFF));;
  mret 0.

(** What the answer says. *)
Definition answer_text (obj : json) : list byte :=
  match obj with
  | JNull => bs "Error: Invalid JSON data from API"
  | _ =>
      match json_object_object_get_ex obj "result" with
      | Some res => default (bs "Error: `result` is NULL") (json_object_get_string res)
      | None =>
          match json_object_object_get_ex obj "error" with
          | Some res => default (bs "Error: unknown error!") (json_object_get_string res)
          | None => bs "Error: unknown error!"
          end
      end
  end.

Definition handle_translate_module (payload : list byte) (payload_len : Z) (evt : tgev) : M (list request) Z :=
  '(ret, res_text) ← fetch_api payload payload_len;
  if decide (ret <> 0) then mret ret
  else
    len ← lift FBounds (strlen res_text);
    send_reply_text (asz (answer_text (json_tokener_parse (take len res_text)))) evt.

Definition do_translate (evt : tgev) : M (list request) Z := fun w =>
  match tge_get_text evt with
  | None => (Val (- ECANCELED), w)
  | Some text =>
      match parse_command h text evt (stack (Z.to_nat (TEXT_BUFFER_SIZE + CODE_BUFFER_SIZE * 2))) with
      | (Val (payload_len, evt), payload) => handle_translate_module payload payload_len evt w
      | (Exit ret, _) => (Val ret, w)
      | (Fault f, _) => (Fault f, w)
      end
  end.

Definition translate_entry (evt : tgev) : M (list request) Z := do_translate evt.
End Translate.
