(* ===== verification/TranslateSpec.v ===== *)
(** * What the translate module asks for

    The form it sends is a function of the words of the command and of the
    replied-to message, and a receiver reads it back; the array is never left. *)
From S2P Require Import Prelude CString Json TgEvent TgPrint TgApi TgApiSpec TgRequests ModCommon Translate.

(** ** The reference *)
Notation fields := (list (list byte * list byte)).

Definition replied (rt : option (tgev * cstr)) (fs : fields) : option (fields * tgev) :=
  match rt with
  | Some (r, Some s) => if decide (Z.of_nat (length s) <= TEXT_MAX) then Some (fs ++ [(bs "text", s)], r) else None
  | _ => None
  end.

Definition tr_args (args : list byte) (rt : option (tgev * cstr)) (evt : tgev) : option (fields * tgev) :=
  let fr := word args in
  if decide (32 <= length fr)%nat then None
  else
    match skip_ws (drop (length fr) args) with
    | [] => replied rt [(bs "to", fr); (bs "fr", bs "auto")]
    | rest =>
        let to := word rest in
        if decide (32 <= length to)%nat then None
        else
          match skip_ws (drop (length to) rest) with
          | [] => replied rt [(bs "fr", fr); (bs "to", to)]
          | msg => Some ([(bs "fr", fr); (bs "to", to); (bs "text", msg)], evt)
          end
    end.

(** The form for a text, and the event that is answered. *)
Definition tr_spec (text : list byte) (rt : option (tgev * cstr)) (evt : tgev) : option (fields * tgev) :=
  let t := match text with c :: t => if is_prefix_char c then t else text | [] => text end in
  match t with
  | c1 :: c2 :: t =>
      if decide (lower c1 = "t"%byte /\ (lower c2 = "r"%byte \/ lower c2 = "l"%byte)) then
        match t with
        | [] => replied rt [(bs "to", bs "en"); (bs "fr", bs "auto")]
        | c :: t =>
            if is_ws c then
              match skip_ws t with
              | [] => replied rt [(bs "to", bs "en"); (bs "fr", bs "auto")]
              | args => tr_args args rt evt
              end
            else None
        end
      else None
  | _ => None
  end.

(** ** The pieces *)
Notation arr := (Z.to_nat (TEXT_BUFFER_SIZE + CODE_BUFFER_SIZE * 2)).

Lemma arr_size : Z.of_nat arr = 32832.
Proof. reflexivity. Qed.

Lemma code_loop_spec text rcx :
  code_loop text rcx =
    if decide ((rcx + length (word text) < 32)%nat \/ word text = []) then
      Some ((rcx + length (word text))%nat, drop (length (word text)) text)
    else None.
Proof.
  revert rcx. induction text as [|c text IH]; intros rcx; cbn [code_loop word].
  { rewrite decide_True by (by right). simpl. by rewrite Nat.add_0_r. }
  destruct (is_ws c); [rewrite decide_True by (by right); simpl; by rewrite Nat.add_0_r|].
  change CODE_BUFFER_SIZE with 32. cbn [length drop].
  destruct (decide (Z.of_nat (S rcx) >= 32)) as [Hge|Hlt].
  - rewrite decide_False; [done|]. intros [|]; [lia|done].
  - rewrite IH. replace (S rcx + length (word text))%nat with (rcx + S (length (word text)))%nat by lia.
    destruct (decide (rcx + S (length (word text)) < 32)%nat) as [Hl|Hl].
    + by rewrite !decide_True by (by left).
    + destruct (decide (word text = [])) as [He|He].
      * exfalso. rewrite He in Hl. simpl in Hl. lia.
      * rewrite !decide_False; [done| |]; intros [|]; done.
Qed.

Lemma put_text_run pre s len buf :
  (len <= length s)%nat -> Z.of_nat (length pre) + 3 * Z.of_nat len < 32832 -> filled arr pre buf ->
  exists buf', put_text (Z.of_nat (length pre)) s len buf =
      (Val (Z.of_nat (length (pre ++ Url.enc true (take len s)))), buf') /\
    filled arr ((pre ++ Url.enc true (take len s)) ++ [Byte.x00]) buf'.
Proof.
  intros Hlen Hroom [[rest ->] Hl]. rewrite length_app in Hl. pose proof arr_size as Harr.
  pose proof (Url.enc_length true (take len s)) as Henc. rewrite length_take in Henc.
  assert (Htake : take len (asz s) = take len s) by (unfold asz; by rewrite take_app_le by lia).
  eexists. unfold put_text, at_ptr. munfold. rewrite Nat2Z.id, drop_app_length, take_app_length.
  rewrite Url.urlencode_into_spec; rewrite ?Htake; [|rewrite length_asz; lia|lia].
  rewrite drop_app_length. unfold asz. rewrite <- app_assoc. cbn [app].
  rewrite strlen_asz by apply Url.enc_no_nul. unfold lift. munfold. rewrite length_app, Nat2Z.inj_add.
  split; [reflexivity|]. split.
  - eexists. rewrite <- !app_assoc. cbn [app]. reflexivity.
  - rewrite !length_app. cbn [length]. rewrite length_drop. lia.
Qed.

Definition done_as (o : option (fields * tgev)) (r : out (Z * tgev) * list byte) : Prop :=
  match o with
  | Some (fs, e) => fst r = Val (Z.of_nat (length (form fs)), e) /\ filled arr (form fs ++ [Byte.x00]) (snd r)
  | None => fst r = Exit (- ECANCELED)
  end.

Lemma text_strnlen_le s : Z.of_nat (text_strnlen s) > TEXT_MAX <-> Z.of_nat (length s) > TEXT_MAX.
Proof.
  unfold text_strnlen. assert (Z.of_nat (Z.to_nat (TEXT_BUFFER_SIZE / 4)) = 8192) by reflexivity.
  change TEXT_MAX with 8191. lia.
Qed.

Lemma text_strnlen_eq s : Z.of_nat (length s) <= TEXT_MAX -> text_strnlen s = length s.
Proof.
  unfold text_strnlen. assert (Z.of_nat (Z.to_nat (TEXT_BUFFER_SIZE / 4)) = 8192) by reflexivity.
  change TEXT_MAX with 8191. lia.
Qed.

(** The last field, from the text of a message. *)
Lemma text_field_run fs s len buf :
  fs <> [] -> (length (form fs) <= 200)%nat -> (len <= length s)%nat -> Z.of_nat len <= TEXT_MAX ->
  filled arr (form fs) buf ->
  exists buf', (pokes (Z.of_nat (length (form fs))) (bs "&text=" ++ [Byte.x00; Byte.x00]);;
      put_text (Z.of_nat (length (form fs)) + 6) s len) buf =
      (Val (Z.of_nat (length (form (fs ++ [(bs "text", take len s)])))), buf') /\
    filled arr (form (fs ++ [(bs "text", take len s)]) ++ [Byte.x00]) buf'.
Proof.
  intros Hne Hlen Hs Hmax Hf. pose proof arr_size as Harr. change TEXT_MAX with 8191 in Hmax.
  destruct (filled_pokes arr (form fs) buf (bs "&text=" ++ [Byte.x00; Byte.x00])) as (buf1 & Hrun1 & Hf1);
    [done|cbn; lia|].
  rewrite (bind_val _ _ _ _ _ Hrun1). rewrite app_assoc in Hf1. apply filled_weaken in Hf1.
  assert (Hpos : Z.of_nat (length (form fs)) + 6 = Z.of_nat (length (form fs ++ bs "&text="))) by (rewrite length_app; cbn; lia).
  rewrite Hpos. destruct (put_text_run (form fs ++ bs "&text=") s len buf1) as (buf2 & Hrun2 & Hf2);
    [done|rewrite length_app; cbn; lia|done|].
  exists buf2. rewrite Hrun2. rewrite form_snoc by done. unfold field_text. cbn [fst snd].
  rewrite <- app_assoc in Hf2 |- *. split; [reflexivity|]. rewrite <- app_assoc in Hf2. rewrite <- !app_assoc. exact Hf2.
Qed.

Lemma replied_run rt fs buf :
  fs <> [] -> (length (form fs) <= 200)%nat -> filled arr (form fs) buf ->
  done_as (replied rt fs) (out_replied_2_arg rt (Z.of_nat (length (form fs))) buf).
Proof.
  intros Hne Hlen Hf. unfold out_replied_2_arg, replied. destruct rt as [[r [s|]]|]; [|done..].
  pose proof (text_strnlen_le s) as Hle. cbv zeta. destruct (decide (Z.of_nat (text_strnlen s) > TEXT_MAX)) as [Hgt|Hgt].
  { rewrite decide_False by lia. done. }
  rewrite decide_True by lia. rewrite text_strnlen_eq by lia.
  destruct (text_field_run fs s (length s) buf Hne Hlen) as (buf' & Hrun & Hf'); [done|lia|done|].
  rewrite take_ge in * by lia. unfold done_as. cbn [fst snd].
  assert (Hrun' : (pokes (Z.of_nat (length (form fs))) (bs "&text=" ++ [Byte.x00; Byte.x00]);;
    payload_len ← put_text (Z.of_nat (length (form fs)) + 6) s (length s); mret (payload_len, r)) buf =
    (Val (Z.of_nat (length (form (fs ++ [(bs "text", s)]))), r), buf')).
  { apply bind_inv in Hrun as (u & b1 & Hp & Hq). rewrite (bind_val _ _ _ _ _ Hp). by rewrite (bind_val _ _ _ _ _ Hq). }
  rewrite Hrun'. done.
Qed.

Lemma auto_run rt v buf :
  (length v < 32)%nat -> filled arr (bs "to=" ++ Url.enc true v) buf ->
  done_as (replied rt [(bs "to", v); (bs "fr", bs "auto")])
    (out_replied_1_arg rt (Z.of_nat (length (bs "to=" ++ Url.enc true v))) buf).
Proof.
  intros Hv Hf. pose proof arr_size as Harr. pose proof (Url.enc_length true v) as Henc.
  unfold out_replied_1_arg. set (pre := bs "to=" ++ Url.enc true v) in *.
  assert (Hpre : length pre = (3 + length (Url.enc true v))%nat) by (unfold pre; rewrite length_app; done).
  destruct (filled_pokes arr pre buf (bs "&fr=auto")) as (buf1 & Hrun1 & Hf1); [done|cbn; lia|].
  rewrite (bind_val _ _ _ _ _ Hrun1).
  assert (Hform : pre ++ bs "&fr=auto" = form [(bs "to", v); (bs "fr", bs "auto")]).
  { unfold pre. cbn [form]. unfold field_text. cbn [fst snd]. by rewrite <- !app_assoc. }
  rewrite Hform in Hf1.
  replace (Z.of_nat (length pre) + 8) with (Z.of_nat (length (form [(bs "to", v); (bs "fr", bs "auto")])))
    by (rewrite <- Hform, length_app; cbn; lia).
  apply replied_run; [done| |done]. rewrite <- Hform, length_app, Hpre. cbn [length bs]. simpl. lia.
Qed.

(** ** The arguments *)
Lemma code_loop_ok text :
  code_loop text 0 = if decide (32 <= length (word text))%nat then None
                     else Some (length (word text), drop (length (word text)) text).
Proof.
  rewrite code_loop_spec. cbn [Nat.add]. destruct (decide (32 <= length (word text))%nat) as [Hl|Hl].
  - rewrite decide_False; [done|]. intros [|He]; [lia|]. rewrite He in Hl. simpl in Hl. lia.
  - rewrite decide_True; [done|]. left. lia.
Qed.

Lemma word_field k k' text buf pre :
  (length (word text) < 32)%nat -> (length pre <= 150)%nat -> k' = k ++ [Byte.x00] \/ k' = k -> (length k <= 4)%nat ->
  filled arr pre buf ->
  exists buf', (pokes (Z.of_nat (length pre)) k';; put_text (Z.of_nat (length pre) + Z.of_nat (length k)) text (length (word text))) buf =
      (Val (Z.of_nat (length (pre ++ k ++ Url.enc true (word text)))), buf') /\
    filled arr ((pre ++ k ++ Url.enc true (word text)) ++ [Byte.x00]) buf'.
Proof.
  intros Hw Hpre Hk' Hk Hf. pose proof arr_size as Harr. pose proof (length_word text) as Hlw.
  destruct (filled_pokes arr pre buf k') as (buf1 & Hrun1 & Hf1); [done| |].
  { destruct Hk' as [-> | ->]; rewrite ?length_app; simpl; lia. }
  rewrite (bind_val _ _ _ _ _ Hrun1).
  assert (Hf1' : filled arr (pre ++ k) buf1).
  { destruct Hk' as [-> | ->]; [|done]. rewrite app_assoc in Hf1. by apply filled_weaken in Hf1. }
  rewrite <- Nat2Z.inj_add, <- length_app.
  destruct (put_text_run (pre ++ k) text (length (word text)) buf1) as (buf2 & Hrun2 & Hf2);
    [done|rewrite length_app; lia|done|].
  rewrite take_word in *. exists buf2. rewrite Hrun2, <- !app_assoc in *. exact (conj eq_refl Hf2).
Qed.

Lemma parse_args_run args start rt evt buf :
  (length args <= length start)%nat -> Z.of_nat (length start) <= TEXT_MAX -> length buf = arr ->
  done_as (tr_args args rt evt) (parse_args args (length start) start rt evt buf).
Proof.
  intros Hargs Hstart Hbuf. pose proof arr_size as Harr. change TEXT_MAX with 8191 in Hstart.
  unfold parse_args, tr_args. rewrite code_loop_ok. destruct (decide _) as [|Hfr]; [done|].
  destruct (word_field (bs "fr=") (bs "fr=" ++ [Byte.x00]) args buf []) as (buf1 & Hrun1 & Hf1);
    [lia|simpl; lia|by left|simpl; lia|split; [apply prefix_nil|done]|].
  apply bind_inv in Hrun1 as (u & buf0 & Hp & Hq). change (Z.of_nat (length [])) with 0 in Hp.
  rewrite (bind_val _ _ _ _ _ Hp). change (Z.of_nat (length []) + Z.of_nat (length (bs "fr="))) with 3 in Hq.
  rewrite (bind_val _ _ _ _ _ Hq). clear Hp Hq buf0. cbn [app] in Hf1. rewrite app_nil_l.
  set (fr := word args) in *. set (pre := bs "fr=" ++ Url.enc true fr) in *.
  pose proof (Url.enc_length true fr) as Hef.
  assert (Hlpre : length pre = (3 + length (Url.enc true fr))%nat) by (unfold pre; rewrite length_app; done).
  pose proof (length_skip_ws (drop (length fr) args)) as Hl1. rewrite length_drop in Hl1.
  destruct (skip_ws (drop (length fr) args)) as [|c rest] eqn:Hrest.
  { (* one argument *)
    destruct Hf1 as [[junk ->] Hlen]. rewrite <- app_assoc in *. 
    assert (Hto : pokes 0 (bs "to") (pre ++ [Byte.x00] ++ junk) = (Val tt, (bs "to=" ++ Url.enc true fr) ++ [Byte.x00] ++ junk)).
    { pose proof (pokes_app [] (pre ++ [Byte.x00] ++ junk) 0 (bs "to") eq_refl) as Hp. rewrite !app_nil_l in Hp.
      rewrite Hp; [reflexivity|]. rewrite length_app, Hlpre. cbn. lia. }
    rewrite (bind_val _ _ _ _ _ Hto). change (length pre) with (length (bs "to=" ++ Url.enc true fr)).
    apply auto_run; [lia|]. split; [by eexists|]. exact Hlen. }
  rewrite <- Hrest in *. clear Hrest c rest. set (rest := skip_ws _) in *.
  rewrite code_loop_ok. destruct (decide (32 <= length (word rest))%nat) as [|Hto]; [done|].
  apply filled_weaken in Hf1.
  destruct (word_field (bs "&to=") (bs "&to=") rest buf1 pre) as (buf2 & Hrun2 & Hf2);
    [lia|lia|by right|simpl; lia|done|].
  apply bind_inv in Hrun2 as (u2 & buf0 & Hp & Hq). rewrite (bind_val _ _ _ _ _ Hp).
  change (Z.of_nat (length (bs "&to="))) with 4 in Hq. rewrite (bind_val _ _ _ _ _ Hq). clear Hp Hq buf0.
  set (to := word rest) in *.
  assert (Hform : pre ++ bs "&to=" ++ Url.enc true to = form [(bs "fr", fr); (bs "to", to)]).
  { unfold pre. cbn [form]. unfold field_text. cbn [fst snd]. by rewrite <- !app_assoc. }
  rewrite Hform in *. apply filled_weaken in Hf2. pose proof (Url.enc_length true to) as Het.
  assert (Hlf : (length (form [(bs "fr", fr); (bs "to", to)]) <= 200)%nat).
  { rewrite <- Hform, !length_app, Hlpre. cbn [length bs]. simpl length. lia. }
  pose proof (length_skip_ws (drop (length to) rest)) as Hl2. rewrite length_drop in Hl2.
  destruct (skip_ws (drop (length to) rest)) as [|c msg] eqn:Hmsg; [by apply replied_run|].
  rewrite <- Hmsg in *. clear Hmsg c msg. set (msg := skip_ws (drop _ rest)) in *.
  replace (length start - (length start - length msg))%nat with (length msg) by lia.
  destruct (text_field_run [(bs "fr", fr); (bs "to", to)] msg (length msg) buf2) as (buf3 & Hrun3 & Hf3);
    [done|done|done|change TEXT_MAX with 8191; lia|done|].
  rewrite take_ge in * by lia. apply bind_inv in Hrun3 as (u3 & buf0 & Hp & Hq).
  rewrite (bind_val _ _ _ _ _ Hp). cbv zeta. rewrite (bind_val _ _ _ _ _ Hq). exact (conj eq_refl Hf3).
Qed.

(** ** The command *)

(** The replied-to event of [evt] and its text, as far as there is one. *)
Definition replied_to (h : heap) (evt : tgev) (rt : option (tgev * cstr)) : Prop :=
  let p := tge_get_reply_to evt in
  (is_null p = true /\ rt = None) \/
  (is_null p = false /\ exists r, (forall s : list byte, deref h p s = (Val r, s)) /\ rt = Some (r, tge_get_text r)).

Lemma no_arg_run rt buf :
  length buf = arr ->
  done_as (replied rt [(bs "to", bs "en"); (bs "fr", bs "auto")]) (out_replied_0_arg rt buf).
Proof.
  intros Hbuf. pose proof arr_size as Harr. unfold out_replied_0_arg.
  destruct (filled_pokes arr [] buf (bs "to=en" ++ [Byte.x00; Byte.x00; Byte.x00])) as (buf1 & Hrun1 & Hf1);
    [split; [apply prefix_nil|done]|cbn; lia|].
  change (Z.of_nat (length [])) with 0 in Hrun1. rewrite (bind_val _ _ _ _ _ Hrun1).
  rewrite app_nil_l in Hf1. apply filled_weaken in Hf1.
  change 5 with (Z.of_nat (length (bs "to=" ++ Url.enc true (bs "en")))). apply auto_run; [cbn; lia|exact Hf1].
Qed.

Lemma parse_command_run h text evt rt buf :
  Z.of_nat (length text) <= TEXT_MAX -> replied_to h evt rt -> length buf = arr ->
  done_as (tr_spec text rt evt) (parse_command h text evt buf).
Proof.
  intros Hlen Hrt Hbuf. unfold parse_command, tr_spec. cbv zeta.
  rewrite text_strnlen_eq by done. rewrite decide_False by lia.
  set (t := match text with c :: text' => if is_prefix_char c then text' else text | [] => text end).
  assert (Ht : (length t <= length text)%nat).
  { unfold t. destruct text as [|c text']; [done|]. destruct (is_prefix_char c); simpl; lia. }
  clearbody t. destruct t as [|c1 [|c2 t]]; [done..|]. simpl in Ht.
  destruct (decide (lower c1 <> "t"%byte)) as [Hc1|Hc1].
  { rewrite decide_False by tauto. done. }
  destruct (decide (lower c2 <> "r"%byte /\ lower c2 <> "l"%byte)) as [Hc2|Hc2].
  { rewrite decide_False by tauto. done. }
  assert (Hcmd : lower c1 = "t"%byte /\ (lower c2 = "r"%byte \/ lower c2 = "l"%byte)).
  { destruct (decide (lower c1 = "t"%byte)); [|tauto]. split; [done|].
    destruct (decide (lower c2 = "r"%byte)); [tauto|]. destruct (decide (lower c2 = "l"%byte)); tauto. }
  rewrite (decide_True _ _ Hcmd).
  assert (Hget : (if is_null (tge_get_reply_to evt) then mret None
      else reply_to ← deref h (tge_get_reply_to evt); mret (Some (reply_to, tge_get_text reply_to))) buf = (Val rt, buf)).
  { destruct Hrt as [[-> ->]|(-> & r & Hr & ->)]; [done|]. by rewrite (bind_val _ _ _ _ _ (Hr buf)). }
  rewrite (bind_val _ _ _ _ _ Hget).
  destruct t as [|c t]; [by apply no_arg_run|]. destruct (is_ws c); cbn [negb]; [|done].
  pose proof (length_skip_ws t) as Hsk. simpl in Ht. destruct (skip_ws t) as [|a args]; [by apply no_arg_run|].
  apply parse_args_run; [simpl in *; lia|done|done].
Qed.

Ltac all_plain := repeat (apply Forall_cons; split; [assumption|]); by apply Forall_nil.

Lemma tr_fields_plain text rt evt fs e :
  tr_spec text rt evt = Some (fs, e) -> fs <> [] /\ Forall (fun f => plain (fst f)) fs.
Proof.
  assert (Hto : plain (bs "to")) by (split; [reflexivity|by apply (bool_decide_unpack _)]).
  assert (Hfr : plain (bs "fr")) by (split; [reflexivity|by apply (bool_decide_unpack _)]).
  pose proof plain_text as Htext.
  assert (Hrep : forall fs0, fs0 <> [] -> Forall (fun f => plain (fst f)) fs0 -> replied rt fs0 = Some (fs, e) ->
    fs <> [] /\ Forall (fun f => plain (fst f)) fs).
  { intros fs0 Hne Hall. unfold replied. destruct rt as [[r [s|]]|]; [|done..]. case_decide; [|done]. intros [= <- <-].
    split; [by destruct fs0|]. apply Forall_app. split; [done|all_plain]. }
  unfold tr_spec, tr_args. intros Hs. repeat (case_match; try done); simplify_eq;
    try (split; [discriminate|all_plain]);
    (eapply Hrep; [| |eassumption]; [discriminate|all_plain]).
Qed.

(** A translate command, whatever the array held before, leaves in it a form
    from which the receiver reads the languages and the text that the words of
    the command and the replied-to message say; other texts are declined. *)
Theorem translate_payload h text evt rt buf :
  Z.of_nat (length text) <= TEXT_MAX -> replied_to h evt rt -> length buf = arr ->
  match tr_spec text rt evt with
  | Some (fs, e) =>
      exists rest, parse_command h text evt buf =
        (Val (Z.of_nat (length (form fs)), e), form fs ++ Byte.x00 :: rest) /\ form_decode (form fs) = Some fs
  | None => fst (parse_command h text evt buf) = Exit (- ECANCELED)
  end.
Proof.
  intros Hlen Hrt Hbuf. pose proof (parse_command_run h text evt rt buf Hlen Hrt Hbuf) as Hdone.
  destruct (tr_spec text rt evt) as [[fs e]|] eqn:Hspec; [|exact Hdone].
  destruct Hdone as [Hval [[rest Hbuf'] _]]. exists rest.
  split; [|apply form_roundtrip; by eapply tr_fields_plain].
  destruct (parse_command h text evt buf) as [o b]. cbn [fst snd] in *. subst. by rewrite <- app_assoc.
Qed.

(** [tr id] in reply to a message translates the message. *)
Lemma translate_payload_witness :
  let r := demo_msg (bs "good day & night") 43 8 0 in
  let evt := demo_msg (bs "/Tr id") 42 9 100 in
  exists rest, parse_command (demo_store r) (bs "/Tr id") evt (replicate arr Byte.x00) =
    (Val (Z.of_nat (length (bs "to=id&fr=auto&text=good%20day%20%26%20night")), r),
     bs "to=id&fr=auto&text=good%20day%20%26%20night" ++ Byte.x00 :: rest).
Proof.
  intros r evt.
  destruct (translate_payload (demo_store r) (bs "/Tr id") evt (Some (r, tge_get_text r)) (replicate arr Byte.x00))
    as (rest & Hrun & _); [vm_compute; discriminate| |apply length_replicate|by exists rest].
  right. split; [reflexivity|]. by exists r.
Defined.
