(* ===== verification/TranslateServe.v ===== *)
(** * What the translate module does

    fetch_api and handle_translate_module of modules/002_translate/translate.c:
    the answer of the service in its fixed array, and the message that is sent
    back. *)
From S2P Require Import Prelude CString Json TgEvent TgPrint TgApi TgApiSpec TgRequests ModCommon Translate TranslateSpec.

(** ** The answer in its array *)
Notation csize := (Z.to_nat CURL_BUFFER_SIZE).

Lemma csize_val : Z.of_nat csize = 36864.
Proof. by rewrite Z2Nat.id. Qed.

Lemma tr_deliver_fits chunks pre mem :
  filled csize pre (res_text mem) -> tr_len mem = Z.of_nat (length pre) ->
  Z.of_nat (length (pre ++ concat chunks)) < CURL_BUFFER_SIZE - 1 ->
  exists mem', tr_deliver chunks mem = (Val tt, mem') /\ filled csize (pre ++ concat chunks) (res_text mem') /\
    tr_len mem' = Z.of_nat (length (pre ++ concat chunks)).
Proof.
  pose proof csize_val as Hc. change CURL_BUFFER_SIZE with 36864.
  revert pre mem. induction chunks as [|d chunks IH]; intros pre [l t] Hf Hl Hn; cbn [res_text tr_len] in *.
  { exists (TrWr l t). cbn [concat]. rewrite app_nil_r. exact (conj eq_refl (conj Hf Hl)). }
  cbn [concat] in Hn. rewrite app_assoc in Hn. rewrite (length_app (pre ++ d)), (length_app pre) in Hn.
  destruct (filled_pokes csize pre t d Hf) as (t' & Hrun & Hf'); [lia|]. subst l.
  assert (Hcall : translate_write_callback d (TrWr (Z.of_nat (length pre)) t) =
    (Val (Z.of_nat (length d)), TrWr (Z.of_nat (length (pre ++ d))) t')).
  { unfold translate_write_callback. rewrite (bind_val get _ _ _ _ eq_refl). cbv zeta. cbn [tr_len].
    change CURL_BUFFER_SIZE with 36864. rewrite u64_small, decide_False by lia.
    erewrite bind_val by (unfold on_res_text, zoom; cbn [res_text]; rewrite Hrun; reflexivity).
    erewrite bind_val by reflexivity. rewrite u64_small, (length_app pre), Nat2Z.inj_add by lia. reflexivity. }
  cbn [tr_deliver]. rewrite (bind_val _ _ _ _ _ Hcall), decide_True by done.
  destruct (IH (pre ++ d) (TrWr (Z.of_nat (length (pre ++ d))) t')) as (mem' & Hrun' & Hf2 & Hl2);
    [done|done|rewrite (length_app (pre ++ d)), (length_app pre); lia|].
  exists mem'. cbn [concat]. rewrite app_assoc. exact (conj Hrun' (conj Hf2 Hl2)).
Qed.

(** Whatever comes, the array is not left. *)
Lemma tr_deliver_safe chunks mem :
  length (res_text mem) = csize -> 0 <= tr_len mem < CURL_BUFFER_SIZE ->
  Forall (fun d => Z.of_nat (length d) < 2 ^ 62) chunks ->
  exists mem', tr_deliver chunks mem = (Val tt, mem').
Proof.
  pose proof csize_val as Hc. change CURL_BUFFER_SIZE with 36864.
  intros Ht Hl Hd. revert mem Ht Hl. induction Hd as [|d chunks Hd _ IH]; intros [l t] Ht Hl; cbn [res_text tr_len] in *; [by eexists|].
  cbn [tr_deliver]. unfold translate_write_callback. change CURL_BUFFER_SIZE with 36864.
  destruct (decide (Z.of_nat (length d) + l >= 36863)) as [Hbig|Hfit].
  - erewrite bind_val; [|rewrite (bind_val get _ _ _ _ eq_refl); cbv zeta; cbn [tr_len];
      rewrite u64_small by lia; rewrite decide_True by lia; reflexivity].
    case_decide; [|by eexists]. destruct (IH (TrWr l t)) as [mem' ->]; [done|done|by eexists].
  - assert (Hf : filled csize (take (Z.to_nat l) t) t) by (split; [apply prefix_take|done]).
    assert (Hlen : Z.of_nat (length (take (Z.to_nat l) t)) = l) by (rewrite length_take; lia).
    destruct (filled_pokes csize _ t d Hf) as (t' & Hrun & [_ Ht']); [lia|]. rewrite Hlen in Hrun.
    erewrite bind_val; [|rewrite (bind_val get _ _ _ _ eq_refl); cbv zeta; cbn [tr_len];
      rewrite u64_small by lia; rewrite decide_False by lia;
      erewrite bind_val by (unfold on_res_text, zoom; cbn [res_text]; rewrite Hrun; reflexivity);
      erewrite bind_val by reflexivity; reflexivity].
    rewrite decide_True by done. apply IH; [done|]. cbn. rewrite u64_small; lia.
Qed.

(** ** The answer to the group *)
Lemma answer_text_plain `{JsonLib} obj : no_nul (answer_text obj).
Proof.
  assert (Hdefault : forall d o, no_nul d -> (forall s, o = Some s -> no_nul s) -> no_nul (default d o)).
  { intros d [s|] Hd Ho; [by apply Ho|done]. }
  assert (Hget : forall d j, no_nul d -> no_nul (default d (json_object_get_string j))).
  { intros d j Hd. apply Hdefault; [done|]. intros s. apply get_string_no_nul. }
  unfold answer_text. destruct obj; try (by apply (bool_decide_unpack _));
    destruct (json_object_object_get_ex _ "result") as [res|]; try (apply Hget; by apply (bool_decide_unpack _));
    destruct (json_object_object_get_ex _ "error") as [res|]; try (apply Hget; by apply (bool_decide_unpack _));
    by apply (bool_decide_unpack _).
Qed.

Section Serve.
Context `{Net} `{JsonLib} (token : list byte) (h : heap).
Hypothesis Hnet : net_ok token.
Hypothesis Hluck : forall w, transfer_lucky (net w).

(** The request to the service. *)
Definition tr_request (fs : fields) : request := Request tr_url (form fs) APP_X_WWW_FORM_URLENCODED.

(** libcurl fails a transfer whose callback did not take all the bytes. *)
Definition short_fails : Prop :=
  forall w fs, snd (t_answer (net w) (tr_request fs)) = 0 ->
    Z.of_nat (length (concat (fst (t_answer (net w) (tr_request fs))))) < CURL_BUFFER_SIZE - 1.
Hypothesis Hshort : short_fails.

Definition pieces_ok : Prop :=
  forall w fs, Forall (fun d : list byte => Z.of_nat (length d) < 2 ^ 62) (fst (t_answer (net w) (tr_request fs))).
Hypothesis Hpieces : pieces_ok.

Lemma fetch_run fs junk w :
  let '(chunks, cres) := t_answer (net w) (tr_request fs) in
  exists ret text, fetch_api (form fs ++ Byte.x00 :: junk) (Z.of_nat (length (form fs))) w =
      (Val (ret, text), w ++ [tr_request fs]) /\
    if decide (cres = 0) then ret = 0 /\ exists rest, text = concat chunks ++ Byte.x00 :: rest else ret = - EBADMSG.
Proof.
  pose proof (Hshort w fs) as Hs. pose proof (Hpieces w fs) as Hp. pose proof csize_val as Hc.
  unfold fetch_api, tr_request in *. rewrite (bind_val get _ _ _ _ eq_refl). cbv zeta.
  destruct (Hluck w) as (_ & _ & ->). cbn [negb]. rewrite decide_False by (rewrite length_app; lia).
  rewrite Nat2Z.id, take_app_length. destruct (t_answer (net w) _) as [chunks cres]. cbn [fst snd] in *.
  erewrite bind_val by reflexivity. set (mem := TrWr 0 (stack csize)).
  assert (Hm : length (res_text mem) = csize) by apply length_stack. destruct (decide (cres = 0)) as [->|Hcres].
  - destruct (tr_deliver_fits chunks [] mem) as (mem' & Hrun & [[rest Htext] Hl] & Hlen);
      [split; [apply prefix_nil|exact Hm]|reflexivity|by apply Hs|]. rewrite Hrun, decide_False by tauto.
    rewrite app_nil_l in Htext, Hlen. rewrite Htext in Hl. rewrite length_app in Hl. specialize (Hs eq_refl).
    change CURL_BUFFER_SIZE with 36864 in Hs. destruct rest as [|b rest]; [cbn [length] in Hl; lia|].
    exists 0, (concat chunks ++ Byte.x00 :: rest). split; [|split; [done|by exists rest]].
    erewrite bind_val by (unfold local; rewrite Hlen, Htext, poke_app by first [exact eq_refl | cbn [length]; lia]; reflexivity).
    reflexivity.
  - destruct (tr_deliver_safe chunks mem Hm) as [mem' Hrun]; [cbn; lia|exact Hp|]. rewrite Hrun, decide_True by done.
    eexists _, _. exact (conj eq_refl eq_refl).
Qed.

(** What is sent back for the event [e]. *)
Definition tr_reply (e : tgev) (text : list byte) : request :=
  let ctx := SendMsg (tge_get_chat_id e) (tge_get_msg_id e) [] PARSE_MODE_OFF in
  form_request token "sendMessage" (send_fields ctx (take (send_room ctx) text)).

Lemma reply_text_run text e w :
  no_nul text -> send_reply_text (Some token) (asz text) e w = (Val 0, w ++ [tr_reply e text]).
Proof.
  intros Hs. set (ctx := SendMsg (tge_get_chat_id e) (tge_get_msg_id e) (asz text) PARSE_MODE_OFF).
  destruct (message_run token Hnet ctx text [] w) as [ret Hrun]; [done|by left|done|done|].
  unfold send_reply_text. by rewrite (bind_val _ _ _ _ _ Hrun).
Qed.

Lemma handle_run fs e junk w :
  handle_translate_module (Some token) (form fs ++ Byte.x00 :: junk) (Z.of_nat (length (form fs))) e w =
    let '(chunks, cres) := t_answer (net w) (tr_request fs) in
    if decide (cres = 0) then
      (Val 0, w ++ [tr_request fs; tr_reply e (answer_text (json_tokener_parse (c_str (concat chunks))))])
    else (Val (- EBADMSG), w ++ [tr_request fs]).
Proof.
  pose proof (fetch_run fs junk w) as Hf. destruct (t_answer (net w) (tr_request fs)) as [chunks cres].
  destruct Hf as (ret & text & Hrun & Hret). unfold handle_translate_module. rewrite (bind_val _ _ _ _ _ Hrun).
  destruct (decide (cres = 0)).
  - destruct Hret as (-> & rest & ->). rewrite decide_False by tauto.
    destruct (strlen_app_nul (concat chunks) rest) as (n & Hn & Htake). rewrite Hn. erewrite bind_val by reflexivity.
    rewrite Htake, reply_text_run by apply answer_text_plain. by rewrite <- app_assoc.
  - subst ret. by rewrite decide_True.
Qed.
End Serve.

(** C16: The translate module from its command to its answer: other texts are declined
    and nothing is sent; a command sends the form of its words to the service,
    and the result or the error the service names is sent to the group, in
    reply to the message that was translated; when the transfer fails, nothing
    more is sent. *)
Theorem translate_served `{Net} `{JsonLib} token h evt w text rt :
  net_ok token -> (forall w, transfer_lucky (net w)) -> short_fails -> pieces_ok ->
  tge_get_text evt = Some text -> Z.of_nat (length text) <= TEXT_MAX -> replied_to h evt rt ->
  translate_entry (Some token) h evt w =
    match tr_spec text rt evt with
    | None => (Val (- ECANCELED), w)
    | Some (fs, e) =>
        let '(chunks, cres) := t_answer (net w) (tr_request fs) in
        if decide (cres = 0) then
          (Val 0, w ++ [tr_request fs; tr_reply token e (answer_text (json_tokener_parse (c_str (concat chunks))))])
        else (Val (- EBADMSG), w ++ [tr_request fs])
    end.
Proof.
  intros Hnet Hluck Hshort Hpieces Htext Hlen Hrt. unfold translate_entry, do_translate. rewrite Htext.
  pose proof (parse_command_run h text evt rt (stack arr) Hlen Hrt (length_stack _)) as Hdone.
  change (Z.to_nat (TEXT_BUFFER_SIZE + CODE_BUFFER_SIZE * 2)) with arr.
  destruct (parse_command h text evt (stack arr)) as [o buf]. destruct (tr_spec text rt evt) as [[fs e]|]; unfold done_as in Hdone; cbn [fst snd] in Hdone.
  - destruct Hdone as [-> [[junk ->] _]]. rewrite <- app_assoc. apply (handle_run token Hnet Hluck Hshort Hpieces).
  - by subst o.
Qed.

(** "tr id" in reply to a message. *)
Definition demo_tr_ans (q : request) : list (list byte) * Z :=
  if decide (q_url q = tr_url) then ([bs "{"; bs "r}"], 0) else demo_ans q.
Definition demo_tr_lib : JsonLib := demo_lib (asz (bs "{r}")) (JObject [("result", JString (bs "halo"))]).

Lemma translate_served_witness :
  let r := demo_msg (bs "hello") 43 8 0 in
  @translate_entry (demo_net demo_tr_ans) demo_tr_lib (Some demo_token) (demo_store r) (demo_msg (bs "/tr id") 42 9 100) [] =
    (Val 0, [Request tr_url (bs "to=id&fr=auto&text=hello") APP_X_WWW_FORM_URLENCODED;
             tr_reply demo_token r (bs "halo")]).
Proof.
  intros r.
  pose proof (@translate_served (demo_net demo_tr_ans) demo_tr_lib demo_token (demo_store r) (demo_msg (bs "/tr id") 42 9 100) []
    (bs "/tr id") (Some (r, Some (bs "hello")))) as H.
  etransitivity; [apply H|reflexivity].
  - apply demo_net_ok. intros q. unfold demo_tr_ans. case_decide; reflexivity.
  - intros w. apply demo_lucky.
  - intros w fs _. reflexivity.
  - intros w fs. cbn. repeat constructor.
  - reflexivity.
  - vm_compute. discriminate.
  - right. split; [reflexivity|]. exists r. split; reflexivity.
Defined.
