(* ===== verification/Modules.v ===== *)
(** * The other modules and the table: modules/000_debug/debug.c,
      modules/001_standard/standard.c and module_table.h

    With all modules in the table, the handler of an event is complete: from
    the text of an update to the requests the program sends. *)
From S2P Require Import Prelude CString Json TgEvent TgSpec TgMem TgPrint TgLoad Gwbot EventHandler TgApi TgApiSpec TgRequests ModCommon Admin AdminRead AdminPriv AdminSpec Translate.

(** [json_object_to_json_string_ext], and the flags of the debug module. *)
Class JsonPretty := { json_object_to_json_string_ext : json -> Z -> list byte }.

Definition JSON_C_TO_STRING_PRETTY : Z := 2.
Definition JSON_C_TO_STRING_NOSLASHESCAPE : Z := 16.

Section Modules.
Context `{Net} `{JsonLib} `{JsonPretty} (token : cstr).

Definition send_debug_message (reply_text : list byte) (evt : tgev) : M (list request) Z :=
  with_handle token (tga_send_msg (SendMsg (tge_get_chat_id evt) (tge_get_msg_id evt) reply_text PARSE_MODE_HTML));;
  mret 0.

Definition DEBUG_BUFSIZ : Z := 0x9000.

(** [reply_text] of the debug module. *)
Definition debug_text (json_pretty : list byte) : M (list byte) unit :=
  let hlen := (DEBUG_BUFSIZ - 6 - 7) / 6 in
  pokes 0 (bs "<pre>");;
  len ← at_ptr 5 (Html.htmlspecialchars hlen (asz json_pretty) (Nat.min (Z.to_nat hlen) (length json_pretty)));
  pokes (u64 (5 + len - 1)) (bs "</pre>" ++ [Byte.x00]).

(** [json_str]: the text the thread holds. *)
Definition debug_entry (json_str : list byte) (evt : tgev) : M (list request) Z :=
  match tge_get_text evt with
  | None => mret (- ECANCELED)
  | Some text =>
      if negb (starts_with (bs "/debug") text) then mret (- ECANCELED)
      else
        len ← lift FBounds (strlen json_str);
        let json_flags := Z.lor JSON_C_TO_STRING_PRETTY JSON_C_TO_STRING_NOSLASHESCAPE in
        let json_obj := json_tokener_parse (take len json_str) in
        let json_pretty := json_object_to_json_string_ext json_obj json_flags in
        '(_, reply_text) ← local (stack (Z.to_nat DEBUG_BUFSIZ)) (debug_text (c_str json_pretty));
        send_debug_message reply_text evt
  end.

Definition standard_entry (evt : tgev) : M (list request) Z := mret (- ECANCELED).

(** The startup and shutdown of every module. *)
Definition mod_nothing : M (list request) Z := mret 0.

Definition mod_tbl (json_str : list byte) : list module_entry :=
  [GWMOD_REG "000_debug" mod_nothing mod_nothing (fun evt h => debug_entry json_str evt);
   GWMOD_REG "001_standard" mod_nothing mod_nothing (fun evt h => standard_entry evt);
   GWMOD_REG "002_translate" mod_nothing mod_nothing (fun evt h => translate_entry token h evt);
   GWMOD_REG "003_admin" mod_nothing mod_nothing (fun evt h => admin_entry token h evt);
   GWMOD_REG_END].

(** ** A command of the admin module is declined by the others *)
Lemma not_named p text cmd reason :
  Forall (fun kc : list byte * Z => starts_with p (fst kc) = false) cmd_names ->
  reading_of text = Command cmd reason -> exists c tx, text = c :: tx /\ is_prefix_char c = true /\
    starts_with p (lower <$> word tx) = false.
Proof.
  intros Hall Hread. destruct text as [|c tx]; [done|]. exists c, tx. split; [done|]. unfold reading_of in Hread.
  destruct (is_prefix_char c); [|by repeat case_match]. split; [done|].
  destruct (named cmd_names (lower <$> word tx)) as [cmd'|] eqn:Hn; [|done].
  apply named_key in Hn. rewrite Forall_forall in Hall. by apply Hall in Hn.
Qed.

Lemma debug_declines json_str evt text cmd reason w :
  tge_get_text evt = Some text -> reading_of text = Command cmd reason ->
  debug_entry json_str evt w = (Val (- ECANCELED), w).
Proof.
  intros Htext Hread. unfold debug_entry. rewrite Htext.
  destruct (not_named (bs "debug") text cmd reason) as (c & tx & -> & Hc & Hw);
    [by apply (bool_decide_unpack _)|done|].
  destruct (starts_with (bs "/debug") (c :: tx)) eqn:Hs; [|done]. exfalso.
  apply starts_with_prefix in Hs as [r Hr]. injection Hr as -> ->.
  change (starts_with (bs "debug") (bs "debug" ++ (lower <$> word r)) = false) in Hw.
  rewrite (proj2 (starts_with_prefix _ _)) in Hw by (by eexists). done.
Qed.

Lemma translate_declines h evt text cmd reason w :
  tge_get_text evt = Some text -> reading_of text = Command cmd reason ->
  translate_entry token h evt w = (Val (- ECANCELED), w).
Proof.
  intros Htext Hread. unfold translate_entry, do_translate. rewrite Htext.
  destruct (not_named (bs "tr") text cmd reason) as (c & tx & -> & Hc & Hr); [by apply (bool_decide_unpack _)|done|].
  destruct (not_named (bs "tl") (c :: tx) cmd reason) as (c' & tx' & Heq & _ & Hl); [by apply (bool_decide_unpack _)|done|].
  injection Heq as <- <-. unfold parse_command. rewrite Hc. case_decide; [done|].
  destruct tx as [|c1 [|c2 tx]]; [done..|].
  destruct (decide (lower c1 <> "t"%byte)) as [|N1]; [done|].
  destruct (decide (lower c2 <> "r"%byte /\ lower c2 <> "l"%byte)) as [|N2]; [done|]. exfalso.
  assert (Hws : forall c k, lower c = k -> is_ws k = false -> is_ws c = false) by (intros [] ? <-; done).
  assert (E1 : lower c1 = "t"%byte) by (destruct (decide (lower c1 = "t"%byte)); tauto).
  assert (E2 : lower c2 = "r"%byte \/ lower c2 = "l"%byte).
  { destruct (decide (lower c2 = "r"%byte)); [tauto|]. destruct (decide (lower c2 = "l"%byte)); tauto. }
  assert (is_ws c1 = false) as W1 by (by eapply Hws).
  assert (is_ws c2 = false) as W2 by (by destruct E2; eapply Hws).
  cbn [word] in Hr, Hl. rewrite W1 in Hr, Hl. rewrite W2 in Hr, Hl. cbn [fmap list_fmap] in Hr, Hl.
  rewrite E1 in Hr, Hl. destruct E2 as [E2|E2]; rewrite E2 in Hr, Hl; done.
Qed.

(** What is left of the table. *)
Lemma dispatch_admin json_str h evt text cmd reason w :
  evt_type evt = TGEV_TEXT \/ evt_type evt = TGEV_PHOTO ->
  tge_get_text evt = Some text -> reading_of text = Command cmd reason ->
  snd (dispatch (mod_tbl json_str) evt h 0 w) = snd (admin_entry token h evt w) /\
  (forall f, fst (admin_entry token h evt w) = Fault f -> fst (dispatch (mod_tbl json_str) evt h 0 w) = Fault f).
Proof.
  intros Htype Htext Hread. unfold mod_tbl, GWMOD_REG.
  assert (Hmask : Z.land (Z.lor TGEV_TEXT TGEV_PHOTO) (evt_type evt) <> 0) by (by destruct Htype as [-> | ->]).
  cbn [dispatch event_mask entry]. rewrite (decide_False _ _ Hmask).
  rewrite (bind_val _ _ _ _ _ (debug_declines json_str evt text cmd reason w Htext Hread)), decide_False, (decide_False _ _ Hmask) by tauto.
  rewrite (bind_val (standard_entry evt) _ w _ w eq_refl), decide_False, (decide_False _ _ Hmask) by tauto.
  rewrite (bind_val _ _ _ _ _ (translate_declines h evt text cmd reason w Htext Hread)), decide_False, (decide_False _ _ Hmask) by tauto.
  munfold. destruct (admin_entry token h evt w) as [[r|c|f] w1]; cbn [fst snd]; [|split; [done|]; by intros..].
  split; [|done]. by case_decide; [|destruct (decide _)].
Qed.
End Modules.

(** ** From the text of an update to the requests *)
Section EndToEnd.
Context `{Net} `{JsonLib} `{JsonPretty} (token : list byte).

(** A handler that got its event lets the modules decide. *)
Lemma handler_runs (mods : list (module_entry (W := list request))) n txt rest s j u m ns :
  no_nul txt -> Z.of_nat (length txt) + 1 < 2 ^ 31 -> heap_ok (e_heap s) ->
  tokener_loop n json_tokener_new (asz txt) = Some (json_tokener_success, j) ->
  json_object_object_get_ex j "update_id" = Some u -> json_object_object_get_ex j "message" = Some m ->
  spec_msg m = Val ns -> forallb known_node ns = true -> no_drop ns = true ->
  exists h1 evt A, rep (blocks h1) evt ns A /\
    world (snd (gwbot_event_handler mods n (asz txt ++ rest) s)) = snd (dispatch mods evt h1 0 (world s)) /\
    (forall f, fst (dispatch mods evt h1 0 (world s)) = Fault f ->
      fst (gwbot_event_handler mods n (asz txt ++ rest) s) = Fault f).
Proof.
  intros Ht Hl Hh Htok Hu Hm Hs Hk Hnd. rewrite <- (text_of_asz txt rest Hl) in Htok.
  destruct (load_destroy n (asz txt ++ rest) _ (e_heap s) j u m ns Hh Htok Hu Hm Hs Hk Hnd)
    as (h1 & e1 & A & s2 & Hrun & _ & Hrep & Hd & _).
  exists h1, e1, A. split; [done|]. unfold gwbot_event_handler. rewrite load_str_text, Hrun by done.
  rewrite decide_False by tauto. destruct (dispatch mods e1 h1 0 (world s)) as [[r|c|f] w]; cbv beta iota zeta.
  - rewrite Hd. done.
  - done.
  - split; [done|]. intros f' [= <-]. done.
Qed.

(** What the modules make of a command in reply to a message. *)
Lemma update_first h1 evt A js w hd text es nd rhd ns cmd reason q :
  net_ok token -> (forall w, answered w) ->
  rep (blocks h1) evt (NText hd (Some text) es :: nd :: ns) A ->
  no_nul text -> reading_of text = Command cmd reason ->
  node_head nd = Some rhd -> msg_id rhd <> 0 ->
  admitted token w (chat_id (chat hd)) (from_id (from hd)) ->
  first_request token cmd (chat_id (chat hd)) (from_id (from rhd)) (msg_id rhd) = Some q ->
  exists pre post, snd (dispatch (mod_tbl (Some token) js) evt h1 0 w) = w ++ pre ++ q :: post /\
    Forall (harmless token) pre /\ Forall (harmless token) post.
Proof.
  intros Hnet Hans Hrep Htext Hread Hrhd Hid Hadm Hq.
  pose proof (accessors_agree _ _ _ _ _ _ Hrep eq_refl) as (_ & Hchat & _ & Huser & Hget).
  destruct Hrep as (A1 & A2 & _ & Htype & c & p & r & Hmsg & _ & Hreply).
  assert (exists e A', r <> 0 /\ blocks h1 !! r = Some (BEvent e) /\ rep (blocks h1) e (nd :: ns) A') as (e & A' & Hr0 & Hr & Hrep').
  { destruct nd; try done; destruct Hreply as (e & A' & ? & ? & _ & _ & ?); by exists e, A'. }
  pose proof (accessors_agree _ _ _ _ _ _ Hrep' Hrhd) as (Hrid & _ & _ & Hruser & _).
  assert (Hto : tge_get_reply_to evt = PEvt r) by (unfold tge_get_reply_to; rewrite Htype, Hmsg; done).
  cbn [node_text] in Hget.
  destruct (dispatch_admin (Some token) js h1 evt text cmd reason w) as [-> _]; [by left|done..|].
  apply (command_first token h1 evt w text cmd reason r e q); try done.
  - by rewrite Hrid.
  - by rewrite Hchat, Huser.
  - by rewrite Hchat, Hruser, Hrid.
Qed.

(** The text of an update in which an administrator gives a command in reply to
    a message becomes the request of that command; around it the program only
    answers and asks who the administrators are. *)
Theorem update_served n txt rest s j u m hd text es nd rhd ns cmd reason q :
  net_ok token -> (forall w, answered w) ->
  no_nul txt -> Z.of_nat (length txt) + 1 < 2 ^ 31 -> heap_ok (e_heap s) ->
  tokener_loop n json_tokener_new (asz txt) = Some (json_tokener_success, j) ->
  json_object_object_get_ex j "update_id" = Some u -> json_object_object_get_ex j "message" = Some m ->
  spec_msg m = Val (NText hd (Some text) es :: nd :: ns) ->
  forallb known_node (nd :: ns) = true -> no_drop (nd :: ns) = true ->
  no_nul text -> reading_of text = Command cmd reason ->
  node_head nd = Some rhd -> msg_id rhd <> 0 ->
  admitted token (world s) (chat_id (chat hd)) (from_id (from hd)) ->
  first_request token cmd (chat_id (chat hd)) (from_id (from rhd)) (msg_id rhd) = Some q ->
  exists pre post,
    world (snd (gwbot_event_handler (mod_tbl (Some token) (asz txt ++ rest)) n (asz txt ++ rest) s)) =
      world s ++ pre ++ q :: post /\
    Forall (harmless token) pre /\ Forall (harmless token) post.
Proof.
  intros Hnet Hans Htxt Hl Hh Htok Hu Hm Hspec Hk Hnd Htext Hread Hrhd Hid Hadm Hq.
  destruct (handler_runs (mod_tbl (Some token) (asz txt ++ rest)) n txt rest s j u m _ Htxt Hl Hh Htok Hu Hm Hspec Hk Hnd)
    as (h1 & evt & A & Hrep & -> & _).
  by eapply update_first.
Qed.

(** C5: A photo whose caption is a command and has an entity, as every command
    Telegram recognises has, makes the program follow the number of entities
    as a pointer; who sent it makes no difference. *)
Theorem photo_command_crashes n txt rest s j u m hd ps text es cmd reason :
  no_nul txt -> Z.of_nat (length txt) + 1 < 2 ^ 31 -> heap_ok (e_heap s) ->
  tokener_loop n json_tokener_new (asz txt) = Some (json_tokener_success, j) ->
  json_object_object_get_ex j "update_id" = Some u -> json_object_object_get_ex j "message" = Some m ->
  spec_msg m = Val [NPhoto hd ps (Some text) es] -> es <> [] ->
  no_nul text -> reading_of text = Command cmd reason ->
  fst (gwbot_event_handler (mod_tbl (Some token) (asz txt ++ rest)) n (asz txt ++ rest) s) = Fault FWild.
Proof.
  intros Htxt Hl Hh Htok Hu Hm Hspec Hes Htext Hread.
  destruct (handler_runs (mod_tbl (Some token) (asz txt ++ rest)) n txt rest s j u m _ Htxt Hl Hh Htok Hu Hm Hspec eq_refl eq_refl)
    as (h1 & evt & A & Hrep & _ & Hfault).
  pose proof (accessors_agree _ _ _ _ _ _ Hrep eq_refl) as (_ & _ & _ & _ & Hget). cbn [node_text] in Hget.
  pose proof (reply_to_confused _ _ _ _ _ Hrep) as Hto. cbn in Hto.
  assert (Htype : evt_type evt = TGEV_PHOTO) by (destruct Hrep as (A1 & A2 & _ & Hr); apply Hr).
  apply Hfault, (dispatch_admin (Some token) (asz txt ++ rest) h1 evt text cmd reason); [by right|done..|].
  unfold admin_entry. rewrite Hget, (bind_val _ _ _ _ _ (read_command_run text _ Htext)), Hread. cbv zeta. rewrite Hto.
  assert (is_null (PInt (Z.of_nat (length es))) = false) as Hnull by (apply bool_decide_eq_false; destruct es; [done|simpl; lia]).
  rewrite Hnull. unfold deref. rewrite Hnull. done.
Qed.
End EndToEnd.

(** ** A group, an administrator and an offender *)
Definition demo_pretty : JsonPretty := {| json_object_to_json_string_ext := fun _ _ => bs "{}" |}.
Definition demo_hd (who id : Z) : tgev_head :=
  Head id (From who (Some (bs "Ada")) None (Some (bs "ada")) (bs "en" ++ [Byte.x00; Byte.x00]) false)
    from_zero None demo_chat chat_zero 1600000000 0 false false.
Definition demo_ban : list node :=
  [NText (demo_hd 133862899 9) (Some (bs "/ban spam")) [Entity 0 4 (Some (bs "bot_command"))];
   NText (demo_hd 50 8) (Some (bs "buy")) []].
Definition demo_photo : list node :=
  [NPhoto (demo_hd 50 9) [demo_file] (Some (bs "/ban")) [Entity 0 4 (Some (bs "bot_command"))]].
Definition demo_world : estate (W := list request) := Estate demo_heap [] true.

Lemma update_served_witness :
  let lib := demo_lib (asz (bs "{..}")) (demo_event demo_ban) in
  exists pre post,
    world (snd (@gwbot_event_handler lib _ (@mod_tbl demo_admins_net lib demo_pretty (Some demo_token) (asz (bs "{..}") ++ []))
      1 (asz (bs "{..}") ++ []) demo_world)) =
    pre ++ Request (url_of demo_token (bs "kickChatMember")) (bs "chat_id=-100&user_id=50") APP_X_WWW_FORM_URLENCODED :: post /\
    Forall (harmless demo_token) pre /\ Forall (harmless demo_token) post.
Proof.
  apply (@update_served demo_admins_net (demo_lib (asz (bs "{..}")) (demo_event demo_ban)) demo_pretty demo_token
    1 (bs "{..}") [] demo_world (demo_event demo_ban) (JInt 7) (enc_msg demo_ban)
    (demo_hd 133862899 9) (bs "/ban spam") [Entity 0 4 (Some (bs "bot_command"))]
    (NText (demo_hd 50 8) (Some (bs "buy")) []) (demo_hd 50 8) [] ADM_CMD_BAN (Some (bs "spam"))).
  - apply demo_admins_ok.
  - apply demo_admins_answered.
  - by apply (bool_decide_unpack _).
  - vm_compute. reflexivity.
  - apply demo_heap_ok.
  - vm_compute. reflexivity.
  - reflexivity.
  - reflexivity.
  - vm_compute. reflexivity.
  - reflexivity.
  - reflexivity.
  - by apply (bool_decide_unpack _).
  - vm_compute. reflexivity.
  - reflexivity.
  - discriminate.
  - left. vm_compute. reflexivity.
  - vm_compute. reflexivity.
Defined.

Lemma photo_command_crashes_witness :
  let lib := demo_lib (asz (bs "{..}")) (demo_event demo_photo) in
  fst (@gwbot_event_handler lib _ (@mod_tbl demo_admins_net lib demo_pretty (Some demo_token) (asz (bs "{..}") ++ []))
      1 (asz (bs "{..}") ++ []) demo_world) = Fault FWild.
Proof.
  apply (@photo_command_crashes demo_admins_net (demo_lib (asz (bs "{..}")) (demo_event demo_photo)) demo_pretty demo_token
    1 (bs "{..}") [] demo_world (demo_event demo_photo) (JInt 7) (enc_msg demo_photo)
    (demo_hd 50 9) [demo_file] (bs "/ban") [Entity 0 4 (Some (bs "bot_command"))] ADM_CMD_BAN None).
  - by apply (bool_decide_unpack _).
  - vm_compute. reflexivity.
  - apply demo_heap_ok.
  - vm_compute. reflexivity.
  - reflexivity.
  - reflexivity.
  - vm_compute. reflexivity.
  - discriminate.
  - by apply (bool_decide_unpack _).
  - vm_compute. reflexivity.
Defined.
