(* ===== verification/Bot.v ===== *)
(** * From a frame on the network to the requests of the bot

    The server and the modules together: a frame arrives in pieces, the main
    thread gives its packet to the idle worker on top of the stack, the worker
    hands the bytes of its packet to gwbot_event_handler, and the modules of the
    table send their requests. *)
From S2P Require Import Prelude CString Json TgEvent TgSpec TgMem TgPrint TgLoad EventHandler TgApi TgApiSpec TgRequests ModCommon Admin AdminRead AdminPriv AdminSpec Modules.
From S2P Require Import Tstack Que Config Gwbot Server ServerInv ServerInit ServerClient ServerLoop Worker System.

(** ** Runs of the system *)
Fixpoint sys_run (n : nat) (lbs : list label) (s : sys) : out unit * sys :=
  match lbs with
  | [] => (Val tt, s)
  | lb :: lbs =>
      match sys_step n lb s with
      | (Val _, s1) => sys_run n lbs s1
      | r => r
      end
  end.

(** The bytes [d] arrive on [fd]. *)
Definition arrival (acc : acc_env) (sub : sub_env) (del fd : Z) (d : list byte) : label :=
  LEvent (Event fd false acc (piece sub del d)).

(** Channel [i] is the online channel [c], and epoll watches its descriptor. *)
Record connected (i : nat) (c : gwbot_chan) (s : gwbot_state) : Prop := {
  cn_chan : chans s !! i = Some c;
  cn_online : is_online c = true;
  cn_epl : chan_fd c ∈ epl_set s;
  cn_tcp : chan_fd c <> tcp_fd s;
}.

(** The packet [p] stands in the buffer of worker [v], which is about to run
    or running, and was idle. *)
Record handed (p : list byte) (v : nat) (st : list Z) (s s1 : sys) : Prop := {
  hd_handled : handled s1 = handled s;
  hd_lost : lost s1 = lost s;
  hd_stop : stop_el (main s1) = stop_el (main s);
  hd_stk : contents (thread_stk (main s1)) = st;
  hd_worker : exists pc t rest, pcs s1 !! v = Some pc /\ (pc = PWait 300 -> pcs s !! v = Some pc) /\ threads (main s1) !! v = Some t /\
    has_event t = true /\ (0 < steps_left pc)%nat /\ ev_from_sqe t = false /\
    sqe_node t = None /\ th_pkt t = host_len (Z.of_nat (length p)) ++ p ++ Byte.x00 :: rest;
}.

Section Arrival.
Context (n i v : nat) (p : list byte) (acc : acc_env) (sub : sub_env) (del : Z).
Hypothesis Hp : Z.of_nat (length p) < CHPKT_DATA_BUFSIZ.
Hypothesis Hspawn : s_spawn sub = 0.

Lemma arrival_step s c d r m :
  sys_wf n s -> connected i c (main s) -> acc_ok (main s) acc -> mem_ok (s_mem sub) (main s) ->
  handle_client_event (piece sub del d) (chan_fd c) false (main s) = (Val r, m) ->
  lock_asserts (pcs s) (main s) m = false ->
  exists a, let s1 := Sys m (mark_spawned (spawned (main s)) (spawned m) (pcs s)) a (handled s) (lost s) in
    sys_step n (arrival acc sub del (chan_fd c) d) s = (Val tt, s1) /\ sys_wf n s1.
Proof.
  intros Hw Hcn Ha Hm Hrun Hl. set (lb := arrival acc sub del (chan_fd c) d).
  assert (Hen : enabled lb s) by (split; [apply Hcn|done]).
  assert (Hop : main_op n lb (main s) = (Val tt, m)).
  { cbn [main_op lb arrival]. rewrite (bind_val _ _ _ r m); [done|]. unfold handle_event.
    erewrite bind_val by reflexivity. cbn [ev_fd ev_err ev_cli ev_acc]. by rewrite decide_False by apply Hcn. }
  assert (Hstep : exists a, sys_step n lb s =
    (Val tt, Sys m (mark_spawned (spawned (main s)) (spawned m) (pcs s)) a (handled s) (lost s))).
  { eexists. unfold sys_step, lb, arrival in *. rewrite Hop, Hl. reflexivity. }
  destruct Hstep as [a Hstep]. exists a. split; [exact Hstep|]. by eapply step_wf.
Qed.

(** A piece that is not the last changes the channel only. *)
Lemma arrival_waits s c d :
  sys_wf n s -> connected i c (main s) -> acc_ok (main s) acc -> mem_ok (s_mem sub) (main s) ->
  d <> [] -> buffered c ++ d `prefix_of` frame p -> buffered c ++ d <> frame p ->
  exists a c', let s1 := Sys (with_chan i c' (main s)) (pcs s) a (handled s) (lost s) in
    sys_step n (arrival acc sub del (chan_fd c) d) s = (Val tt, s1) /\ sys_wf n s1 /\
    connected i c' (main s1) /\ chan_fd c' = chan_fd c /\ buffered c' = buffered c ++ d.
Proof.
  intros Hw Hcn Ha Hm Hd Hpre Hne. pose proof Hw as [(l & Hsw & _) _ _]. pose proof Hcn as [Hc Hon Hepl Htcp].
  destruct (piece_waits n l i p sub del Hp (main s) c d Hsw Hc Hon Hm Hd Hpre Hne) as (c' & Hrun & _ & Hon' & Hfd & Hb).
  destruct (arrival_step s c d 0 _ Hw Hcn Ha Hm Hrun) as (a & Hstep & Hw'); [by apply lock_asserts_same|].
  unfold mark_spawned in Hstep, Hw'. cbn [spawned with_chan] in Hstep, Hw'. rewrite drop_all in Hstep, Hw'.
  exists a, c'. split; [exact Hstep|]. split; [exact Hw'|]. split; [|done].
  split; cbn; rewrite ?Hfd; try done. apply list_lookup_insert_eq. by eapply lookup_lt_Some.
Qed.

(** The worker that was idle can run. *)
Lemma woken_runs t pc :
  worker_ok true pc t -> has_event t = false -> leaving pc = false ->
  (0 < steps_left (if negb (th_online t) && bool_decide (0 = 0) then PSpawned else pc))%nat.
Proof.
  intros Hok Hev Hx. destruct (idle_pc pc t Hok Hev) as (_ & Hb & _ & _).
  destruct (th_online t) eqn:Hon; cbn [negb andb]; [|rewrite bool_decide_true by done; cbn; lia].
  destruct pc; cbn; try lia; try done.
  destruct Hok as [_ _ Hoff _ _ _ _ _]. rewrite Hoff in Hon by auto. done.
Qed.

Lemma arrival_last s c d st :
  sys_wf n s -> connected i c (main s) -> acc_ok (main s) acc -> mem_ok (s_mem sub) (main s) ->
  d <> [] -> buffered c ++ d = frame p ->
  contents (thread_stk (main s)) = Z.of_nat v :: st -> (forall pc, pcs s !! v = Some pc -> leaving pc = false) ->
  exists s1, sys_step n (arrival acc sub del (chan_fd c) d) s = (Val tt, s1) /\ sys_wf n s1 /\ handed p v st s s1.
Proof.
  intros Hw Hcn Ha Hm Hd Hpre Hst Hx. pose proof Hw as [(l & Hsw & _) Hlen Hwk]. pose proof Hcn as [Hc Hon _ _].
  destruct (piece_submits n l i p sub del Hp (main s) c d Hsw Hc Hon Hm Hd Hpre)
    as (c' & ret & m & l' & stk' & Hrun & _ & Hsub & _ & r & Hpk).
  assert (Hlk : lock_asserts (pcs s) (main s) (closed (chan_fd c) i c' stk' m) = false).
  { unfold lock_asserts, given. rewrite Hst. case_decide; [|done]. simpl. rewrite Nat2Z.id.
    destruct (pcs s !! v) as [pc|] eqn:Hpc; [|done]. specialize (Hx pc eq_refl). by destruct pc. }
  destruct (arrival_step s c d 0 _ Hw Hcn Ha Hm Hrun Hlk) as (a & Hstep & Hw'). clear Hlk.
  eexists. split; [exact Hstep|]. split; [exact Hw'|].
  revert Hlen. inversion Hsub as [v' st' t stk Hs Hv Ht Hev Hno Hs' Hcap|a' q' Hs|err Hs]; subst; intros Hlen; cbn in Hs; try congruence.
  rewrite Hst in Hs. injection Hs as <- Hst'. rewrite Nat2Z.id in *. cbn in Ht.
  destruct (lookup_lt_is_Some_2 (pcs s) v) as [pc Hpc].
  { rewrite Hlen, <- (ww_len _ _ _ _ _ (proj2 Hsw)). by eapply lookup_lt_Some. }
  assert (Hfree : is_free (thread_stk (main s)) v = true) by (apply bool_decide_eq_true; rewrite Hst; by left).
  pose proof (Hwk _ _ _ Hpc Ht) as Hok. rewrite Hfree in Hok.
  set (pc' := if negb (th_online t) && bool_decide (0 = 0) then PSpawned else pc).
  split; try done. exists pc', (submitted t c' (CHPKT_LEN + Z.of_nat (length p))). eexists. cbn [pcs main].
  split; [|split; [|split; [|split; [done|split; [apply (woken_runs t pc Hok Hev), Hx, Hpc|split; [done|split; [done|]]]]]]].
  - pose proof (mark_spawned_log t (Z.of_nat v) (s_spawn sub) (main s) (pcs s)) as Hlog.
    rewrite Hspawn in Hlog. rewrite Hspawn. rewrite Nat2Z.id in Hlog.
    transitivity ((if negb (th_online t) && bool_decide (0 = 0) then <[v := PSpawned]> (pcs s) else pcs s) !! v); [by f_equal|].
    unfold pc'. destruct (negb _ && _); [|done]. apply list_lookup_insert_eq. by eapply lookup_lt_Some.
  - unfold pc'. destruct (negb _ && _); [done|]. by intros _.
  - cbn. rewrite ?Nat2Z.id. apply list_lookup_insert_eq. by eapply lookup_lt_Some.
  - assert (Htake : take (Z.to_nat (CHPKT_LEN + Z.of_nat (length p))) (pkt c') = host_len (Z.of_nat (length p)) ++ p).
    { rewrite Hpk, app_assoc, take_app_length'; [done|]. rewrite length_app, host_len_length. unfold CHPKT_LEN. lia. }
    cbn -[host_len CHPKT_LEN]. rewrite Htake, <- app_assoc. reflexivity.
Qed.

Lemma pieces_arrive ds s c st :
  sys_wf n s -> connected i c (main s) -> acc_ok (main s) acc -> mem_ok (s_mem sub) (main s) ->
  ds <> [] -> Forall (fun d => d <> []) ds -> buffered c ++ concat ds = frame p ->
  contents (thread_stk (main s)) = Z.of_nat v :: st -> (forall pc, pcs s !! v = Some pc -> leaving pc = false) ->
  exists s1, sys_run n (arrival acc sub del (chan_fd c) <$> ds) s = (Val tt, s1) /\ sys_wf n s1 /\ handed p v st s s1.
Proof.
  revert s c. induction ds as [|d ds IH]; intros s c Hw Hcn Ha Hm Hne Hall Hcat Hst Hx; [done|].
  apply Forall_cons in Hall as [Hd Hall]. cbn [fmap list_fmap sys_run].
  destruct ds as [|d' ds].
  - simpl in Hcat. rewrite app_nil_r in Hcat.
    destruct (arrival_last s c d st Hw Hcn Ha Hm Hd Hcat Hst Hx) as (s1 & Hrun & ?).
    exists s1. by rewrite Hrun.
  - cbn [concat] in Hcat. pose proof Hall as [Hd' _]%Forall_cons.
    destruct (arrival_waits s c d Hw Hcn Ha Hm Hd) as (a & c' & Hrun & Hw' & Hcn' & Hfd & Hbuf).
    { rewrite <- Hcat, app_assoc. by eexists. }
    { rewrite <- Hcat. intros He. rewrite app_assoc, <- (app_nil_r (_ ++ d)) in He at 1.
      destruct d'; [by destruct Hd'|]. by simplify_list_eq. }
    rewrite Hrun, <- Hfd.
    destruct (IH _ c' Hw' Hcn' Ha Hm) as (s1 & Hrun' & Hw1 & [H1 H2 H3 H4 H5]); try done.
    + rewrite Hbuf, <- app_assoc. done.
    + exists s1. split; [done|]. split; [done|]. by split.
Qed.

(** The worker gives the text to gwbot_event_handler, in the buffer that starts
    with it, and is idle again. *)
Lemma frame_handled s c st ds :
  sys_wf n s -> connected i c (main s) -> recv_s c = 0 -> acc_ok (main s) acc -> mem_ok (s_mem sub) (main s) ->
  stop_el (main s) = false -> no_nul p -> Forall (fun d => d <> []) ds -> concat ds = frame p ->
  contents (thread_stk (main s)) = Z.of_nat v :: st -> (forall pc, pcs s !! v = Some pc -> leaving pc = false) ->
  exists s1 k t rest,
    sys_run n (arrival acc sub del (chan_fd c) <$> ds) s = (Val tt, s1) /\ (k <= 3)%nat /\
    threads (main s1) !! v = Some t /\ event_text None t = asz p ++ rest /\
    forall rets, length rets = k -> (pcs s !! v = Some (PWait 300) -> hd_error rets = Some 0) ->
    exists s2, worker_runs n v rets s1 = (Val tt, s2) /\ sys_wf n s2 /\
      handled s2 = handled s ++ [p] /\ lost s2 = lost s /\ pcs s2 !! v = Some PAgain /\
      contents (thread_stk (main s2)) = contents (thread_stk (main s)).
Proof.
  intros Hw Hcn Hr Ha Hm Hstop Hno Hne Hcat Hst Hx.
  destruct (pieces_arrive ds s c st Hw Hcn Ha Hm) as (s1 & Hrun & Hw1 & [Hh Hl Hs Hk Hwork]); try done.
  { by intros ->. }
  { unfold buffered. by rewrite Hr. }
  destruct Hwork as (pc & t & rest & Hpc & Hpc0 & Ht & Hev & Hleft & Hsqe & Hnode & Hpkt).
  assert (Htext : event_text None t = asz p ++ rest).
  { unfold event_text, asz. rewrite Hsqe, Hpkt, <- app_assoc. reflexivity. }
  assert (Hp' : text_of (sqes (main s1)) t = p).
  { unfold text_of. rewrite Hnode. cbn [mbind option_bind]. rewrite Htext. unfold asz. rewrite <- app_assoc. by apply c_str_asz. }
  exists s1, (steps_left pc), t, rest. split; [done|]. split; [by destruct pc; simpl; lia|].
  split; [done|]. split; [done|]. intros rets Hlen Hlast.
  destruct (serve_steps n v rets s1 pc t Hw1 Hpc Ht Hev) as (s2 & Hrun2 & Hw2 & Hh2 & Hl2 & Hpc2 & Hk2);
    [congruence|intros ->; simpl in Hlen; lia|done|by intros ->; apply Hlast, Hpc0|].
  exists s2. split; [done|]. split; [done|]. rewrite Hh2, Hl2, Hk2, Hh, Hp', Hl, Hk, Hst. done.
Qed.
End Arrival.

(** ** An order and its execution *)
Section Orders.
Context `{Net} `{JsonLib} `{JsonPretty} (token : list byte).

(** [txt] is the text of an update in which an administrator, after the
    requests [w], gives a command in reply to a message; [q] is the request of
    that command, about the sender of the message. *)
Inductive orders (rounds : nat) (w : list request) (txt : list byte) (q : request) : Prop :=
| orders_intro j u m hd text es nd rhd ns cmd reason :
    tokener_loop rounds json_tokener_new (asz txt) = Some (json_tokener_success, j) ->
    json_object_object_get_ex j "update_id" = Some u -> json_object_object_get_ex j "message" = Some m ->
    spec_msg m = Val (NText hd (Some text) es :: nd :: ns) ->
    forallb known_node (nd :: ns) = true -> no_drop (nd :: ns) = true ->
    no_nul text -> reading_of text = Command cmd reason ->
    node_head nd = Some rhd -> msg_id rhd <> 0 ->
    admitted token w (chat_id (chat hd)) (from_id (from hd)) ->
    first_request token cmd (chat_id (chat hd)) (from_id (from rhd)) (msg_id rhd) = Some q ->
    orders rounds w txt q.

End Orders.

(** *** A ban arrives *)
Definition demo_acc_none : acc_env := AccEnv (inr EAGAIN) true None 0 (inl 0) 0.
Definition demo_kick : request :=
  Request (url_of demo_token (bs "kickChatMember")) (bs "chat_id=-100&user_id=50") APP_X_WWW_FORM_URLENCODED.

Lemma demo_orders :
  @orders demo_admins_net (demo_lib (asz (bs "{..}")) (demo_event demo_ban)) demo_token 1 [] (bs "{..}") demo_kick.
Proof.
  apply (@orders_intro demo_admins_net (demo_lib (asz (bs "{..}")) (demo_event demo_ban)) demo_token 1 [] (bs "{..}") demo_kick
    (demo_event demo_ban) (JInt 7) (enc_msg demo_ban)
    (demo_hd 133862899 9) (bs "/ban spam") [Entity 0 4 (Some (bs "bot_command"))]
    (NText (demo_hd 50 8) (Some (bs "buy")) []) (demo_hd 50 8) [] ADM_CMD_BAN (Some (bs "spam"))).
  - vm_compute. reflexivity.
  - reflexivity.
  - reflexivity.
  - vm_compute. reflexivity.
  - reflexivity.
  - reflexivity.
  - by apply (bool_decide_unpack _).
  - vm_compute. reflexivity.
  - reflexivity.
  - discriminate.
  - left. vm_compute. reflexivity.
  - vm_compute. reflexivity.
Qed.

(** A server of two workers that are not created yet, and one connection. *)
Lemma demo_idle :
  exists s c, sys_wf 2 s /\ connected 0 c (main s) /\ chan_fd c = 5 /\ recv_s c = 0 /\ stop_el (main s) = false /\
    contents (thread_stk (main s)) = [0; 1] /\ pcs s !! 0%nat = Some POff /\ handled s = [].
Proof.
  destruct demo_connected as (s & c & Hw & Hc & Hon & Hfd & Hr & _ & _ & Hts & _ & Hstop & Htcp & _ & He & Hth).
  exists (sys_start s), c. split.
  - apply start_wf; [exact Hw|]. intros i t. rewrite Hth, list_lookup_fmap. by intros (j & _ & ->)%fmap_Some.
  - split; [split; [exact Hc|exact Hon|rewrite Hfd; exact He|rewrite Hfd; cbn; rewrite Htcp; discriminate]|].
    split; [exact Hfd|]. split; [exact Hr|]. split; [exact Hstop|]. split; [exact Hts|]. split; [|reflexivity].
    cbn. rewrite Hth. reflexivity.
Qed.

